(** * BrewOS cloud relay: device relay, client proxy and the HTTP request helper

    A shallow embedding of [src/device-relay.ts] (class [DeviceRelay]), of the
    client proxy (class [ClientProxy]), of [sendDeviceRequest] and the log
    routes from [src/routes/logs.ts], and of the log service and the logger,
    followed by the properties of the relay plane and of the log buffer.

    Conventions of the embedding.
    - The process is a single-threaded event loop: every handler runs to
      completion.  A handler is a function from the world before to the world
      after; the events of the loop are the constructors of [Event].
    - [Date.now()] is the argument [now] (milliseconds) of the handler that is
      running; a [Date] is the same number.
    - A WebSocket of the [ws] library is a [Socket] in a store, named by a
      handle.  [ws.close] and [ws.terminate] only start the shutdown: the
      socket's [close] event is a later event of the loop.
    - Objects that closures share and mutate (the connection records) live in
      a store keyed by the handle of their socket; the registries hold the
      handle, as the JavaScript maps hold the reference.
    - A JavaScript string is the [string] of the bytes of its UTF-8
      encoding. *)

From Stdlib Require Import ZArith QArith.QArith_base.
From stdpp Require Import gmap strings list pretty.

Local Open Scope Z_scope.

(** ** JSON values and messages *)

Record ConnectionMetrics := {
  messagesSent : Z;
  messagesReceived : Z;
  lastPingRTT : option Z;
  avgPingRTT : Q;
  pingCount : Z;
  reconnectCount : Z
}.

(** Field values of a message.  [JIso t] is the ISO-8601 text of the instant
    [t], what [Date.prototype.toISOString] returns. *)
Inductive JValue :=
| JNull
| JBool (b : bool)
| JNum (n : Z)
| JStr (s : string)
| JIso (t : Z)
| JMetrics (m : ConnectionMetrics).

(** Modelled from the spec: the declaration of [DeviceMessage] ([types.ts]) is
    not among the sources.  The spec gives it as a tagged map with a required
    [type], optional [deviceId], [timestamp] (ms epoch) and [requestId], plus
    type-specific fields; [message] is the text an [error] reply carries. *)
Record DeviceMessage := {
  type : string;
  deviceId : option string;
  timestamp : option Z;
  requestId : option string;
  message : option string;
  fields : list (string * JValue)
}.

Definition mkMsg (t : string) (fs : list (string * JValue)) : DeviceMessage :=
  {| type := t; deviceId := None; timestamp := None; requestId := None;
     message := None; fields := fs |}.

Definition stamped (t : string) (now : Z) (fs : list (string * JValue)) : DeviceMessage :=
  {| type := t; deviceId := None; timestamp := Some now; requestId := None;
     message := None; fields := fs |}.

Definition set_deviceId (d : string) (m : DeviceMessage) : DeviceMessage :=
  {| type := type m; deviceId := Some d; timestamp := timestamp m;
     requestId := requestId m; message := message m; fields := fields m |}.

Definition set_timestamp (t : Z) (m : DeviceMessage) : DeviceMessage :=
  {| type := type m; deviceId := deviceId m; timestamp := Some t;
     requestId := requestId m; message := message m; fields := fields m |}.

Definition set_requestId (r : string) (m : DeviceMessage) : DeviceMessage :=
  {| type := type m; deviceId := deviceId m; timestamp := timestamp m;
     requestId := Some r; message := message m; fields := fields m |}.

Definition set_message (s : string) (m : DeviceMessage) : DeviceMessage :=
  {| type := type m; deviceId := deviceId m; timestamp := timestamp m;
     requestId := requestId m; message := Some s; fields := fields m |}.

Fixpoint field (k : string) (fs : list (string * JValue)) : option JValue :=
  match fs with
  | [] => None
  | (k', v) :: fs' => if String.eqb k k' then Some v else field k fs'
  end.

(** JavaScript truthiness of the optional values the code tests. *)
Definition truthy_string (s : option string) : option string :=
  match s with
  | Some s' => if String.eqb s' "" then None else Some s'
  | None => None
  end.

Definition truthy_num (n : option Z) : option Z :=
  match n with
  | Some n' => if n' =? 0 then None else Some n'
  | None => None
  end.

(** ** Sockets of the [ws] library *)

Inductive ReadyState := CONNECTING | OPEN | CLOSING | CLOSED.

Global Instance ReadyState_eq_dec : EqDecision ReadyState.
Proof. solve_decision. Defined.

Record Socket := {
  readyState : ReadyState;
  outbox : list DeviceMessage;      (* frames handed to [ws.send], oldest first *)
  closeSent : option (Z * string);  (* code and reason given to [ws.close] *)
  pingsSent : nat
}.

Definition freshSocket : Socket :=
  {| readyState := OPEN; outbox := []; closeSent := None; pingsSent := 0 |}.

Definition is_open (s : Socket) : bool := bool_decide (readyState s = OPEN).

Definition ws_send (m : DeviceMessage) (s : Socket) : Socket :=
  {| readyState := readyState s; outbox := outbox s ++ [m];
     closeSent := closeSent s; pingsSent := pingsSent s |}.

Definition ws_close (code : Z) (reason : string) (s : Socket) : Socket :=
  match readyState s with
  | OPEN =>
      {| readyState := CLOSING; outbox := outbox s;
         closeSent := Some (code, reason); pingsSent := pingsSent s |}
  | CONNECTING =>
      {| readyState := CLOSING; outbox := outbox s;
         closeSent := closeSent s; pingsSent := pingsSent s |}
  | _ => s
  end.

Definition ws_terminate (s : Socket) : Socket :=
  match readyState s with
  | CLOSED => s
  | _ =>
      {| readyState := CLOSING; outbox := outbox s;
         closeSent := closeSent s; pingsSent := pingsSent s |}
  end.

Definition ws_ping (s : Socket) : Socket :=
  match readyState s with
  | OPEN =>
      {| readyState := OPEN; outbox := outbox s;
         closeSent := closeSent s; pingsSent := S (pingsSent s) |}
  | _ => s
  end.

Definition ws_closed (s : Socket) : Socket :=
  {| readyState := CLOSED; outbox := outbox s;
     closeSent := closeSent s; pingsSent := pingsSent s |}.

Definition sock_open (ss : gmap nat Socket) (h : nat) : bool :=
  match ss !! h with
  | Some s => is_open s
  | None => false
  end.

Definition sock_outbox (ss : gmap nat Socket) (h : nat) : list DeviceMessage :=
  match ss !! h with
  | Some s => outbox s
  | None => []
  end.

(** ** The credential store (external collaborator) *)

Record SessionResult := {
  user_id : string;
  user_email : string;
  access_expires_at : Z
}.

(** [verifyAccessValue] is [verifyAccessToken] applied to a value that is not
    a string of the model, as the [token] of a client message can be. *)
Record CredentialStore := {
  verifyDeviceKey : string → string → bool;
  verifyAccessToken : string → option SessionResult;
  verifyAccessValue : JValue → option SessionResult;
  userOwnsDevice : string → string → bool
}.

(** ** Device relay: data *)

Definition PING_INTERVAL_MS : Z := 10000.
Definition MAX_MISSED_PINGS : Z := 2.

Record DeviceConnection := {
  dc_ws : nat;
  dc_deviceId : string;
  dc_connectedAt : Z;
  lastSeen : Z;
  missedPings : Z
}.

(** The subscribers of [messageHandlers], in subscription order: the three
    closures the [ClientProxy] constructor registers, and one closure per
    pending [sendDeviceRequest]. *)
Inductive Handler :=
| ProxyFanOut
| ProxyFlush
| ProxyOffline
| RequestHandler (rid : nat).

Global Instance Handler_eq_dec : EqDecision Handler.
Proof. solve_decision. Defined.

(** One call of [notifyHandlers].  [pub_ws] is not in the code: it records the
    socket whose accept path or handler made the call, that is the session. *)
Record Publication := {
  pub_ws : nat;
  pub_device : string;
  pub_msg : DeviceMessage
}.

Record DeviceRelay := {
  sockets : gmap nat Socket;
  nextSocket : nat;
  connections : gmap nat DeviceConnection;  (* the connection objects *)
  devices : gmap string nat;                (* [this.devices] *)
  messageHandlers : list Handler;
  published : list Publication;             (* oldest first *)
  dbOnline : gmap string bool               (* [updateDeviceStatus] *)
}.

Definition set_sockets (f : gmap nat Socket → gmap nat Socket) (r : DeviceRelay) : DeviceRelay :=
  {| sockets := f (sockets r); nextSocket := nextSocket r;
     connections := connections r; devices := devices r;
     messageHandlers := messageHandlers r; published := published r;
     dbOnline := dbOnline r |}.

Definition set_nextSocket (n : nat) (r : DeviceRelay) : DeviceRelay :=
  {| sockets := sockets r; nextSocket := n;
     connections := connections r; devices := devices r;
     messageHandlers := messageHandlers r; published := published r;
     dbOnline := dbOnline r |}.

Definition set_connections (f : gmap nat DeviceConnection → gmap nat DeviceConnection)
    (r : DeviceRelay) : DeviceRelay :=
  {| sockets := sockets r; nextSocket := nextSocket r;
     connections := f (connections r); devices := devices r;
     messageHandlers := messageHandlers r; published := published r;
     dbOnline := dbOnline r |}.

Definition set_devices (f : gmap string nat → gmap string nat) (r : DeviceRelay) : DeviceRelay :=
  {| sockets := sockets r; nextSocket := nextSocket r;
     connections := connections r; devices := f (devices r);
     messageHandlers := messageHandlers r; published := published r;
     dbOnline := dbOnline r |}.

Definition set_messageHandlers (f : list Handler → list Handler) (r : DeviceRelay) : DeviceRelay :=
  {| sockets := sockets r; nextSocket := nextSocket r;
     connections := connections r; devices := devices r;
     messageHandlers := f (messageHandlers r); published := published r;
     dbOnline := dbOnline r |}.

Definition log_publication (p : Publication) (r : DeviceRelay) : DeviceRelay :=
  {| sockets := sockets r; nextSocket := nextSocket r;
     connections := connections r; devices := devices r;
     messageHandlers := messageHandlers r; published := published r ++ [p];
     dbOnline := dbOnline r |}.

Definition updateDeviceStatus (id : string) (online : bool) (r : DeviceRelay) : DeviceRelay :=
  {| sockets := sockets r; nextSocket := nextSocket r;
     connections := connections r; devices := devices r;
     messageHandlers := messageHandlers r; published := published r;
     dbOnline := <[id := online]> (dbOnline r) |}.

(** ** Device relay: the operations that do not publish *)

(** [this.devices.get(deviceId)]: the connection object behind the entry. *)
Definition getConnection (id : string) (r : DeviceRelay) : option DeviceConnection :=
  h ← devices r !! id; connections r !! h.

Definition sendToDevice (id : string) (m : DeviceMessage) (r : DeviceRelay)
    : bool * DeviceRelay :=
  match getConnection id r with
  | Some c =>
      if sock_open (sockets r) (dc_ws c)
      then (true, set_sockets (alter (ws_send m) (dc_ws c)) r)
      else (false, r)
  | None => (false, r)
  end.

Definition isDeviceConnected (id : string) (r : DeviceRelay) : bool :=
  match getConnection id r with
  | Some c => sock_open (sockets r) (dc_ws c)
  | None => false
  end.

Definition getConnectedDeviceCount (r : DeviceRelay) : nat := size (devices r).

Definition getDeviceLastSeen (id : string) (r : DeviceRelay) : option Z :=
  lastSeen <$> getConnection id r.

Definition disconnectDevice (id : string) (r : DeviceRelay) : bool * DeviceRelay :=
  match getConnection id r with
  | Some c => (true, set_sockets (alter (ws_close 4000 "Disconnected by admin") (dc_ws c)) r)
  | None => (false, r)
  end.

Definition onDeviceMessage (h : Handler) (r : DeviceRelay) : DeviceRelay :=
  set_messageHandlers (λ hs, if bool_decide (h ∈ hs) then hs else hs ++ [h]) r.

Definition unsubscribe (h : Handler) (r : DeviceRelay) : DeviceRelay :=
  set_messageHandlers (filter (λ h', h' ≠ h)) r.

Definition bump_missedPings (c : DeviceConnection) : DeviceConnection :=
  {| dc_ws := dc_ws c; dc_deviceId := dc_deviceId c; dc_connectedAt := dc_connectedAt c;
     lastSeen := lastSeen c; missedPings := missedPings c + 1 |}.

(** What the [pong] and the [message] handler both do to their connection. *)
Definition mark_alive (now : Z) (c : DeviceConnection) : DeviceConnection :=
  {| dc_ws := dc_ws c; dc_deviceId := dc_deviceId c; dc_connectedAt := dc_connectedAt c;
     lastSeen := now; missedPings := 0 |}.

(** The body of the [forEach] of [pingAllDevices] for the entry [h]. *)
Definition pingDevice (h : nat) (r : DeviceRelay) : DeviceRelay :=
  match connections r !! h with
  | Some c =>
      let r1 := set_connections (<[h := bump_missedPings c]>) r in
      if MAX_MISSED_PINGS <? missedPings c + 1
      then set_sockets (alter ws_terminate (dc_ws c)) r1
      else set_sockets (alter ws_ping (dc_ws c)) r1
  | None => r
  end.

Definition pingAllDevices (r : DeviceRelay) : DeviceRelay :=
  foldl (λ acc e, pingDevice e.2 acc) r (map_to_list (devices r)).

(** ** Device relay: the accept path's validation *)

Definition is_hex_digit (c : Ascii.ascii) : bool :=
  let n := Ascii.nat_of_ascii c in
  ((48 <=? n) && (n <=? 57) || (65 <=? n) && (n <=? 70) || (97 <=? n) && (n <=? 102))%nat.

Definition ascii_ci (c : Ascii.ascii) (upper lower : nat) : bool :=
  let n := Ascii.nat_of_ascii c in ((n =? upper) || (n =? lower))%nat.

(** [/^BRW-[A-F0-9]{8}$/i.test(deviceId)] *)
Definition valid_device_id (s : string) : bool :=
  match String.list_ascii_of_string s with
  | b :: r :: w :: d :: hex =>
      ascii_ci b 66 98 && ascii_ci r 82 114 && ascii_ci w 87 119 &&
      (Ascii.nat_of_ascii d =? 45)%nat && (length hex =? 8)%nat && forallb is_hex_digit hex
  | _ => false
  end.

(** [s.length]: the number of UTF-16 code units of the text that the bytes
    of [s] encode in UTF-8.  A byte below 0x80 and the lead byte of a sequence
    of two or three bytes stand for one unit, the lead byte of a sequence of
    four bytes for the two units of a surrogate pair, and a continuation byte
    for none. *)
Fixpoint js_length (s : string) : nat :=
  match s with
  | EmptyString => 0
  | String c s =>
      let n := Ascii.nat_of_ascii c in
      ((if n <? 128 then 1 else if n <? 192 then 0 else if n <? 240 then 1 else 2)
       + js_length s)%nat
  end.

Inductive Accept :=
| Accepted (id : string)
| Rejected (code : Z) (reason : string).

Definition validateDevice (store : CredentialStore) (id key : option string) : Accept :=
  match truthy_string id, truthy_string key with
  | Some i, Some k =>
      if negb (valid_device_id i) then Rejected 4001 "Invalid device ID format"
      else if (js_length k <? 32)%nat || (64 <? js_length k)%nat
      then Rejected 4003 "Invalid device key format"
      else if negb (verifyDeviceKey store i k) then Rejected 4003 "Invalid device credentials"
      else Accepted i
  | _, _ => Rejected 4001 "Missing device ID or key"
  end.

(** ** Device relay: frame decoding *)

(** A value a decoder returns.  [DMap m] is a map, read as the message it
    encodes; [DPrim] is a value that is not an object ([null], a number, a
    string or a boolean), on which an assignment to a property throws.
    Objects that are not messages (arrays, binary data) are passed on like
    maps by the code and are not represented. *)
Inductive Decoded :=
| DMap (m : DeviceMessage)
| DPrim.

(** A received frame, given by what the decoders make of it.  [Buffer] is data
    that is a [Buffer] or an [ArrayBuffer], which is what [ws] delivers for
    binary and for text frames alike: it carries the outcome of
    [decodeMulti], of [Decoder.decodeMulti] and of [decode] on its bytes
    ([None] when the decoder throws).  [Fragments] is data that is neither (an
    array of buffers) and carries the outcome of [JSON.parse] on its text. *)
Inductive RawData :=
| Buffer (multi : option (list Decoded)) (decoder : option (list Decoded))
         (single : option Decoded)
| Fragments (json : option Decoded).

(** The maps at the head of a decoded sequence: what a [for] loop over it has
    handed on when it ends or meets a value that is not an object. *)
Fixpoint leading (vs : list Decoded) : list DeviceMessage :=
  match vs with
  | DMap m :: vs => m :: leading vs
  | _ => []
  end.

Definition isMap (v : Decoded) : bool :=
  match v with
  | DMap _ => true
  | DPrim => false
  end.

Definition single_decode (single : option Decoded) : list DeviceMessage :=
  match single with
  | Some (DMap m) => [m]
  | _ => []
  end.

(** The messages the second attempt and the fallback hand on. *)
Definition decoderPass (decoder : option (list Decoded)) (single : option Decoded)
    : list DeviceMessage :=
  match decoder with
  | Some (v :: vs) =>
      if forallb isMap (v :: vs) then leading (v :: vs)
      else leading (v :: vs) ++ single_decode single
  | _ => single_decode single
  end.

(** The messages the [message] handler passes on for publication, in the
    order in which it does: a message appears once for each time it is
    published. *)
Definition decodeFrame (data : RawData) : list DeviceMessage :=
  match data with
  | Buffer (Some []) _ single => single_decode single
  | Buffer (Some vs) decoder single =>
      if forallb isMap vs then leading vs else leading vs ++ decoderPass decoder single
  | Buffer None decoder single => decoderPass decoder single
  | Fragments json => single_decode json
  end.

(** ** Client proxy: data *)

Definition CLIENT_PING_INTERVAL_MS : Z := 30000.
Definition MAX_MISSED_PONGS : Z := 2.
Definition TOKEN_EXPIRY_WARNING_MS : Z := 5 * 60 * 1000.
Definition MESSAGE_QUEUE_TTL_MS : Z := 10000.
Definition MAX_QUEUED_MESSAGES : nat := 50.
Definition MAX_MESSAGE_RETRIES : Z := 3.
Definition CACHE_STALE_THRESHOLD_MS : Z := 10000.

Definition CACHED_MESSAGE_TYPES : list string :=
  ["status"; "status_delta"; "device_info"; "esp_status"; "pico_status"]%string.

(** A [setTimeout] handle of the token-expiry warning: when it is due, the
    [expiresAt] its closure captured, and whether it can still fire. *)
Record Timer := {
  fireAt : Z;
  capturedExpiresAt : Z;
  active : bool
}.

Record ClientConnection := {
  cc_ws : nat;
  cc_sessionId : string;
  cc_userId : string;
  cc_deviceId : string;
  cc_connectedAt : Z;
  lastActivity : Z;
  missedPongs : Z;
  accessTokenExpiresAt : Z;
  tokenExpiryTimer : option Timer;
  metrics : ConnectionMetrics;
  pingStartTime : option Z
}.

Record PendingMessage := {
  pm_message : DeviceMessage;
  pm_timestamp : Z;
  retries : Z;
  clientSessionId : string
}.

Record DeviceStateCache := {
  status : option DeviceMessage;
  device_info : option DeviceMessage;
  esp_status : option DeviceMessage;
  pico_status : option DeviceMessage;
  lastUpdated : Z
}.

Record ClientProxy := {
  csockets : gmap nat Socket;
  nextClient : nat;
  clientObjs : gmap nat ClientConnection;   (* the connection objects *)
  clients : gmap string nat;                (* [this.clients] *)
  deviceClients : gmap string (gset string);
  pendingMessages : gmap string (list PendingMessage);
  deviceStateCache : gmap string DeviceStateCache;
  totalConnections : Z;
  totalMessages : Z
}.

Definition set_csockets (f : gmap nat Socket → gmap nat Socket) (p : ClientProxy) : ClientProxy :=
  {| csockets := f (csockets p); nextClient := nextClient p; clientObjs := clientObjs p;
     clients := clients p; deviceClients := deviceClients p;
     pendingMessages := pendingMessages p; deviceStateCache := deviceStateCache p;
     totalConnections := totalConnections p; totalMessages := totalMessages p |}.

Definition set_nextClient (n : nat) (p : ClientProxy) : ClientProxy :=
  {| csockets := csockets p; nextClient := n; clientObjs := clientObjs p;
     clients := clients p; deviceClients := deviceClients p;
     pendingMessages := pendingMessages p; deviceStateCache := deviceStateCache p;
     totalConnections := totalConnections p; totalMessages := totalMessages p |}.

Definition set_clientObjs (f : gmap nat ClientConnection → gmap nat ClientConnection)
    (p : ClientProxy) : ClientProxy :=
  {| csockets := csockets p; nextClient := nextClient p; clientObjs := f (clientObjs p);
     clients := clients p; deviceClients := deviceClients p;
     pendingMessages := pendingMessages p; deviceStateCache := deviceStateCache p;
     totalConnections := totalConnections p; totalMessages := totalMessages p |}.

Definition set_clients (f : gmap string nat → gmap string nat) (p : ClientProxy) : ClientProxy :=
  {| csockets := csockets p; nextClient := nextClient p; clientObjs := clientObjs p;
     clients := f (clients p); deviceClients := deviceClients p;
     pendingMessages := pendingMessages p; deviceStateCache := deviceStateCache p;
     totalConnections := totalConnections p; totalMessages := totalMessages p |}.

Definition set_deviceClients (f : gmap string (gset string) → gmap string (gset string))
    (p : ClientProxy) : ClientProxy :=
  {| csockets := csockets p; nextClient := nextClient p; clientObjs := clientObjs p;
     clients := clients p; deviceClients := f (deviceClients p);
     pendingMessages := pendingMessages p; deviceStateCache := deviceStateCache p;
     totalConnections := totalConnections p; totalMessages := totalMessages p |}.

Definition set_pendingMessages
    (f : gmap string (list PendingMessage) → gmap string (list PendingMessage))
    (p : ClientProxy) : ClientProxy :=
  {| csockets := csockets p; nextClient := nextClient p; clientObjs := clientObjs p;
     clients := clients p; deviceClients := deviceClients p;
     pendingMessages := f (pendingMessages p); deviceStateCache := deviceStateCache p;
     totalConnections := totalConnections p; totalMessages := totalMessages p |}.

Definition set_deviceStateCache
    (f : gmap string DeviceStateCache → gmap string DeviceStateCache)
    (p : ClientProxy) : ClientProxy :=
  {| csockets := csockets p; nextClient := nextClient p; clientObjs := clientObjs p;
     clients := clients p; deviceClients := deviceClients p;
     pendingMessages := pendingMessages p; deviceStateCache := f (deviceStateCache p);
     totalConnections := totalConnections p; totalMessages := totalMessages p |}.

Definition bump_totalConnections (p : ClientProxy) : ClientProxy :=
  {| csockets := csockets p; nextClient := nextClient p; clientObjs := clientObjs p;
     clients := clients p; deviceClients := deviceClients p;
     pendingMessages := pendingMessages p; deviceStateCache := deviceStateCache p;
     totalConnections := totalConnections p + 1; totalMessages := totalMessages p |}.

Definition bump_totalMessages (p : ClientProxy) : ClientProxy :=
  {| csockets := csockets p; nextClient := nextClient p; clientObjs := clientObjs p;
     clients := clients p; deviceClients := deviceClients p;
     pendingMessages := pendingMessages p; deviceStateCache := deviceStateCache p;
     totalConnections := totalConnections p; totalMessages := totalMessages p + 1 |}.

(** ** The HTTP request helper: data *)

Inductive Promise :=
| Pending
| Resolved (response : DeviceMessage)
| RejectedWith (error : string).

(** The closure state of one call of [sendDeviceRequest]: [rq_timer] is the
    deadline of the armed [setTimeout], [None] once cleared or fired. *)
Record Request := {
  rq_deviceId : string;
  rq_requestId : string;
  rq_requestType : string;
  rq_timer : option Z;
  rq_promise : Promise
}.

(** A promise settles once; later [resolve] and [reject] calls are ignored. *)
Definition settle (outcome : Promise) (q : Request) : Request :=
  {| rq_deviceId := rq_deviceId q; rq_requestId := rq_requestId q;
     rq_requestType := rq_requestType q; rq_timer := rq_timer q;
     rq_promise := match rq_promise q with Pending => outcome | settled => settled end |}.

Definition clearTimeout (q : Request) : Request :=
  {| rq_deviceId := rq_deviceId q; rq_requestId := rq_requestId q;
     rq_requestType := rq_requestType q; rq_timer := None;
     rq_promise := rq_promise q |}.

(** ** The world: both components and the requests in flight *)

Record World := {
  relay : DeviceRelay;
  proxy : ClientProxy;
  requests : gmap nat Request;
  nextRequest : nat
}.

Definition with_relay (f : DeviceRelay → DeviceRelay) (w : World) : World :=
  {| relay := f (relay w); proxy := proxy w;
     requests := requests w; nextRequest := nextRequest w |}.

Definition with_proxy (f : ClientProxy → ClientProxy) (w : World) : World :=
  {| relay := relay w; proxy := f (proxy w);
     requests := requests w; nextRequest := nextRequest w |}.

Definition with_requests (f : gmap nat Request → gmap nat Request) (w : World) : World :=
  {| relay := relay w; proxy := proxy w;
     requests := f (requests w); nextRequest := nextRequest w |}.

(** A call of [this.deviceRelay.sendToDevice] from outside the relay. *)
Definition relay_send (id : string) (m : DeviceMessage) (w : World) : bool * World :=
  let '(sent, r) := sendToDevice id m (relay w) in
  (sent, with_relay (λ _, r) w).

(** ** Client proxy: connection objects *)

(** A connection object with its mutable fields replaced; [ws], [sessionId],
    [userId], [deviceId] and [connectedAt] are never assigned after creation. *)
Definition cc_with (c : ClientConnection) (la mp tok : Z) (tmr : option Timer)
    (met : ConnectionMetrics) (pst : option Z) : ClientConnection :=
  {| cc_ws := cc_ws c; cc_sessionId := cc_sessionId c; cc_userId := cc_userId c;
     cc_deviceId := cc_deviceId c; cc_connectedAt := cc_connectedAt c;
     lastActivity := la; missedPongs := mp; accessTokenExpiresAt := tok;
     tokenExpiryTimer := tmr; metrics := met; pingStartTime := pst |}.

Definition newMetrics : ConnectionMetrics :=
  {| messagesSent := 0; messagesReceived := 0; lastPingRTT := None;
     avgPingRTT := inject_Z 0; pingCount := 0; reconnectCount := 0 |}.

Definition metrics_received (m : ConnectionMetrics) : ConnectionMetrics :=
  {| messagesSent := messagesSent m; messagesReceived := messagesReceived m + 1;
     lastPingRTT := lastPingRTT m; avgPingRTT := avgPingRTT m;
     pingCount := pingCount m; reconnectCount := reconnectCount m |}.

Definition metrics_sent (m : ConnectionMetrics) : ConnectionMetrics :=
  {| messagesSent := messagesSent m + 1; messagesReceived := messagesReceived m;
     lastPingRTT := lastPingRTT m; avgPingRTT := avgPingRTT m;
     pingCount := pingCount m; reconnectCount := reconnectCount m |}.

(** The running mean is computed on exact rationals here and on doubles in the
    code; nothing below depends on its value. *)
Definition metrics_rtt (rtt : Z) (m : ConnectionMetrics) : ConnectionMetrics :=
  let n := pingCount m + 1 in
  {| messagesSent := messagesSent m; messagesReceived := messagesReceived m;
     lastPingRTT := Some rtt;
     avgPingRTT := Qdiv (Qplus (Qmult (avgPingRTT m) (inject_Z (n - 1))) (inject_Z rtt))
                        (inject_Z n);
     pingCount := n; reconnectCount := reconnectCount m |}.

(** [ws.on("pong", ...)] of the client proxy, on its connection object. *)
Definition client_pong (now : Z) (c : ClientConnection) : ClientConnection :=
  match pingStartTime c with
  | Some start =>
      cc_with c now 0 (accessTokenExpiresAt c) (tokenExpiryTimer c)
              (metrics_rtt (now - start) (metrics c)) None
  | None =>
      cc_with c now 0 (accessTokenExpiresAt c) (tokenExpiryTimer c) (metrics c) None
  end.

(** The first two statements of [ws.on("message", ...)] of the client proxy. *)
Definition client_received (now : Z) (c : ClientConnection) : ClientConnection :=
  cc_with c now (missedPongs c) (accessTokenExpiresAt c) (tokenExpiryTimer c)
          (metrics_received (metrics c)) (pingStartTime c).

Definition client_sent (c : ClientConnection) : ClientConnection :=
  cc_with c (lastActivity c) (missedPongs c) (accessTokenExpiresAt c) (tokenExpiryTimer c)
          (metrics_sent (metrics c)) (pingStartTime c).

Definition client_missed (c : ClientConnection) : ClientConnection :=
  cc_with c (lastActivity c) (missedPongs c + 1) (accessTokenExpiresAt c)
          (tokenExpiryTimer c) (metrics c) (pingStartTime c).

Definition client_pingStart (now : Z) (c : ClientConnection) : ClientConnection :=
  cc_with c (lastActivity c) (missedPongs c) (accessTokenExpiresAt c)
          (tokenExpiryTimer c) (metrics c) (Some now).

Definition client_setToken (tok : Z) (c : ClientConnection) : ClientConnection :=
  cc_with c (lastActivity c) (missedPongs c) tok (tokenExpiryTimer c) (metrics c)
          (pingStartTime c).

Definition client_setTimer (t : option Timer) (c : ClientConnection) : ClientConnection :=
  cc_with c (lastActivity c) (missedPongs c) (accessTokenExpiresAt c) t (metrics c)
          (pingStartTime c).

Definition stop_timer (t : Timer) : Timer :=
  {| fireAt := fireAt t; capturedExpiresAt := capturedExpiresAt t; active := false |}.

(** [if (client.tokenExpiryTimer) clearTimeout(client.tokenExpiryTimer)] *)
Definition client_clearTimer (c : ClientConnection) : ClientConnection :=
  client_setTimer (stop_timer <$> tokenExpiryTimer c) c.

(** ** Client proxy: operations *)

(** [this.clients.get(sessionId)]: the connection object behind the entry. *)
Definition getClient (sid : string) (p : ClientProxy) : option ClientConnection :=
  h ← clients p !! sid; clientObjs p !! h.

Definition sendToClient (c : ClientConnection) (m : DeviceMessage) (p : ClientProxy)
    : ClientProxy :=
  if sock_open (csockets p) (cc_ws c)
  then set_csockets (alter (ws_send m) (cc_ws c)) p
  else p.

Definition broadcastToDeviceClients (id : string) (m : DeviceMessage) (p : ClientProxy)
    : ClientProxy :=
  match deviceClients p !! id with
  | None => p
  | Some sessions =>
      foldl (λ acc sid, match getClient sid acc with
                        | Some c => sendToClient c m acc
                        | None => acc
                        end) p (elements sessions)
  end.

Definition registerClient (c : ClientConnection) (p : ClientProxy) : ClientProxy :=
  set_deviceClients
    (λ dcs, <[cc_deviceId c := {[cc_sessionId c]} ∪ default ∅ (dcs !! cc_deviceId c)]> dcs)
    (set_clients (<[cc_sessionId c := cc_ws c]>) p).

Definition unregisterClient (c : ClientConnection) (p : ClientProxy) : ClientProxy :=
  set_deviceClients
    (λ dcs, match dcs !! cc_deviceId c with
            | Some sessions =>
                let rest := sessions ∖ {[cc_sessionId c]} in
                if bool_decide (size rest = 0%nat) then delete (cc_deviceId c) dcs
                else <[cc_deviceId c := rest]> dcs
            | None => dcs
            end)
    (set_clients (delete (cc_sessionId c)) p).

(** [cleanupClient(connection)] for the connection object of socket [h]. *)
Definition cleanupClient (h : nat) (p : ClientProxy) : ClientProxy :=
  match clientObjs p !! h with
  | Some c => unregisterClient c (set_clientObjs (<[h := client_clearTimer c]>) p)
  | None => p
  end.

Definition setupTokenExpiryWarning (h : nat) (now : Z) (p : ClientProxy) : ClientProxy :=
  match clientObjs p !! h with
  | Some c =>
      let expiresAt := accessTokenExpiresAt c in
      let warningTime := expiresAt - TOKEN_EXPIRY_WARNING_MS in
      if now <? warningTime
      then set_clientObjs
             (<[h := client_setTimer
                       (Some {| fireAt := now + (warningTime - now);
                                capturedExpiresAt := expiresAt; active := true |}) c]>) p
      else p
  | None => p
  end.

(** The callback of the token-expiry timer of the connection of socket [h]. *)
Definition tokenTimerFired (h : nat) (now : Z) (p : ClientProxy) : ClientProxy :=
  match clientObjs p !! h with
  | Some c =>
      match tokenExpiryTimer c with
      | Some t =>
          if active t && (fireAt t <=? now)
          then sendToClient c
                 (mkMsg "token_expiring"
                    [("expiresAt", JIso (accessTokenExpiresAt c));
                     ("expiresIn", JNum ((capturedExpiresAt t - now) / 1000));
                     ("refreshRequired", JBool true)]%string)
                 (set_clientObjs (<[h := client_setTimer (Some (stop_timer t)) c]>) p)
          else p
      | None => p
      end
  | None => p
  end.

(** *** The offline queue *)

Definition queueMessageForDevice (id : string) (m : DeviceMessage) (sid : string) (now : Z)
    (p : ClientProxy) : ClientProxy :=
  let queue := default [] (pendingMessages p !! id) in
  let queue' := if (MAX_QUEUED_MESSAGES <=? length queue)%nat then tail queue else queue in
  set_pendingMessages
    (<[id := queue' ++ [{| pm_message := m; pm_timestamp := now; retries := 0;
                           clientSessionId := sid |}]]>) p.

Definition expired (now : Z) (pending : PendingMessage) : bool :=
  MESSAGE_QUEUE_TTL_MS <? now - pm_timestamp pending.

Definition queued_message_sent (pending : PendingMessage) : DeviceMessage :=
  mkMsg "queued_message_sent"
    [("originalTimestamp", JNum (pm_timestamp pending));
     ("messageType", JStr (type (pm_message pending)))]%string.

Definition bump_retries (pending : PendingMessage) : PendingMessage :=
  {| pm_message := pm_message pending; pm_timestamp := pm_timestamp pending;
     retries := retries pending + 1; clientSessionId := clientSessionId pending |}.

(** One turn of the [for] loop of [flushPendingMessages]: the world after it
    and the entry as the loop leaves it. *)
Definition flushOne (id : string) (w : World) (pending : PendingMessage)
    : World * PendingMessage :=
  let '(sent, w1) := relay_send id (pm_message pending) w in
  if sent then
    match getClient (clientSessionId pending) (proxy w1) with
    | Some c => (with_proxy (sendToClient c (queued_message_sent pending)) w1, pending)
    | None => (w1, pending)
    end
  else if retries pending <? MAX_MESSAGE_RETRIES then (w1, bump_retries pending)
  else (w1, pending).

Definition flushPendingMessages (id : string) (now : Z) (w : World) : World :=
  match pendingMessages (proxy w) !! id with
  | None | Some [] => w
  | Some queue =>
      let validMessages := filter (λ pending, expired now pending = false) queue in
      let w1 := foldl (λ acc pending, (flushOne id acc pending).1) w validMessages in
      with_proxy (set_pendingMessages (delete id)) w1
  end.

Definition cleanupExpiredQueuedMessages (now : Z) (p : ClientProxy) : ClientProxy :=
  set_pendingMessages
    (omap (λ queue,
             match filter (λ pending, expired now pending = false) queue with
             | [] => None
             | validMessages => Some validMessages
             end)) p.

(** *** The state cache *)

Definition emptyCache (now : Z) : DeviceStateCache :=
  {| status := None; device_info := None; esp_status := None; pico_status := None;
     lastUpdated := now |}.

Definition cacheStore (m : DeviceMessage) (now : Z) (cache : DeviceStateCache)
    : DeviceStateCache :=
  if String.eqb (type m) "status" then
    {| status := Some m; device_info := device_info cache; esp_status := esp_status cache;
       pico_status := pico_status cache; lastUpdated := now |}
  else if String.eqb (type m) "status_delta" then
    {| status := status cache; device_info := device_info cache;
       esp_status := esp_status cache; pico_status := pico_status cache;
       lastUpdated := now |}
  else if String.eqb (type m) "device_info" then
    {| status := status cache; device_info := Some m; esp_status := esp_status cache;
       pico_status := pico_status cache; lastUpdated := now |}
  else if String.eqb (type m) "esp_status" then
    {| status := status cache; device_info := device_info cache; esp_status := Some m;
       pico_status := pico_status cache; lastUpdated := now |}
  else if String.eqb (type m) "pico_status" then
    {| status := status cache; device_info := device_info cache;
       esp_status := esp_status cache; pico_status := Some m; lastUpdated := now |}
  else cache.

Definition updateStateCache (id : string) (m : DeviceMessage) (now : Z) (p : ClientProxy)
    : ClientProxy :=
  let cache := default (emptyCache now) (deviceStateCache p !! id) in
  set_deviceStateCache (<[id := cacheStore m now cache]>) p.

Definition clearStateCache (id : string) (p : ClientProxy) : ClientProxy :=
  set_deviceStateCache (delete id) p.

(** *** Messages from a client *)

Definition auth_refreshed_error (reason : string) : DeviceMessage :=
  mkMsg "auth_refreshed" [("success", JBool false); ("error", JStr reason)]%string.

(** Whether [!v] is false. *)
Definition truthy (v : JValue) : bool :=
  match v with
  | JNull => false
  | JBool b => b
  | JNum n => negb (n =? 0)
  | JStr s => negb (String.eqb s "")
  | JIso _ | JMetrics _ => true
  end.

(** [message.token] when [!newToken] is false: the cast to [string] checks
    nothing, so this is any truthy value. *)
Definition token_of (m : DeviceMessage) : option JValue :=
  match field "token" (fields m) with
  | Some v => if truthy v then Some v else None
  | None => None
  end.

(** [verifyAccessToken(newToken)] *)
Definition verifyToken (store : CredentialStore) (v : JValue) : option SessionResult :=
  match v with
  | JStr s => verifyAccessToken store s
  | _ => verifyAccessValue store v
  end.

(** [handleAuthRefresh(client, message)], [client] the object of socket [h]. *)
Definition handleAuthRefresh (store : CredentialStore) (h : nat) (m : DeviceMessage)
    (now : Z) (p : ClientProxy) : ClientProxy :=
  match clientObjs p !! h with
  | None => p
  | Some c =>
      match token_of m with
      | None => sendToClient c (auth_refreshed_error "Missing token") p
      | Some newToken =>
          match verifyToken store newToken with
          | None => sendToClient c (auth_refreshed_error "Invalid or expired token") p
          | Some sessionResult =>
              if negb (String.eqb (user_id sessionResult) (cc_userId c))
              then sendToClient c (auth_refreshed_error "Token user mismatch") p
              else
                let c1 := client_clearTimer
                            (client_setToken (access_expires_at sessionResult) c) in
                let p1 := setupTokenExpiryWarning h now (set_clientObjs (<[h := c1]>) p) in
                sendToClient c
                  (mkMsg "auth_refreshed"
                     [("success", JBool true);
                      ("tokenExpiresAt", JIso (access_expires_at sessionResult))]%string)
                  p1
          end
      end
  end.

Definition queuedCount (id : string) (p : ClientProxy) : nat :=
  match pendingMessages p !! id with
  | Some queue => length queue
  | None => 0%nat
  end.

Definition json_date (t : option Z) : JValue :=
  match t with
  | Some t' => JIso t'
  | None => JNull
  end.

(** The notification a client gets when its message could not be forwarded. *)
Definition device_status_offline (id : string) (deviceLastSeen : option Z) (count : nat)
    : DeviceMessage :=
  {| type := "device_status"; deviceId := Some id; timestamp := None; requestId := None;
     message := Some ("Device offline. Message queued (" +:+ pretty count +:+ " pending, "
                      +:+ pretty (MESSAGE_QUEUE_TTL_MS / 1000) +:+ "s TTL).");
     fields := [("online", JBool false);
                ("lastSeen", json_date deviceLastSeen);
                ("messageQueued", JBool true);
                ("queuedMessages", JNum (Z.of_nat count));
                ("queueTTL", JNum (MESSAGE_QUEUE_TTL_MS / 1000))]%string |}.

(** The forwarding branch of [handleClientMessage]. *)
Definition forwardToDevice (h : nat) (c : ClientConnection) (m : DeviceMessage) (now : Z)
    (w : World) : World :=
  let message := set_timestamp now m in
  let w1 := with_proxy (set_clientObjs (<[h := client_sent c]>)) w in
  let '(sent, w2) := relay_send (cc_deviceId c) message w1 in
  if sent then w2
  else
    let w3 := with_proxy
                (queueMessageForDevice (cc_deviceId c) message (cc_sessionId c) now) w2 in
    let deviceLastSeen := getDeviceLastSeen (cc_deviceId c) (relay w3) in
    let count := queuedCount (cc_deviceId c) (proxy w3) in
    with_proxy (sendToClient c (device_status_offline (cc_deviceId c) deviceLastSeen count)) w3.

(** [handleClientMessage(client, message)], [client] the object of socket [h]. *)
Definition handleClientMessage (store : CredentialStore) (h : nat) (m : DeviceMessage)
    (now : Z) (w : World) : World :=
  match clientObjs (proxy w) !! h with
  | None => w
  | Some c =>
      if String.eqb (type m) "refresh_auth" then
        with_proxy (handleAuthRefresh store h m now) w
      else if String.eqb (type m) "ping" then
        with_proxy
          (sendToClient c
             (stamped "pong" now
                match timestamp m with
                | Some t => [("clientTimestamp", JNum t)]%string
                | None => []
                end)) w
      else if String.eqb (type m) "get_metrics" then
        with_proxy
          (sendToClient c
             (mkMsg "metrics"
                [("connection", JMetrics (metrics c));
                 ("deviceOnline", JBool (isDeviceConnected (cc_deviceId c) (relay w)));
                 ("queuedMessages",
                  JNum (Z.of_nat (queuedCount (cc_deviceId c) (proxy w))))]%string)) w
      else forwardToDevice h c m now w
  end.

(** [ws.on("message", ...)] of the client proxy for socket [h]; [data] is what
    [JSON.parse] makes of the frame, [None] when it throws. *)
Definition clientMessageHandler (store : CredentialStore) (h : nat)
    (data : option DeviceMessage) (now : Z) (w : World) : World :=
  match clientObjs (proxy w) !! h with
  | None => w
  | Some c =>
      let w1 := with_proxy
                  (λ p, bump_totalMessages
                          (set_clientObjs (<[h := client_received now c]>) p)) w in
      match data with
      | Some m => handleClientMessage store h m now w1
      | None => w1
      end
  end.

(** [ws.on("pong", ...)] of the client proxy for socket [h]. *)
Definition clientPongHandler (h : nat) (now : Z) (p : ClientProxy) : ClientProxy :=
  set_clientObjs (alter (client_pong now) h) p.

(** The body of the [forEach] of [pingAllClients] for the entry [h]. *)
Definition pingClient (h : nat) (now : Z) (p : ClientProxy) : ClientProxy :=
  match clientObjs p !! h with
  | Some c =>
      let c1 := client_missed c in
      if MAX_MISSED_PONGS <? missedPongs c1
      then set_csockets (alter ws_terminate (cc_ws c)) (set_clientObjs (<[h := c1]>) p)
      else set_csockets (alter ws_ping (cc_ws c))
             (set_clientObjs (<[h := client_pingStart now c1]>) p)
  | None => p
  end.

Definition pingAllClients (now : Z) (p : ClientProxy) : ClientProxy :=
  foldl (λ acc e, pingClient e.2 now acc) p (map_to_list (clients p)).

(** *** Accepting a client *)

Definition request_state (now : Z) : DeviceMessage := stamped "request_state" now [].

Definition connected_frame (sessionId id : string) (deviceOnline : bool)
    (deviceLastSeen : option Z) (tokenExpiresAt now : Z) : DeviceMessage :=
  {| type := "connected"; deviceId := Some id; timestamp := Some now; requestId := None;
     message := None;
     fields := [("sessionId", JStr sessionId);
                ("deviceOnline", JBool deviceOnline);
                ("deviceLastSeen", json_date deviceLastSeen);
                ("tokenExpiresAt", JIso tokenExpiresAt);
                ("serverTime", JIso now)]%string |}.

(** [if (slot) this.sendToClient(connection, slot)] *)
Definition sendSlot (c : ClientConnection) (slot : option DeviceMessage) (p : ClientProxy)
    : ClientProxy :=
  match slot with
  | Some m => sendToClient c m p
  | None => p
  end.

(** The end of [handleConnection]: cached state for the new client. *)
Definition hydrate (c : ClientConnection) (deviceOnline : bool) (now : Z) (w : World)
    : World :=
  match deviceStateCache (proxy w) !! cc_deviceId c, deviceOnline with
  | Some cachedState, true =>
      let cacheAge := now - lastUpdated cachedState in
      let isCacheStale := CACHE_STALE_THRESHOLD_MS <? cacheAge in
      let w1 := with_proxy
                  (λ p, sendSlot c (pico_status cachedState)
                          (sendSlot c (esp_status cachedState)
                             (sendSlot c (device_info cachedState)
                                (sendSlot c (status cachedState) p)))) w in
      if isCacheStale then (relay_send (cc_deviceId c) (request_state now) w1).2 else w1
  | None, true => (relay_send (cc_deviceId c) (request_state now) w).2
  | _, false => w
  end.

(** [ClientProxy.handleConnection(ws, req)] for the new socket [h]; [token] and
    [device] are the query parameters and [sessionId] is what [uuidv4()]
    returns. *)
Definition ClientProxy_handleConnection (store : CredentialStore) (h : nat)
    (token device : option string) (sessionId : string) (now : Z) (w : World) : World :=
  match truthy_string token, truthy_string device with
  | Some tok, Some dev =>
      match verifyAccessToken store tok with
      | None =>
          with_proxy (set_csockets (alter (ws_close 4002 "Invalid or expired token") h)) w
      | Some sessionResult =>
          if negb (userOwnsDevice store (user_id sessionResult) dev)
          then with_proxy (set_csockets (alter (ws_close 4003 "Access denied to device") h)) w
          else
            let connection :=
              {| cc_ws := h; cc_sessionId := sessionId; cc_userId := user_id sessionResult;
                 cc_deviceId := dev; cc_connectedAt := now; lastActivity := now;
                 missedPongs := 0; accessTokenExpiresAt := access_expires_at sessionResult;
                 tokenExpiryTimer := None; metrics := newMetrics; pingStartTime := None |} in
            let w1 := with_proxy
                        (λ p, setupTokenExpiryWarning h now
                                (bump_totalConnections
                                   (registerClient connection
                                      (set_clientObjs (<[h := connection]>) p)))) w in
            let deviceOnline := isDeviceConnected dev (relay w1) in
            let deviceLastSeen := getDeviceLastSeen dev (relay w1) in
            let w2 := with_proxy
                        (sendToClient connection
                           (connected_frame sessionId dev deviceOnline deviceLastSeen
                              (access_expires_at sessionResult) now)) w1 in
            hydrate connection deviceOnline now w2
      end
  | _, _ => with_proxy (set_csockets (alter (ws_close 4001 "Missing token or device ID") h)) w
  end.

(** ** Publication *)

Definition is_cached_type (t : string) : bool := existsb (String.eqb t) CACHED_MESSAGE_TYPES.

(** The test of the handler of [sendDeviceRequest]: is this publication the
    reply to the request? *)
Definition isReply (q : Request) (receivedDeviceId : string) (response : DeviceMessage)
    : bool :=
  String.eqb receivedDeviceId (rq_deviceId q)
  && bool_decide (requestId response = Some (rq_requestId q))
  && (String.eqb (type response) (rq_requestType q +:+ "_response")
      || String.eqb (type response) "error").

(** The handler of a pending [sendDeviceRequest] (the closure [handler]). *)
Definition requestHandler (rid : nat) (receivedDeviceId : string) (response : DeviceMessage)
    (w : World) : World :=
  match requests w !! rid with
  | None => w
  | Some q =>
      if isReply q receivedDeviceId response
      then
        let outcome :=
          if String.eqb (type response) "error"
          then RejectedWith (default "Device error" (truthy_string (message response)))
          else Resolved response in
        with_requests (<[rid := settle outcome (clearTimeout q)]>)
          (with_relay (unsubscribe (RequestHandler rid)) w)
      else w
  end.

Definition runHandler (now : Z) (id : string) (m : DeviceMessage) (w : World) (h : Handler)
    : World :=
  match h with
  | ProxyFanOut =>
      let w1 := if is_cached_type (type m)
                then with_proxy (updateStateCache id m now) w else w in
      with_proxy (broadcastToDeviceClients id m) w1
  | ProxyFlush =>
      if String.eqb (type m) "device_online" then flushPendingMessages id now w else w
  | ProxyOffline =>
      if String.eqb (type m) "device_offline"
      then with_proxy (clearStateCache id) w else w
  | RequestHandler rid => requestHandler rid id m w
  end.

(** [notifyHandlers(deviceId, message)], called for the session of socket
    [ws]: every subscriber, in subscription order. *)
Definition notifyHandlers (ws : nat) (now : Z) (id : string) (m : DeviceMessage) (w : World)
    : World :=
  let w1 := with_relay
              (log_publication {| pub_ws := ws; pub_device := id; pub_msg := m |}) w in
  foldl (runHandler now id m) w1 (messageHandlers (relay w)).

(** ** Device relay: the handlers *)

Definition handleDeviceMessage (ws : nat) (now : Z) (id : string) (m : DeviceMessage)
    (w : World) : World :=
  let stamped_message :=
    set_timestamp (default now (truthy_num (timestamp m))) (set_deviceId id m) in
  notifyHandlers ws now id stamped_message w.

(** [DeviceRelay.handleConnection(ws, req)] for the new socket [ws]; [id] and
    [key] are the query parameters. *)
Definition DeviceRelay_handleConnection (store : CredentialStore) (ws : nat)
    (id key : option string) (now : Z) (w : World) : World :=
  match validateDevice store id key with
  | Rejected code reason => with_relay (set_sockets (alter (ws_close code reason) ws)) w
  | Accepted deviceId =>
      let closeExisting (r : DeviceRelay) :=
        match getConnection deviceId r with
        | Some existing =>
            set_sockets (alter (ws_close 4002 "Replaced by new connection") (dc_ws existing)) r
        | None => r
        end in
      let connection :=
        {| dc_ws := ws; dc_deviceId := deviceId; dc_connectedAt := now; lastSeen := now;
           missedPings := 0 |} in
      let w1 := with_relay
                  (λ r, updateDeviceStatus deviceId true
                          (set_devices (<[deviceId := ws]>)
                             (set_connections (<[ws := connection]>) (closeExisting r)))) w in
      let w2 := (relay_send deviceId (stamped "connected" now []) w1).2 in
      let w3 := (relay_send deviceId (request_state now) w2).2 in
      notifyHandlers ws now deviceId (mkMsg "device_online" []) w3
  end.

(** [ws.on("pong", ...)] of the device relay for socket [ws]. *)
Definition devicePongHandler (ws : nat) (now : Z) (r : DeviceRelay) : DeviceRelay :=
  set_connections (alter (mark_alive now) ws) r.

(** [this.handleDeviceMessage(deviceId, msg)] for a decoded value: [None] when
    the call throws.  The module is strict code, so the assignment
    [message.deviceId = deviceId] with which the method starts throws a
    [TypeError] on a value that is not an object, before anything is
    published. *)
Definition handleDecoded (ws : nat) (now : Z) (id : string) (v : Decoded) (w : World)
    : option World :=
  match v with
  | DMap m => Some (handleDeviceMessage ws now id m w)
  | DPrim => None
  end.

(** [for (const msg of messages) this.handleDeviceMessage(deviceId, msg)]: the
    world when the loop ends or throws, and whether it ran to its end. *)
Fixpoint handleAll (ws : nat) (now : Z) (id : string) (vs : list Decoded) (w : World)
    : World * bool :=
  match vs with
  | [] => (w, true)
  | v :: vs =>
      match handleDecoded ws now id v w with
      | Some w1 => handleAll ws now id vs w1
      | None => (w, false)
      end
  end.

(** The end of the [message] handler, [if (message) this.handleDeviceMessage(...)],
    for the outcome of [decode] or of [JSON.parse]: a decoder that threw has
    returned from the handler, a falsy value is skipped, and a throw of the
    call is caught by the handler's outer [catch]. *)
Definition handleSingle (ws : nat) (now : Z) (id : string) (single : option Decoded)
    (w : World) : World :=
  match single with
  | Some v => default w (handleDecoded ws now id v w)
  | None => w
  end.

(** The [catch (multiError)] block and what follows it: the [Decoder]
    instance's sequence is handed on when it is not empty, and the handler
    returns when that loop runs to its end; a throw of the decoder or of the
    loop is caught by [catch (decoderError)], after which, as for an empty
    sequence, [decode] is tried. *)
Definition decoderAttempt (ws : nat) (now : Z) (id : string)
    (decoder : option (list Decoded)) (single : option Decoded) (w : World) : World :=
  match decoder with
  | Some (v :: vs) =>
      let '(w1, completed) := handleAll ws now id (v :: vs) w in
      if completed then w1 else handleSingle ws now id single w1
  | _ => handleSingle ws now id single w
  end.

(** [ws.on("message", ...)] of the device relay for socket [ws].  The loop over
    the sequence of [decodeMulti] is inside the first [try]: when it throws,
    control passes to [catch (multiError)] with the messages before the throw
    already published. *)
Definition deviceMessageHandler (ws : nat) (data : RawData) (now : Z) (w : World) : World :=
  match connections (relay w) !! ws with
  | None => w
  | Some c =>
      let w1 := with_relay (set_connections (<[ws := mark_alive now c]>)) w in
      let id := dc_deviceId c in
      match data with
      | Buffer (Some []) _ single => handleSingle ws now id single w1
      | Buffer (Some vs) decoder single =>
          let '(w2, completed) := handleAll ws now id vs w1 in
          if completed then w2 else decoderAttempt ws now id decoder single w2
      | Buffer None decoder single => decoderAttempt ws now id decoder single w1
      | Fragments json => handleSingle ws now id json w1
      end
  end.

(** [ws.on("close", ...)] of the device relay for socket [ws]. *)
Definition deviceCloseHandler (ws : nat) (now : Z) (w : World) : World :=
  match connections (relay w) !! ws with
  | None => w
  | Some c =>
      let w1 := with_relay
                  (λ r, updateDeviceStatus (dc_deviceId c) false
                          (set_devices (delete (dc_deviceId c)) r)) w in
      notifyHandlers ws now (dc_deviceId c) (mkMsg "device_offline" []) w1
  end.

(** ** The HTTP request helper *)

Definition DEFAULT_REQUEST_TIMEOUT : Z := 10000.

(** [`req_${Date.now()}_${Math.random().toString(36).substring(7)}`], with
    [rnd] for the random suffix. *)
Definition newRequestId (now : Z) (rnd : string) : string :=
  "req_" +:+ pretty now +:+ "_" +:+ rnd.

(** [sendDeviceRequest(deviceRelay, deviceId, message, timeout)]: the executor
    of the promise it returns.  [rnd] is the random suffix of the request id;
    the result names the request (its closure state) and the world after. *)
Definition sendDeviceRequest (deviceId : string) (m : DeviceMessage) (rnd : string)
    (timeout now : Z) (w : World) : nat * World :=
  let rid := nextRequest w in
  let requestId := newRequestId now rnd in
  let q := {| rq_deviceId := deviceId; rq_requestId := requestId;
              rq_requestType := type m; rq_timer := Some (now + timeout);
              rq_promise := Pending |} in
  let w1 := {| relay := onDeviceMessage (RequestHandler rid) (relay w); proxy := proxy w;
               requests := <[rid := q]> (requests w); nextRequest := S rid |} in
  let '(sent, w2) := relay_send deviceId (set_requestId requestId m) w1 in
  if sent then (rid, w2)
  else (rid,
        with_requests
          (<[rid := settle (RejectedWith "Device not connected") (clearTimeout q)]>)
          (with_relay (unsubscribe (RequestHandler rid)) w2)).

(** The callback of the request's [setTimeout]. *)
Definition requestTimeout (rid : nat) (now : Z) (w : World) : World :=
  match requests w !! rid with
  | Some q =>
      match rq_timer q with
      | Some due =>
          if due <=? now
          then with_requests
                 (<[rid := settle (RejectedWith "Request timeout") (clearTimeout q)]>)
                 (with_relay (unsubscribe (RequestHandler rid)) w)
          else w
      | None => w
      end
  | None => w
  end.

(** ** The event loop *)

Inductive Event :=
| DeviceConnect (id key : option string)
| DevicePong (ws : nat)
| DeviceFrame (ws : nat) (data : RawData)
| DeviceClosed (ws : nat)
| DevicePingTimer
| AdminDisconnect (id : string)
| ClientConnect (token device : option string) (sessionId : string)
| ClientPong (h : nat)
| ClientFrame (h : nat) (data : option DeviceMessage)
| ClientClosed (h : nat)
| ClientPingTimer
| QueueCleanupTimer
| TokenTimer (h : nat)
| HttpRequest (deviceId : string) (m : DeviceMessage) (rnd : string)
| RequestTimer (rid : nat).

(** A socket delivers events until its [close] event, which comes once. *)
Definition live (ss : gmap nat Socket) (h : nat) : bool :=
  match ss !! h with
  | Some s => negb (bool_decide (readyState s = CLOSED))
  | None => false
  end.

Definition step (store : CredentialStore) (now : Z) (ev : Event) (w : World) : World :=
  match ev with
  | DeviceConnect id key =>
      let ws := nextSocket (relay w) in
      DeviceRelay_handleConnection store ws id key now
        (with_relay (λ r, set_nextSocket (S ws) (set_sockets (<[ws := freshSocket]>) r)) w)
  | DevicePong ws =>
      if live (sockets (relay w)) ws then with_relay (devicePongHandler ws now) w else w
  | DeviceFrame ws data =>
      if live (sockets (relay w)) ws then deviceMessageHandler ws data now w else w
  | DeviceClosed ws =>
      if live (sockets (relay w)) ws
      then deviceCloseHandler ws now (with_relay (set_sockets (alter ws_closed ws)) w)
      else w
  | DevicePingTimer => with_relay pingAllDevices w
  | AdminDisconnect id => with_relay (λ r, (disconnectDevice id r).2) w
  | ClientConnect token device sessionId =>
      let h := nextClient (proxy w) in
      ClientProxy_handleConnection store h token device sessionId now
        (with_proxy (λ p, set_nextClient (S h) (set_csockets (<[h := freshSocket]>) p)) w)
  | ClientPong h =>
      if live (csockets (proxy w)) h then with_proxy (clientPongHandler h now) w else w
  | ClientFrame h data =>
      if live (csockets (proxy w)) h then clientMessageHandler store h data now w else w
  | ClientClosed h =>
      if live (csockets (proxy w)) h
      then with_proxy (λ p, cleanupClient h (set_csockets (alter ws_closed h) p)) w
      else w
  | ClientPingTimer => with_proxy (pingAllClients now) w
  | QueueCleanupTimer => with_proxy (cleanupExpiredQueuedMessages now) w
  | TokenTimer h => with_proxy (tokenTimerFired h now) w
  | HttpRequest deviceId m rnd =>
      (sendDeviceRequest deviceId m rnd DEFAULT_REQUEST_TIMEOUT now w).2
  | RequestTimer rid => requestTimeout rid now w
  end.

(** The world after both constructors have run. *)
Definition initial : World :=
  {| relay := {| sockets := ∅; nextSocket := 0; connections := ∅; devices := ∅;
                 messageHandlers := [ProxyFanOut; ProxyFlush; ProxyOffline];
                 published := []; dbOnline := ∅ |};
     proxy := {| csockets := ∅; nextClient := 0; clientObjs := ∅; clients := ∅;
                 deviceClients := ∅; pendingMessages := ∅; deviceStateCache := ∅;
                 totalConnections := 0; totalMessages := 0 |};
     requests := ∅; nextRequest := 0 |}.

(** A run: the events of the loop with the clock reading of each, oldest
    first. *)
Definition run (store : CredentialStore) (evs : list (Z * Event)) (w : World) : World :=
  foldl (λ acc e, step store e.1 e.2 acc) w evs.

(** ** The log routes *)

(** What a route handler answers: the status ([res.json] and [res.send]
    leave it at 200) and the body. *)
Inductive Body :=
| ErrorJson (error : string)       (* [{ error }] *)
| Json (response : DeviceMessage)  (* [res.json(response)] *)
| LogsText (logs : string)         (* [text/plain] attachment *)
| LogsInstant (t : Z).             (* the same, the text being that of [JIso t] *)

Record HttpResponse := {
  http_status : Z;
  http_body : Body
}.

(** [s.includes(needle)] *)
Fixpoint includes (needle s : string) : bool :=
  String.prefix needle s
  || match s with
     | EmptyString => false
     | String _ s' => includes needle s'
     end.

(** The six routes of the router and the message each one sends. *)
Inductive LogRoute :=
| GetInfo
| SetEnabled (enabled : bool)
| Download
| Clear
| SetPico (enabled : bool)
| SetDebug (enabled : bool).

(** [req.body.enabled === "true" || req.body.enabled === true] *)
Definition enabled_of (v : option JValue) : bool :=
  match v with
  | Some (JStr s) => String.eqb s "true"
  | Some (JBool b) => b
  | _ => false
  end.

Definition routeMessage (route : LogRoute) (now : Z) : DeviceMessage :=
  match route with
  | GetInfo => stamped "get_log_info" now []
  | SetEnabled enabled => stamped "set_log_enabled" now [("enabled"%string, JBool enabled)]
  | Download => stamped "get_logs" now []
  | Clear => stamped "clear_logs" now []
  | SetPico enabled =>
      stamped "set_pico_log_forwarding" now [("enabled"%string, JBool enabled)]
  | SetDebug enabled =>
      stamped "set_debug_logs_enabled" now [("enabled"%string, JBool enabled)]
  end.

(** The [catch] block of every route, for an [Error] with text [message]. *)
Definition catchResponse (message : string) : HttpResponse :=
  if includes "timeout" message
  then {| http_status := 504; http_body := ErrorJson "Device request timeout" |}
  else if includes "not connected" message
  then {| http_status := 503; http_body := ErrorJson message |}
  else {| http_status := 500; http_body := ErrorJson message |}.

(** A route handler up to its [await]: it has answered, or it waits for the
    promise of the request it started. *)
Inductive Started :=
| Responded (response : HttpResponse)
| Waiting (rid : nat).

(** The [try] block of a route up to the [await].  [userId] is [req.user.id],
    [device] the query parameter, [deviceRelay] whether the request context
    carries the relay, and [rnd] the random suffix of the request id. *)
Definition logRoute (store : CredentialStore) (route : LogRoute) (userId : string)
    (device : option string) (deviceRelay : bool) (rnd : string) (now : Z) (w : World)
    : Started * World :=
  match truthy_string device with
  | None =>
      (Responded {| http_status := 400; http_body := ErrorJson "Missing device parameter" |}, w)
  | Some deviceId =>
      if negb (userOwnsDevice store userId deviceId)
      then (Responded {| http_status := 404; http_body := ErrorJson "Device not found" |}, w)
      else if negb deviceRelay
      then (Responded {| http_status := 500;
                         http_body := ErrorJson "Device relay not available" |}, w)
      else if negb (isDeviceConnected deviceId (relay w))
      then (Responded {| http_status := 503; http_body := ErrorJson "Device not connected" |},
            w)
      else
        let '(rid, w') := sendDeviceRequest deviceId (routeMessage route now) rnd
                            DEFAULT_REQUEST_TIMEOUT now w in
        (Waiting rid, w')
  end.

(** The rest of the handler once the promise has settled; [None] while it is
    pending. *)
Definition routeResponse (route : LogRoute) (outcome : Promise) : option HttpResponse :=
  match outcome with
  | Pending => None
  | Resolved response =>
      Some match route, field "logs" (fields response) with
           | Download, Some (JStr logs) =>
               if String.eqb logs ""
               then {| http_status := 200; http_body := Json response |}
               else {| http_status := 200; http_body := LogsText logs |}
           | Download, Some (JIso t) => {| http_status := 200; http_body := LogsInstant t |}
           | _, _ => {| http_status := 200; http_body := Json response |}
           end
  | RejectedWith message => Some (catchResponse message)
  end.

(** ** The log service *)

Module LogService.

Inductive LogLevel := Info | Warn | Error | Debug.

Global Instance LogLevel_eq_dec : EqDecision LogLevel.
Proof. solve_decision. Defined.

(** [timestamp] is the instant whose ISO-8601 text the entry carries; for
    the years 0000 to 9999 the texts are ordered like the instants. *)
Record LogEntry := {
  id : string;
  timestamp : Z;
  level : LogLevel;
  message : string;
  source : option string;
  metadata : option (list (string * JValue))
}.

Definition MAX_LOGS : Z := 10000.

(** The module state: the buffer and the id counter. *)
Record Store := {
  logs : list LogEntry;
  logIdCounter : nat
}.

Definition empty : Store := {| logs := []; logIdCounter := 0 |}.

(** [`log-${++logIdCounter}-${Date.now()}`] *)
Definition newId (counter : nat) (now : Z) : string :=
  "log-" +:+ pretty counter +:+ "-" +:+ pretty now.

(** [addLog(level, message, source, metadata)]; [idNow] is what [Date.now()]
    returns for the id and [now] the instant of [new Date()]. *)
Definition addLog (lvl : LogLevel) (msg : string) (src : option string)
    (meta : option (list (string * JValue))) (idNow now : Z) (st : Store) : Store :=
  let counter := S (logIdCounter st) in
  let entry := {| id := newId counter idNow; timestamp := now; level := lvl;
                  message := msg; source := src; metadata := meta |} in
  let pushed := logs st ++ [entry] in
  {| logs := if MAX_LOGS <? Z.of_nat (length pushed) then tail pushed else pushed;
     logIdCounter := counter |}.

Definition clearLogs (st : Store) : Store :=
  {| logs := []; logIdCounter := logIdCounter st |}.

Record Options := {
  o_level : option LogLevel;
  o_source : option string;
  o_search : option string;
  o_limit : option Z;
  o_beforeId : option string
}.

Record Page := {
  p_logs : list LogEntry;
  hasMore : bool;
  total : nat
}.

(** [l.findIndex(P)], [None] for -1. *)
Fixpoint findIndex {A : Type} (P : A → bool) (l : list A) : option nat :=
  match l with
  | [] => None
  | x :: l' => if P x then Some 0%nat else S <$> findIndex P l'
  end.

(** [l.slice(0, e)] for an integer [e]. *)
Definition slice0 {A : Type} (e : Z) (l : list A) : list A :=
  if 0 <=? e then take (Z.to_nat e) l else take (length l - Z.to_nat (- e)) l.

Section Search.
(** [String.prototype.toLowerCase], left unspecified. *)
Variable toLowerCase : string → string.

Definition matches (searchLower : string) (log : LogEntry) : bool :=
  includes searchLower (toLowerCase (message log))
  || match truthy_string (source log) with
     | Some s => includes searchLower (toLowerCase s)
     | None => false
     end.

(** The filters of [getLogs], before [reverse]. *)
Definition filtered (options : Options) (st : Store) : list LogEntry :=
  let byLevel := match o_level options with
                 | Some l => filter (λ log, level log = l) (logs st)
                 | None => logs st
                 end in
  let bySource := match truthy_string (o_source options) with
                  | Some s => filter (λ log, source log = Some s) byLevel
                  | None => byLevel
                  end in
  let bySearch := match truthy_string (o_search options) with
                  | Some s => filter (λ log, matches (toLowerCase s) log = true) bySource
                  | None => bySource
                  end in
  match truthy_string (o_beforeId options) with
  | Some b =>
      match findIndex (λ log, String.eqb (id log) b) bySearch with
      | Some beforeIndex => take beforeIndex bySearch
      | None => bySearch
      end
  | None => bySearch
  end.

Definition getLogs (options : Options) (st : Store) : Page :=
  let newestFirst := reverse (filtered options st) in
  let limit := match o_limit options with
               | Some n => if n =? 0 then 100 else n
               | None => 100
               end in
  {| p_logs := slice0 limit newestFirst;
     hasMore := limit <? Z.of_nat (length newestFirst);
     total := length newestFirst |}.

End Search.

Record LevelCounts := {
  n_info : Z;
  n_warn : Z;
  n_error : Z;
  n_debug : Z
}.

(** A property of the plain object [bySource]: a count, or, under a name
    that a plain object inherits from [Object.prototype], a text: the
    inherited function as a string followed by [ones] characters [1]. *)
Inductive SourceCount :=
| Counted (n : Z)
| Spoiled (ones : nat).

(** The function-valued properties of [Object.prototype]. *)
Definition inheritedNames : list string :=
  ["constructor"; "hasOwnProperty"; "isPrototypeOf"; "propertyIsEnumerable";
   "toLocaleString"; "toString"; "valueOf"; "__defineGetter__"; "__defineSetter__";
   "__lookupGetter__"; "__lookupSetter__"]%string.

(** [bySource[s] = (bySource[s] || 0) + 1] on the own properties [o] of a
    plain object.  A name that is not a key yet is looked up in
    [Object.prototype]: an inherited function is truthy and adding 1 to it
    yields a string, which is stored and grows by one character with each
    further entry.  [__proto__] is an accessor whose setter ignores a string,
    so that name never becomes a key. *)
Definition bumpSource (s : string) (o : gmap string SourceCount) : gmap string SourceCount :=
  match o !! s with
  | Some (Counted n) => <[s := Counted (n + 1)]> o
  | Some (Spoiled ones) => <[s := Spoiled (S ones)]> o
  | None =>
      if String.eqb s "__proto__" then o
      else if bool_decide (s ∈ inheritedNames) then <[s := Spoiled 1]> o
      else <[s := Counted 1]> o
  end.

Record Stats := {
  s_total : nat;
  byLevel : LevelCounts;
  bySource : gmap string SourceCount;
  oldestTimestamp : option Z;
  newestTimestamp : option Z
}.

Definition countLevel (l : LogLevel) (c : LevelCounts) : LevelCounts :=
  match l with
  | Info => {| n_info := n_info c + 1; n_warn := n_warn c; n_error := n_error c;
               n_debug := n_debug c |}
  | Warn => {| n_info := n_info c; n_warn := n_warn c + 1; n_error := n_error c;
               n_debug := n_debug c |}
  | Error => {| n_info := n_info c; n_warn := n_warn c; n_error := n_error c + 1;
                n_debug := n_debug c |}
  | Debug => {| n_info := n_info c; n_warn := n_warn c; n_error := n_error c;
                n_debug := n_debug c + 1 |}
  end.

(** The body of the [forEach] of [getLogStats]. *)
Definition countLog (acc : Stats) (log : LogEntry) : Stats :=
  {| s_total := s_total acc;
     byLevel := countLevel (level log) (byLevel acc);
     bySource := match truthy_string (source log) with
                 | Some s => bumpSource s (bySource acc)
                 | None => bySource acc
                 end;
     oldestTimestamp := match oldestTimestamp acc with
                        | Some oldest =>
                            if timestamp log <? oldest then Some (timestamp log)
                            else Some oldest
                        | None => Some (timestamp log)
                        end;
     newestTimestamp := match newestTimestamp acc with
                        | Some newest =>
                            if newest <? timestamp log then Some (timestamp log)
                            else Some newest
                        | None => Some (timestamp log)
                        end |}.

Definition getLogStats (st : Store) : Stats :=
  foldl countLog
    {| s_total := length (logs st);
       byLevel := {| n_info := 0; n_warn := 0; n_error := 0; n_debug := 0 |};
       bySource := ∅; oldestTimestamp := None; newestTimestamp := None |}
    (logs st).

End LogService.

(** ** The logger *)

Module Logger.

(** The text before the first ["]"] of [s], and whether there is one. *)
Fixpoint upToBracket (s : string) : string * bool :=
  match s with
  | EmptyString => (EmptyString, false)
  | String a s' =>
      if String.eqb (String a "") "]" then (EmptyString, true)
      else let '(inner, closed) := upToBracket s' in (String a inner, closed)
  end.

(** [message.match(/^\[([^\]]+)\]/)], the captured group. *)
Definition extractSource (message : string) : option string :=
  match message with
  | String a rest =>
      if String.eqb (String a "") "["
      then match upToBracket rest with
           | (inner, true) => if String.eqb inner "" then None else Some inner
           | (_, false) => None
           end
      else None
  | EmptyString => None
  end.

(** An argument of a console call, as the [map] of [logToStore] sees it: a
    string, an [Error], or any other value with the text the [try] block or
    its [catch] yields for it. *)
Inductive Arg :=
| AString (s : string)
| AnError (name message : string) (stack : option string)
| AValue (text : string).

Definition render (arg : Arg) : string :=
  match arg with
  | AString s => s
  | AnError name message stack =>
      name +:+ ": " +:+ message
      +:+ match truthy_string stack with
          | Some st => String (Ascii.ascii_of_nat 10) st
          | None => ""
          end
  | AValue text => text
  end.

(** [logToStore(level, ...args)]; [stackSource] is what
    [extractSourceFromStack()] returns. *)
Definition logToStore (lvl : LogService.LogLevel) (args : list Arg)
    (stackSource : option string) (idNow now : Z) (st : LogService.Store)
    : LogService.Store :=
  let message := String.concat " " (render <$> args) in
  let source := match extractSource message with
                | Some s => Some s
                | None => stackSource
                end in
  LogService.addLog lvl message source None idNow now st.

Inductive ConsoleMethod := log | info | warn | error | debug.

(** The level each wrapped console method stores its output with. *)
Definition levelOf (method : ConsoleMethod) : LogService.LogLevel :=
  match method with
  | log | info => LogService.Info
  | warn => LogService.Warn
  | error => LogService.Error
  | debug => LogService.Debug
  end.

Definition console (method : ConsoleMethod) (args : list Arg) (stackSource : option string)
    (idNow now : Z) (st : LogService.Store) : LogService.Store :=
  logToStore (levelOf method) args stackSource idNow now st.

End Logger.

(** ** Worked scenarios *)

Definition demoKey : string := "0123456789abcdef0123456789abcdef".
Definition demoDevice : string := "BRW-01ABCDEF".

Definition demoStore : CredentialStore :=
  {| verifyDeviceKey := λ _ key, String.eqb key demoKey;
     verifyAccessToken := λ token,
       if String.eqb token "token-1"
       then Some {| user_id := "user-1"; user_email := "user@example.org";
                    access_expires_at := 600000 |}
       else None;
     verifyAccessValue := λ _, None;
     userOwnsDevice := λ _ _, true |}.

(** Scenario 1 of the spec: the device connects twice with a valid key. *)
Definition replacement : list (Z * Event) :=
  [(0, DeviceConnect (Some demoDevice) (Some demoKey));
   (1000, DeviceConnect (Some demoDevice) (Some demoKey))].

(** ... and then the [close] event of the replaced socket arrives. *)
Definition replacement_closed : list (Z * Event) :=
  replacement ++ [(1010, DeviceClosed 0%nat)].

(** A client that has been pinged once sends a data frame. *)
Definition pinged_client : list (Z * Event) :=
  [(5, ClientConnect (Some "token-1"%string) (Some demoDevice) "session-1");
   (30005, ClientPingTimer)].

(** A device and a client of it have each been pinged once and have not
    answered. *)
Definition both_pinged : list (Z * Event) :=
  [(0, DeviceConnect (Some demoDevice) (Some demoKey));
   (5, ClientConnect (Some "token-1"%string) (Some demoDevice) "session-1");
   (30000, DevicePingTimer);
   (30005, ClientPingTimer)].

(** A client sends a message while the device's socket is closing. *)
Definition closing_device : list (Z * Event) :=
  [(0, DeviceConnect (Some demoDevice) (Some demoKey));
   (5, ClientConnect (Some "token-1"%string) (Some demoDevice) "session-1");
   (10, AdminDisconnect demoDevice)].

(** A frame that holds the MessagePack encoding of the maps [ms] one after
    the other: both sequence decoders return them, and [decode] returns a
    value only when there is exactly one. *)
Definition packed (ms : list DeviceMessage) : RawData :=
  Buffer (Some (DMap <$> ms)) (Some (DMap <$> ms))
         (match ms with [m] => Some (DMap m) | _ => None end).

(** The device is connected and the first message it sends, at 100 ms, is a
    [status_delta]. *)
Definition delta_first : list (Z * Event) :=
  [(0, DeviceConnect (Some demoDevice) (Some demoKey));
   (100, DeviceFrame 0%nat (packed [mkMsg "status_delta" []]))].

(** The device is connected and has published a full [status] at 100 ms. *)
Definition status_published : list (Z * Event) :=
  [(0, DeviceConnect (Some demoDevice) (Some demoKey));
   (100, DeviceFrame 0%nat (packed [mkMsg "status" []]))].

Definition demoSession : SessionResult :=
  {| user_id := "user-1"; user_email := "user@example.org"; access_expires_at := 600000 |}.

(** A client sends fifty messages to a device that is not connected. *)
Definition full_queue : list (Z * Event) :=
  (5, ClientConnect (Some "token-1"%string) (Some demoDevice) "session-1")
  :: replicate 50 (10, ClientFrame 0%nat (Some (mkMsg "brew_start" []))).

(** A client queues three messages for a device that is not connected, and
    the device connects at 12 s: the world in which the [device_online]
    publication reaches the flush handler. *)
Definition queued_three : list (Z * Event) :=
  [(0, ClientConnect (Some "token-1"%string) (Some demoDevice) "session-1");
   (1000, ClientFrame 0%nat (Some (mkMsg "brew_start" [])));
   (9000, ClientFrame 0%nat (Some (mkMsg "brew_start" [])));
   (10000, ClientFrame 0%nat (Some (mkMsg "brew_stop" [])))].

Definition queuedEntry (t : string) (now : Z) : PendingMessage :=
  {| pm_message := set_timestamp now (mkMsg t []); pm_timestamp := now; retries := 0;
     clientSessionId := "session-1" |}.

Definition flush_world : World :=
  {| relay := relay (run demoStore
                       [(12000, DeviceConnect (Some demoDevice) (Some demoKey))] initial);
     proxy := proxy (run demoStore queued_three initial);
     requests := ∅; nextRequest := 0 |}.

(** An HTTP handler asks the connected device for [get_log_info] at 50 ms;
    the device answers. *)
Definition device_connected : World :=
  run demoStore [(0, DeviceConnect (Some demoDevice) (Some demoKey))] initial.


(** The device is connected and its first message, a [status_delta] stamped
    at 100 ms, is about to be handed to the subscribers. *)
Definition deltaMessage : DeviceMessage :=
  {| type := "status_delta"; deviceId := Some demoDevice; timestamp := Some 100;
     requestId := None; message := None; fields := [] |}.

Definition delta_world : World :=
  with_relay
    (log_publication {| pub_ws := 0%nat; pub_device := demoDevice; pub_msg := deltaMessage |})
    (with_relay (set_connections (alter (mark_alive 100) 0%nat)) device_connected).

Definition demoClient : ClientConnection :=
  {| cc_ws := 0; cc_sessionId := "session-1"; cc_userId := "user-1";
     cc_deviceId := demoDevice; cc_connectedAt := 5; lastActivity := 5;
     missedPongs := 0; accessTokenExpiresAt := 600000;
     tokenExpiryTimer :=
       Some {| fireAt := 300000; capturedExpiresAt := 600000; active := true |};
     metrics := newMetrics; pingStartTime := None |}.

(** The device is connected and one client is bound to it. *)
Definition device_and_client : World :=
  run demoStore
    [(0, DeviceConnect (Some demoDevice) (Some demoKey));
     (5, ClientConnect (Some "token-1"%string) (Some demoDevice) "session-1")] initial.

(** One client is connected; its device is not. *)
Definition lonely_client : World :=
  run demoStore
    [(5, ClientConnect (Some "token-1"%string) (Some demoDevice) "session-1")] initial.

(** The events behind [device_and_client], and the device's connection
    object in that world. *)
Definition device_then_client : list (Z * Event) :=
  [(0, DeviceConnect (Some demoDevice) (Some demoKey));
   (5, ClientConnect (Some "token-1"%string) (Some demoDevice) "session-1")].

Definition demoConnection : DeviceConnection :=
  {| dc_ws := 0; dc_deviceId := demoDevice; dc_connectedAt := 0; lastSeen := 0;
     missedPings := 0 |}.

(** ** Observations *)

(** What has been handed to the socket of the registered connection of [id]. *)
Definition deviceOutbox (id : string) (r : DeviceRelay) : list DeviceMessage :=
  match getConnection id r with
  | Some c => sock_outbox (sockets r) (dc_ws c)
  | None => []
  end.

(** The cached frames of an entry, in the order the accept path sends them. *)
Definition cachedFrames (cache : DeviceStateCache) : list DeviceMessage :=
  omap id [status cache; device_info cache; esp_status cache; pico_status cache].

(** The socket of the client that queued [pending], when that client is still
    registered and its socket is open. *)
Definition notifyTarget (p : ClientProxy) (pending : PendingMessage) : option nat :=
  c ← getClient (clientSessionId pending) p;
  if sock_open (csockets p) (cc_ws c) then Some (cc_ws c) else None.

Definition queuesBounded (p : ClientProxy) : Prop :=
  ∀ id queue, pendingMessages p !! id = Some queue → (length queue ≤ MAX_QUEUED_MESSAGES)%nat.

(** What a publication's subscribers never write: the relay's registry and
    log, and the proxy's registries. *)
Definition relayCore (r : DeviceRelay) :=
  (connections r, devices r, published r, nextSocket r, dbOnline r).

Definition proxyCore (p : ClientProxy) :=
  (clientObjs p, clients p, deviceClients p, nextClient p).

(** What only the request helper writes. *)
Definition requestCore (w : World) :=
  (requests w, messageHandlers (relay w), nextRequest w).

(** The request [rid] is in flight: its promise is pending, its timer is
    armed for [due] and its handler is subscribed. *)
Definition awaiting (rid : nat) (q : Request) (w : World) : Prop :=
  requests w !! rid = Some q ∧
  rq_promise q = Pending ∧
  is_Some (rq_timer q) ∧
  RequestHandler rid ∈ messageHandlers (relay w) ∧
  (rid < nextRequest w)%nat.

(** An event that neither carries a message with the request's id nor is the
    request's own timer. *)
Definition silent (rid : nat) (q : Request) (ev : Event) : Prop :=
  match ev with
  | DeviceFrame _ data => ∀ m, m ∈ decodeFrame data → requestId m ≠ Some (rq_requestId q)
  | RequestTimer r => r ≠ rid
  | _ => True
  end.

(** A publication as [handleDeviceMessage] stamps it. *)
Definition stampedBy (id : string) (now : Z) (m : DeviceMessage) : DeviceMessage :=
  set_timestamp (default now (truthy_num (timestamp m))) (set_deviceId id m).

(** [s'] is [s] after some more frames were handed to [ws.send]. *)
Definition socketExtends (s s' : Socket) : Prop :=
  readyState s' = readyState s ∧ closeSent s' = closeSent s ∧
  pingsSent s' = pingsSent s ∧ ∃ more, outbox s' = outbox s ++ more.

(** The same sockets, each with possibly more frames sent. *)
Definition socketsExtend (ss ss' : gmap nat Socket) : Prop :=
  ∀ h, match ss !! h, ss' !! h with
       | Some s, Some s' => socketExtends s s'
       | None, None => True
       | _, _ => False
       end.

(** [r'] differs from [r] at most in frames sent, subscribers and the
    publication log: same registry, same connection objects, same sockets in
    the same state. *)
Definition relayStable (r r' : DeviceRelay) : Prop :=
  connections r' = connections r ∧ devices r' = devices r ∧
  nextSocket r' = nextSocket r ∧ dbOnline r' = dbOnline r ∧
  socketsExtend (sockets r) (sockets r').

(** The registry is well formed: every entry names the connection object of
    a socket whose [close] event has not been processed, created for that
    device id; connection objects sit at the handle of their own socket. *)
Definition relayWF (r : DeviceRelay) : Prop :=
  (∀ id h, devices r !! id = Some h →
     ∃ c, connections r !! h = Some c ∧ dc_deviceId c = id ∧ live (sockets r) h = true) ∧
  (∀ h c, connections r !! h = Some c → dc_ws c = h ∧ (h < nextSocket r)%nat).

(** [r'] has the registry of [r], the same sockets alive, and connection
    objects for the same sockets and devices (their counters may differ). *)
Definition relayKeeps (r r' : DeviceRelay) : Prop :=
  devices r' = devices r ∧ nextSocket r' = nextSocket r ∧
  (∀ h, live (sockets r') h = live (sockets r) h) ∧
  (∀ h, match connections r !! h, connections r' !! h with
        | Some c, Some c' => dc_ws c' = dc_ws c ∧ dc_deviceId c' = dc_deviceId c
        | None, None => True
        | _, _ => False
        end).

(** The loop of [broadcastToDeviceClients] sends on socket [h] for the session
    [sid]: the session's entry leads to a connection on [h], and [h] is open. *)
Definition reaches (p : ClientProxy) (h : nat) (sid : string) : bool :=
  match getClient sid p with
  | Some c => sock_open (csockets p) (cc_ws c) && bool_decide (cc_ws c = h)
  | None => false
  end.

(** The subscribers are the three handlers of the proxy followed by one
    handler per pending request, and a request is pending exactly while its
    timer is armed. *)
Definition requestsWF (w : World) : Prop :=
  (∃ rids,
     messageHandlers (relay w)
       = [ProxyFanOut; ProxyFlush; ProxyOffline] ++ (RequestHandler <$> rids) ∧
     NoDup rids ∧
     ∀ rid, rid ∈ rids ↔ ∃ q, requests w !! rid = Some q ∧ rq_promise q = Pending) ∧
  (∀ rid q, requests w !! rid = Some q →
     (rid < nextRequest w)%nat ∧ (rq_promise q = Pending ↔ is_Some (rq_timer q))).

(** Two states of one connection object: what [handleConnection] fixed when
    it built the object is the same. *)
Definition sameClient (c c' : ClientConnection) : Prop :=
  cc_ws c' = cc_ws c ∧ cc_sessionId c' = cc_sessionId c ∧
  cc_deviceId c' = cc_deviceId c ∧ cc_userId c' = cc_userId c.

(** [p'] has the session tables of [p], the same sockets alive and the same
    connection objects (their mutable fields may differ). *)
Definition proxyKeeps (p p' : ClientProxy) : Prop :=
  clients p' = clients p ∧ deviceClients p' = deviceClients p ∧
  nextClient p' = nextClient p ∧
  (∀ h, live (csockets p') h = live (csockets p) h) ∧
  (∀ h, match clientObjs p !! h, clientObjs p' !! h with
        | Some c, Some c' => sameClient c c'
        | None, None => True
        | _, _ => False
        end).

(** The session tables are well formed: every entry of [clients] names the
    connection object built with that session id, on a socket whose [close]
    event has not been processed; connection objects sit at the handle of
    their own socket; and no device has an empty session set. *)
Definition proxyWF (p : ClientProxy) : Prop :=
  (∀ sid h, clients p !! sid = Some h →
     ∃ c, clientObjs p !! h = Some c ∧ cc_sessionId c = sid ∧ live (csockets p) h = true) ∧
  (∀ h c, clientObjs p !! h = Some c → cc_ws c = h ∧ (h < nextClient p)%nat) ∧
  (∀ id sessions, deviceClients p !! id = Some sessions → sessions ≠ ∅).

(** One call of [addLog] with what the clock returned to it. *)
Record LogCall := {
  c_level : LogService.LogLevel;
  c_message : string;
  c_source : option string;
  c_metadata : option (list (string * JValue));
  c_idNow : Z;
  c_now : Z
}.

Definition callAddLog (st : LogService.Store) (c : LogCall) : LogService.Store :=
  LogService.addLog (c_level c) (c_message c) (c_source c) (c_metadata c) (c_idNow c)
    (c_now c) st.

(** The entry a call builds when the counter has reached [counter]. *)
Definition entryOf (counter : nat) (c : LogCall) : LogService.LogEntry :=
  {| LogService.id := LogService.newId counter (c_idNow c);
     LogService.timestamp := c_now c;
     LogService.level := c_level c;
     LogService.message := c_message c;
     LogService.source := c_source c;
     LogService.metadata := c_metadata c |}.

Fixpoint entriesFrom (counter : nat) (calls : list LogCall) : list LogService.LogEntry :=
  match calls with
  | [] => []
  | c :: calls' => entryOf (S counter) c :: entriesFrom (S counter) calls'
  end.

(** The last [n] elements of a list. *)
Definition lastN {A : Type} (n : nat) (l : list A) : list A := drop (length l - n) l.

(** What the module's exports can do to the store. *)
Inductive LogOp :=
| OpAdd (c : LogCall)
| OpClear.

Definition applyOp (st : LogService.Store) (op : LogOp) : LogService.Store :=
  match op with
  | OpAdd c => callAddLog st c
  | OpClear => LogService.clearLogs st
  end.

Fixpoint noDash (s : string) : bool :=
  match s with
  | EmptyString => true
  | String a s' => negb (String.eqb (String a "") "-") && noDash s'
  end.

(** [options.limit || 100] *)
Definition effectiveLimit (options : LogService.Options) : Z :=
  match LogService.o_limit options with
  | Some n => if n =? 0 then 100 else n
  | None => 100
  end.

(** The three tests of [getLogs] on one entry. *)
Definition passes (toLowerCase : string → string) (options : LogService.Options)
    (e : LogService.LogEntry) : bool :=
  match LogService.o_level options with
  | Some l => bool_decide (LogService.level e = l)
  | None => true
  end
  && match truthy_string (LogService.o_source options) with
     | Some s => bool_decide (LogService.source e = Some s)
     | None => true
     end
  && match truthy_string (LogService.o_search options) with
     | Some s =>
         includes (toLowerCase s) (toLowerCase (LogService.message e))
         || match truthy_string (LogService.source e) with
            | Some src => includes (toLowerCase s) (toLowerCase src)
            | None => false
            end
     | None => true
     end.

(** The options of the request for the page after [e]. *)
Definition pageBefore (e : LogService.LogEntry) (options : LogService.Options)
    : LogService.Options :=
  {| LogService.o_level := LogService.o_level options;
     LogService.o_source := LogService.o_source options;
     LogService.o_search := LogService.o_search options;
     LogService.o_limit := LogService.o_limit options;
     LogService.o_beforeId := Some (LogService.id e) |}.

Fixpoint noBracket (s : string) : bool :=
  match s with
  | EmptyString => true
  | String a s' => negb (String.eqb (String a "") "]") && noBracket s'
  end.

(** Two console lines in the log buffer, and a request for pages of one. *)
Definition deviceLine : LogCall :=
  {| c_level := LogService.Info; c_message := "[Device] connected";
     c_source := Some "Device"%string; c_metadata := None; c_idNow := 7; c_now := 7 |}.

Definition clientLine : LogCall :=
  {| c_level := LogService.Warn; c_message := "[Client] Invalid message";
     c_source := Some "Client"%string; c_metadata := None; c_idNow := 9; c_now := 9 |}.

Definition demoLogs : LogService.Store :=
  foldl callAddLog LogService.empty [deviceLine; clientLine].

(** A console line whose bracketed prefix is the name of a method every
    object has, and a buffer that holds it and a device line twice each. *)
Definition methodLine : LogCall :=
  {| c_level := LogService.Error; c_message := "[toString] failed";
     c_source := Some "toString"%string; c_metadata := None; c_idNow := 11; c_now := 11 |}.

Definition mixedSources : LogService.Store :=
  foldl callAddLog LogService.empty [deviceLine; methodLine; deviceLine; methodLine].

Definition searchMessage : LogService.Options :=
  {| LogService.o_level := None; LogService.o_source := None;
     LogService.o_search := Some "message"%string;
     LogService.o_limit := None; LogService.o_beforeId := None |}.

Definition onePerPage : LogService.Options :=
  {| LogService.o_level := None; LogService.o_source := None; LogService.o_search := None;
     LogService.o_limit := Some 1; LogService.o_beforeId := None |}.

Definition levelCount (l : LogService.LogLevel) (c : LogService.LevelCounts) : Z :=
  match l with
  | LogService.Info => LogService.n_info c
  | LogService.Warn => LogService.n_warn c
  | LogService.Error => LogService.n_error c
  | LogService.Debug => LogService.n_debug c
  end.

(** What [getLogStats] has computed after the entries [l], for a buffer of
    [n] entries. *)
Definition statsAfter (n : nat) (l : list LogService.LogEntry) : LogService.Stats :=
  foldl LogService.countLog
    {| LogService.s_total := n;
       LogService.byLevel := {| LogService.n_info := 0; LogService.n_warn := 0;
                                LogService.n_error := 0; LogService.n_debug := 0 |};
       LogService.bySource := ∅; LogService.oldestTimestamp := None;
       LogService.newestTimestamp := None |} l.

(** * Properties *)

(** ** Sockets *)

Lemma sock_open_alter_send (ss : gmap nat Socket) (m : DeviceMessage) (h h' : nat) :
  sock_open (alter (ws_send m) h ss) h' = sock_open ss h'.
Proof.
  unfold sock_open. destruct (decide (h = h')) as [->|Hne].
  - rewrite lookup_alter_eq. destruct (ss !! h'); reflexivity.
  - rewrite lookup_alter_ne by done. reflexivity.
Qed.

Lemma sock_outbox_alter_send (ss : gmap nat Socket) (m : DeviceMessage) (h h' : nat) :
  sock_open ss h = true →
  sock_outbox (alter (ws_send m) h ss) h' =
  sock_outbox ss h' ++ (if decide (h = h') then [m] else []).
Proof.
  unfold sock_open, sock_outbox. intros Hopen. destruct (decide (h = h')) as [->|Hne].
  - rewrite lookup_alter_eq. destruct (ss !! h'); [reflexivity | discriminate].
  - rewrite lookup_alter_ne by done. by rewrite app_nil_r.
Qed.

Lemma foldl_preserves {A B : Type} (P : A → Prop) (f : A → B → A) (l : list B) (a : A) :
  P a → (∀ x b, P x → P (f x b)) → P (foldl f a l).
Proof.
  intros Ha Hstep. revert a Ha.
  induction l as [|b l IH]; intros a Ha; simpl; [exact Ha | apply IH, Hstep, Ha].
Qed.

(** ** Decoding a frame *)

Lemma handleAll_fold (ws : nat) (now : Z) (id : string) (vs : list Decoded) (w : World) :
  handleAll ws now id vs w =
  (foldl (λ acc m, handleDeviceMessage ws now id m acc) w (leading vs), forallb isMap vs).
Proof.
  revert w. induction vs as [|[m|] vs IH]; intros w; simpl; [done | apply IH | done].
Qed.

Lemma handleSingle_fold (ws : nat) (now : Z) (id : string) (single : option Decoded)
    (w : World) :
  handleSingle ws now id single w =
  foldl (λ acc m, handleDeviceMessage ws now id m acc) w (single_decode single).
Proof. by destruct single as [[m|]|]. Qed.

Lemma decoderAttempt_fold (ws : nat) (now : Z) (id : string)
    (decoder : option (list Decoded)) (single : option Decoded) (w : World) :
  decoderAttempt ws now id decoder single w =
  foldl (λ acc m, handleDeviceMessage ws now id m acc) w (decoderPass decoder single).
Proof.
  unfold decoderAttempt, decoderPass.
  destruct decoder as [[|v vs]|]; try apply handleSingle_fold.
  rewrite handleAll_fold. destruct (forallb isMap (v :: vs)); [done |].
  by rewrite foldl_app, handleSingle_fold.
Qed.

(** The handler publishes the messages of [decodeFrame], in order. *)
Lemma deviceMessageHandler_fold (ws : nat) (data : RawData) (now : Z) (w : World) :
  deviceMessageHandler ws data now w =
  match connections (relay w) !! ws with
  | None => w
  | Some c =>
      let w1 := with_relay (set_connections (<[ws := mark_alive now c]>)) w in
      foldl (λ acc m, handleDeviceMessage ws now (dc_deviceId c) m acc) w1 (decodeFrame data)
  end.
Proof.
  unfold deviceMessageHandler. destruct (connections (relay w) !! ws) as [c|]; [|done].
  cbv zeta. destruct data as [[[|v vs]|] decoder single|json]; cbn [decodeFrame].
  - apply handleSingle_fold.
  - rewrite handleAll_fold. destruct (forallb isMap (v :: vs)); [done |].
    by rewrite foldl_app, decoderAttempt_fold.
  - apply decoderAttempt_fold.
  - apply handleSingle_fold.
Qed.

(** ** The state cache *)

Lemma cacheStore_status_delta (m : DeviceMessage) (now : Z) (cache : DeviceStateCache) :
  type m = "status_delta"%string →
  cacheStore m now cache =
  {| status := status cache; device_info := device_info cache;
     esp_status := esp_status cache; pico_status := pico_status cache;
     lastUpdated := now |}.
Proof. intros Ht. unfold cacheStore. rewrite Ht. reflexivity. Qed.

(** C8.  Processing a [status_delta] leaves the four slots of the device's
    cache entry as they were (absent when there was no entry), sets
    [lastUpdated] to the current time, and touches neither the entries of
    other devices nor anything else the proxy holds. *)
Theorem C8_status_delta_refreshes_only (id : string) (m : DeviceMessage) (now : Z)
    (p : ClientProxy) :
  type m = "status_delta"%string →
  ∃ cache,
    deviceStateCache (updateStateCache id m now p) !! id = Some cache ∧
    lastUpdated cache = now ∧
    status cache = deviceStateCache p !! id ≫= status ∧
    device_info cache = deviceStateCache p !! id ≫= device_info ∧
    esp_status cache = deviceStateCache p !! id ≫= esp_status ∧
    pico_status cache = deviceStateCache p !! id ≫= pico_status ∧
    (∀ id', id' ≠ id →
       deviceStateCache (updateStateCache id m now p) !! id' = deviceStateCache p !! id') ∧
    set_deviceStateCache (λ _, deviceStateCache p) (updateStateCache id m now p) = p.
Proof.
  intros Ht. unfold updateStateCache. rewrite (cacheStore_status_delta _ _ _ Ht).
  eexists. split; [simpl; apply lookup_insert_eq |].
  destruct (deviceStateCache p !! id) as [old|] eqn:Hold; simpl;
    (repeat split; try reflexivity;
     [ intros id' Hne; by rewrite lookup_insert_ne | by destruct p ]).
Qed.

Lemma C8_witness :
  ∃ cache,
    deviceStateCache
      (updateStateCache demoDevice (mkMsg "status_delta" []) 7
         (updateStateCache demoDevice (mkMsg "status" []) 3 (proxy initial))) !! demoDevice
    = Some cache ∧
    lastUpdated cache = 7 ∧ status cache = Some (mkMsg "status" []).
Proof.
  destruct (C8_status_delta_refreshes_only demoDevice (mkMsg "status_delta" []) 7
              (updateStateCache demoDevice (mkMsg "status" []) 3 (proxy initial))
              eq_refl) as (cache & Hc & Ht & Hs & _).
  exists cache. split; [exact Hc | split; [exact Ht |]].
  rewrite Hs. reflexivity.
Defined.

(** ** Sending to a device and to a client *)

Lemma sendToDevice_fst (id : string) (m : DeviceMessage) (r : DeviceRelay) :
  (sendToDevice id m r).1 = isDeviceConnected id r.
Proof.
  unfold sendToDevice, isDeviceConnected.
  destruct (getConnection id r) as [c|]; [|reflexivity].
  destruct (sock_open (sockets r) (dc_ws c)); reflexivity.
Qed.

Lemma sendToDevice_offline (id : string) (m : DeviceMessage) (r : DeviceRelay) :
  isDeviceConnected id r = false → sendToDevice id m r = (false, r).
Proof.
  unfold sendToDevice, isDeviceConnected.
  destruct (getConnection id r) as [c|]; [|reflexivity].
  destruct (sock_open (sockets r) (dc_ws c)); [discriminate | reflexivity].
Qed.

Lemma sendToDevice_online (id : string) (m : DeviceMessage) (r : DeviceRelay) :
  isDeviceConnected id r = true →
  ∃ c, getConnection id r = Some c ∧ sock_open (sockets r) (dc_ws c) = true ∧
       sendToDevice id m r = (true, set_sockets (alter (ws_send m) (dc_ws c)) r).
Proof.
  unfold sendToDevice, isDeviceConnected.
  destruct (getConnection id r) as [c|]; [|discriminate].
  intros Hopen. exists c. rewrite Hopen. done.
Qed.

Lemma sendToDevice_outbox (id : string) (m : DeviceMessage) (r : DeviceRelay) :
  isDeviceConnected id r = true →
  deviceOutbox id (sendToDevice id m r).2 = deviceOutbox id r ++ [m].
Proof.
  intros Hon. destruct (sendToDevice_online id m r Hon) as (c & Hc & Hopen & ->).
  unfold deviceOutbox, getConnection in *. simpl. rewrite Hc.
  rewrite sock_outbox_alter_send by done. by rewrite decide_True.
Qed.

Lemma sendToDevice_connected (id id' : string) (m : DeviceMessage) (r : DeviceRelay) :
  isDeviceConnected id' (sendToDevice id m r).2 = isDeviceConnected id' r.
Proof.
  destruct (isDeviceConnected id r) eqn:Hon.
  - destruct (sendToDevice_online id m r Hon) as (c & Hc & Hopen & ->).
    unfold isDeviceConnected, getConnection. simpl.
    destruct (devices r !! id' ≫= λ h, connections r !! h); [|reflexivity].
    apply sock_open_alter_send.
  - by rewrite sendToDevice_offline.
Qed.

Lemma sendToClient_open (c : ClientConnection) (m : DeviceMessage) (p : ClientProxy) :
  sock_open (csockets p) (cc_ws c) = true →
  sendToClient c m p = set_csockets (alter (ws_send m) (cc_ws c)) p.
Proof. intros Hopen. unfold sendToClient. by rewrite Hopen. Qed.

Lemma sendToClient_sock_open (c : ClientConnection) (m : DeviceMessage) (p : ClientProxy)
    (h : nat) :
  sock_open (csockets (sendToClient c m p)) h = sock_open (csockets p) h.
Proof.
  unfold sendToClient. destruct (sock_open (csockets p) (cc_ws c)); [|reflexivity].
  simpl. apply sock_open_alter_send.
Qed.

Lemma sendToClient_outbox (c : ClientConnection) (m : DeviceMessage) (p : ClientProxy)
    (h : nat) :
  sock_outbox (csockets (sendToClient c m p)) h =
  sock_outbox (csockets p) h ++
  (if sock_open (csockets p) (cc_ws c) && bool_decide (cc_ws c = h) then [m] else []).
Proof.
  unfold sendToClient. destruct (sock_open (csockets p) (cc_ws c)) eqn:Hopen; simpl.
  - rewrite sock_outbox_alter_send by done.
    destruct (decide (cc_ws c = h)) as [->|Hne].
    + by rewrite bool_decide_eq_true_2.
    + by rewrite bool_decide_eq_false_2.
  - by rewrite app_nil_r.
Qed.

(** [sendToClient] writes to the socket store and to nothing else. *)
Lemma sendToClient_frame (c : ClientConnection) (m : DeviceMessage) (p : ClientProxy) :
  set_csockets (λ _, csockets p) (sendToClient c m p) = p.
Proof.
  unfold sendToClient. destruct (sock_open (csockets p) (cc_ws c)); by destruct p.
Qed.

Lemma sendToClient_cache (c : ClientConnection) (m : DeviceMessage) (p : ClientProxy) :
  deviceStateCache (sendToClient c m p) = deviceStateCache p.
Proof. by rewrite <- (sendToClient_frame c m p) at 2. Qed.

Lemma sendToClient_pending (c : ClientConnection) (m : DeviceMessage) (p : ClientProxy) :
  pendingMessages (sendToClient c m p) = pendingMessages p.
Proof. by rewrite <- (sendToClient_frame c m p) at 2. Qed.

Lemma sendToClient_clientObjs (c : ClientConnection) (m : DeviceMessage) (p : ClientProxy) :
  clientObjs (sendToClient c m p) = clientObjs p.
Proof. by rewrite <- (sendToClient_frame c m p) at 2. Qed.

Lemma sendToClient_clients (c : ClientConnection) (m : DeviceMessage) (p : ClientProxy) :
  clients (sendToClient c m p) = clients p.
Proof. by rewrite <- (sendToClient_frame c m p) at 2. Qed.

Lemma sendSlot_sock_open (c : ClientConnection) (slot : option DeviceMessage)
    (p : ClientProxy) (h : nat) :
  sock_open (csockets (sendSlot c slot p)) h = sock_open (csockets p) h.
Proof. destruct slot; [apply sendToClient_sock_open | reflexivity]. Qed.

Lemma sendSlot_outbox (c : ClientConnection) (slot : option DeviceMessage) (p : ClientProxy) :
  sock_open (csockets p) (cc_ws c) = true →
  sock_outbox (csockets (sendSlot c slot p)) (cc_ws c) =
  sock_outbox (csockets p) (cc_ws c) ++ option_list slot.
Proof.
  intros Hopen. destruct slot as [m|]; simpl; [|by rewrite app_nil_r].
  rewrite sendToClient_outbox, Hopen. by rewrite bool_decide_eq_true_2.
Qed.

Lemma sendSlot_frame (c : ClientConnection) (slot : option DeviceMessage) (p : ClientProxy) :
  set_csockets (λ _, csockets p) (sendSlot c slot p) = p.
Proof. destruct slot; [apply sendToClient_frame | by destruct p]. Qed.

Lemma cachedFrames_slots (cache : DeviceStateCache) :
  cachedFrames cache =
  option_list (status cache) ++ option_list (device_info cache) ++
  option_list (esp_status cache) ++ option_list (pico_status cache).
Proof.
  unfold cachedFrames.
  destruct (status cache), (device_info cache), (esp_status cache), (pico_status cache);
    reflexivity.
Qed.

Lemma relay_send_eq (id : string) (m : DeviceMessage) (w : World) :
  relay_send id m w =
  ((sendToDevice id m (relay w)).1, with_relay (λ _, (sendToDevice id m (relay w)).2) w).
Proof. unfold relay_send. by destruct (sendToDevice id m (relay w)). Qed.

(** ** Hydrating a new client *)

Lemma hydrate_spec (c : ClientConnection) (now : Z) (w : World) :
  sock_open (csockets (proxy w)) (cc_ws c) = true →
  let dev := cc_deviceId c in
  let online := isDeviceConnected dev (relay w) in
  let entry := deviceStateCache (proxy w) !! dev in
  let w' := hydrate c online now w in
  sock_outbox (csockets (proxy w')) (cc_ws c) =
    sock_outbox (csockets (proxy w)) (cc_ws c) ++
    (if online then from_option cachedFrames [] entry else []) ∧
  relay w' =
    (if online && from_option (λ cache, CACHE_STALE_THRESHOLD_MS <? now - lastUpdated cache)
                    true entry
     then (sendToDevice dev (request_state now) (relay w)).2
     else relay w).
Proof.
  intros Hopen dev online entry. unfold hydrate. fold dev. fold entry.
  destruct entry as [cache|], online; simpl; try (by rewrite ?app_nil_r).
  - assert (Hout :
      sock_outbox (csockets (sendSlot c (pico_status cache)
         (sendSlot c (esp_status cache)
            (sendSlot c (device_info cache)
               (sendSlot c (status cache) (proxy w)))))) (cc_ws c)
      = sock_outbox (csockets (proxy w)) (cc_ws c) ++ cachedFrames cache).
    { rewrite cachedFrames_slots, !sendSlot_outbox, <- !app_assoc;
        rewrite ?sendSlot_sock_open; done. }
    destruct (CACHE_STALE_THRESHOLD_MS <? now - lastUpdated cache);
      rewrite ?relay_send_eq; simpl; by rewrite Hout.
  - rewrite relay_send_eq. simpl. by rewrite app_nil_r.
Qed.

(** The accept path of the client proxy up to and including the [connected]
    frame, for a request that passes the three checks. *)
Lemma client_accept_shape (store : CredentialStore) (tok dev sid : string) (now : Z)
    (w : World) (sr : SessionResult) :
  tok ≠ ""%string → dev ≠ ""%string →
  verifyAccessToken store tok = Some sr →
  userOwnsDevice store (user_id sr) dev = true →
  ∃ c w2,
    step store now (ClientConnect (Some tok) (Some dev) sid) w
      = hydrate c (isDeviceConnected dev (relay w)) now w2 ∧
    cc_ws c = nextClient (proxy w) ∧ cc_deviceId c = dev ∧
    relay w2 = relay w ∧
    deviceStateCache (proxy w2) = deviceStateCache (proxy w) ∧
    sock_open (csockets (proxy w2)) (nextClient (proxy w)) = true ∧
    sock_outbox (csockets (proxy w2)) (nextClient (proxy w)) =
      [connected_frame sid dev (isDeviceConnected dev (relay w))
         (getDeviceLastSeen dev (relay w)) (access_expires_at sr) now].
Proof.
  intros Htok Hdev Hverify Howns.
  unfold step, ClientProxy_handleConnection. simpl truthy_string.
  rewrite (proj2 (String.eqb_neq tok "") Htok), (proj2 (String.eqb_neq dev "") Hdev).
  rewrite Hverify, Howns. simpl negb. cbv iota.
  eexists _, _. split; [reflexivity |].
  set (h := nextClient (proxy w)).
  assert (Hsetup : ∀ c p, clientObjs p !! h = Some c →
            csockets (setupTokenExpiryWarning h now p) = csockets p ∧
            deviceStateCache (setupTokenExpiryWarning h now p) = deviceStateCache p).
  { intros c p Hc. unfold setupTokenExpiryWarning. rewrite Hc.
    destruct (now <? accessTokenExpiresAt c - TOKEN_EXPIRY_WARNING_MS); done. }
  split; [reflexivity |]. split; [reflexivity |]. split; [reflexivity |].
  cbn [proxy with_proxy].
  match goal with
  | |- context [setupTokenExpiryWarning h now ?p] =>
      destruct (Hsetup _ p (lookup_insert_eq _ _ _)) as [Hsock Hcache]
  end.
  cbn [csockets deviceStateCache bump_totalConnections registerClient set_deviceClients
       set_clients set_clientObjs set_nextClient set_csockets] in Hsock, Hcache.
  split; [by rewrite sendToClient_cache, Hcache |].
  rewrite sendToClient_sock_open, sendToClient_outbox. cbn [cc_ws].
  rewrite bool_decide_eq_true_2 by done. rewrite Hsock.
  unfold sock_open, sock_outbox. by rewrite lookup_insert_eq.
Qed.

(** C5, as the code has it.  A client that passes the accept checks gets the
    [connected] frame and then: with the device online and a record for the
    device in the state cache, the frames in the record's [status],
    [device_info], [esp_status], [pico_status] slots in that order (absent
    slots left out, so none at all for a record without slots), and the device
    gets [{type: "request_state", timestamp}] exactly when the record is older
    than 10 s; with the device online and no record, the device gets that
    [request_state] and the client no further frame; with the device offline,
    neither the client nor the relay gets anything further. *)
Theorem C5_hydration_on_connect (store : CredentialStore) (tok dev sid : string) (now : Z)
    (w : World) (sr : SessionResult) :
  tok ≠ ""%string → dev ≠ ""%string →
  verifyAccessToken store tok = Some sr →
  userOwnsDevice store (user_id sr) dev = true →
  let h := nextClient (proxy w) in
  let w' := step store now (ClientConnect (Some tok) (Some dev) sid) w in
  let online := isDeviceConnected dev (relay w) in
  let connected :=
    connected_frame sid dev online (getDeviceLastSeen dev (relay w))
      (access_expires_at sr) now in
  let request :=
    {| type := "request_state"; deviceId := None; timestamp := Some now;
       requestId := None; message := None; fields := [] |} in
  (∀ cache, online = true → deviceStateCache (proxy w) !! dev = Some cache →
     sock_outbox (csockets (proxy w')) h
       = connected :: option_list (status cache) ++ option_list (device_info cache)
                      ++ option_list (esp_status cache) ++ option_list (pico_status cache) ∧
     (CACHE_STALE_THRESHOLD_MS < now - lastUpdated cache →
        deviceOutbox dev (relay w') = deviceOutbox dev (relay w) ++ [request]) ∧
     (now - lastUpdated cache ≤ CACHE_STALE_THRESHOLD_MS → relay w' = relay w)) ∧
  (online = true → deviceStateCache (proxy w) !! dev = None →
     sock_outbox (csockets (proxy w')) h = [connected] ∧
     deviceOutbox dev (relay w') = deviceOutbox dev (relay w) ++ [request]) ∧
  (online = false →
     sock_outbox (csockets (proxy w')) h = [connected] ∧ relay w' = relay w).
Proof.
  intros Htok Hdev Hverify Howns h w' online connected request.
  destruct (client_accept_shape store tok dev sid now w sr Htok Hdev Hverify Howns)
    as (c & w2 & Hstep & Hws & Hcdev & Hrelay & Hcache & Hopen & Hout).
  fold h in Hws, Hopen, Hout. fold w' in Hstep. fold online in Hstep, Hout.
  rewrite <- Hws in Hopen, Hout.
  destruct (hydrate_spec c now w2 Hopen) as [Hbox Hrel].
  rewrite Hcdev, Hrelay, Hcache in Hbox, Hrel. fold online in Hbox, Hrel.
  rewrite <- Hstep, Hout in Hbox. rewrite <- Hstep in Hrel. rewrite Hws in Hbox.
  fold connected in Hbox.
  split; [|split].
  - intros cache Hon Hentry. rewrite Hon, Hentry in Hbox, Hrel. simpl in Hbox, Hrel.
    rewrite cachedFrames_slots in Hbox.
    split; [exact Hbox |]. split; intros Hage.
    + rewrite (proj2 (Z.ltb_lt _ _) Hage) in Hrel. rewrite Hrel.
      by apply sendToDevice_outbox.
    + rewrite (proj2 (Z.ltb_ge _ _) Hage) in Hrel. exact Hrel.
  - intros Hon Hentry. rewrite Hon, Hentry in Hbox, Hrel. simpl in Hbox, Hrel.
    split; [exact Hbox |]. rewrite Hrel. by apply sendToDevice_outbox.
  - intros Hoff. rewrite Hoff in Hbox, Hrel. simpl in Hbox, Hrel.
    split; [exact Hbox | exact Hrel].
Qed.

Lemma C5_witness :
  sock_outbox
    (csockets (proxy (step demoStore 3100
                        (ClientConnect (Some "token-1"%string) (Some demoDevice) "session-1")
                        (run demoStore status_published initial)))) 0
  = [connected_frame "session-1" demoDevice true (Some 100) 600000 3100;
     {| type := "status"; deviceId := Some demoDevice; timestamp := Some 100;
        requestId := None; message := None; fields := [] |}] ∧
  relay (step demoStore 3100
           (ClientConnect (Some "token-1"%string) (Some demoDevice) "session-1")
           (run demoStore status_published initial))
  = relay (run demoStore status_published initial).
Proof.
  destruct (C5_hydration_on_connect demoStore "token-1" demoDevice "session-1" 3100
              (run demoStore status_published initial) demoSession
              ltac:(discriminate) ltac:(discriminate) eq_refl eq_refl)
    as [Hcached _].
  destruct (Hcached
              {| status := Some {| type := "status"; deviceId := Some demoDevice;
                                   timestamp := Some 100; requestId := None;
                                   message := None; fields := [] |};
                 device_info := None; esp_status := None; pico_status := None;
                 lastUpdated := 100 |}
              ltac:(vm_compute; reflexivity) ltac:(vm_compute; reflexivity))
    as (Hbox & _ & Hfresh).
  split; [exact Hbox | apply Hfresh; vm_compute; discriminate].
Defined.

(** C5, as the claim words it, fails for a cache that is empty of frames: a
    device whose first message is a [status_delta] has a record without slots,
    and a client accepted 3 s later, with the device online, gets no cached
    frame while the device gets no [request_state]. *)
Lemma C5_counterexample :
  isDeviceConnected demoDevice (relay (run demoStore delta_first initial)) = true ∧
  deviceStateCache (proxy (run demoStore delta_first initial)) !! demoDevice
    = Some {| status := None; device_info := None; esp_status := None;
              pico_status := None; lastUpdated := 100 |} ∧
  sock_outbox
    (csockets (proxy (step demoStore 3100
                        (ClientConnect (Some "token-1"%string) (Some demoDevice) "session-1")
                        (run demoStore delta_first initial)))) 0
    = [connected_frame "session-1" demoDevice true (Some 100) 600000 3100] ∧
  deviceOutbox demoDevice
    (relay (step demoStore 3100
              (ClientConnect (Some "token-1"%string) (Some demoDevice) "session-1")
              (run demoStore delta_first initial)))
    = deviceOutbox demoDevice (relay (run demoStore delta_first initial)).
Proof. vm_compute. repeat split. Qed.

(** ** Fan-out *)

(** [broadcastToDeviceClients] writes to client sockets and to nothing else. *)
Lemma broadcast_frame (id : string) (m : DeviceMessage) (p : ClientProxy) :
  set_csockets (λ _, ∅) (broadcastToDeviceClients id m p) = set_csockets (λ _, ∅) p.
Proof.
  unfold broadcastToDeviceClients. destruct (deviceClients p !! id) as [sessions|]; [|done].
  apply (foldl_preserves (λ acc, set_csockets (λ _, ∅) acc = set_csockets (λ _, ∅) p)); [done |].
  intros acc sid <-. destruct (getClient sid acc) as [c|]; [|done].
  by rewrite <- (sendToClient_frame c m acc) at 2.
Qed.

Lemma broadcast_cache (id : string) (m : DeviceMessage) (p : ClientProxy) :
  deviceStateCache (broadcastToDeviceClients id m p) = deviceStateCache p.
Proof. exact (f_equal deviceStateCache (broadcast_frame id m p)). Qed.

Lemma broadcast_nextClient (id : string) (m : DeviceMessage) (p : ClientProxy) :
  nextClient (broadcastToDeviceClients id m p) = nextClient p.
Proof. exact (f_equal nextClient (broadcast_frame id m p)). Qed.

Lemma broadcast_pending (id : string) (m : DeviceMessage) (p : ClientProxy) :
  pendingMessages (broadcastToDeviceClients id m p) = pendingMessages p.
Proof. exact (f_equal pendingMessages (broadcast_frame id m p)). Qed.

Lemma broadcast_clientObjs (id : string) (m : DeviceMessage) (p : ClientProxy) :
  clientObjs (broadcastToDeviceClients id m p) = clientObjs p.
Proof. exact (f_equal clientObjs (broadcast_frame id m p)). Qed.

Lemma broadcast_core (id : string) (m : DeviceMessage) (p : ClientProxy) :
  proxyCore (broadcastToDeviceClients id m p) = proxyCore p.
Proof. exact (f_equal proxyCore (broadcast_frame id m p)). Qed.

(** C10.  When the first publication the cache sees for a device is a
    [status_delta], the fan-out handler creates an entry with no slot and
    [lastUpdated] set to the current time.  A client accepted while that entry
    is at most 10 s old and the device is online gets the [connected] frame
    and nothing else, and nothing is sent to the device: the relay is left
    exactly as it was. *)
Theorem C10_delta_first_leaves_client_without_state (store : CredentialStore)
    (tok dev sid : string) (t0 now : Z) (w : World) (sr : SessionResult)
    (m : DeviceMessage) :
  tok ≠ ""%string → dev ≠ ""%string →
  verifyAccessToken store tok = Some sr →
  userOwnsDevice store (user_id sr) dev = true →
  type m = "status_delta"%string →
  deviceStateCache (proxy w) !! dev = None →
  isDeviceConnected dev (relay w) = true →
  now - t0 ≤ CACHE_STALE_THRESHOLD_MS →
  let w1 := runHandler t0 dev m w ProxyFanOut in
  let w' := step store now (ClientConnect (Some tok) (Some dev) sid) w1 in
  deviceStateCache (proxy w1) !! dev = Some (emptyCache t0) ∧
  sock_outbox (csockets (proxy w')) (nextClient (proxy w1)) =
    [connected_frame sid dev true (getDeviceLastSeen dev (relay w))
       (access_expires_at sr) now] ∧
  relay w' = relay w1.
Proof.
  intros Htok Hdev Hverify Howns Ht Hnone Hon Hage w1 w'.
  assert (Hrelay1 : relay w1 = relay w).
  { unfold w1, runHandler. rewrite Ht. reflexivity. }
  assert (Hentry : deviceStateCache (proxy w1) !! dev = Some (emptyCache t0)).
  { unfold w1, runHandler. rewrite Ht. simpl. rewrite broadcast_cache.
    unfold updateStateCache. simpl. rewrite lookup_insert_eq, Hnone. simpl.
    by rewrite (cacheStore_status_delta _ _ _ Ht). }
  split; [exact Hentry |].
  destruct (client_accept_shape store tok dev sid now w1 sr Htok Hdev Hverify Howns)
    as (c & w2 & Hstep & Hws & Hcdev & Hrelay & Hcache & Hopen & Hout).
  fold w' in Hstep. rewrite <- Hws in Hopen, Hout.
  destruct (hydrate_spec c now w2 Hopen) as [Hbox Hrel].
  rewrite Hcdev, Hrelay, Hcache, Hentry in Hbox, Hrel.
  rewrite <- Hstep, Hout in Hbox. rewrite <- Hstep in Hrel.
  rewrite Hrelay1 in *. rewrite Hon in Hbox, Hrel. simpl in Hbox, Hrel.
  rewrite (proj2 (Z.ltb_ge _ _) Hage) in Hrel.
  rewrite Hws in Hbox. split; [exact Hbox | exact Hrel].
Qed.

Lemma C10_witness :
  deviceStateCache (proxy (runHandler 100 demoDevice deltaMessage delta_world ProxyFanOut))
    !! demoDevice = Some (emptyCache 100) ∧
  sock_outbox
    (csockets (proxy (step demoStore 3100
                        (ClientConnect (Some "token-1"%string) (Some demoDevice) "session-1")
                        (runHandler 100 demoDevice deltaMessage delta_world ProxyFanOut))))
    (nextClient (proxy (runHandler 100 demoDevice deltaMessage delta_world ProxyFanOut)))
  = [connected_frame "session-1" demoDevice true
       (getDeviceLastSeen demoDevice (relay delta_world))
       (access_expires_at demoSession) 3100].
Proof.
  destruct (C10_delta_first_leaves_client_without_state demoStore "token-1" demoDevice
              "session-1" 100 3100 delta_world demoSession deltaMessage
              ltac:(discriminate) ltac:(discriminate) eq_refl eq_refl eq_refl
              ltac:(vm_compute; reflexivity) ltac:(vm_compute; reflexivity)
              ltac:(vm_compute; discriminate))
    as (Hentry & Hbox & _).
  exact (conj Hentry Hbox).
Defined.

(** ** Forwarding a client message to an unreachable device *)

Lemma forwardToDevice_offline (h : nat) (c : ClientConnection) (m : DeviceMessage) (now : Z)
    (w : World) :
  isDeviceConnected (cc_deviceId c) (relay w) = false →
  forwardToDevice h c m now w =
  with_proxy
    (λ p, let p1 := queueMessageForDevice (cc_deviceId c) (set_timestamp now m)
                      (cc_sessionId c) now (set_clientObjs (<[h := client_sent c]>) p) in
          sendToClient c
            (device_status_offline (cc_deviceId c)
               (getDeviceLastSeen (cc_deviceId c) (relay w))
               (queuedCount (cc_deviceId c) p1)) p1) w.
Proof.
  intros Hoff. unfold forwardToDevice. rewrite relay_send_eq. simpl.
  rewrite sendToDevice_offline by exact Hoff. reflexivity.
Qed.

Lemma handleClientMessage_forward (store : CredentialStore) (h : nat) (c : ClientConnection)
    (m : DeviceMessage) (now : Z) (w : World) :
  clientObjs (proxy w) !! h = Some c →
  type m ≠ "refresh_auth"%string → type m ≠ "ping"%string → type m ≠ "get_metrics"%string →
  handleClientMessage store h m now w = forwardToDevice h c m now w.
Proof.
  intros Hc H1 H2 H3. unfold handleClientMessage. rewrite Hc.
  by rewrite (proj2 (String.eqb_neq _ _) H1), (proj2 (String.eqb_neq _ _) H2),
       (proj2 (String.eqb_neq _ _) H3).
Qed.

(** C9, as the code has it.  When a forwarded client message cannot be sent,
    the client is sent one [device_status] frame with [online: false].  Its
    [lastSeen] is null when the device has no registry entry; when the device
    is still registered and only its socket is not open, [lastSeen] is the
    [lastSeen] of the registered connection. *)
Theorem C9_lastSeen_of_offline_notice (store : CredentialStore) (h : nat)
    (c : ClientConnection) (m : DeviceMessage) (now : Z) (w : World) :
  clientObjs (proxy w) !! h = Some c →
  type m ≠ "refresh_auth"%string → type m ≠ "ping"%string → type m ≠ "get_metrics"%string →
  (sendToDevice (cc_deviceId c) (set_timestamp now m) (relay w)).1 = false →
  sock_open (csockets (proxy w)) (cc_ws c) = true →
  ∃ notice,
    sock_outbox (csockets (proxy (handleClientMessage store h m now w))) (cc_ws c)
      = sock_outbox (csockets (proxy w)) (cc_ws c) ++ [notice] ∧
    type notice = "device_status"%string ∧
    field "online" (fields notice) = Some (JBool false) ∧
    (devices (relay w) !! cc_deviceId c = None →
       field "lastSeen" (fields notice) = Some JNull) ∧
    (∀ connection, getConnection (cc_deviceId c) (relay w) = Some connection →
       field "lastSeen" (fields notice) = Some (JIso (lastSeen connection))).
Proof.
  intros Hc H1 H2 H3 Hsent Hopen. rewrite sendToDevice_fst in Hsent.
  rewrite (handleClientMessage_forward store h c m now w Hc H1 H2 H3).
  rewrite (forwardToDevice_offline h c m now w Hsent).
  eexists. split.
  - cbn [proxy with_proxy]. rewrite sendToClient_outbox.
    cbn [csockets queueMessageForDevice set_pendingMessages set_clientObjs].
    rewrite Hopen, bool_decide_eq_true_2 by done. reflexivity.
  - split; [reflexivity |]. split; [reflexivity |]. split.
    + intros Hnone. simpl. unfold getDeviceLastSeen, getConnection. by rewrite Hnone.
    + intros connection Hconn. simpl. unfold getDeviceLastSeen. by rewrite Hconn.
Qed.

Lemma C9_witness :
  ∃ notice,
    sock_outbox
      (csockets (proxy (handleClientMessage demoStore 0 (mkMsg "brew_start" []) 20
                          (run demoStore closing_device initial)))) 0
      = sock_outbox (csockets (proxy (run demoStore closing_device initial))) 0 ++ [notice] ∧
    field "lastSeen" (fields notice) = Some (JIso 0).
Proof.
  destruct (C9_lastSeen_of_offline_notice demoStore 0
              {| cc_ws := 0; cc_sessionId := "session-1"; cc_userId := "user-1";
                 cc_deviceId := demoDevice; cc_connectedAt := 5; lastActivity := 5;
                 missedPongs := 0; accessTokenExpiresAt := 600000;
                 tokenExpiryTimer :=
                   Some {| fireAt := 300000; capturedExpiresAt := 600000; active := true |};
                 metrics := newMetrics; pingStartTime := None |}
              (mkMsg "brew_start" []) 20 (run demoStore closing_device initial)
              ltac:(vm_compute; reflexivity) ltac:(discriminate) ltac:(discriminate)
              ltac:(discriminate) ltac:(vm_compute; reflexivity)
              ltac:(vm_compute; reflexivity))
    as (notice & Hbox & _ & _ & _ & Hseen).
  exists notice. split; [exact Hbox |].
  apply (Hseen {| dc_ws := 0; dc_deviceId := demoDevice; dc_connectedAt := 0;
                  lastSeen := 0; missedPings := 0 |}).
  vm_compute. reflexivity.
Defined.

(** C9, as the claim words it, fails: the device has been told to close by
    [disconnectDevice] and its [close] event has not arrived yet, so
    [sendToDevice] returns false while the registry still holds the
    connection; the notice carries that connection's [lastSeen], not null. *)
Lemma C9_counterexample :
  (sendToDevice demoDevice (set_timestamp 20 (mkMsg "brew_start" []))
     (relay (run demoStore closing_device initial))).1 = false ∧
  ∃ notice,
    last (sock_outbox
            (csockets (proxy (step demoStore 20
                                (ClientFrame 0 (Some (mkMsg "brew_start" [])))
                                (run demoStore closing_device initial)))) 0)
      = Some notice ∧
    type notice = "device_status"%string ∧
    field "online" (fields notice) = Some (JBool false) ∧
    field "lastSeen" (fields notice) = Some (JIso 0) ∧
    field "lastSeen" (fields notice) ≠ Some JNull.
Proof.
  split; [vm_compute; reflexivity |].
  eexists. split; [vm_compute; reflexivity |].
  repeat split; discriminate.
Qed.

(** ** What a publication leaves alone *)

Lemma sendToClient_core (c : ClientConnection) (m : DeviceMessage) (p : ClientProxy) :
  proxyCore (sendToClient c m p) = proxyCore p.
Proof. unfold sendToClient. by destruct (sock_open (csockets p) (cc_ws c)). Qed.

Lemma sendToDevice_core (id : string) (m : DeviceMessage) (r : DeviceRelay) :
  relayCore (sendToDevice id m r).2 = relayCore r ∧
  messageHandlers (sendToDevice id m r).2 = messageHandlers r.
Proof.
  unfold sendToDevice. destruct (getConnection id r) as [c|]; [|done].
  destruct (sock_open (sockets r) (dc_ws c)); done.
Qed.

Lemma sendToDevice_sock_open (id : string) (m : DeviceMessage) (r : DeviceRelay) (h : nat) :
  sock_open (sockets (sendToDevice id m r).2) h = sock_open (sockets r) h.
Proof.
  unfold sendToDevice. destruct (getConnection id r) as [c|]; [|done].
  destruct (sock_open (sockets r) (dc_ws c)); [|done]. apply sock_open_alter_send.
Qed.

Lemma flushOne_core (id : string) (w : World) (pending : PendingMessage) :
  relayCore (relay (flushOne id w pending).1) = relayCore (relay w) ∧
  messageHandlers (relay (flushOne id w pending).1) = messageHandlers (relay w) ∧
  proxyCore (proxy (flushOne id w pending).1) = proxyCore (proxy w) ∧
  requests (flushOne id w pending).1 = requests w ∧
  nextRequest (flushOne id w pending).1 = nextRequest w ∧
  pendingMessages (proxy (flushOne id w pending).1) = pendingMessages (proxy w) ∧
  deviceStateCache (proxy (flushOne id w pending).1) = deviceStateCache (proxy w).
Proof.
  unfold flushOne. rewrite relay_send_eq.
  destruct (sendToDevice_core id (pm_message pending) (relay w)) as [Hcore Hhs].
  destruct ((sendToDevice id (pm_message pending) (relay w)).1).
  - cbn [proxy with_relay].
    destruct (getClient (clientSessionId pending) (proxy w)) as [c|]; simpl;
      rewrite ?sendToClient_cache, ?sendToClient_pending; repeat split; try done.
    apply sendToClient_core.
  - destruct (retries pending <? MAX_MESSAGE_RETRIES); simpl; done.
Qed.

Lemma flush_loop_core (id : string) (l : list PendingMessage) (w : World) :
  let w' := foldl (λ acc pending, (flushOne id acc pending).1) w l in
  relayCore (relay w') = relayCore (relay w) ∧
  messageHandlers (relay w') = messageHandlers (relay w) ∧
  proxyCore (proxy w') = proxyCore (proxy w) ∧
  requests w' = requests w ∧
  nextRequest w' = nextRequest w ∧
  pendingMessages (proxy w') = pendingMessages (proxy w) ∧
  deviceStateCache (proxy w') = deviceStateCache (proxy w).
Proof.
  apply (foldl_preserves
           (λ w', relayCore (relay w') = relayCore (relay w) ∧
                  messageHandlers (relay w') = messageHandlers (relay w) ∧
                  proxyCore (proxy w') = proxyCore (proxy w) ∧
                  requests w' = requests w ∧
                  nextRequest w' = nextRequest w ∧
                  pendingMessages (proxy w') = pendingMessages (proxy w) ∧
                  deviceStateCache (proxy w') = deviceStateCache (proxy w))); [done |].
  intros x pending (H1 & H2 & H3 & H4 & H5 & H6 & H7).
  destruct (flushOne_core id x pending) as (G1 & G2 & G3 & G4 & G5 & G6 & G7).
  repeat split; congruence.
Qed.

Lemma flushPendingMessages_core (id : string) (now : Z) (w : World) :
  let w' := flushPendingMessages id now w in
  relayCore (relay w') = relayCore (relay w) ∧
  messageHandlers (relay w') = messageHandlers (relay w) ∧
  proxyCore (proxy w') = proxyCore (proxy w) ∧
  requests w' = requests w ∧
  nextRequest w' = nextRequest w ∧
  deviceStateCache (proxy w') = deviceStateCache (proxy w) ∧
  (pendingMessages (proxy w') = pendingMessages (proxy w) ∨
   pendingMessages (proxy w') = delete id (pendingMessages (proxy w))).
Proof.
  unfold flushPendingMessages.
  destruct (pendingMessages (proxy w) !! id) as [[|pending queue]|]; try by repeat split; auto.
  destruct (flush_loop_core id
              (filter (λ pending0, expired now pending0 = false) (pending :: queue)) w)
    as (H1 & H2 & H3 & H4 & H5 & H6 & H7).
  cbn [relay proxy with_proxy requests nextRequest].
  repeat split; try done. right. simpl. by rewrite H6.
Qed.

Lemma requestHandler_core (rid : nat) (id : string) (m : DeviceMessage) (w : World) :
  relayCore (relay (requestHandler rid id m w)) = relayCore (relay w) ∧
  sockets (relay (requestHandler rid id m w)) = sockets (relay w) ∧
  proxy (requestHandler rid id m w) = proxy w ∧
  nextRequest (requestHandler rid id m w) = nextRequest w.
Proof.
  unfold requestHandler. destruct (requests w !! rid) as [q|]; [|done].
  match goal with |- context [if ?b then _ else _] => destruct b end; done.
Qed.

Lemma runHandler_core (now : Z) (id : string) (m : DeviceMessage) (w : World) (h : Handler) :
  relayCore (relay (runHandler now id m w h)) = relayCore (relay w) ∧
  proxyCore (proxy (runHandler now id m w h)) = proxyCore (proxy w) ∧
  nextRequest (runHandler now id m w h) = nextRequest w.
Proof.
  destruct h as [| | |rid]; simpl.
  - split; [by destruct (is_cached_type (type m)) |]. split.
    + rewrite broadcast_core. by destruct (is_cached_type (type m)).
    + by destruct (is_cached_type (type m)).
  - destruct (String.eqb (type m) "device_online"); [|done].
    destruct (flushPendingMessages_core id now w) as (H1 & H2 & H3 & H4 & H5 & _); done.
  - destruct (String.eqb (type m) "device_offline"); done.
  - destruct (requestHandler_core rid id m w) as (H1 & H2 & H3 & H4). by rewrite H3.
Qed.

Lemma notifyHandlers_core (ws : nat) (now : Z) (id : string) (m : DeviceMessage)
    (w : World) :
  relayCore (relay (notifyHandlers ws now id m w)) =
    relayCore (log_publication {| pub_ws := ws; pub_device := id; pub_msg := m |} (relay w)) ∧
  proxyCore (proxy (notifyHandlers ws now id m w)) = proxyCore (proxy w) ∧
  nextRequest (notifyHandlers ws now id m w) = nextRequest w.
Proof.
  unfold notifyHandlers.
  apply (foldl_preserves
           (λ w', relayCore (relay w') =
                    relayCore (log_publication
                                 {| pub_ws := ws; pub_device := id; pub_msg := m |} (relay w)) ∧
                  proxyCore (proxy w') = proxyCore (proxy w) ∧
                  nextRequest w' = nextRequest w)); [done |].
  intros x h (H1 & H2 & H3).
  destruct (runHandler_core now id m x h) as (G1 & G2 & G3).
  repeat split; congruence.
Qed.

(** ** Keep-alive counters *)

Lemma setupToken_missedPongs (h h' : nat) (now : Z) (p : ClientProxy) :
  missedPongs <$> clientObjs (setupTokenExpiryWarning h now p) !! h' =
  missedPongs <$> clientObjs p !! h'.
Proof.
  unfold setupTokenExpiryWarning. destruct (clientObjs p !! h) as [c|] eqn:Hc; [|done].
  destruct (now <? accessTokenExpiresAt c - TOKEN_EXPIRY_WARNING_MS); [|done].
  simpl. destruct (decide (h = h')) as [<-|Hne].
  - by rewrite lookup_insert_eq, Hc.
  - by rewrite lookup_insert_ne.
Qed.

Lemma handleAuthRefresh_missedPongs (store : CredentialStore) (h h' : nat)
    (m : DeviceMessage) (now : Z) (p : ClientProxy) :
  missedPongs <$> clientObjs (handleAuthRefresh store h m now p) !! h' =
  missedPongs <$> clientObjs p !! h'.
Proof.
  unfold handleAuthRefresh. destruct (clientObjs p !! h) as [c|] eqn:Hc; [|done].
  destruct (token_of m) as [newToken|]; [|by rewrite sendToClient_clientObjs].
  destruct (verifyToken store newToken) as [sessionResult|];
    [|by rewrite sendToClient_clientObjs].
  destruct (negb (String.eqb (user_id sessionResult) (cc_userId c)));
    rewrite sendToClient_clientObjs; [done |].
  rewrite setupToken_missedPongs. simpl.
  destruct (decide (h = h')) as [<-|Hne].
  - by rewrite lookup_insert_eq, Hc.
  - by rewrite lookup_insert_ne.
Qed.

Lemma forwardToDevice_missedPongs (h : nat) (c : ClientConnection) (m : DeviceMessage)
    (now : Z) (w : World) :
  clientObjs (proxy w) !! h = Some c →
  missedPongs <$> clientObjs (proxy (forwardToDevice h c m now w)) !! h
  = Some (missedPongs c).
Proof.
  intros Hc. unfold forwardToDevice. rewrite relay_send_eq.
  match goal with |- context [if ?b then _ else _] => destruct b end;
    cbn [proxy with_proxy with_relay]; rewrite ?sendToClient_clientObjs;
    simpl; by rewrite lookup_insert_eq.
Qed.

Lemma handleClientMessage_missedPongs (store : CredentialStore) (h : nat)
    (c : ClientConnection) (m : DeviceMessage) (now : Z) (w : World) :
  clientObjs (proxy w) !! h = Some c →
  missedPongs <$> clientObjs (proxy (handleClientMessage store h m now w)) !! h
  = Some (missedPongs c).
Proof.
  intros Hc. unfold handleClientMessage. rewrite Hc.
  destruct (String.eqb (type m) "refresh_auth").
  { cbn [proxy with_proxy]. by rewrite handleAuthRefresh_missedPongs, Hc. }
  destruct (String.eqb (type m) "ping").
  { cbn [proxy with_proxy]. by rewrite sendToClient_clientObjs, Hc. }
  destruct (String.eqb (type m) "get_metrics").
  { cbn [proxy with_proxy]. by rewrite sendToClient_clientObjs, Hc. }
  by apply forwardToDevice_missedPongs.
Qed.

Lemma relayCore_connections (r r' : DeviceRelay) :
  relayCore r = relayCore r' → connections r = connections r'.
Proof. unfold relayCore. congruence. Qed.

Lemma relayCore_published (r r' : DeviceRelay) :
  relayCore r = relayCore r' → published r = published r'.
Proof. unfold relayCore. congruence. Qed.

Lemma relayCore_devices (r r' : DeviceRelay) :
  relayCore r = relayCore r' → devices r = devices r'.
Proof. unfold relayCore. congruence. Qed.

Lemma handleDeviceMessage_connections (ws : nat) (now : Z) (id : string)
    (m : DeviceMessage) (w : World) :
  connections (relay (handleDeviceMessage ws now id m w)) = connections (relay w).
Proof.
  unfold handleDeviceMessage.
  destruct (notifyHandlers_core ws now id
              (set_timestamp (default now (truthy_num (timestamp m))) (set_deviceId id m)) w)
    as [Hcore _].
  exact (relayCore_connections _ _ Hcore).
Qed.

(** C3, as the code has it.  A pong frame resets the client's [missedPongs]
    to zero; a data frame from the client leaves [missedPongs] as it was.  On
    the device side both a pong frame and a message frame reset [missedPings]
    to zero. *)
Theorem C3_which_frames_reset_the_counters (store : CredentialStore) (now : Z) (w : World)
    (h : nat) (c : ClientConnection) (ws : nat) (dc : DeviceConnection) :
  clientObjs (proxy w) !! h = Some c →
  connections (relay w) !! ws = Some dc →
  missedPongs <$> clientObjs (proxy (with_proxy (clientPongHandler h now) w)) !! h
    = Some 0 ∧
  (∀ data, missedPongs <$> clientObjs (proxy (clientMessageHandler store h data now w)) !! h
           = Some (missedPongs c)) ∧
  missedPings <$> connections (relay (with_relay (devicePongHandler ws now) w)) !! ws
    = Some 0 ∧
  (∀ data, missedPings <$> connections (relay (deviceMessageHandler ws data now w)) !! ws
           = Some 0).
Proof.
  intros Hc Hdc. split; [|split; [|split]].
  - simpl. rewrite lookup_alter_eq, Hc. simpl. unfold client_pong.
    by destruct (pingStartTime c).
  - intros data. unfold clientMessageHandler. rewrite Hc.
    destruct data as [m|].
    + rewrite (handleClientMessage_missedPongs store h (client_received now c));
        [reflexivity |].
      simpl. by rewrite lookup_insert_eq.
    + simpl. by rewrite lookup_insert_eq.
  - simpl. by rewrite lookup_alter_eq, Hdc.
  - intros data. rewrite deviceMessageHandler_fold, Hdc. cbv beta iota zeta.
    match goal with
    | |- context [foldl ?f ?w0 ?l] =>
        assert (Hkeep : connections (relay (foldl f w0 l)) = connections (relay w0))
    end.
    { apply (foldl_preserves
               (λ w', connections (relay w') =
                      connections (relay (with_relay
                        (set_connections (<[ws := mark_alive now dc]>)) w)))); [done |].
      intros x m <-. apply handleDeviceMessage_connections. }
    rewrite Hkeep. simpl. by rewrite lookup_insert_eq.
Qed.

Lemma C3_witness :
  (missedPongs <$> clientObjs (proxy (run demoStore both_pinged initial)) !! 0%nat = Some 1 ∧
   missedPings <$> connections (relay (run demoStore both_pinged initial)) !! 0%nat = Some 1) ∧
  missedPongs <$>
    clientObjs (proxy (with_proxy (clientPongHandler 0 30100)
                         (run demoStore both_pinged initial))) !! 0%nat = Some 0 ∧
  missedPongs <$>
    clientObjs (proxy (clientMessageHandler demoStore 0 (Some (mkMsg "brew_start" [])) 30100
                         (run demoStore both_pinged initial))) !! 0%nat = Some 1 ∧
  missedPings <$>
    connections (relay (with_relay (devicePongHandler 0 30100)
                          (run demoStore both_pinged initial))) !! 0%nat = Some 0 ∧
  missedPings <$>
    connections (relay (deviceMessageHandler 0 (packed [mkMsg "status" []]) 30100
                          (run demoStore both_pinged initial))) !! 0%nat = Some 0.
Proof.
  destruct (C3_which_frames_reset_the_counters demoStore 30100
              (run demoStore both_pinged initial) 0
              {| cc_ws := 0; cc_sessionId := "session-1"; cc_userId := "user-1";
                 cc_deviceId := demoDevice; cc_connectedAt := 5; lastActivity := 5;
                 missedPongs := 1; accessTokenExpiresAt := 600000;
                 tokenExpiryTimer :=
                   Some {| fireAt := 300000; capturedExpiresAt := 600000; active := true |};
                 metrics := newMetrics; pingStartTime := Some 30005 |}
              0
              {| dc_ws := 0; dc_deviceId := demoDevice; dc_connectedAt := 0;
                 lastSeen := 0; missedPings := 1 |}
              ltac:(vm_compute; reflexivity) ltac:(vm_compute; reflexivity))
    as (Hpong & Hdata & Hdpong & Hframe).
  split; [split; vm_compute; reflexivity |].
  split; [exact Hpong |]. split; [exact (Hdata _) |].
  split; [exact Hdpong | exact (Hframe _)].
Defined.

(** C3, as the claim words it, fails for clients: a client that has been
    pinged once and then sends a data frame still has [missedPongs] = 1. *)
Lemma C3_counterexample :
  missedPongs <$> clientObjs (proxy (run demoStore pinged_client initial)) !! 0%nat
    = Some 1 ∧
  live (csockets (proxy (run demoStore pinged_client initial))) 0 = true ∧
  missedPongs <$>
    clientObjs (proxy (step demoStore 30100 (ClientFrame 0 (Some (mkMsg "brew_start" [])))
                         (run demoStore pinged_client initial))) !! 0%nat
    = Some 1.
Proof. vm_compute. repeat split. Qed.

(** ** The offline queue stays bounded *)

(** Case analysis on whatever the goal branches on next. *)
Ltac branch :=
  match goal with
  | |- context [match ?x with _ => _ end] =>
      lazymatch x with
      | context [match _ with _ => _ end] => fail
      | _ => destruct x eqn:?
      end
  end.

Lemma queueMessageForDevice_lookup (id : string) (m : DeviceMessage) (sid : string) (now : Z)
    (p : ClientProxy) :
  let queue := default [] (pendingMessages p !! id) in
  let entry := {| pm_message := m; pm_timestamp := now; retries := 0;
                  clientSessionId := sid |} in
  pendingMessages (queueMessageForDevice id m sid now p) !! id =
    Some ((if (MAX_QUEUED_MESSAGES <=? length queue)%nat then tail queue else queue)
          ++ [entry]) ∧
  ∀ id', id' ≠ id →
    pendingMessages (queueMessageForDevice id m sid now p) !! id' = pendingMessages p !! id'.
Proof.
  unfold queueMessageForDevice. simpl. split; [by rewrite lookup_insert_eq |].
  intros id' Hne. by rewrite lookup_insert_ne.
Qed.

Lemma queueMessageForDevice_bounded (id : string) (m : DeviceMessage) (sid : string)
    (now : Z) (p : ClientProxy) :
  queuesBounded p → queuesBounded (queueMessageForDevice id m sid now p).
Proof.
  intros Hb id' queue' Hq.
  destruct (queueMessageForDevice_lookup id m sid now p) as [Hsame Hother].
  destruct (decide (id' = id)) as [->|Hne].
  - rewrite Hsame in Hq. clear Hsame Hother.
    set (queue := default [] (pendingMessages p !! id)) in Hq.
    assert (Hlen : (length queue ≤ MAX_QUEUED_MESSAGES)%nat).
    { unfold queue. destruct (pendingMessages p !! id) as [q|] eqn:Hold.
      - exact (Hb id q Hold).
      - apply Nat.le_0_l. }
    destruct (MAX_QUEUED_MESSAGES <=? length queue)%nat eqn:Hfull;
      injection Hq as <-; rewrite length_app, length_cons, length_nil.
    + apply Nat.leb_le in Hfull. rewrite length_tl. unfold MAX_QUEUED_MESSAGES in *. lia.
    + apply Nat.leb_gt in Hfull. lia.
  - rewrite Hother in Hq by done. exact (Hb id' queue' Hq).
Qed.

Lemma cleanup_bounded (now : Z) (p : ClientProxy) :
  queuesBounded p → queuesBounded (cleanupExpiredQueuedMessages now p).
Proof.
  intros Hb id queue' Hq. unfold cleanupExpiredQueuedMessages in Hq. simpl in Hq.
  rewrite lookup_omap in Hq.
  destruct (pendingMessages p !! id) as [queue|] eqn:Hold; [|discriminate].
  simpl in Hq. specialize (Hb id queue Hold).
  pose proof (length_filter (λ pending, expired now pending = false) queue) as Hlen.
  destruct (filter (λ pending, expired now pending = false) queue) as [|x l];
    [discriminate |].
  injection Hq as <-. lia.
Qed.

Lemma queuesBounded_eq (p p' : ClientProxy) :
  pendingMessages p' = pendingMessages p → queuesBounded p → queuesBounded p'.
Proof. unfold queuesBounded. intros ->. done. Qed.

Lemma queuesBounded_delete (id : string) (p p' : ClientProxy) :
  pendingMessages p' = delete id (pendingMessages p) → queuesBounded p → queuesBounded p'.
Proof.
  unfold queuesBounded. intros -> Hb id' queue Hq.
  destruct (decide (id' = id)) as [->|Hne].
  - by rewrite lookup_delete_eq in Hq.
  - rewrite lookup_delete_ne in Hq by done. eauto.
Qed.

Lemma runHandler_bounded (now : Z) (id : string) (m : DeviceMessage) (w : World)
    (h : Handler) :
  queuesBounded (proxy w) → queuesBounded (proxy (runHandler now id m w h)).
Proof.
  intros Hb. destruct h as [| | |rid]; simpl.
  - apply (queuesBounded_eq (proxy w)); [|done].
    rewrite broadcast_pending. by destruct (is_cached_type (type m)).
  - destruct (String.eqb (type m) "device_online"); [|done].
    destruct (flushPendingMessages_core id now w) as (_ & _ & _ & _ & _ & _ & [Hp|Hp]).
    + by apply (queuesBounded_eq (proxy w)).
    + by apply (queuesBounded_delete id (proxy w)).
  - by destruct (String.eqb (type m) "device_offline").
  - destruct (requestHandler_core rid id m w) as (_ & _ & -> & _). done.
Qed.

Lemma notifyHandlers_bounded (ws : nat) (now : Z) (id : string) (m : DeviceMessage)
    (w : World) :
  queuesBounded (proxy w) → queuesBounded (proxy (notifyHandlers ws now id m w)).
Proof.
  intros Hb. unfold notifyHandlers.
  apply (foldl_preserves (λ w', queuesBounded (proxy w'))); [done |].
  intros x h Hx. by apply runHandler_bounded.
Qed.

Lemma setupToken_pending (h : nat) (now : Z) (p : ClientProxy) :
  pendingMessages (setupTokenExpiryWarning h now p) = pendingMessages p.
Proof. unfold setupTokenExpiryWarning. repeat branch; done. Qed.

Lemma hydrate_pending (c : ClientConnection) (online : bool) (now : Z) (w : World) :
  pendingMessages (proxy (hydrate c online now w)) = pendingMessages (proxy w).
Proof.
  assert (Hslot : ∀ slot p, pendingMessages (sendSlot c slot p) = pendingMessages p).
  { intros [m|] p; [apply sendToClient_pending | done]. }
  unfold hydrate. repeat branch; rewrite ?relay_send_eq; simpl; by rewrite ?Hslot.
Qed.

Lemma client_accept_pending (store : CredentialStore) (h : nat) (token device : option string)
    (sid : string) (now : Z) (w : World) :
  pendingMessages (proxy (ClientProxy_handleConnection store h token device sid now w))
  = pendingMessages (proxy w).
Proof.
  unfold ClientProxy_handleConnection. repeat branch; try done.
  rewrite hydrate_pending. simpl. by rewrite sendToClient_pending, setupToken_pending.
Qed.

Lemma handleAuthRefresh_pending (store : CredentialStore) (h : nat) (m : DeviceMessage)
    (now : Z) (p : ClientProxy) :
  pendingMessages (handleAuthRefresh store h m now p) = pendingMessages p.
Proof.
  unfold handleAuthRefresh.
  repeat branch; rewrite ?sendToClient_pending, ?setupToken_pending; done.
Qed.

Lemma forwardToDevice_bounded (h : nat) (c : ClientConnection) (m : DeviceMessage) (now : Z)
    (w : World) :
  queuesBounded (proxy w) → queuesBounded (proxy (forwardToDevice h c m now w)).
Proof.
  intros Hb. unfold forwardToDevice. rewrite relay_send_eq.
  destruct ((sendToDevice (cc_deviceId c) (set_timestamp now m) (relay w)).1) eqn:Hsent;
    cbn [fst snd relay with_proxy with_relay proxy]; rewrite ?Hsent; cbn [proxy with_proxy with_relay].
  - by apply (queuesBounded_eq (proxy w)).
  - eapply queuesBounded_eq; [apply sendToClient_pending |].
    apply queueMessageForDevice_bounded. by apply (queuesBounded_eq (proxy w)).
Qed.

Lemma handleClientMessage_bounded (store : CredentialStore) (h : nat) (m : DeviceMessage)
    (now : Z) (w : World) :
  queuesBounded (proxy w) → queuesBounded (proxy (handleClientMessage store h m now w)).
Proof.
  intros Hb. unfold handleClientMessage.
  destruct (clientObjs (proxy w) !! h) as [c|]; [|done].
  destruct (String.eqb (type m) "refresh_auth").
  { apply (queuesBounded_eq (proxy w)); [apply handleAuthRefresh_pending | done]. }
  destruct (String.eqb (type m) "ping").
  { apply (queuesBounded_eq (proxy w)); [apply sendToClient_pending | done]. }
  destruct (String.eqb (type m) "get_metrics").
  { apply (queuesBounded_eq (proxy w)); [apply sendToClient_pending | done]. }
  by apply forwardToDevice_bounded.
Qed.

Lemma pingAllClients_pending (now : Z) (p : ClientProxy) :
  pendingMessages (pingAllClients now p) = pendingMessages p.
Proof.
  unfold pingAllClients.
  apply (foldl_preserves (λ p', pendingMessages p' = pendingMessages p)); [done |].
  intros x e <-. unfold pingClient. repeat branch; done.
Qed.

Lemma cleanupClient_pending (h : nat) (p : ClientProxy) :
  pendingMessages (cleanupClient h p) = pendingMessages p.
Proof. unfold cleanupClient. repeat branch; done. Qed.

Lemma tokenTimerFired_pending (h : nat) (now : Z) (p : ClientProxy) :
  pendingMessages (tokenTimerFired h now p) = pendingMessages p.
Proof. unfold tokenTimerFired. repeat branch; rewrite ?sendToClient_pending; done. Qed.

Lemma step_bounded (store : CredentialStore) (now : Z) (ev : Event) (w : World) :
  queuesBounded (proxy w) → queuesBounded (proxy (step store now ev w)).
Proof.
  intros Hb. destruct ev; simpl.
  - unfold DeviceRelay_handleConnection. destruct (validateDevice store id key); [|done].
    apply notifyHandlers_bounded. rewrite !relay_send_eq. done.
  - by destruct (live (sockets (relay w)) ws).
  - destruct (live (sockets (relay w)) ws); [|done]. rewrite deviceMessageHandler_fold.
    destruct (connections (relay w) !! ws) as [c|]; [|done].
    apply (foldl_preserves (λ w', queuesBounded (proxy w'))); [done |].
    intros x m Hx. by apply notifyHandlers_bounded.
  - destruct (live (sockets (relay w)) ws); [|done]. unfold deviceCloseHandler.
    cbn [relay with_relay connections set_sockets].
    destruct (connections (relay w) !! ws) as [c|]; [|done].
    by apply notifyHandlers_bounded.
  - done.
  - done.
  - eapply queuesBounded_eq; [apply client_accept_pending | done].
  - by destruct (live (csockets (proxy w)) h).
  - destruct (live (csockets (proxy w)) h); [|done]. unfold clientMessageHandler.
    destruct (clientObjs (proxy w) !! h) as [c|]; [|done].
    destruct data as [m|]; [|done]. by apply handleClientMessage_bounded.
  - destruct (live (csockets (proxy w)) h); [|done].
    eapply queuesBounded_eq; [apply cleanupClient_pending | done].
  - eapply queuesBounded_eq; [apply pingAllClients_pending | done].
  - by apply cleanup_bounded.
  - eapply queuesBounded_eq; [apply tokenTimerFired_pending | done].
  - unfold sendDeviceRequest. rewrite relay_send_eq. by branch.
  - unfold requestTimeout. repeat branch; done.
Qed.

Lemma run_bounded (store : CredentialStore) (evs : list (Z * Event)) (w : World) :
  queuesBounded (proxy w) → queuesBounded (proxy (run store evs w)).
Proof.
  intros Hb. unfold run.
  apply (foldl_preserves (λ w', queuesBounded (proxy w'))); [done |].
  intros x e Hx. by apply step_bounded.
Qed.

(** C7.  In every world the event loop can reach, each device's pending
    queue holds at most 50 entries; and an enqueue on a queue that holds 50
    drops the head and appends the new entry at the tail. *)
Theorem C7_queue_capacity (store : CredentialStore) (evs : list (Z * Event)) :
  let p := proxy (run store evs initial) in
  (∀ id queue, pendingMessages p !! id = Some queue →
     (length queue ≤ MAX_QUEUED_MESSAGES)%nat) ∧
  (∀ id queue m sid now,
     pendingMessages p !! id = Some queue →
     length queue = MAX_QUEUED_MESSAGES →
     pendingMessages (queueMessageForDevice id m sid now p) !! id =
       Some (tail queue ++ [{| pm_message := m; pm_timestamp := now; retries := 0;
                               clientSessionId := sid |}])).
Proof.
  intros p. split.
  - apply (run_bounded store evs initial). intros id queue Hq.
    change (pendingMessages (proxy initial)) with (∅ : gmap string (list PendingMessage)) in Hq.
    by rewrite lookup_empty in Hq.
  - intros id queue m sid now Hq Hfull.
    destruct (queueMessageForDevice_lookup id m sid now p) as [-> _].
    rewrite Hq. change (default [] (Some queue)) with queue.
    by rewrite Hfull, Nat.leb_refl.
Qed.

Lemma C7_witness :
  length <$> pendingMessages (proxy (run demoStore full_queue initial)) !! demoDevice
    = Some 50%nat ∧
  (head <$> pendingMessages
              (queueMessageForDevice demoDevice (mkMsg "brew_stop" []) "session-1" 99
                 (proxy (run demoStore full_queue initial))) !! demoDevice)
    = Some (Some {| pm_message := set_timestamp 10 (mkMsg "brew_start" []);
                    pm_timestamp := 10; retries := 0; clientSessionId := "session-1" |}) ∧
  (length <$> pendingMessages
                (queueMessageForDevice demoDevice (mkMsg "brew_stop" []) "session-1" 99
                   (proxy (run demoStore full_queue initial))) !! demoDevice)
    = Some 50%nat.
Proof.
  destruct (C7_queue_capacity demoStore full_queue) as [_ Hevict].
  destruct (pendingMessages (proxy (run demoStore full_queue initial)) !! demoDevice)
    as [queue|] eqn:Hq; [|vm_compute in Hq; discriminate].
  assert (Hqueue : queue = replicate 50 {| pm_message := set_timestamp 10 (mkMsg "brew_start" []);
                                           pm_timestamp := 10; retries := 0;
                                           clientSessionId := "session-1" |}).
  { vm_compute in Hq. injection Hq as <-. reflexivity. }
  rewrite (Hevict demoDevice queue (mkMsg "brew_stop" []) "session-1"%string 99 Hq
             ltac:(rewrite Hqueue; reflexivity)).
  rewrite Hqueue. repeat split.
Defined.

(** ** Flushing the offline queue *)

Lemma getConnection_core (id : string) (r r' : DeviceRelay) :
  relayCore r = relayCore r' → getConnection id r = getConnection id r'.
Proof.
  intros Hcore. unfold getConnection.
  by rewrite (relayCore_connections _ _ Hcore), (relayCore_devices _ _ Hcore).
Qed.

Lemma getClient_core (sid : string) (p p' : ClientProxy) :
  proxyCore p = proxyCore p' → getClient sid p = getClient sid p'.
Proof. unfold proxyCore, getClient. intros [= -> -> _ _]. reflexivity. Qed.

Lemma notifyTarget_stable (p p' : ClientProxy) (pending : PendingMessage) :
  proxyCore p' = proxyCore p →
  (∀ h, sock_open (csockets p') h = sock_open (csockets p) h) →
  notifyTarget p' pending = notifyTarget p pending.
Proof.
  intros Hcore Hopen. unfold notifyTarget. rewrite (getClient_core _ _ _ Hcore).
  destruct (getClient (clientSessionId pending) p) as [c|]; [|done].
  simpl. by rewrite Hopen.
Qed.

Lemma isDeviceConnected_stable (id : string) (r r' : DeviceRelay) :
  relayCore r' = relayCore r →
  (∀ h, sock_open (sockets r') h = sock_open (sockets r) h) →
  isDeviceConnected id r' = isDeviceConnected id r.
Proof.
  intros Hcore Hopen. unfold isDeviceConnected. rewrite (getConnection_core _ _ _ Hcore).
  destruct (getConnection id r); [apply Hopen | done].
Qed.

Lemma flushOne_online (id : string) (w : World) (pending : PendingMessage) :
  isDeviceConnected id (relay w) = true →
  let w' := (flushOne id w pending).1 in
  deviceOutbox id (relay w') = deviceOutbox id (relay w) ++ [pm_message pending] ∧
  (∀ h, sock_open (sockets (relay w')) h = sock_open (sockets (relay w)) h) ∧
  (∀ h, sock_open (csockets (proxy w')) h = sock_open (csockets (proxy w)) h) ∧
  (∀ h, sock_outbox (csockets (proxy w')) h =
        sock_outbox (csockets (proxy w)) h ++
        (if decide (notifyTarget (proxy w) pending = Some h)
         then [queued_message_sent pending] else [])).
Proof.
  intros Hon. unfold flushOne. rewrite relay_send_eq, sendToDevice_fst, Hon.
  pose proof (sendToDevice_outbox id (pm_message pending) (relay w) Hon) as Hbox.
  pose proof (sendToDevice_sock_open id (pm_message pending) (relay w)) as Hopen.
  cbn [proxy with_relay]. unfold notifyTarget.
  destruct (getClient (clientSessionId pending) (proxy w)) as [c|]; cbn [fst relay proxy with_relay with_proxy].
  - split; [exact Hbox |]. split; [exact Hopen |].
    split; [intros h; apply sendToClient_sock_open |].
    intros h. rewrite sendToClient_outbox. f_equal. simpl.
    destruct (sock_open (csockets (proxy w)) (cc_ws c)); simpl; [|done].
    destruct (decide (cc_ws c = h)) as [->|Hne].
    + by rewrite bool_decide_eq_true_2, decide_True.
    + rewrite bool_decide_eq_false_2, decide_False by congruence. done.
  - split; [exact Hbox |]. split; [exact Hopen |]. split; [done |].
    intros h. simpl. by rewrite app_nil_r.
Qed.

Lemma flush_loop_online (id : string) (l : list PendingMessage) (w : World) :
  isDeviceConnected id (relay w) = true →
  let w' := foldl (λ acc pending, (flushOne id acc pending).1) w l in
  deviceOutbox id (relay w') = deviceOutbox id (relay w) ++ (pm_message <$> l) ∧
  (∀ h, sock_outbox (csockets (proxy w')) h =
        sock_outbox (csockets (proxy w)) h ++
        (queued_message_sent <$>
           filter (λ pending, notifyTarget (proxy w) pending = Some h) l)).
Proof.
  revert w. induction l as [|x l IH]; intros w Hon; simpl.
  - split; [by rewrite app_nil_r |]. intros h. by rewrite app_nil_r.
  - destruct (flushOne_online id w x Hon) as (Hdev & Hropen & Hcopen & Hcli).
    destruct (flushOne_core id w x) as (Hrcore & _ & Hpcore & _).
    assert (Hon1 : isDeviceConnected id (relay (flushOne id w x).1) = true).
    { rewrite <- Hon. by apply isDeviceConnected_stable. }
    destruct (IH _ Hon1) as [IHdev IHcli]. split.
    + rewrite IHdev, Hdev, <- app_assoc. reflexivity.
    + intros h. rewrite IHcli, Hcli, <- app_assoc. f_equal.
      rewrite filter_cons.
      rewrite (list_filter_iff
                 (λ pending, notifyTarget (proxy (flushOne id w x).1) pending = Some h)
                 (λ pending, notifyTarget (proxy w) pending = Some h));
        [|intros pending; by rewrite (notifyTarget_stable (proxy w))].
      by destruct (decide (notifyTarget (proxy w) x = Some h)).
Qed.

Lemma flush_loop_offline (id : string) (l : list PendingMessage) (w : World) :
  isDeviceConnected id (relay w) = false →
  foldl (λ acc pending, (flushOne id acc pending).1) w l = w.
Proof.
  intros Hoff. induction l as [|x l IH]; simpl; [done |].
  assert (Hone : (flushOne id w x).1 = w).
  { unfold flushOne. rewrite relay_send_eq, sendToDevice_offline by done. simpl.
    destruct w. by destruct (retries x <? MAX_MESSAGE_RETRIES). }
  by rewrite Hone.
Qed.

Lemma valid_messages (now : Z) (queue : list PendingMessage) :
  filter (λ pending, expired now pending = false) queue =
  filter (λ pending, now - pm_timestamp pending ≤ MESSAGE_QUEUE_TTL_MS) queue.
Proof.
  apply list_filter_iff. intros pending. unfold expired. rewrite Z.ltb_ge. reflexivity.
Qed.

(** C4.  When [device_online] is published for a device whose queue is not
    empty, the flush handler considers only the entries enqueued at most 10 s
    ago.  If the device can be sent to, their messages go to it in queue
    order, and every client socket gets, in the same order, one notice
    [{type: "queued_message_sent", originalTimestamp, messageType}] for each of
    them that it queued, carrying the time at which the entry was queued and
    the type of its message, provided the client is still registered and its
    socket is open.  If the device cannot be sent to, nothing is sent to
    anyone.  In every case the device's queue is gone afterwards and no other
    queue is touched. *)
Theorem C4_flush_on_device_online (now : Z) (id : string) (m : DeviceMessage) (w : World)
    (queue : list PendingMessage) :
  type m = "device_online"%string →
  pendingMessages (proxy w) !! id = Some queue →
  queue ≠ [] →
  let w' := runHandler now id m w ProxyFlush in
  let valid := filter (λ pending, now - pm_timestamp pending ≤ MESSAGE_QUEUE_TTL_MS) queue in
  let notice (pending : PendingMessage) :=
    {| type := "queued_message_sent"; deviceId := None; timestamp := None;
       requestId := None; message := None;
       fields := [("originalTimestamp"%string, JNum (pm_timestamp pending));
                  ("messageType"%string, JStr (type (pm_message pending)))] |} in
  pendingMessages (proxy w') = delete id (pendingMessages (proxy w)) ∧
  (isDeviceConnected id (relay w) = true →
     deviceOutbox id (relay w') = deviceOutbox id (relay w) ++ (pm_message <$> valid) ∧
     ∀ h, sock_outbox (csockets (proxy w')) h =
          sock_outbox (csockets (proxy w)) h ++
          (notice <$> filter (λ pending, notifyTarget (proxy w) pending = Some h) valid)) ∧
  (isDeviceConnected id (relay w) = false →
     relay w' = relay w ∧ csockets (proxy w') = csockets (proxy w)).
Proof.
  intros Ht Hq Hne w' valid notice. unfold w', runHandler. rewrite Ht, String.eqb_refl.
  unfold flushPendingMessages. rewrite Hq.
  destruct queue as [|pending queue]; [done |].
  rewrite valid_messages. fold valid.
  destruct (flush_loop_core id valid w) as (_ & _ & _ & _ & _ & Hpend & _).
  split; [|split].
  - cbn [proxy with_proxy pendingMessages set_pendingMessages]. by rewrite Hpend.
  - intros Hon. destruct (flush_loop_online id valid w Hon) as [Hdev Hcli].
    split; [exact Hdev | exact Hcli].
  - intros Hoff. by rewrite (flush_loop_offline id valid w Hoff).
Qed.

Lemma C4_witness :
  pendingMessages (proxy (runHandler 12000 demoDevice (mkMsg "device_online" [])
                            flush_world ProxyFlush)) !! demoDevice = None ∧
  deviceOutbox demoDevice
    (relay (runHandler 12000 demoDevice (mkMsg "device_online" []) flush_world ProxyFlush))
  = [stamped "connected" 12000 []; stamped "request_state" 12000 [];
     set_timestamp 9000 (mkMsg "brew_start" []);
     set_timestamp 10000 (mkMsg "brew_stop" [])] ∧
  drop 4 (sock_outbox
            (csockets (proxy (runHandler 12000 demoDevice (mkMsg "device_online" [])
                                flush_world ProxyFlush))) 0)
  = [{| type := "queued_message_sent"; deviceId := None; timestamp := None;
        requestId := None; message := None;
        fields := [("originalTimestamp"%string, JNum 9000);
                   ("messageType"%string, JStr "brew_start")] |};
     {| type := "queued_message_sent"; deviceId := None; timestamp := None;
        requestId := None; message := None;
        fields := [("originalTimestamp"%string, JNum 10000);
                   ("messageType"%string, JStr "brew_stop")] |}].
Proof.
  destruct (C4_flush_on_device_online 12000 demoDevice (mkMsg "device_online" [])
              flush_world
              [queuedEntry "brew_start" 1000; queuedEntry "brew_start" 9000;
               queuedEntry "brew_stop" 10000]
              eq_refl ltac:(vm_compute; reflexivity) ltac:(discriminate))
    as (Hgone & Honline & _).
  destruct (Honline ltac:(vm_compute; reflexivity)) as [Hdev Hcli].
  split; [by rewrite Hgone, lookup_delete_eq |].
  split; [rewrite Hdev | rewrite (Hcli 0%nat)]; vm_compute; reflexivity.
Defined.

(** ** The request helper *)

Lemma string_length_append (s1 s2 : string) :
  String.length (s1 +:+ s2) = (String.length s1 + String.length s2)%nat.
Proof. induction s1 as [|a s1 IH]; simpl; [done | by rewrite IH]. Qed.

Lemma response_type_not_error (t : string) : t +:+ "_response" ≠ "error"%string.
Proof.
  intros Heq. apply (f_equal String.length) in Heq.
  rewrite string_length_append in Heq. simpl in Heq. lia.
Qed.

Lemma unsubscribe_gone (h : Handler) (r : DeviceRelay) :
  h ∉ messageHandlers (unsubscribe h r).
Proof. simpl. rewrite list_elem_of_filter. intros [Hne _]. by apply Hne. Qed.

Lemma unsubscribe_other (h h' : Handler) (r : DeviceRelay) :
  h ≠ h' → h ∈ messageHandlers (unsubscribe h' r) ↔ h ∈ messageHandlers r.
Proof.
  intros Hne. simpl. rewrite list_elem_of_filter. split; [by intros [_ Hin] | by split].
Qed.

Lemma onDeviceMessage_subscribed (h : Handler) (r : DeviceRelay) :
  h ∈ messageHandlers (onDeviceMessage h r).
Proof.
  simpl. case_bool_decide; [done |]. apply elem_of_app. right. by apply list_elem_of_singleton.
Qed.

Lemma awaiting_core (rid : nat) (q : Request) (w w' : World) :
  requestCore w' = requestCore w → awaiting rid q w → awaiting rid q w'.
Proof. unfold requestCore, awaiting. intros [= -> -> ->]. done. Qed.

Lemma relay_send_requestCore (id : string) (m : DeviceMessage) (w : World) :
  requestCore (relay_send id m w).2 = requestCore w.
Proof.
  rewrite relay_send_eq. unfold requestCore. simpl.
  by rewrite (proj2 (sendToDevice_core id m (relay w))).
Qed.

Lemma flush_requestCore (id : string) (now : Z) (w : World) :
  requestCore (flushPendingMessages id now w) = requestCore w.
Proof.
  destruct (flushPendingMessages_core id now w) as (_ & H2 & _ & H4 & H5 & _).
  unfold requestCore. by rewrite H2, H4, H5.
Qed.

Lemma hydrate_requestCore (c : ClientConnection) (online : bool) (now : Z) (w : World) :
  requestCore (hydrate c online now w) = requestCore w.
Proof. unfold hydrate. repeat branch; rewrite ?relay_send_requestCore; done. Qed.

Lemma client_accept_requestCore (store : CredentialStore) (h : nat)
    (token device : option string) (sid : string) (now : Z) (w : World) :
  requestCore (ClientProxy_handleConnection store h token device sid now w) = requestCore w.
Proof.
  unfold ClientProxy_handleConnection. repeat branch; try done.
  by rewrite hydrate_requestCore.
Qed.

Lemma forwardToDevice_requestCore (h : nat) (c : ClientConnection) (m : DeviceMessage)
    (now : Z) (w : World) :
  requestCore (forwardToDevice h c m now w) = requestCore w.
Proof.
  unfold forwardToDevice.
  pose proof (relay_send_requestCore (cc_deviceId c) (set_timestamp now m)
                (with_proxy (set_clientObjs (<[h := client_sent c]>)) w)) as Hsend.
  destruct (relay_send (cc_deviceId c) (set_timestamp now m)
              (with_proxy (set_clientObjs (<[h := client_sent c]>)) w)) as [sent w2].
  destruct sent; exact Hsend.
Qed.

Lemma clientMessageHandler_requestCore (store : CredentialStore) (h : nat)
    (data : option DeviceMessage) (now : Z) (w : World) :
  requestCore (clientMessageHandler store h data now w) = requestCore w.
Proof.
  unfold clientMessageHandler, handleClientMessage. repeat branch; try done.
  by rewrite forwardToDevice_requestCore.
Qed.

Lemma pingAllDevices_handlers (r : DeviceRelay) :
  messageHandlers (pingAllDevices r) = messageHandlers r.
Proof.
  unfold pingAllDevices.
  apply (foldl_preserves (λ r', messageHandlers r' = messageHandlers r)); [done |].
  intros x e <-. unfold pingDevice. repeat branch; done.
Qed.

Lemma disconnectDevice_handlers (id : string) (r : DeviceRelay) :
  messageHandlers (disconnectDevice id r).2 = messageHandlers r.
Proof. unfold disconnectDevice. by branch. Qed.

Lemma isReply_settled (q : Request) (outcome : Promise) (id : string) (m : DeviceMessage) :
  isReply (settle outcome (clearTimeout q)) id m = isReply q id m.
Proof. reflexivity. Qed.

Lemma requestHandler_other (rid rid' : nat) (id : string) (m : DeviceMessage) (w : World) :
  rid' ≠ rid →
  requests (requestHandler rid' id m w) !! rid = requests w !! rid ∧
  (RequestHandler rid ∈ messageHandlers (relay (requestHandler rid' id m w))
   ↔ RequestHandler rid ∈ messageHandlers (relay w)) ∧
  nextRequest (requestHandler rid' id m w) = nextRequest w.
Proof.
  intros Hne. unfold requestHandler. destruct (requests w !! rid') as [q'|]; [|done].
  destruct (isReply q' id m); [|done]. cbn [requests relay nextRequest with_requests with_relay].
  split; [by rewrite lookup_insert_ne |]. split; [|done].
  apply unsubscribe_other. congruence.
Qed.

Lemma runHandler_other (rid : nat) (q : Request) (now : Z) (id : string)
    (m : DeviceMessage) (w : World) (h : Handler) :
  h ≠ RequestHandler rid →
  requests (runHandler now id m w h) !! rid = requests w !! rid ∧
  (RequestHandler rid ∈ messageHandlers (relay (runHandler now id m w h))
   ↔ RequestHandler rid ∈ messageHandlers (relay w)) ∧
  nextRequest (runHandler now id m w h) = nextRequest w.
Proof.
  intros Hne. destruct h as [| | |rid']; simpl.
  - by destruct (is_cached_type (type m)).
  - destruct (String.eqb (type m) "device_online"); [|done].
    pose proof (flush_requestCore id now w) as [= -> -> ->]. done.
  - by destruct (String.eqb (type m) "device_offline").
  - apply requestHandler_other. congruence.
Qed.

Lemma runHandler_awaiting (rid : nat) (q : Request) (now : Z) (id : string)
    (m : DeviceMessage) (w : World) (h : Handler) :
  h ≠ RequestHandler rid ∨ isReply q id m = false →
  awaiting rid q w → awaiting rid q (runHandler now id m w h).
Proof.
  intros Hcase (Hq & Hp & Ht & Hin & Hlt).
  destruct (decide (h = RequestHandler rid)) as [->|Hne].
  - destruct Hcase as [Hne|Hno]; [done |]. simpl. unfold requestHandler.
    rewrite Hq, Hno. done.
  - destruct (runHandler_other rid q now id m w h Hne) as (H1 & H2 & H3).
    unfold awaiting. rewrite H1, H2, H3. done.
Qed.

Lemma notifyHandlers_awaiting (rid : nat) (q : Request) (ws : nat) (now : Z) (id : string)
    (m : DeviceMessage) (w : World) :
  isReply q id m = false →
  awaiting rid q w → awaiting rid q (notifyHandlers ws now id m w).
Proof.
  intros Hno Haw. unfold notifyHandlers.
  apply (foldl_preserves (awaiting rid q)); [exact Haw |].
  intros x h Hx. apply runHandler_awaiting; auto.
Qed.

Lemma isReply_no_id (q : Request) (id : string) (m : DeviceMessage) :
  requestId m ≠ Some (rq_requestId q) → isReply q id m = false.
Proof.
  intros Hne. unfold isReply. rewrite bool_decide_eq_false_2 by done.
  by rewrite andb_false_r.
Qed.

Lemma foldl_preserves_in {A B : Type} (P : A → Prop) (f : A → B → A) (l : list B) (a : A) :
  P a → (∀ x b, b ∈ l → P x → P (f x b)) → P (foldl f a l).
Proof.
  revert a. induction l as [|b l IH]; intros a Ha Hstep; simpl; [exact Ha |].
  apply IH.
  - apply Hstep; [apply list_elem_of_here | exact Ha].
  - intros x b' Hin. apply Hstep. by apply list_elem_of_further.
Qed.

Lemma sendDeviceRequest_other (rid : nat) (q : Request) (deviceId : string)
    (m : DeviceMessage) (rnd : string) (timeout now : Z) (w : World) :
  awaiting rid q w → awaiting rid q (sendDeviceRequest deviceId m rnd timeout now w).2.
Proof.
  intros (Hq & Hp & Ht & Hin & Hlt). unfold sendDeviceRequest.
  match goal with
  | |- context [relay_send ?i ?msg ?w0] =>
      pose proof (relay_send_requestCore i msg w0) as Hcore;
      destruct (relay_send i msg w0) as [sent w2]
  end.
  unfold requestCore in Hcore. simpl in Hcore. injection Hcore as Hreq Hhs Hnext.
  assert (Hne : nextRequest w ≠ rid) by lia.
  assert (Hsub : RequestHandler rid ∈ messageHandlers (relay w2)).
  { rewrite Hhs. case_bool_decide; [done |]. apply elem_of_app. by left. }
  destruct sent; cbn [snd]; unfold awaiting.
  - rewrite Hreq, Hnext, lookup_insert_ne by done. repeat split; try done. lia.
  - cbn [requests relay nextRequest with_requests with_relay].
    rewrite lookup_insert_ne by done. rewrite Hreq, lookup_insert_ne by done.
    rewrite unsubscribe_other by congruence. rewrite Hnext.
    repeat split; try done. lia.
Qed.

Lemma requestTimeout_other (rid r : nat) (q : Request) (now : Z) (w : World) :
  r ≠ rid → awaiting rid q w → awaiting rid q (requestTimeout r now w).
Proof.
  intros Hne (Hq & Hp & Ht & Hin & Hlt). unfold requestTimeout.
  repeat branch; try done. unfold awaiting.
  cbn [requests relay nextRequest with_requests with_relay].
  rewrite lookup_insert_ne by done. rewrite unsubscribe_other by congruence. done.
Qed.

Lemma step_awaiting (store : CredentialStore) (rid : nat) (q : Request) (now : Z)
    (ev : Event) (w : World) :
  silent rid q ev → awaiting rid q w → awaiting rid q (step store now ev w).
Proof.
  intros Hsilent Haw. destruct ev; simpl in *.
  - unfold DeviceRelay_handleConnection.
    destruct (validateDevice store id key) as [deviceId|code reason]; [|exact Haw].
    apply notifyHandlers_awaiting; [by apply isReply_no_id |].
    eapply awaiting_core; [|exact Haw].
    rewrite !relay_send_requestCore. unfold requestCore. simpl. by branch.
  - by destruct (live (sockets (relay w)) ws).
  - destruct (live (sockets (relay w)) ws); [|exact Haw]. rewrite deviceMessageHandler_fold.
    destruct (connections (relay w) !! ws) as [c|]; [|exact Haw].
    apply (foldl_preserves_in (awaiting rid q)); [exact Haw |].
    intros x m Hin Hx. apply notifyHandlers_awaiting; [|exact Hx].
    apply isReply_no_id. exact (Hsilent m Hin).
  - destruct (live (sockets (relay w)) ws); [|exact Haw]. unfold deviceCloseHandler.
    cbn [relay with_relay connections set_sockets].
    destruct (connections (relay w) !! ws) as [c|]; [|exact Haw].
    apply notifyHandlers_awaiting; [by apply isReply_no_id | exact Haw].
  - eapply awaiting_core; [|exact Haw]. unfold requestCore. simpl.
    by rewrite pingAllDevices_handlers.
  - eapply awaiting_core; [|exact Haw]. unfold requestCore. simpl.
    by rewrite disconnectDevice_handlers.
  - eapply awaiting_core; [|exact Haw]. by rewrite client_accept_requestCore.
  - by destruct (live (csockets (proxy w)) h).
  - destruct (live (csockets (proxy w)) h); [|exact Haw].
    eapply awaiting_core; [|exact Haw]. apply clientMessageHandler_requestCore.
  - by destruct (live (csockets (proxy w)) h).
  - exact Haw.
  - exact Haw.
  - exact Haw.
  - by apply sendDeviceRequest_other.
  - by apply requestTimeout_other.
Qed.

Lemma run_awaiting (store : CredentialStore) (rid : nat) (q : Request)
    (evs : list (Z * Event)) (w : World) :
  Forall (λ e, silent rid q e.2) evs → awaiting rid q w → awaiting rid q (run store evs w).
Proof.
  intros Hsilent Haw. unfold run.
  apply (foldl_preserves_in (awaiting rid q)); [exact Haw |].
  intros x e Hin Hx. apply step_awaiting; [|exact Hx].
  rewrite Forall_forall in Hsilent. by apply Hsilent.
Qed.

(** The state after the handler has taken the reply: settled with [outcome],
    timer cleared, handler gone. *)
Lemma notifyHandlers_reply (rid : nat) (q : Request) (ws : nat) (now : Z) (id : string)
    (m : DeviceMessage) (w : World) :
  isReply q id m = true →
  awaiting rid q w →
  let outcome := if String.eqb (type m) "error"
                 then RejectedWith (default "Device error" (truthy_string (message m)))
                 else Resolved m in
  requests (notifyHandlers ws now id m w) !! rid
    = Some {| rq_deviceId := rq_deviceId q; rq_requestId := rq_requestId q;
              rq_requestType := rq_requestType q; rq_timer := None;
              rq_promise := outcome |} ∧
  RequestHandler rid ∉ messageHandlers (relay (notifyHandlers ws now id m w)).
Proof.
  intros Hreply Haw outcome.
  set (q' := {| rq_deviceId := rq_deviceId q; rq_requestId := rq_requestId q;
                rq_requestType := rq_requestType q; rq_timer := None;
                rq_promise := outcome |}).
  set (done_ := λ w' : World,
         requests w' !! rid = Some q' ∧ RequestHandler rid ∉ messageHandlers (relay w')).
  assert (Hdone : ∀ h x, done_ x → done_ (runHandler now id m x h)).
  { intros h x [Hx Hout]. destruct (decide (h = RequestHandler rid)) as [->|Hne]; unfold done_.
    - simpl. unfold requestHandler. rewrite Hx.
      change (isReply q' id m) with (isReply q id m). rewrite Hreply.
      cbn [requests relay with_requests with_relay]. rewrite lookup_insert_eq.
      split; [|apply unsubscribe_gone].
      unfold settle, q', outcome. simpl. by destruct (String.eqb (type m) "error").
    - destruct (runHandler_other rid q now id m x h Hne) as (H1 & H2 & _).
      by rewrite H1, H2. }
  assert (Hfire : ∀ l x, awaiting rid q x → RequestHandler rid ∈ l →
                         done_ (foldl (runHandler now id m) x l)).
  { induction l as [|h l IH]; intros x Hx Hin; [by apply elem_of_nil in Hin |].
    simpl. destruct (decide (h = RequestHandler rid)) as [->|Hne].
    - apply (foldl_preserves done_); [|intros; by apply Hdone].
      destruct Hx as (Hq & Hp & _). unfold done_. simpl. unfold requestHandler.
      rewrite Hq, Hreply. cbn [requests relay with_requests with_relay].
      rewrite lookup_insert_eq. split; [|apply unsubscribe_gone].
      unfold settle, q', outcome. simpl. by rewrite Hp.
    - apply IH.
      + apply runHandler_awaiting; [by left | exact Hx].
      + apply elem_of_cons in Hin as [Heq|Hin]; [congruence | exact Hin]. }
  unfold notifyHandlers. apply Hfire.
  - eapply awaiting_core; [|exact Haw]. reflexivity.
  - by destruct Haw as (_ & _ & _ & Hin & _).
Qed.

Lemma requestTimeout_fires (rid : nat) (q : Request) (due now : Z) (w : World) :
  awaiting rid q w → rq_timer q = Some due → due ≤ now →
  requests (requestTimeout rid now w) !! rid
    = Some {| rq_deviceId := rq_deviceId q; rq_requestId := rq_requestId q;
              rq_requestType := rq_requestType q; rq_timer := None;
              rq_promise := RejectedWith "Request timeout" |} ∧
  RequestHandler rid ∉ messageHandlers (relay (requestTimeout rid now w)).
Proof.
  intros (Hq & Hp & _) Hdue Hle. unfold requestTimeout.
  rewrite Hq, Hdue, (proj2 (Z.leb_le _ _) Hle).
  cbn [requests relay with_requests with_relay]. rewrite lookup_insert_eq.
  split; [|apply unsubscribe_gone]. unfold settle. simpl. by rewrite Hp.
Qed.

Lemma sendDeviceRequest_start (deviceId : string) (m : DeviceMessage) (rnd : string)
    (timeout now : Z) (w : World) :
  let rid := nextRequest w in
  let q0 := {| rq_deviceId := deviceId; rq_requestId := newRequestId now rnd;
               rq_requestType := type m; rq_timer := Some (now + timeout);
               rq_promise := Pending |} in
  let w1 := (sendDeviceRequest deviceId m rnd timeout now w).2 in
  (sendDeviceRequest deviceId m rnd timeout now w).1 = rid ∧
  (isDeviceConnected deviceId (relay w) = true → awaiting rid q0 w1) ∧
  (isDeviceConnected deviceId (relay w) = false →
     requests w1 !! rid
       = Some {| rq_deviceId := deviceId; rq_requestId := newRequestId now rnd;
                 rq_requestType := type m; rq_timer := None;
                 rq_promise := RejectedWith "Device not connected" |} ∧
     RequestHandler rid ∉ messageHandlers (relay w1)).
Proof.
  intros rid q0 w1. unfold w1, sendDeviceRequest. fold rid. fold q0.
  rewrite relay_send_eq, sendToDevice_fst. cbn [relay].
  change (isDeviceConnected deviceId (onDeviceMessage (RequestHandler rid) (relay w)))
    with (isDeviceConnected deviceId (relay w)).
  destruct (isDeviceConnected deviceId (relay w)) eqn:Hon; cbn [fst snd].
  - split; [done |]. split; [|done]. intros _. unfold awaiting.
    cbn [requests relay nextRequest with_relay].
    rewrite lookup_insert_eq, (proj2 (sendToDevice_core _ _ _)).
    split; [done |]. split; [done |]. split; [by eexists |].
    split; [apply onDeviceMessage_subscribed | lia].
  - split; [done |]. split; [done |]. intros _.
    cbn [requests relay with_requests with_relay]. rewrite lookup_insert_eq.
    split; [done | apply unsubscribe_gone].
Qed.



(** ** Replacing a device connection *)

(** C1, evaluated.  The second accepted connection closes the first socket
    with 4002 and the registry then counts one device.  When the [close]
    event of the replaced socket is processed, its handler deletes the
    registry entry of the device id, which by then belongs to the new
    connection: the count drops to 0 and [sendToDevice] fails although the new
    socket is open. *)
Theorem C1_replaced_close_empties_registry :
  (closeSent <$> sockets (relay (run demoStore replacement initial)) !! 0%nat
     = Some (Some (4002, "Replaced by new connection"%string)) ∧
   getConnectedDeviceCount (relay (run demoStore replacement initial)) = 1%nat ∧
   devices (relay (run demoStore replacement initial)) !! demoDevice = Some 1%nat) ∧
  (getConnectedDeviceCount (relay (run demoStore replacement_closed initial)) = 0%nat ∧
   devices (relay (run demoStore replacement_closed initial)) !! demoDevice = None ∧
   sock_open (sockets (relay (run demoStore replacement_closed initial))) 1 = true ∧
   (sendToDevice demoDevice (request_state 2000)
      (relay (run demoStore replacement_closed initial))).1 = false).
Proof. vm_compute. repeat split. Qed.

(** C2, evaluated.  In the replacement scenario the publications are, in
    order: [device_online] of the first session, [device_online] of the
    second session, and only then, when the replaced socket's [close] event is
    processed, [device_offline] of the first session. *)
Theorem C2_offline_published_after_new_online :
  map (λ p, (pub_ws p, type (pub_msg p)))
      (published (relay (run demoStore replacement_closed initial)))
  = [(0%nat, "device_online"%string); (1%nat, "device_online"%string);
     (0%nat, "device_offline"%string)].
Proof. vm_compute. reflexivity. Qed.

(** * Further properties of the relay plane *)

(** ** The device accept path *)











(** ** Sending only ever appends to outboxes *)

Lemma socketsExtend_refl (ss : gmap nat Socket) : socketsExtend ss ss.
Proof.
  intros h. destruct (ss !! h) as [s|]; [|done].
  repeat split. exists []. by rewrite app_nil_r.
Qed.

Lemma socketsExtend_trans (ss1 ss2 ss3 : gmap nat Socket) :
  socketsExtend ss1 ss2 → socketsExtend ss2 ss3 → socketsExtend ss1 ss3.
Proof.
  intros H12 H23 h. specialize (H12 h). specialize (H23 h).
  destruct (ss1 !! h) as [s1|], (ss2 !! h) as [s2|], (ss3 !! h) as [s3|]; try done.
  destruct H12 as (Hr & Hc & Hp & more & Ho), H23 as (Hr' & Hc' & Hp' & more' & Ho').
  split; [congruence |]. split; [congruence |]. split; [congruence |].
  exists (more ++ more'). by rewrite Ho', Ho, app_assoc.
Qed.

Lemma socketsExtend_send (ss : gmap nat Socket) (m : DeviceMessage) (h : nat) :
  socketsExtend ss (alter (ws_send m) h ss).
Proof.
  intros h'. destruct (decide (h = h')) as [->|Hne].
  - rewrite lookup_alter_eq. destruct (ss !! h') as [s|]; [|done].
    simpl. repeat split. by exists [m].
  - rewrite lookup_alter_ne by done. destruct (ss !! h') as [s|]; [|done].
    repeat split. exists []. by rewrite app_nil_r.
Qed.

Lemma socketsExtend_open (ss ss' : gmap nat Socket) (h : nat) :
  socketsExtend ss ss' → sock_open ss' h = sock_open ss h.
Proof.
  intros Hext. specialize (Hext h). unfold sock_open, is_open.
  destruct (ss !! h) as [s|], (ss' !! h) as [s'|]; try done.
  destruct Hext as (-> & _). done.
Qed.

Lemma socketsExtend_live (ss ss' : gmap nat Socket) (h : nat) :
  socketsExtend ss ss' → live ss' h = live ss h.
Proof.
  intros Hext. specialize (Hext h). unfold live.
  destruct (ss !! h) as [s|], (ss' !! h) as [s'|]; try done.
  destruct Hext as (-> & _). done.
Qed.

Lemma socketsExtend_closeSent (ss ss' : gmap nat Socket) (h : nat) :
  socketsExtend ss ss' → closeSent <$> ss' !! h = closeSent <$> ss !! h.
Proof.
  intros Hext. specialize (Hext h).
  destruct (ss !! h) as [s|], (ss' !! h) as [s'|]; try done.
  destruct Hext as (_ & Hc & _). simpl. by rewrite Hc.
Qed.

Lemma socketsExtend_outbox (ss ss' : gmap nat Socket) (h : nat) :
  socketsExtend ss ss' → ∃ more, sock_outbox ss' h = sock_outbox ss h ++ more.
Proof.
  intros Hext. specialize (Hext h). unfold sock_outbox.
  destruct (ss !! h) as [s|], (ss' !! h) as [s'|]; try done.
  - by destruct Hext as (_ & _ & _ & Hmore).
  - by exists [].
Qed.

Lemma sendToDevice_extends (id : string) (m : DeviceMessage) (r : DeviceRelay) :
  socketsExtend (sockets r) (sockets (sendToDevice id m r).2).
Proof.
  unfold sendToDevice. destruct (getConnection id r) as [c|]; [|apply socketsExtend_refl].
  destruct (sock_open (sockets r) (dc_ws c)); [|apply socketsExtend_refl].
  apply socketsExtend_send.
Qed.

Lemma sendToClient_extends (c : ClientConnection) (m : DeviceMessage) (p : ClientProxy) :
  socketsExtend (csockets p) (csockets (sendToClient c m p)).
Proof.
  unfold sendToClient.
  destruct (sock_open (csockets p) (cc_ws c)); [|apply socketsExtend_refl].
  apply socketsExtend_send.
Qed.

Lemma broadcast_extends (id : string) (m : DeviceMessage) (p : ClientProxy) :
  socketsExtend (csockets p) (csockets (broadcastToDeviceClients id m p)).
Proof.
  unfold broadcastToDeviceClients.
  destruct (deviceClients p !! id) as [sessions|]; [|apply socketsExtend_refl].
  apply (foldl_preserves (λ acc, socketsExtend (csockets p) (csockets acc)));
    [apply socketsExtend_refl |].
  intros acc sid Hacc. destruct (getClient sid acc) as [c|]; [|done].
  eapply socketsExtend_trans; [exact Hacc | apply sendToClient_extends].
Qed.

Lemma flushOne_extends (id : string) (w : World) (pending : PendingMessage) :
  socketsExtend (sockets (relay w)) (sockets (relay (flushOne id w pending).1)) ∧
  socketsExtend (csockets (proxy w)) (csockets (proxy (flushOne id w pending).1)).
Proof.
  unfold flushOne. rewrite relay_send_eq.
  pose proof (sendToDevice_extends id (pm_message pending) (relay w)) as Hdev.
  destruct ((sendToDevice id (pm_message pending) (relay w)).1).
  - cbn [proxy with_relay].
    destruct (getClient (clientSessionId pending) (proxy w)) as [c|]; simpl.
    + split; [exact Hdev | apply sendToClient_extends].
    + split; [exact Hdev | apply socketsExtend_refl].
  - destruct (retries pending <? MAX_MESSAGE_RETRIES); simpl;
      (split; [exact Hdev | apply socketsExtend_refl]).
Qed.

Lemma flushPendingMessages_extends (id : string) (now : Z) (w : World) :
  socketsExtend (sockets (relay w)) (sockets (relay (flushPendingMessages id now w))) ∧
  socketsExtend (csockets (proxy w)) (csockets (proxy (flushPendingMessages id now w))).
Proof.
  unfold flushPendingMessages.
  destruct (pendingMessages (proxy w) !! id) as [[|pending queue]|];
    try (split; apply socketsExtend_refl).
  cbn [relay proxy with_proxy csockets set_pendingMessages].
  apply (foldl_preserves
           (λ w', socketsExtend (sockets (relay w)) (sockets (relay w')) ∧
                  socketsExtend (csockets (proxy w)) (csockets (proxy w'))));
    [split; apply socketsExtend_refl |].
  intros x p [H1 H2]. destruct (flushOne_extends id x p) as [G1 G2].
  split; eapply socketsExtend_trans; eauto.
Qed.

Lemma runHandler_extends (now : Z) (id : string) (m : DeviceMessage) (w : World)
    (h : Handler) :
  socketsExtend (sockets (relay w)) (sockets (relay (runHandler now id m w h))) ∧
  socketsExtend (csockets (proxy w)) (csockets (proxy (runHandler now id m w h))).
Proof.
  destruct h as [| | |rid]; simpl.
  - split; [destruct (is_cached_type (type m)); apply socketsExtend_refl |].
    eapply socketsExtend_trans; [|apply broadcast_extends].
    destruct (is_cached_type (type m)); apply socketsExtend_refl.
  - destruct (String.eqb (type m) "device_online");
      [apply flushPendingMessages_extends | split; apply socketsExtend_refl].
  - destruct (String.eqb (type m) "device_offline"); split; apply socketsExtend_refl.
  - destruct (requestHandler_core rid id m w) as (_ & -> & -> & _).
    split; apply socketsExtend_refl.
Qed.

Lemma notifyHandlers_extends (ws : nat) (now : Z) (id : string) (m : DeviceMessage)
    (w : World) :
  socketsExtend (sockets (relay w)) (sockets (relay (notifyHandlers ws now id m w))) ∧
  socketsExtend (csockets (proxy w)) (csockets (proxy (notifyHandlers ws now id m w))).
Proof.
  unfold notifyHandlers.
  apply (foldl_preserves
           (λ w', socketsExtend (sockets (relay w)) (sockets (relay w')) ∧
                  socketsExtend (csockets (proxy w)) (csockets (proxy w'))));
    [split; apply socketsExtend_refl |].
  intros x h [H1 H2]. destruct (runHandler_extends now id m x h) as [G1 G2].
  split; eapply socketsExtend_trans; eauto.
Qed.

(** ** What leaves the registry alone *)

Lemma relayStable_refl (r : DeviceRelay) : relayStable r r.
Proof. repeat split. apply socketsExtend_refl. Qed.

Lemma relayStable_trans (r1 r2 r3 : DeviceRelay) :
  relayStable r1 r2 → relayStable r2 r3 → relayStable r1 r3.
Proof.
  intros (H1 & H2 & H3 & H4 & H5) (G1 & G2 & G3 & G4 & G5).
  repeat split; try congruence. eapply socketsExtend_trans; eauto.
Qed.

Lemma relayStable_core (r r' : DeviceRelay) :
  relayCore r' = relayCore r → socketsExtend (sockets r) (sockets r') → relayStable r r'.
Proof.
  unfold relayCore. intros Hcore Hext. injection Hcore as H1 H2 H3 H4 H5.
  by repeat split.
Qed.

Lemma sendToDevice_stable (id : string) (m : DeviceMessage) (r : DeviceRelay) :
  relayStable r (sendToDevice id m r).2.
Proof.
  apply relayStable_core; [apply sendToDevice_core | apply sendToDevice_extends].
Qed.

Lemma relay_send_stable (id : string) (m : DeviceMessage) (w : World) :
  relayStable (relay w) (relay (relay_send id m w).2).
Proof. rewrite relay_send_eq. apply sendToDevice_stable. Qed.

Lemma notifyHandlers_stable (ws : nat) (now : Z) (id : string) (m : DeviceMessage)
    (w : World) :
  relayStable (relay w) (relay (notifyHandlers ws now id m w)).
Proof.
  destruct (notifyHandlers_core ws now id m w) as [Hcore _].
  destruct (notifyHandlers_extends ws now id m w) as [Hext _].
  unfold relayCore in Hcore. simpl in Hcore. injection Hcore as H1 H2 _ H3 H4.
  by repeat split.
Qed.

Lemma publishAll_stable (ws : nat) (now : Z) (id : string) (ms : list DeviceMessage)
    (w : World) :
  relayStable (relay w)
    (relay (foldl (λ acc m, handleDeviceMessage ws now id m acc) w ms)).
Proof.
  apply (foldl_preserves (λ w', relayStable (relay w) (relay w'))); [apply relayStable_refl |].
  intros x m Hx. eapply relayStable_trans; [exact Hx | apply notifyHandlers_stable].
Qed.

Lemma hydrate_stable (c : ClientConnection) (online : bool) (now : Z) (w : World) :
  relayStable (relay w) (relay (hydrate c online now w)).
Proof.
  unfold hydrate. repeat branch; try apply relayStable_refl;
    try (apply (relay_send_stable _ _ w)).
  match goal with |- context [relay_send ?i ?m ?w0] => apply (relay_send_stable i m w0) end.
Qed.

Lemma client_accept_stable (store : CredentialStore) (h : nat) (token device : option string)
    (sid : string) (now : Z) (w : World) :
  relayStable (relay w) (relay (ClientProxy_handleConnection store h token device sid now w)).
Proof.
  unfold ClientProxy_handleConnection. repeat branch; try apply relayStable_refl.
  match goal with |- context [hydrate ?c ?o ?n ?w0] => apply (hydrate_stable c o n w0) end.
Qed.

Lemma forwardToDevice_stable (h : nat) (c : ClientConnection) (m : DeviceMessage) (now : Z)
    (w : World) :
  relayStable (relay w) (relay (forwardToDevice h c m now w)).
Proof.
  unfold forwardToDevice.
  pose proof (relay_send_stable (cc_deviceId c) (set_timestamp now m)
                (with_proxy (set_clientObjs (<[h := client_sent c]>)) w)) as Hsend.
  destruct (relay_send (cc_deviceId c) (set_timestamp now m)
              (with_proxy (set_clientObjs (<[h := client_sent c]>)) w)) as [sent w2].
  destruct sent; exact Hsend.
Qed.

Lemma clientMessageHandler_stable (store : CredentialStore) (h : nat)
    (data : option DeviceMessage) (now : Z) (w : World) :
  relayStable (relay w) (relay (clientMessageHandler store h data now w)).
Proof.
  unfold clientMessageHandler, handleClientMessage. repeat branch; try apply relayStable_refl.
  match goal with
  | |- context [forwardToDevice ?a ?b ?c ?d ?w0] => apply (forwardToDevice_stable a b c d w0)
  end.
Qed.

Lemma sendDeviceRequest_stable (deviceId : string) (m : DeviceMessage) (rnd : string)
    (timeout now : Z) (w : World) :
  relayStable (relay w) (relay (sendDeviceRequest deviceId m rnd timeout now w).2).
Proof.
  unfold sendDeviceRequest.
  match goal with
  | |- context [relay_send ?i ?msg ?w0] =>
      pose proof (relay_send_stable i msg w0) as Hsend;
      destruct (relay_send i msg w0) as [sent w2]
  end.
  destruct sent; cbn [snd relay with_requests with_relay];
    destruct Hsend as (H1 & H2 & H3 & H4 & H5); by repeat split.
Qed.

Lemma requestTimeout_stable (rid : nat) (now : Z) (w : World) :
  relayStable (relay w) (relay (requestTimeout rid now w)).
Proof.
  unfold requestTimeout. repeat branch; try apply relayStable_refl.
  repeat split. apply socketsExtend_refl.
Qed.

(** ** The registry stays well formed *)

Lemma relayKeeps_refl (r : DeviceRelay) : relayKeeps r r.
Proof. repeat split. intros h. by destruct (connections r !! h). Qed.

Lemma relayKeeps_trans (r1 r2 r3 : DeviceRelay) :
  relayKeeps r1 r2 → relayKeeps r2 r3 → relayKeeps r1 r3.
Proof.
  intros (H1 & H2 & H3 & H4) (G1 & G2 & G3 & G4).
  split; [congruence |]. split; [congruence |]. split; [intros h; by rewrite G3 |].
  intros h. specialize (H4 h). specialize (G4 h).
  destruct (connections r1 !! h), (connections r2 !! h), (connections r3 !! h); try done.
  destruct H4, G4. split; congruence.
Qed.

Lemma relayStable_keeps (r r' : DeviceRelay) : relayStable r r' → relayKeeps r r'.
Proof.
  intros (H1 & H2 & H3 & _ & H5). split; [done |]. split; [done |].
  split; [intros h; by apply socketsExtend_live |].
  intros h. rewrite H1. by destruct (connections r !! h).
Qed.

Lemma relayWF_keeps (r r' : DeviceRelay) : relayKeeps r r' → relayWF r → relayWF r'.
Proof.
  intros (Hd & Hn & Hl & Hc) [Hreg Hobj]. split.
  - intros id h Hh. rewrite Hd in Hh. destruct (Hreg id h Hh) as (c & Hch & Hid & Hlive).
    specialize (Hc h). rewrite Hch in Hc.
    destruct (connections r' !! h) as [c'|]; [|done]. destruct Hc as [_ Hsame].
    exists c'. rewrite Hl. split; [done |]. split; [congruence | done].
  - intros h c' Hc'. specialize (Hc h). rewrite Hc' in Hc.
    destruct (connections r !! h) as [c|] eqn:Hch; [|done]. destruct Hc as [Hws _].
    destruct (Hobj h c Hch) as [Hw Hlt]. rewrite Hn. split; [congruence | done].
Qed.

Lemma live_alter_keeps (f : Socket → Socket) (ss : gmap nat Socket) (h h' : nat) :
  (∀ s, bool_decide (readyState (f s) = CLOSED) = bool_decide (readyState s = CLOSED)) →
  live (alter f h ss) h' = live ss h'.
Proof.
  intros Hf. unfold live. destruct (decide (h = h')) as [->|Hne].
  - rewrite lookup_alter_eq. destruct (ss !! h') as [s|]; [|done]. simpl. by rewrite Hf.
  - by rewrite lookup_alter_ne.
Qed.

Lemma ws_close_keeps (code : Z) (reason : string) (s : Socket) :
  bool_decide (readyState (ws_close code reason s) = CLOSED)
  = bool_decide (readyState s = CLOSED).
Proof. unfold ws_close. by destruct (readyState s) eqn:Hs; simpl; rewrite ?Hs. Qed.

Lemma ws_terminate_keeps (s : Socket) :
  bool_decide (readyState (ws_terminate s) = CLOSED) = bool_decide (readyState s = CLOSED).
Proof. unfold ws_terminate. by destruct (readyState s) eqn:Hs; simpl; rewrite ?Hs. Qed.

Lemma ws_ping_keeps (s : Socket) :
  bool_decide (readyState (ws_ping s) = CLOSED) = bool_decide (readyState s = CLOSED).
Proof. unfold ws_ping. by destruct (readyState s) eqn:Hs; simpl; rewrite ?Hs. Qed.

Lemma connections_insert_keeps (r : DeviceRelay) (h : nat) (c c' : DeviceConnection) :
  connections r !! h = Some c →
  dc_ws c' = dc_ws c → dc_deviceId c' = dc_deviceId c →
  relayKeeps r (set_connections (<[h := c']>) r).
Proof.
  intros Hc Hws Hid. repeat split. intros h'. simpl.
  destruct (decide (h = h')) as [<-|Hne].
  - by rewrite lookup_insert_eq, Hc.
  - rewrite lookup_insert_ne by done. by destruct (connections r !! h').
Qed.

Lemma sockets_alter_keeps (r : DeviceRelay) (f : Socket → Socket) (h : nat) :
  (∀ s, bool_decide (readyState (f s) = CLOSED) = bool_decide (readyState s = CLOSED)) →
  relayKeeps r (set_sockets (alter f h) r).
Proof.
  intros Hf. split; [done |]. split; [done |].
  split; [intros h'; by apply live_alter_keeps |].
  intros h'. simpl. by destruct (connections r !! h').
Qed.

Lemma pingDevice_keeps (h : nat) (r : DeviceRelay) : relayKeeps r (pingDevice h r).
Proof.
  unfold pingDevice. destruct (connections r !! h) as [c|] eqn:Hc; [|apply relayKeeps_refl].
  destruct (MAX_MISSED_PINGS <? missedPings c + 1);
    (eapply relayKeeps_trans;
     [apply (connections_insert_keeps r h c (bump_missedPings c) Hc); reflexivity |]).
  - apply sockets_alter_keeps, ws_terminate_keeps.
  - apply sockets_alter_keeps, ws_ping_keeps.
Qed.

Lemma pingAllDevices_keeps (r : DeviceRelay) : relayKeeps r (pingAllDevices r).
Proof.
  unfold pingAllDevices.
  apply (foldl_preserves (relayKeeps r)); [apply relayKeeps_refl |].
  intros x e Hx. eapply relayKeeps_trans; [exact Hx | apply pingDevice_keeps].
Qed.

Lemma disconnectDevice_keeps (id : string) (r : DeviceRelay) :
  relayKeeps r (disconnectDevice id r).2.
Proof.
  unfold disconnectDevice. destruct (getConnection id r) as [c|]; [|apply relayKeeps_refl].
  apply sockets_alter_keeps, ws_close_keeps.
Qed.

Lemma devicePong_keeps (ws : nat) (now : Z) (r : DeviceRelay) :
  relayKeeps r (devicePongHandler ws now r).
Proof.
  repeat split. intros h. simpl. destruct (decide (ws = h)) as [<-|Hne].
  - rewrite lookup_alter_eq. by destruct (connections r !! ws).
  - rewrite lookup_alter_ne by done. by destruct (connections r !! h).
Qed.

Lemma deviceMessageHandler_keeps (ws : nat) (data : RawData) (now : Z) (w : World) :
  relayKeeps (relay w) (relay (deviceMessageHandler ws data now w)).
Proof.
  rewrite deviceMessageHandler_fold.
  destruct (connections (relay w) !! ws) as [c|] eqn:Hc; [|apply relayKeeps_refl].
  eapply relayKeeps_trans; [|apply relayStable_keeps, publishAll_stable].
  apply (connections_insert_keeps (relay w) ws c (mark_alive now c) Hc); reflexivity.
Qed.

(** Accepting a device on a fresh handle keeps the registry well formed. *)
Lemma device_accept_WF (store : CredentialStore) (id key : option string) (now : Z)
    (w : World) :
  relayWF (relay w) → relayWF (relay (step store now (DeviceConnect id key) w)).
Proof.
  intros [Hreg Hobj]. cbn [step]. set (ws := nextSocket (relay w)).
  assert (Hfresh : connections (relay w) !! ws = None).
  { destruct (connections (relay w) !! ws) as [c|] eqn:Hc; [|done].
    destruct (Hobj ws c Hc) as [_ Hlt]. unfold ws in Hlt. lia. }
  assert (Hlive0 : ∀ h, h ≠ ws →
            live (<[ws := freshSocket]> (sockets (relay w))) h = live (sockets (relay w)) h).
  { intros h Hne. unfold live. by rewrite lookup_insert_ne. }
  unfold DeviceRelay_handleConnection.
  destruct (validateDevice store id key) as [deviceId|code reason].
  - eapply relayWF_keeps.
    { apply relayStable_keeps. eapply relayStable_trans; [|apply notifyHandlers_stable].
      eapply relayStable_trans; [|apply relay_send_stable]. apply relay_send_stable. }
    cbn [relay with_relay].
    set (r0 := set_nextSocket (S ws) (set_sockets (<[ws := freshSocket]>) (relay w))).
    assert (Hclose : ∀ h,
      live (sockets (match getConnection deviceId r0 with
                     | Some existing =>
                         set_sockets (alter (ws_close 4002 "Replaced by new connection")
                                        (dc_ws existing)) r0
                     | None => r0
                     end)) h
      = live (<[ws := freshSocket]> (sockets (relay w))) h).
    { intros h. destruct (getConnection deviceId r0) as [existing|]; [|done].
      apply live_alter_keeps, ws_close_keeps. }
    split.
    + intros id' h Hh. simpl in Hh. simpl.
      destruct (decide (deviceId = id')) as [<-|Hne].
      * rewrite lookup_insert_eq in Hh. injection Hh as <-.
        eexists. rewrite lookup_insert_eq. split; [done |]. split; [done |].
        match goal with |- live (sockets ?r) ws = true => change (sockets r) with
          (sockets (match getConnection deviceId r0 with
                    | Some existing =>
                        set_sockets (alter (ws_close 4002 "Replaced by new connection")
                                       (dc_ws existing)) r0
                    | None => r0
                    end)) end.
        rewrite Hclose. unfold live. by rewrite lookup_insert_eq.
      * rewrite lookup_insert_ne in Hh by done.
        destruct (Hreg id' h) as (c & Hc & Hid & Hl).
        { destruct (getConnection deviceId r0); exact Hh. }
        assert (Hhne : h ≠ ws) by (intros ->; congruence).
        exists c. rewrite lookup_insert_ne by done.
        split; [by destruct (getConnection deviceId r0) |]. split; [done |].
        match goal with |- live (sockets ?r) h = true => change (sockets r) with
          (sockets (match getConnection deviceId r0 with
                    | Some existing =>
                        set_sockets (alter (ws_close 4002 "Replaced by new connection")
                                       (dc_ws existing)) r0
                    | None => r0
                    end)) end.
        by rewrite Hclose, Hlive0.
    + intros h c Hc. simpl in Hc. simpl.
      assert (Hn : nextSocket (match getConnection deviceId r0 with
                     | Some existing =>
                         set_sockets (alter (ws_close 4002 "Replaced by new connection")
                                        (dc_ws existing)) r0
                     | None => r0
                     end) = S ws) by (by destruct (getConnection deviceId r0)).
      rewrite Hn. destruct (decide (ws = h)) as [<-|Hne].
      * rewrite lookup_insert_eq in Hc. injection Hc as <-. simpl. split; [done | lia].
      * rewrite lookup_insert_ne in Hc by done.
        destruct (Hobj h c) as [Hw Hlt]; [by destruct (getConnection deviceId r0) |].
        split; [done |]. fold ws in Hlt. lia.
  - cbn [relay with_relay]. split.
    + intros id' h Hh. simpl in Hh. destruct (Hreg id' h Hh) as (c & Hc & Hid & Hl).
      assert (Hhne : h ≠ ws) by (intros ->; congruence).
      exists c. split; [done |]. split; [done |]. simpl.
      rewrite live_alter_keeps by apply ws_close_keeps. by rewrite Hlive0.
    + intros h c Hc. simpl in Hc. destruct (Hobj h c Hc) as [Hw Hlt].
      split; [done |]. simpl. fold ws in Hlt. lia.
Qed.

Lemma device_closed_WF (store : CredentialStore) (ws : nat) (now : Z) (w : World) :
  relayWF (relay w) → relayWF (relay (step store now (DeviceClosed ws) w)).
Proof.
  intros [Hreg Hobj]. cbn [step].
  destruct (live (sockets (relay w)) ws); [|by split].
  unfold deviceCloseHandler. cbn [relay with_relay connections set_sockets].
  destruct (connections (relay w) !! ws) as [c|] eqn:Hc.
  - eapply relayWF_keeps; [apply relayStable_keeps, notifyHandlers_stable |].
    cbn [relay with_relay]. split.
    + intros id' h Hh. simpl in Hh.
      destruct (decide (dc_deviceId c = id')) as [<-|Hne];
        [by rewrite lookup_delete_eq in Hh |].
      rewrite lookup_delete_ne in Hh by done.
      destruct (Hreg id' h Hh) as (c' & Hc' & Hid & Hl).
      assert (Hhne : ws ≠ h) by (intros <-; congruence).
      exists c'. split; [done |]. split; [done |]. simpl.
      unfold live. by rewrite lookup_alter_ne.
    + intros h c' Hc'. simpl in Hc'. exact (Hobj h c' Hc').
  - split.
    + intros id' h Hh. simpl in Hh. destruct (Hreg id' h Hh) as (c' & Hc' & Hid & Hl).
      assert (Hhne : ws ≠ h) by (intros <-; congruence).
      exists c'. split; [done |]. split; [done |]. simpl.
      unfold live. by rewrite lookup_alter_ne.
    + intros h c' Hc'. simpl in Hc'. exact (Hobj h c' Hc').
Qed.

Lemma step_WF (store : CredentialStore) (now : Z) (ev : Event) (w : World) :
  relayWF (relay w) → relayWF (relay (step store now ev w)).
Proof.
  intros Hwf. destruct ev.
  - by apply device_accept_WF.
  - cbn [step]. destruct (live (sockets (relay w)) ws); [|done].
    eapply relayWF_keeps; [apply devicePong_keeps | done].
  - cbn [step]. destruct (live (sockets (relay w)) ws); [|done].
    eapply relayWF_keeps; [apply deviceMessageHandler_keeps | done].
  - by apply device_closed_WF.
  - eapply relayWF_keeps; [apply (pingAllDevices_keeps (relay w)) | done].
  - eapply relayWF_keeps; [apply (disconnectDevice_keeps id (relay w)) | done].
  - cbn [step]. eapply relayWF_keeps; [|exact Hwf].
    apply relayStable_keeps.
    match goal with
    | |- context [ClientProxy_handleConnection ?s ?h ?t ?d ?i ?n ?w0] =>
        apply (client_accept_stable s h t d i n w0)
    end.
  - cbn [step]. by destruct (live (csockets (proxy w)) h).
  - cbn [step]. destruct (live (csockets (proxy w)) h); [|done].
    eapply relayWF_keeps; [apply relayStable_keeps, clientMessageHandler_stable | done].
  - cbn [step]. by destruct (live (csockets (proxy w)) h).
  - done.
  - done.
  - done.
  - eapply relayWF_keeps; [apply relayStable_keeps, sendDeviceRequest_stable | done].
  - eapply relayWF_keeps; [apply relayStable_keeps, requestTimeout_stable | done].
Qed.

Lemma run_WF (store : CredentialStore) (evs : list (Z * Event)) (w : World) :
  relayWF (relay w) → relayWF (relay (run store evs w)).
Proof.
  intros Hwf. unfold run.
  apply (foldl_preserves (λ w', relayWF (relay w'))); [exact Hwf |].
  intros x e Hx. by apply step_WF.
Qed.

Lemma initial_WF : relayWF (relay initial).
Proof.
  split.
  - intros id h Hh. change (devices (relay initial)) with (∅ : gmap string nat) in Hh.
    by rewrite lookup_empty in Hh.
  - intros h c Hc.
    change (connections (relay initial)) with (∅ : gmap nat DeviceConnection) in Hc.
    by rewrite lookup_empty in Hc.
Qed.

(** X2.  In every world the event loop can reach, each registry entry leads
    to a connection object created for that device id on the socket the entry
    names, the [close] event of that socket has not been processed, and no
    other device id is registered on the same socket. *)
Theorem X2_registry_entries_are_live (store : CredentialStore) (evs : list (Z * Event)) :
  let r := relay (run store evs initial) in
  ∀ id h, devices r !! id = Some h →
    ∃ c, getConnection id r = Some c ∧ dc_deviceId c = id ∧ dc_ws c = h ∧
         live (sockets r) h = true ∧
         (h < nextSocket r)%nat ∧
         ∀ id', devices r !! id' = Some h → id' = id.
Proof.
  intros r id h Hh.
  destruct (run_WF store evs initial initial_WF) as [Hreg Hobj]. fold r in Hreg, Hobj.
  destruct (Hreg id h Hh) as (c & Hc & Hid & Hl). destruct (Hobj h c Hc) as [Hws Hlt].
  exists c. unfold getConnection. rewrite Hh. simpl.
  repeat split; try done.
  intros id' Hh'. destruct (Hreg id' h Hh') as (c' & Hc' & Hid' & _). congruence.
Qed.

Lemma X2_witness :
  ∃ c, getConnection demoDevice (relay (run demoStore replacement initial)) = Some c ∧
       dc_deviceId c = demoDevice ∧ dc_ws c = 1%nat ∧
       live (sockets (relay (run demoStore replacement initial))) 1 = true.
Proof.
  destruct (X2_registry_entries_are_live demoStore replacement demoDevice 1%nat
              ltac:(vm_compute; reflexivity)) as (c & H1 & H2 & H3 & H4 & _).
  exists c. repeat split; assumption.
Defined.

Lemma isDeviceConnected_relayStable (id : string) (r r' : DeviceRelay) :
  relayStable r r' → isDeviceConnected id r' = isDeviceConnected id r.
Proof.
  intros (H1 & H2 & _ & _ & H5). unfold isDeviceConnected, getConnection. rewrite H1, H2.
  destruct (devices r !! id ≫= λ h, connections r !! h); [|done].
  by apply socketsExtend_open.
Qed.

Lemma deviceOutbox_relayStable (id : string) (r r' : DeviceRelay) :
  relayStable r r' → ∃ more, deviceOutbox id r' = deviceOutbox id r ++ more.
Proof.
  intros (H1 & H2 & _ & _ & H5). unfold deviceOutbox, getConnection. rewrite H1, H2.
  destruct (devices r !! id ≫= λ h, connections r !! h); [|by exists []].
  by apply socketsExtend_outbox.
Qed.

(** X3.  An accepted device connection, in any reachable world: the registry
    maps the id to the new socket and is otherwise unchanged, the device is
    connected and flagged online in the store, [device_online] is the one
    publication added, the new socket has been sent [connected] and then
    [request_state] before anything else, and a socket that was registered
    for the id and open has been closed with 4002. *)
Theorem X3_accepted_device_connection (store : CredentialStore) (evs : list (Z * Event))
    (id key : option string) (now : Z) (i : string) :
  let w := run store evs initial in
  validateDevice store id key = Accepted i →
  let ws := nextSocket (relay w) in
  let w' := step store now (DeviceConnect id key) w in
  devices (relay w') = <[i := ws]> (devices (relay w)) ∧
  connections (relay w') !! ws
    = Some {| dc_ws := ws; dc_deviceId := i; dc_connectedAt := now; lastSeen := now;
              missedPings := 0 |} ∧
  isDeviceConnected i (relay w') = true ∧
  dbOnline (relay w') !! i = Some true ∧
  published (relay w')
    = published (relay w)
      ++ [{| pub_ws := ws; pub_device := i; pub_msg := mkMsg "device_online" [] |}] ∧
  (∃ more, sock_outbox (sockets (relay w')) ws
           = stamped "connected" now [] :: stamped "request_state" now [] :: more) ∧
  (∀ old, devices (relay w) !! i = Some old → sock_open (sockets (relay w)) old = true →
     closeSent <$> sockets (relay w') !! old
       = Some (Some (4002, "Replaced by new connection"%string)) ∧
     sock_open (sockets (relay w')) old = false).
Proof.
  intros w Hacc ws w'.
  destruct (run_WF store evs initial initial_WF) as [Hreg Hobj]. fold w in Hreg, Hobj.
  unfold w'. cbn [step]. fold ws. unfold DeviceRelay_handleConnection. rewrite Hacc.
  set (r0 := set_nextSocket (S ws) (set_sockets (<[ws := freshSocket]>) (relay w))).
  set (connection := {| dc_ws := ws; dc_deviceId := i; dc_connectedAt := now;
                        lastSeen := now; missedPings := 0 |}).
  set (closed := match getConnection i r0 with
                 | Some existing =>
                     set_sockets (alter (ws_close 4002 "Replaced by new connection")
                                    (dc_ws existing)) r0
                 | None => r0
                 end).
  set (r1 := updateDeviceStatus i true
               (set_devices (<[i := ws]>) (set_connections (<[ws := connection]>) closed))).
  rewrite !relay_send_eq. cbn [snd relay with_relay].
  set (r2 := (sendToDevice i (stamped "connected" now []) r1).2).
  set (r3 := (sendToDevice i (request_state now) r2).2).
  match goal with
  | |- context [notifyHandlers ws now i ?m ?x] => set (w3 := x); set (msg := m)
  end.
  assert (Hr3 : relay w3 = r3) by reflexivity.
  (* the sockets after the old connection, if any, has been told to close *)
  assert (Hold : ∀ existing, getConnection i r0 = Some existing → dc_ws existing ≠ ws).
  { intros existing Hex. unfold getConnection in Hex. simpl in Hex.
    destruct (devices (relay w) !! i) as [old|] eqn:Hi; [|discriminate]. simpl in Hex.
    destruct (Hobj old existing Hex) as [-> Hlt]. unfold ws. lia. }
  assert (Hnew : sockets closed !! ws = Some freshSocket).
  { unfold closed. destruct (getConnection i r0) as [existing|] eqn:Hex; simpl.
    - rewrite lookup_alter_ne by (by apply Hold). by rewrite lookup_insert_eq.
    - by rewrite lookup_insert_eq. }
  assert (Hdevs : devices closed = devices (relay w))
    by (unfold closed; by destruct (getConnection i r0)).
  assert (Hconns : connections closed = connections (relay w))
    by (unfold closed; by destruct (getConnection i r0)).
  assert (Hpub : published closed = published (relay w))
    by (unfold closed; by destruct (getConnection i r0)).
  assert (Hget1 : getConnection i r1 = Some connection).
  { unfold getConnection. simpl. rewrite lookup_insert_eq. simpl. by rewrite lookup_insert_eq. }
  assert (Hon1 : isDeviceConnected i r1 = true).
  { unfold isDeviceConnected. rewrite Hget1. simpl. unfold sock_open. by rewrite Hnew. }
  assert (Hbox1 : deviceOutbox i r1 = []).
  { unfold deviceOutbox. rewrite Hget1. simpl. unfold sock_outbox. by rewrite Hnew. }
  assert (Hon2 : isDeviceConnected i r2 = true)
    by (unfold r2; by rewrite sendToDevice_connected).
  assert (Hbox3 : deviceOutbox i r3 = [stamped "connected" now []; request_state now]).
  { unfold r3. rewrite sendToDevice_outbox by done.
    unfold r2. rewrite sendToDevice_outbox by done. by rewrite Hbox1. }
  assert (Hst13 : relayStable r1 r3).
  { eapply relayStable_trans; apply sendToDevice_stable. }
  assert (Hst : relayStable r1 (relay (notifyHandlers ws now i msg w3))).
  { eapply relayStable_trans; [exact Hst13 |]. rewrite <- Hr3. apply notifyHandlers_stable. }
  destruct Hst as (Hc & Hd & Hn & Hdb & Hext).
  split; [rewrite Hd; simpl; by rewrite Hdevs |].
  split; [rewrite Hc; simpl; by rewrite lookup_insert_eq |].
  split.
  { rewrite (isDeviceConnected_relayStable i r1); [done |]. by repeat split. }
  split; [rewrite Hdb; simpl; by rewrite lookup_insert_eq |].
  split.
  { destruct (notifyHandlers_core ws now i msg w3) as [Hcore _].
    rewrite (relayCore_published _ _ Hcore).
    assert (Hp3 : published r3 = published (relay w)).
    { unfold r3. rewrite (relayCore_published _ _ (proj1 (sendToDevice_core _ _ _))).
      unfold r2. rewrite (relayCore_published _ _ (proj1 (sendToDevice_core _ _ _))).
      exact Hpub. }
    change (published r3 ++ [{| pub_ws := ws; pub_device := i; pub_msg := msg |}]
            = published (relay w) ++ [{| pub_ws := ws; pub_device := i; pub_msg := msg |}]).
    by rewrite Hp3. }
  split.
  { destruct (deviceOutbox_relayStable i r3 (relay (notifyHandlers ws now i msg w3)))
      as [more Hmore]; [rewrite <- Hr3; apply notifyHandlers_stable |].
    exists more. rewrite Hbox3 in Hmore. cbn [app] in Hmore.
    change (request_state now) with (stamped "request_state" now []) in Hmore.
    rewrite <- Hmore.
    unfold deviceOutbox, getConnection. rewrite Hd, Hc. fold (getConnection i r1).
    by rewrite Hget1. }
  intros old Hi Hopen.
  destruct (Hreg i old Hi) as (c & Hcold & _ & _). destruct (Hobj old c Hcold) as [Hws Hlt].
  assert (Hex : getConnection i r0 = Some c).
  { unfold getConnection. simpl. rewrite Hi. simpl. exact Hcold. }
  assert (Hne : old ≠ ws) by (unfold ws; lia).
  assert (Hs1 : ∃ s, sockets (relay w) !! old = Some s ∧ readyState s = OPEN ∧
                     sockets r1 !! old = Some (ws_close 4002 "Replaced by new connection" s)).
  { unfold sock_open in Hopen. destruct (sockets (relay w) !! old) as [s|] eqn:Hs;
      [|discriminate].
    exists s. split; [done |]. split; [by apply bool_decide_eq_true_1 in Hopen |].
    unfold r1, closed. rewrite Hex, Hws. simpl. rewrite lookup_alter_eq.
    by rewrite lookup_insert_ne, Hs by done. }
  destruct Hs1 as (s & Hs & Hready & Hs1).
  rewrite (socketsExtend_closeSent _ _ old Hext), (socketsExtend_open _ _ old Hext).
  unfold sock_open. rewrite Hs1. unfold ws_close. rewrite Hready. done.
Qed.

Lemma X3_witness :
  devices (relay (step demoStore 1000 (DeviceConnect (Some demoDevice) (Some demoKey))
                    (run demoStore [(0, DeviceConnect (Some demoDevice) (Some demoKey))]
                       initial)))
  = <[demoDevice := nextSocket
        (relay (run demoStore [(0, DeviceConnect (Some demoDevice) (Some demoKey))]
                  initial))]>
      (devices (relay (run demoStore [(0, DeviceConnect (Some demoDevice) (Some demoKey))]
                         initial))).
Proof.
  exact (proj1 (X3_accepted_device_connection demoStore
                  [(0, DeviceConnect (Some demoDevice) (Some demoKey))]
                  (Some demoDevice) (Some demoKey) 1000 demoDevice
                  ltac:(vm_compute; reflexivity))).
Defined.

(** ** The proxy's subscriptions are permanent *)

Lemma runHandler_keeps_subscription (h0 : Handler) (now : Z) (id : string)
    (m : DeviceMessage) (w : World) (h : Handler) :
  (∀ rid, h0 ≠ RequestHandler rid) →
  h0 ∈ messageHandlers (relay w) → h0 ∈ messageHandlers (relay (runHandler now id m w h)).
Proof.
  intros Hproxy Hin. destruct h as [| | |rid]; simpl.
  - by destruct (is_cached_type (type m)).
  - destruct (String.eqb (type m) "device_online"); [|done].
    destruct (flushPendingMessages_core id now w) as (_ & -> & _). done.
  - by destruct (String.eqb (type m) "device_offline").
  - unfold requestHandler. destruct (requests w !! rid) as [q|]; [|done].
    destruct (isReply q id m); [|done]. cbn [relay with_requests with_relay].
    by apply unsubscribe_other.
Qed.

Lemma notifyHandlers_keeps_subscription (h0 : Handler) (ws : nat) (now : Z) (id : string)
    (m : DeviceMessage) (w : World) :
  (∀ rid, h0 ≠ RequestHandler rid) →
  h0 ∈ messageHandlers (relay w) →
  h0 ∈ messageHandlers (relay (notifyHandlers ws now id m w)).
Proof.
  intros Hproxy Hin. unfold notifyHandlers.
  apply (foldl_preserves (λ w', h0 ∈ messageHandlers (relay w'))); [exact Hin |].
  intros x h Hx. by apply runHandler_keeps_subscription.
Qed.

Lemma step_keeps_subscription (h0 : Handler) (store : CredentialStore) (now : Z)
    (ev : Event) (w : World) :
  (∀ rid, h0 ≠ RequestHandler rid) →
  h0 ∈ messageHandlers (relay w) → h0 ∈ messageHandlers (relay (step store now ev w)).
Proof.
  intros Hproxy Hin. destruct ev; cbn [step].
  - unfold DeviceRelay_handleConnection.
    destruct (validateDevice store id key) as [deviceId|code reason]; [|exact Hin].
    apply notifyHandlers_keeps_subscription; [done |].
    rewrite !relay_send_eq. cbn [snd relay with_relay].
    rewrite !(proj2 (sendToDevice_core _ _ _)). simpl. by branch.
  - by destruct (live (sockets (relay w)) ws).
  - destruct (live (sockets (relay w)) ws); [|exact Hin]. rewrite deviceMessageHandler_fold.
    destruct (connections (relay w) !! ws) as [c|]; [|exact Hin].
    apply (foldl_preserves (λ w', h0 ∈ messageHandlers (relay w'))); [exact Hin |].
    intros x m Hx. by apply notifyHandlers_keeps_subscription.
  - destruct (live (sockets (relay w)) ws); [|exact Hin]. unfold deviceCloseHandler.
    cbn [relay with_relay connections set_sockets].
    destruct (connections (relay w) !! ws) as [c|]; [|exact Hin].
    by apply notifyHandlers_keeps_subscription.
  - cbn [relay with_relay]. by rewrite pingAllDevices_handlers.
  - cbn [relay with_relay]. by rewrite disconnectDevice_handlers.
  - match goal with
    | |- context [ClientProxy_handleConnection ?s ?h ?t ?d ?i ?n ?w0] =>
        pose proof (client_accept_requestCore s h t d i n w0) as Hcore
    end.
    unfold requestCore in Hcore. injection Hcore as _ Hhs _. by rewrite Hhs.
  - by destruct (live (csockets (proxy w)) h).
  - destruct (live (csockets (proxy w)) h); [|exact Hin].
    pose proof (clientMessageHandler_requestCore store h data now w) as Hcore.
    unfold requestCore in Hcore. injection Hcore as _ Hhs _. by rewrite Hhs.
  - by destruct (live (csockets (proxy w)) h).
  - exact Hin.
  - exact Hin.
  - exact Hin.
  - unfold sendDeviceRequest.
    match goal with
    | |- context [relay_send ?i ?msg ?w0] =>
        pose proof (relay_send_requestCore i msg w0) as Hcore;
        destruct (relay_send i msg w0) as [sent w2]
    end.
    unfold requestCore in Hcore. simpl in Hcore. injection Hcore as _ Hhs _.
    assert (Hsub : h0 ∈ messageHandlers (relay w2)).
    { rewrite Hhs. case_bool_decide; [done |]. apply elem_of_app. by left. }
    destruct sent; cbn [snd relay with_requests with_relay]; [done |].
    by apply unsubscribe_other.
  - unfold requestTimeout. repeat branch; try done.
    cbn [relay with_requests with_relay]. by apply unsubscribe_other.
Qed.

Lemma run_keeps_subscription (h0 : Handler) (store : CredentialStore)
    (evs : list (Z * Event)) (w : World) :
  (∀ rid, h0 ≠ RequestHandler rid) →
  h0 ∈ messageHandlers (relay w) → h0 ∈ messageHandlers (relay (run store evs w)).
Proof.
  intros Hproxy Hin. unfold run.
  apply (foldl_preserves (λ w', h0 ∈ messageHandlers (relay w'))); [exact Hin |].
  intros x e Hx. by apply step_keeps_subscription.
Qed.

Lemma reachable_subscriptions (store : CredentialStore) (evs : list (Z * Event)) :
  let hs := messageHandlers (relay (run store evs initial)) in
  ProxyFanOut ∈ hs ∧ ProxyFlush ∈ hs ∧ ProxyOffline ∈ hs.
Proof.
  repeat split; apply run_keeps_subscription; try done;
    change (messageHandlers (relay initial)) with [ProxyFanOut; ProxyFlush; ProxyOffline];
    set_solver.
Qed.

Lemma foldl_establish {A B : Type} (P : A → Prop) (f : A → B → A) (l : list B) (a : A)
    (b0 : B) :
  b0 ∈ l → (∀ x, P (f x b0)) → (∀ x b, P x → P (f x b)) → P (foldl f a l).
Proof.
  intros Hin Hest Hkeep. revert a. induction l as [|b l IH]; intros a.
  - by apply elem_of_nil in Hin.
  - simpl. apply elem_of_cons in Hin as [<-|Hin].
    + apply foldl_preserves; [apply Hest | exact Hkeep].
    + by apply IH.
Qed.

(** ** A device goes offline *)

Lemma offline_clears_cache (ws : nat) (now : Z) (id : string) (w : World) :
  ProxyOffline ∈ messageHandlers (relay w) →
  deviceStateCache (proxy (notifyHandlers ws now id (mkMsg "device_offline" []) w)) !! id
  = None.
Proof.
  intros Hin. unfold notifyHandlers.
  apply (foldl_establish (λ w', deviceStateCache (proxy w') !! id = None) _ _ _ ProxyOffline);
    [exact Hin | |].
  - intros x. simpl. apply lookup_delete_eq.
  - intros x h Hx. destruct h as [| | |rid]; simpl.
    + by rewrite broadcast_cache.
    + exact Hx.
    + apply lookup_delete_eq.
    + destruct (requestHandler_core rid id (mkMsg "device_offline" []) x) as (_ & _ & -> & _).
      exact Hx.
Qed.

(** X4.  When the [close] event of a device's registered socket is processed,
    in any reachable world: the registry loses exactly that device's entry,
    the device counts as disconnected with no last-seen time, the store flags
    it offline, [device_offline] is the one publication added, and the
    proxy's state cache for the device is empty. *)
Theorem X4_registered_device_closes (store : CredentialStore) (evs : list (Z * Event))
    (ws : nat) (now : Z) (c : DeviceConnection) :
  let w := run store evs initial in
  connections (relay w) !! ws = Some c →
  devices (relay w) !! dc_deviceId c = Some ws →
  let w' := step store now (DeviceClosed ws) w in
  devices (relay w') = delete (dc_deviceId c) (devices (relay w)) ∧
  isDeviceConnected (dc_deviceId c) (relay w') = false ∧
  getDeviceLastSeen (dc_deviceId c) (relay w') = None ∧
  dbOnline (relay w') !! dc_deviceId c = Some false ∧
  published (relay w')
    = published (relay w)
      ++ [{| pub_ws := ws; pub_device := dc_deviceId c;
             pub_msg := mkMsg "device_offline" [] |}] ∧
  deviceStateCache (proxy w') !! dc_deviceId c = None.
Proof.
  intros w Hc Hreg w'.
  destruct (run_WF store evs initial initial_WF) as [Hwf _]. fold w in Hwf.
  destruct (Hwf (dc_deviceId c) ws Hreg) as (c' & _ & _ & Hlive).
  destruct (reachable_subscriptions store evs) as (_ & _ & Hoff). fold w in Hoff.
  unfold w'. cbn [step]. rewrite Hlive. unfold deviceCloseHandler.
  cbn [relay with_relay connections set_sockets]. rewrite Hc.
  match goal with
  | |- context [notifyHandlers ws now ?i ?m ?x] => set (w1 := x)
  end.
  destruct (notifyHandlers_stable ws now (dc_deviceId c) (mkMsg "device_offline" []) w1)
    as (Hcs & Hds & _ & Hdb & _).
  destruct (notifyHandlers_core ws now (dc_deviceId c) (mkMsg "device_offline" []) w1)
    as [Hcore _].
  assert (Hdevs : devices (relay (notifyHandlers ws now (dc_deviceId c)
                                     (mkMsg "device_offline" []) w1))
                  = delete (dc_deviceId c) (devices (relay w))) by (by rewrite Hds).
  split; [exact Hdevs |].
  split; [unfold isDeviceConnected, getConnection; by rewrite Hdevs, lookup_delete_eq |].
  split; [unfold getDeviceLastSeen, getConnection; by rewrite Hdevs, lookup_delete_eq |].
  split; [rewrite Hdb; simpl; by rewrite lookup_insert_eq |].
  split; [exact (relayCore_published _ _ Hcore) |].
  by apply offline_clears_cache.
Qed.

Lemma X4_witness :
  devices (relay (step demoStore 50 (DeviceClosed 0%nat)
                    (run demoStore [(0, DeviceConnect (Some demoDevice) (Some demoKey))]
                       initial)))
  = delete demoDevice
      (devices (relay (run demoStore [(0, DeviceConnect (Some demoDevice) (Some demoKey))]
                         initial))).
Proof.
  exact (proj1 (X4_registered_device_closes demoStore
                  [(0, DeviceConnect (Some demoDevice) (Some demoKey))] 0%nat 50
                  {| dc_ws := 0; dc_deviceId := demoDevice; dc_connectedAt := 0;
                     lastSeen := 0; missedPings := 0 |}
                  ltac:(vm_compute; reflexivity) ltac:(vm_compute; reflexivity))).
Defined.

(** ** A device comes online: accept and flush together *)

Lemma foldl_phase {A B : Type} `{EqDecision B} (P Q : A → Prop) (f : A → B → A)
    (l : list B) (a : A) (b0 : B) :
  P a → b0 ∈ l →
  (∀ x b, b ≠ b0 → P x → P (f x b)) →
  (∀ x, P x → Q (f x b0)) →
  (∀ x b, Q x → Q (f x b)) →
  Q (foldl f a l).
Proof.
  intros Ha Hin Hp Hswitch Hq. revert a Ha. induction l as [|b l IH]; intros a Ha.
  - by apply elem_of_nil in Hin.
  - simpl. destruct (decide (b = b0)) as [->|Hne].
    + apply foldl_preserves; [by apply Hswitch | exact Hq].
    + apply elem_of_cons in Hin as [Heq|Hin]; [congruence |].
      apply IH; [exact Hin | by apply Hp].
Qed.

Lemma deviceOutbox_same (id : string) (r r' : DeviceRelay) :
  relayCore r' = relayCore r → sockets r' = sockets r →
  deviceOutbox id r' = deviceOutbox id r ∧ isDeviceConnected id r' = isDeviceConnected id r.
Proof.
  intros Hcore Hs. unfold deviceOutbox, isDeviceConnected.
  rewrite (getConnection_core id r' r Hcore), Hs. done.
Qed.

Lemma flushPendingMessages_online (id : string) (now : Z) (w : World) :
  isDeviceConnected id (relay w) = true →
  deviceOutbox id (relay (flushPendingMessages id now w))
    = deviceOutbox id (relay w)
      ++ (pm_message <$> filter (λ pending, now - pm_timestamp pending ≤ MESSAGE_QUEUE_TTL_MS)
                           (default [] (pendingMessages (proxy w) !! id))) ∧
  queuedCount id (proxy (flushPendingMessages id now w)) = 0%nat ∧
  isDeviceConnected id (relay (flushPendingMessages id now w)) = true.
Proof.
  intros Hon.
  assert (Hstill : isDeviceConnected id (relay (flushPendingMessages id now w)) = true).
  { rewrite <- Hon. apply isDeviceConnected_relayStable, relayStable_core.
    - apply flushPendingMessages_core.
    - apply flushPendingMessages_extends. }
  split; [|split; [|exact Hstill]]; clear Hstill; unfold flushPendingMessages, queuedCount.
  - destruct (pendingMessages (proxy w) !! id) as [[|pending queue]|]; simpl;
      try by rewrite app_nil_r.
    rewrite valid_messages. cbn [relay with_proxy].
    by destruct (flush_loop_online id
                   (filter (λ p, now - pm_timestamp p ≤ MESSAGE_QUEUE_TTL_MS) (pending :: queue))
                   w Hon) as [-> _].
  - destruct (pendingMessages (proxy w) !! id) as [[|pending queue]|] eqn:Hq;
      rewrite ?Hq; try done.
    cbn [proxy with_proxy pendingMessages set_pendingMessages]. by rewrite lookup_delete_eq.
Qed.

Lemma online_flushes (ws : nat) (now : Z) (id : string) (w : World) :
  ProxyFlush ∈ messageHandlers (relay w) →
  isDeviceConnected id (relay w) = true →
  let w' := notifyHandlers ws now id (mkMsg "device_online" []) w in
  deviceOutbox id (relay w')
    = deviceOutbox id (relay w)
      ++ (pm_message <$> filter (λ pending, now - pm_timestamp pending ≤ MESSAGE_QUEUE_TTL_MS)
                           (default [] (pendingMessages (proxy w) !! id))) ∧
  queuedCount id (proxy w') = 0%nat.
Proof.
  intros Hin Hon w'.
  set (valid := filter (λ pending, now - pm_timestamp pending ≤ MESSAGE_QUEUE_TTL_MS)
                  (default [] (pendingMessages (proxy w) !! id))).
  set (before := λ x : World,
         pendingMessages (proxy x) !! id = pendingMessages (proxy w) !! id ∧
         deviceOutbox id (relay x) = deviceOutbox id (relay w) ∧
         isDeviceConnected id (relay x) = true).
  set (after := λ x : World,
         queuedCount id (proxy x) = 0%nat ∧
         deviceOutbox id (relay x) = deviceOutbox id (relay w) ++ (pm_message <$> valid) ∧
         isDeviceConnected id (relay x) = true).
  assert (Hafter : after w'); [|by destruct Hafter as (? & ? & _)].
  unfold w', notifyHandlers.
  apply (foldl_phase before after _ _ _ ProxyFlush); [by repeat split | exact Hin | | |].
  - intros x h Hne (Hq & Hbox & Hconn). destruct h as [| | |rid]; [|done| |]; unfold before.
    + simpl. by rewrite broadcast_pending.
    + done.
    + simpl. destruct (requestHandler_core rid id (mkMsg "device_online" []) x)
        as (Hcore & Hs & Hp & _).
      destruct (deviceOutbox_same id _ _ Hcore Hs) as [-> ->]. by rewrite Hp.
  - intros x (Hq & Hbox & Hconn). unfold after. simpl.
    destruct (flushPendingMessages_online id now x Hconn) as (H1 & H2 & H3).
    rewrite H1, Hq, Hbox. done.
  - intros x h (Hq & Hbox & Hconn). destruct h as [| | |rid]; unfold after.
    + simpl. unfold queuedCount in *. by rewrite broadcast_pending.
    + simpl. destruct (flushPendingMessages_online id now x Hconn) as (H1 & H2 & H3).
      rewrite H1, Hbox. split; [done |]. split; [|done].
      unfold queuedCount in Hq. destruct (pendingMessages (proxy x) !! id) as [queue|].
      * apply length_zero_iff_nil in Hq as ->. simpl. by rewrite app_nil_r.
      * simpl. by rewrite app_nil_r.
    + done.
    + simpl. destruct (requestHandler_core rid id (mkMsg "device_online" []) x)
        as (Hcore & Hs & Hp & _).
      destruct (deviceOutbox_same id _ _ Hcore Hs) as [-> ->]. by rewrite Hp.
Qed.

(** The accept path up to the publication, in a world with a well-formed
    registry: the world handed to [notifyHandlers]. *)
Lemma device_accept_stage (store : CredentialStore) (id key : option string) (now : Z)
    (i : string) (w : World) :
  relayWF (relay w) →
  validateDevice store id key = Accepted i →
  ∃ w3,
    step store now (DeviceConnect id key) w
      = notifyHandlers (nextSocket (relay w)) now i (mkMsg "device_online" []) w3 ∧
    proxy w3 = proxy w ∧
    messageHandlers (relay w3) = messageHandlers (relay w) ∧
    isDeviceConnected i (relay w3) = true ∧
    deviceOutbox i (relay w3) = [stamped "connected" now []; request_state now].
Proof.
  intros [Hreg Hobj] Hacc. cbn [step]. set (ws := nextSocket (relay w)).
  unfold DeviceRelay_handleConnection. rewrite Hacc.
  eexists. split; [reflexivity |]. split; [by rewrite !relay_send_eq |].
  rewrite !relay_send_eq. cbn [snd relay with_relay].
  set (r0 := set_nextSocket (S ws) (set_sockets (<[ws := freshSocket]>) (relay w))).
  set (connection := {| dc_ws := ws; dc_deviceId := i; dc_connectedAt := now;
                        lastSeen := now; missedPings := 0 |}).
  set (closed := match getConnection i r0 with
                 | Some existing =>
                     set_sockets (alter (ws_close 4002 "Replaced by new connection")
                                    (dc_ws existing)) r0
                 | None => r0
                 end).
  set (r1 := updateDeviceStatus i true
               (set_devices (<[i := ws]>) (set_connections (<[ws := connection]>) closed))).
  assert (Hold : ∀ existing, getConnection i r0 = Some existing → dc_ws existing ≠ ws).
  { intros existing Hex. unfold getConnection in Hex. simpl in Hex.
    destruct (devices (relay w) !! i) as [old|] eqn:Hi; [|discriminate]. simpl in Hex.
    destruct (Hobj old existing Hex) as [-> Hlt]. unfold ws. lia. }
  assert (Hnew : sockets closed !! ws = Some freshSocket).
  { unfold closed. destruct (getConnection i r0) as [existing|] eqn:Hex; simpl.
    - rewrite lookup_alter_ne by (by apply Hold). by rewrite lookup_insert_eq.
    - by rewrite lookup_insert_eq. }
  assert (Hhs : messageHandlers closed = messageHandlers (relay w))
    by (unfold closed; by destruct (getConnection i r0)).
  assert (Hget1 : getConnection i r1 = Some connection).
  { unfold getConnection. simpl. rewrite lookup_insert_eq. simpl. by rewrite lookup_insert_eq. }
  assert (Hon1 : isDeviceConnected i r1 = true).
  { unfold isDeviceConnected. rewrite Hget1. simpl. unfold sock_open. by rewrite Hnew. }
  assert (Hbox1 : deviceOutbox i r1 = []).
  { unfold deviceOutbox. rewrite Hget1. simpl. unfold sock_outbox. by rewrite Hnew. }
  assert (Hon2 : isDeviceConnected i (sendToDevice i (stamped "connected" now []) r1).2 = true)
    by (by rewrite sendToDevice_connected).
  split; [by rewrite !(proj2 (sendToDevice_core _ _ _)) |].
  split; [by rewrite sendToDevice_connected |].
  rewrite sendToDevice_outbox by done. rewrite sendToDevice_outbox by done.
  by rewrite Hbox1.
Qed.

(** X5.  An accepted device connection in any reachable world delivers the
    offline queue: the new socket is sent [connected], [request_state] and
    then, in queue order, the messages that were queued for the device at
    most 10 s before; older entries are not sent; and no entry stays
    queued. *)
Theorem X5_connect_delivers_fresh_queue (store : CredentialStore) (evs : list (Z * Event))
    (id key : option string) (now : Z) (i : string) :
  let w := run store evs initial in
  validateDevice store id key = Accepted i →
  let w' := step store now (DeviceConnect id key) w in
  deviceOutbox i (relay w')
    = [stamped "connected" now []; stamped "request_state" now []]
      ++ (pm_message <$> filter (λ pending, now - pm_timestamp pending ≤ MESSAGE_QUEUE_TTL_MS)
                           (default [] (pendingMessages (proxy w) !! i))) ∧
  queuedCount i (proxy w') = 0%nat.
Proof.
  intros w Hacc w'.
  destruct (device_accept_stage store id key now i w (run_WF store evs initial initial_WF) Hacc)
    as (w3 & Hstep & Hproxy & Hhs & Hon & Hbox).
  destruct (reachable_subscriptions store evs) as (_ & Hflush & _). fold w in Hflush.
  unfold w'. rewrite Hstep.
  destruct (online_flushes (nextSocket (relay w)) now i w3) as [Hdev Hcount];
    [by rewrite Hhs | exact Hon |].
  rewrite Hdev, Hbox, Hproxy. done.
Qed.

Lemma X5_witness :
  deviceOutbox demoDevice
    (relay (step demoStore 12000 (DeviceConnect (Some demoDevice) (Some demoKey))
              (run demoStore queued_three initial)))
  = [stamped "connected" 12000 []; stamped "request_state" 12000 [];
     set_timestamp 9000 (mkMsg "brew_start" []);
     set_timestamp 10000 (mkMsg "brew_stop" [])] ∧
  queuedCount demoDevice
    (proxy (step demoStore 12000 (DeviceConnect (Some demoDevice) (Some demoKey))
              (run demoStore queued_three initial))) = 0%nat.
Proof.
  destruct (X5_connect_delivers_fresh_queue demoStore queued_three
              (Some demoDevice) (Some demoKey) 12000 demoDevice
              ltac:(vm_compute; reflexivity)) as [Hbox Hcount].
  split; [rewrite Hbox; vm_compute; reflexivity | exact Hcount].
Defined.

(** ** Forced disconnect *)

(** X6.  [disconnectDevice] in any reachable world.  For an id that is not
    registered it returns false and changes nothing.  For a registered id it
    returns true and leaves the registry as it is (the entry goes only when
    the [close] event arrives); if the socket was open it has been closed
    with 4000 "Disconnected by admin", so the device no longer counts as
    connected and [sendToDevice] fails, while [getDeviceLastSeen] still
    answers. *)
Theorem X6_disconnectDevice (store : CredentialStore) (evs : list (Z * Event))
    (id : string) :
  let r := relay (run store evs initial) in
  let r' := (disconnectDevice id r).2 in
  (devices r !! id = None → (disconnectDevice id r).1 = false ∧ r' = r) ∧
  (∀ h, devices r !! id = Some h →
     (disconnectDevice id r).1 = true ∧
     devices r' = devices r ∧
     getDeviceLastSeen id r' = getDeviceLastSeen id r ∧
     is_Some (getDeviceLastSeen id r') ∧
     (sock_open (sockets r) h = true →
        closeSent <$> sockets r' !! h = Some (Some (4000, "Disconnected by admin"%string)) ∧
        isDeviceConnected id r' = false ∧
        ∀ m, (sendToDevice id m r').1 = false)).
Proof.
  intros r r'. destruct (run_WF store evs initial initial_WF) as [Hreg Hobj].
  fold r in Hreg, Hobj. split.
  - intros Hnone. unfold r', disconnectDevice, getConnection. by rewrite Hnone.
  - intros h Hh. destruct (Hreg id h Hh) as (c & Hc & Hid & Hlive).
    destruct (Hobj h c Hc) as [Hws _].
    assert (Hget : getConnection id r = Some c) by (unfold getConnection; by rewrite Hh).
    unfold r', disconnectDevice. rewrite Hget. cbn [fst snd].
    split; [done |]. split; [done |].
    assert (Hget' : getConnection id
              (set_sockets (alter (ws_close 4000 "Disconnected by admin") (dc_ws c)) r)
              = Some c) by exact Hget.
    split; [unfold getDeviceLastSeen; by rewrite Hget', Hget |].
    split; [unfold getDeviceLastSeen; rewrite Hget'; by eexists |].
    intros Hopen. rewrite Hws. cbn [sockets set_sockets].
    unfold sock_open in Hopen. destruct (sockets r !! h) as [s|] eqn:Hs; [|discriminate].
    apply bool_decide_eq_true_1 in Hopen.
    assert (Hoff : isDeviceConnected id
              (set_sockets (alter (ws_close 4000 "Disconnected by admin") h) r) = false).
    { unfold isDeviceConnected. rewrite <- Hws at 1. rewrite Hget'. rewrite Hws.
      cbn [sockets set_sockets]. unfold sock_open. rewrite lookup_alter_eq, Hs. simpl.
      unfold ws_close. by rewrite Hopen. }
    split; [rewrite lookup_alter_eq, Hs; simpl; unfold ws_close; by rewrite Hopen |].
    split; [exact Hoff |]. intros m. by rewrite sendToDevice_fst.
Qed.

Lemma X6_witness :
  (disconnectDevice demoDevice (relay device_connected)).1 = true ∧
  devices (disconnectDevice demoDevice (relay device_connected)).2
    = devices (relay device_connected) ∧
  isDeviceConnected demoDevice (disconnectDevice demoDevice (relay device_connected)).2
    = false.
Proof.
  destruct (X6_disconnectDevice demoStore
              [(0, DeviceConnect (Some demoDevice) (Some demoKey))] demoDevice) as [_ Hreg].
  destruct (Hreg 0%nat ltac:(vm_compute; reflexivity)) as (Hret & Hdevs & _ & _ & Hopen).
  destruct (Hopen ltac:(vm_compute; reflexivity)) as (_ & Hoff & _).
  exact (conj Hret (conj Hdevs Hoff)).
Defined.

(** ** The device keep-alive sweep *)

Lemma pingDevice_at (h h' : nat) (r : DeviceRelay) :
  (∀ h0 c0, connections r !! h0 = Some c0 → dc_ws c0 = h0) →
  connections (pingDevice h' r) !! h
    = (if decide (h' = h) then bump_missedPings <$> connections r !! h
       else connections r !! h) ∧
  sockets (pingDevice h' r) !! h
    = (if decide (h' = h)
       then match connections r !! h with
            | Some c => (if MAX_MISSED_PINGS <? missedPings c + 1
                         then ws_terminate else ws_ping) <$> sockets r !! h
            | None => sockets r !! h
            end
       else sockets r !! h).
Proof.
  intros Hown. unfold pingDevice. destruct (connections r !! h') as [c'|] eqn:Hc'.
  - pose proof (Hown h' c' Hc') as Hws.
    destruct (decide (h' = h)) as [<-|Hne].
    + rewrite Hc'. destruct (MAX_MISSED_PINGS <? missedPings c' + 1); simpl;
        rewrite lookup_insert_eq, Hws, lookup_alter_eq; done.
    + destruct (MAX_MISSED_PINGS <? missedPings c' + 1); simpl;
        rewrite lookup_insert_ne, Hws, lookup_alter_ne by done; done.
  - destruct (decide (h' = h)) as [<-|Hne]; [by rewrite Hc' | done].
Qed.

Lemma pingDevice_own (h : nat) (r : DeviceRelay) :
  (∀ h0 c0, connections r !! h0 = Some c0 → dc_ws c0 = h0) →
  ∀ h0 c0, connections (pingDevice h r) !! h0 = Some c0 → dc_ws c0 = h0.
Proof.
  intros Hown h0 c0. destruct (pingDevice_at h0 h r Hown) as [-> _].
  destruct (decide (h = h0)) as [<-|Hne]; [|apply Hown].
  destruct (connections r !! h) as [c|] eqn:Hc; [|discriminate].
  intros [= <-]. simpl. by apply Hown.
Qed.

Lemma ping_sweep_at (l : list (string * nat)) (r : DeviceRelay) (h : nat) :
  (∀ h0 c0, connections r !! h0 = Some c0 → dc_ws c0 = h0) →
  NoDup l.*2 →
  let r' := foldl (λ acc e, pingDevice e.2 acc) r l in
  connections r' !! h
    = (if decide (h ∈ l.*2) then bump_missedPings <$> connections r !! h
       else connections r !! h) ∧
  sockets r' !! h
    = (if decide (h ∈ l.*2)
       then match connections r !! h with
            | Some c => (if MAX_MISSED_PINGS <? missedPings c + 1
                         then ws_terminate else ws_ping) <$> sockets r !! h
            | None => sockets r !! h
            end
       else sockets r !! h).
Proof.
  revert r. induction l as [|[id' h'] l IH]; intros r Hown Hnd; [done |].
  cbn [foldl fmap list_fmap snd] in *. apply NoDup_cons in Hnd as [Hnotin Hnd].
  destruct (IH (pingDevice h' r) (pingDevice_own h' r Hown) Hnd) as [-> ->].
  destruct (pingDevice_at h h' r Hown) as [-> ->].
  destruct (decide (h' = h)) as [<-|Hne].
  - destruct (decide (h' ∈ l.*2)) as [Hin|_]; [done |].
    destruct (decide (h' ∈ h' :: l.*2)) as [_|Hout]; [done |].
    exfalso. apply Hout, list_elem_of_here.
  - destruct (decide (h ∈ l.*2)) as [Hin|Hout].
    + destruct (decide (h ∈ h' :: l.*2)) as [_|Hout]; [done |].
      exfalso. by apply Hout, list_elem_of_further.
    + destruct (decide (h ∈ h' :: l.*2)) as [Hin|_]; [|done].
      exfalso. apply elem_of_cons in Hin as [Heq|Hin]; [by apply Hne | by apply Hout].
Qed.

Lemma registry_handles_NoDup (r : DeviceRelay) :
  relayWF r → NoDup (map_to_list (devices r)).*2.
Proof.
  intros [Hreg _]. apply NoDup_fmap_2_strong; [|apply NoDup_map_to_list].
  intros [id1 h1] [id2 h2] H1 H2 Heq. simpl in Heq. subst h2.
  apply elem_of_map_to_list in H1, H2.
  destruct (Hreg id1 h1 H1) as (c1 & Hc1 & Hid1 & _).
  destruct (Hreg id2 h1 H2) as (c2 & Hc2 & Hid2 & _). congruence.
Qed.

(** X7.  One sweep of [pingAllDevices] in any reachable world.  Every
    registered connection has its [missedPings] raised by exactly one.  If the
    new count is at most 2 the socket is pinged; if it exceeds 2 the socket is
    terminated instead and is not open afterwards.  The registry is
    unchanged, and a socket that is not registered (a replaced one) is neither
    counted nor pinged. *)
Theorem X7_device_ping_sweep (store : CredentialStore) (evs : list (Z * Event)) :
  let r := relay (run store evs initial) in
  let r' := pingAllDevices r in
  devices r' = devices r ∧
  (∀ id h c, devices r !! id = Some h → connections r !! h = Some c →
     connections r' !! h = Some (bump_missedPings c) ∧
     (missedPings c + 1 ≤ MAX_MISSED_PINGS → sockets r' !! h = ws_ping <$> sockets r !! h) ∧
     (MAX_MISSED_PINGS < missedPings c + 1 →
        sockets r' !! h = ws_terminate <$> sockets r !! h ∧
        sock_open (sockets r') h = false)) ∧
  (∀ h, (∀ id, devices r !! id ≠ Some h) →
     connections r' !! h = connections r !! h ∧ sockets r' !! h = sockets r !! h).
Proof.
  intros r r'. pose proof (run_WF store evs initial initial_WF) as Hwf. fold r in Hwf.
  assert (Hown : ∀ h0 c0, connections r !! h0 = Some c0 → dc_ws c0 = h0).
  { intros h0 c0 Hc0. by destruct (proj2 Hwf h0 c0 Hc0). }
  assert (Hin : ∀ h, h ∈ (map_to_list (devices r)).*2 ↔ ∃ id, devices r !! id = Some h).
  { intros h. rewrite list_elem_of_fmap. split.
    - intros ([id h'] & -> & Hel). exists id. by apply elem_of_map_to_list in Hel.
    - intros [id Hh]. exists (id, h). split; [done |]. by apply elem_of_map_to_list. }
  split; [by destruct (pingAllDevices_keeps r) as (Hd & _) |]. split.
  - intros id h c Hh Hc.
    destruct (ping_sweep_at (map_to_list (devices r)) r h Hown (registry_handles_NoDup r Hwf))
      as [Hconn Hsock].
    fold (pingAllDevices r) in Hconn, Hsock. fold r' in Hconn, Hsock.
    destruct (decide (h ∈ (map_to_list (devices r)).*2)) as [_|Hout];
      [|exfalso; apply Hout, Hin; by exists id].
    rewrite Hc in Hconn, Hsock. split; [exact Hconn |]. split.
    + intros Hle. by rewrite Hsock, (proj2 (Z.ltb_ge _ _) Hle).
    + intros Hlt. rewrite (proj2 (Z.ltb_lt _ _) Hlt) in Hsock. split; [exact Hsock |].
      unfold sock_open. rewrite Hsock. destruct (sockets r !! h) as [s|]; [|done].
      simpl. unfold ws_terminate, is_open. by destruct (readyState s) eqn:Hs; simpl; rewrite ?Hs.
  - intros h Hnone.
    destruct (ping_sweep_at (map_to_list (devices r)) r h Hown (registry_handles_NoDup r Hwf))
      as [Hconn Hsock].
    fold (pingAllDevices r) in Hconn, Hsock. fold r' in Hconn, Hsock.
    destruct (decide (h ∈ (map_to_list (devices r)).*2)) as [Hel|_]; [|done].
    exfalso. apply Hin in Hel as [id Hh]. by apply (Hnone id).
Qed.

Lemma X7_witness :
  connections (pingAllDevices (relay (run demoStore
      [(0, DeviceConnect (Some demoDevice) (Some demoKey))] initial))) !! 0%nat
  = Some (bump_missedPings {| dc_ws := 0; dc_deviceId := demoDevice; dc_connectedAt := 0;
                              lastSeen := 0; missedPings := 0 |}).
Proof.
  destruct (X7_device_ping_sweep demoStore
              [(0, DeviceConnect (Some demoDevice) (Some demoKey))]) as (_ & Hreg & _).
  exact (proj1 (Hreg demoDevice 0%nat
                  {| dc_ws := 0; dc_deviceId := demoDevice; dc_connectedAt := 0;
                     lastSeen := 0; missedPings := 0 |}
                  ltac:(vm_compute; reflexivity) ltac:(vm_compute; reflexivity))).
Defined.

(** ** Frames from a device *)

Lemma mark_alive_again (ws : nat) (now : Z) (c : DeviceConnection) (w : World) :
  connections (relay w) !! ws = Some (mark_alive now c) →
  with_relay (set_connections (<[ws := mark_alive now (mark_alive now c)]>)) w = w.
Proof.
  intros Hc. destruct w as [r p q n]. destruct r. simpl in *.
  unfold with_relay, set_connections. simpl. f_equal. f_equal. by apply insert_id.
Qed.

Lemma leading_maps (ms : list DeviceMessage) : leading (DMap <$> ms) = ms.
Proof. induction ms as [|m ms IH]; [done |]. rewrite fmap_cons. simpl. by rewrite IH. Qed.

Lemma forallb_maps (ms : list DeviceMessage) : forallb isMap (DMap <$> ms) = true.
Proof. by induction ms as [|m ms IH]. Qed.

Lemma leading_stop (ms : list DeviceMessage) (rest : list Decoded) :
  leading ((DMap <$> ms) ++ DPrim :: rest) = ms.
Proof. induction ms as [|m ms IH]; [done |]. rewrite fmap_cons. simpl. by rewrite IH. Qed.

Lemma forallb_stop (ms : list DeviceMessage) (rest : list Decoded) :
  forallb isMap ((DMap <$> ms) ++ DPrim :: rest) = false.
Proof. by induction ms as [|m ms IH]. Qed.

(** A frame that [decodeMulti] reads as the maps [ms] hands on exactly
    these, whatever the other decoders would make of it. *)
Lemma decodeFrame_maps (ms : list DeviceMessage) (decoder : option (list Decoded))
    (single : option Decoded) :
  ms ≠ [] → decodeFrame (Buffer (Some (DMap <$> ms)) decoder single) = ms.
Proof.
  intros Hne. destruct ms as [|m ms]; [done |].
  rewrite fmap_cons. cbn [decodeFrame]. rewrite <- fmap_cons.
  by rewrite forallb_maps, leading_maps.
Qed.

(** A frame in which a value that is not an object follows the maps [ms],
    for both sequence decoders. *)
Lemma decodeFrame_stop (ms : list DeviceMessage) (rest : list Decoded)
    (single : option Decoded) :
  decodeFrame (Buffer (Some ((DMap <$> ms) ++ DPrim :: rest))
                      (Some ((DMap <$> ms) ++ DPrim :: rest)) single)
  = ms ++ ms ++ single_decode single.
Proof.
  assert (Hpass : decoderPass (Some ((DMap <$> ms) ++ DPrim :: rest)) single
                  = ms ++ single_decode single).
  { unfold decoderPass.
    destruct ((DMap <$> ms) ++ DPrim :: rest) as [|v vs] eqn:Hvs.
    - by destruct ms.
    - by rewrite <- Hvs, forallb_stop, leading_stop. }
  unfold decodeFrame.
  destruct ((DMap <$> ms) ++ DPrim :: rest) as [|v vs] eqn:Hvs.
  - by destruct ms.
  - by rewrite Hpass, <- Hvs, forallb_stop, leading_stop.
Qed.

Lemma single_frames_publish (ws : nat) (now : Z) (c : DeviceConnection)
    (ms : list DeviceMessage) (w : World) :
  connections (relay w) !! ws = Some (mark_alive now c) →
  foldl (λ acc m, deviceMessageHandler ws (packed [m]) now acc) w ms
  = foldl (λ acc m, handleDeviceMessage ws now (dc_deviceId c) m acc) w ms.
Proof.
  revert w. induction ms as [|m ms IH]; intros w Hc; [done |].
  cbn [foldl].
  assert (Hone : deviceMessageHandler ws (packed [m]) now w
                 = handleDeviceMessage ws now (dc_deviceId c) m w).
  { rewrite deviceMessageHandler_fold. rewrite Hc. unfold packed.
    rewrite decodeFrame_maps by done. cbn [foldl].
    by rewrite mark_alive_again. }
  rewrite Hone. apply IH. by rewrite handleDeviceMessage_connections.
Qed.

Lemma silent_frame_is_pong (ws : nat) (data : RawData) (now : Z) (w : World) :
  decodeFrame data = [] →
  deviceMessageHandler ws data now w = with_relay (devicePongHandler ws now) w.
Proof.
  intros Hnil. rewrite deviceMessageHandler_fold. rewrite Hnil.
  destruct (connections (relay w) !! ws) as [c|] eqn:Hc; cbn [foldl].
  - unfold with_relay, devicePongHandler, set_connections. do 2 f_equal.
    apply map_eq. intros h. destruct (decide (ws = h)) as [<-|Hdiff].
    + by rewrite lookup_insert_eq, lookup_alter_eq, Hc.
    + by rewrite lookup_insert_ne, lookup_alter_ne.
  - destruct w as [r p q n]. destruct r. unfold with_relay, devicePongHandler,
      set_connections. simpl in *. do 2 f_equal.
    apply map_eq. intros h. destruct (decide (ws = h)) as [<-|Hdiff].
    + by rewrite lookup_alter_eq, Hc.
    + by rewrite lookup_alter_ne.
Qed.

(** X8.  A frame that [decodeMulti] reads as one or more maps is processed
    exactly as if each map had arrived alone in a frame of its own, in the
    same order, at the same time, whatever the other two decoders would make
    of the frame.  A frame on which all three decoders throw, and a text
    frame of ASCII characters (whose bytes both sequence decoders read as
    small integers, and on which [decode] throws or returns the one small
    integer), do exactly what a pong does: they mark the connection alive and
    nothing else. *)
Theorem X8_batched_frame_is_sequence_of_frames (ws : nat) (now : Z) (w : World) :
  (∀ (ms : list DeviceMessage) decoder single, ms ≠ [] →
     deviceMessageHandler ws (Buffer (Some (DMap <$> ms)) decoder single) now w
     = foldl (λ acc m,
                deviceMessageHandler ws
                  (Buffer (Some [DMap m]) (Some [DMap m]) (Some (DMap m))) now acc) w ms) ∧
  deviceMessageHandler ws (Buffer None None None) now w
    = with_relay (devicePongHandler ws now) w ∧
  (∀ n single, (∀ m, single ≠ Some (DMap m)) →
     deviceMessageHandler ws
       (Buffer (Some (replicate n DPrim)) (Some (replicate n DPrim)) single) now w
     = with_relay (devicePongHandler ws now) w).
Proof.
  split; [|split].
  - intros ms decoder single Hne. rewrite deviceMessageHandler_fold.
    rewrite decodeFrame_maps by done.
    destruct (connections (relay w) !! ws) as [c|] eqn:Hc.
    + destruct ms as [|m ms]; [done |]. cbn [foldl].
      assert (Hone : deviceMessageHandler ws (packed [m]) now w
                     = handleDeviceMessage ws now (dc_deviceId c) m
                         (with_relay (set_connections (<[ws := mark_alive now c]>)) w)).
      { rewrite deviceMessageHandler_fold. rewrite Hc. unfold packed.
        by rewrite decodeFrame_maps. }
      change (Buffer (Some [DMap m]) (Some [DMap m]) (Some (DMap m))) with (packed [m]).
      rewrite Hone. symmetry. apply (single_frames_publish ws now c ms).
      rewrite handleDeviceMessage_connections. simpl. by rewrite lookup_insert_eq.
    + symmetry. apply (foldl_preserves (λ w', w' = w)); [done |].
      intros x m ->. rewrite deviceMessageHandler_fold. by rewrite Hc.
  - by apply silent_frame_is_pong.
  - intros n single Hsingle. apply silent_frame_is_pong.
    assert (Hnone : single_decode single = []).
    { destruct single as [[m|]|]; [by destruct (Hsingle m) | done..]. }
    destruct n as [|n]; [exact Hnone |].
    etrans; [exact (decodeFrame_stop [] (replicate n DPrim) single) | exact Hnone].
Qed.

Lemma X8_witness :
  deviceMessageHandler 0
    (Buffer (Some [DMap (mkMsg "status" []); DMap (mkMsg "esp_status" [])]) None None)
    100 device_connected
  = deviceMessageHandler 0 (packed [mkMsg "esp_status" []]) 100
      (deviceMessageHandler 0 (packed [mkMsg "status" []]) 100 device_connected).
Proof.
  exact (proj1 (X8_batched_frame_is_sequence_of_frames 0 100 device_connected)
           [mkMsg "status" []; mkMsg "esp_status" []] None None ltac:(discriminate)).
Defined.

Lemma publishAll_log (ws : nat) (now : Z) (id : string) (ms : list DeviceMessage)
    (w : World) :
  published (relay (foldl (λ acc m, handleDeviceMessage ws now id m acc) w ms))
  = published (relay w)
    ++ ((λ m, {| pub_ws := ws; pub_device := id; pub_msg := stampedBy id now m |}) <$> ms).
Proof.
  revert w. induction ms as [|m ms IH]; intros w; cbn [foldl]; [by rewrite app_nil_r |].
  rewrite IH. unfold handleDeviceMessage.
  rewrite (relayCore_published _ _ (proj1 (notifyHandlers_core _ _ _ _ _))).
  simpl. by rewrite <- app_assoc.
Qed.

Lemma stampedBy_literal (id : string) (now : Z) (m : DeviceMessage) :
  stampedBy id now m =
  {| type := type m; deviceId := Some id;
     timestamp := Some (match timestamp m with
                        | Some t => if t =? 0 then now else t
                        | None => now
                        end);
     requestId := requestId m; message := message m; fields := fields m |}.
Proof.
  unfold stampedBy, set_timestamp, set_deviceId. simpl.
  destruct (timestamp m) as [t|]; [|done]. simpl. by destruct (t =? 0).
Qed.

Lemma frame_log (ws : nat) (data : RawData) (now : Z) (w : World) (c : DeviceConnection) :
  connections (relay w) !! ws = Some c →
  published (relay (deviceMessageHandler ws data now w))
  = published (relay w)
    ++ ((λ m, {| pub_ws := ws; pub_device := dc_deviceId c;
                 pub_msg :=
                   {| type := type m; deviceId := Some (dc_deviceId c);
                      timestamp := Some (match timestamp m with
                                         | Some t => if t =? 0 then now else t
                                         | None => now
                                         end);
                      requestId := requestId m; message := message m;
                      fields := fields m |} |}) <$> decodeFrame data).
Proof.
  intros Hc. rewrite deviceMessageHandler_fold, Hc. cbv beta iota zeta.
  rewrite publishAll_log. cbn [published relay with_relay set_connections]. f_equal.
  apply list_fmap_ext. intros _ m _. by rewrite stampedBy_literal.
Qed.

(** X9.  What one frame from an accepted device publishes.  A publication
    carries the message with the device id of the connection and the
    message's own timestamp unless that is missing or 0, in which case the
    time of receipt; type, request id, message text and the other fields are
    passed on untouched.  A frame that [decodeMulti] reads as one or more maps
    publishes each of them once, in order, whatever the other two decoders
    would make of it.  A frame in which both sequence decoders find a value
    that is not an object after the maps [ms] publishes [ms] twice, once by
    each loop up to its throw, and then the value of [decode] if that is a
    map.  A text frame of ASCII characters and a frame on which all three
    decoders throw publish nothing.  In every case the frame resets
    [missedPings] and touches neither the registry nor the state of any
    device socket. *)
Theorem X9_frame_publications (ws : nat) (now : Z) (w : World) (c : DeviceConnection) :
  connections (relay w) !! ws = Some c →
  let pub (m : DeviceMessage) :=
    {| pub_ws := ws; pub_device := dc_deviceId c;
       pub_msg :=
         {| type := type m; deviceId := Some (dc_deviceId c);
            timestamp := Some (match timestamp m with
                               | Some t => if t =? 0 then now else t
                               | None => now
                               end);
            requestId := requestId m; message := message m; fields := fields m |} |} in
  (∀ (ms : list DeviceMessage) decoder single, ms ≠ [] →
     published (relay (deviceMessageHandler ws (Buffer (Some (DMap <$> ms)) decoder single)
                         now w))
     = published (relay w) ++ (pub <$> ms)) ∧
  (∀ (ms : list DeviceMessage) rest single,
     published (relay (deviceMessageHandler ws
                         (Buffer (Some ((DMap <$> ms) ++ DPrim :: rest))
                                 (Some ((DMap <$> ms) ++ DPrim :: rest)) single) now w))
     = published (relay w) ++ (pub <$> ms) ++ (pub <$> ms)
       ++ match single with
          | Some (DMap m) => [pub m]
          | _ => []
          end) ∧
  (∀ n single, (∀ m, single ≠ Some (DMap m)) →
     published (relay (deviceMessageHandler ws
                         (Buffer (Some (replicate n DPrim)) (Some (replicate n DPrim)) single)
                         now w))
     = published (relay w)) ∧
  published (relay (deviceMessageHandler ws (Buffer None None None) now w))
    = published (relay w) ∧
  (∀ data,
     connections (relay (deviceMessageHandler ws data now w)) !! ws = Some (mark_alive now c) ∧
     devices (relay (deviceMessageHandler ws data now w)) = devices (relay w) ∧
     (∀ h, sock_open (sockets (relay (deviceMessageHandler ws data now w))) h
           = sock_open (sockets (relay w)) h)).
Proof.
  intros Hc pub. split; [|split; [|split; [|split]]].
  - intros ms decoder single Hne. rewrite (frame_log _ _ _ _ _ Hc).
    by rewrite decodeFrame_maps.
  - intros ms rest single. rewrite (frame_log _ _ _ _ _ Hc), decodeFrame_stop.
    rewrite !fmap_app. do 3 f_equal. by destruct single as [[m|]|].
  - intros n single Hsingle. rewrite (frame_log _ _ _ _ _ Hc).
    assert (Hnone : single_decode single = []).
    { destruct single as [[m|]|]; [by destruct (Hsingle m) | done..]. }
    destruct n as [|n]; [cbn [replicate decodeFrame]; by rewrite Hnone, app_nil_r |].
    change (replicate (S n) DPrim) with ((DMap <$> []) ++ DPrim :: replicate n DPrim).
    rewrite decodeFrame_stop, Hnone. by rewrite app_nil_r.
  - rewrite (frame_log _ _ _ _ _ Hc). by rewrite app_nil_r.
  - intros data. rewrite deviceMessageHandler_fold, Hc. cbv beta iota zeta.
    match goal with
    | |- context [foldl ?f ?w1 ?l] =>
        pose proof (publishAll_stable ws now (dc_deviceId c) l w1) as (H1 & H2 & _ & _ & H5)
    end.
    split; [rewrite H1; simpl; by rewrite lookup_insert_eq |].
    split; [by rewrite H2 |]. intros h. by apply socketsExtend_open.
Qed.

Lemma X9_witness :
  published (relay (deviceMessageHandler 0
                      (Buffer (Some [DMap (mkMsg "status" []); DPrim])
                              (Some [DMap (mkMsg "status" []); DPrim]) None)
                      100 device_connected))
  = published (relay device_connected)
    ++ [{| pub_ws := 0; pub_device := demoDevice;
           pub_msg := {| type := "status"; deviceId := Some demoDevice;
                         timestamp := Some 100; requestId := None; message := None;
                         fields := [] |} |};
        {| pub_ws := 0; pub_device := demoDevice;
           pub_msg := {| type := "status"; deviceId := Some demoDevice;
                         timestamp := Some 100; requestId := None; message := None;
                         fields := [] |} |}].
Proof.
  destruct (X9_frame_publications 0 100 device_connected
              {| dc_ws := 0; dc_deviceId := demoDevice; dc_connectedAt := 0;
                 lastSeen := 0; missedPings := 0 |}
              ltac:(vm_compute; reflexivity)) as (_ & Hstop & _).
  exact (Hstop [mkMsg "status" []] [] None).
Defined.

(** * Further properties of the client proxy *)

(** ** The two session tables *)

(** X10.  [registerClient] enters the session in the primary table and in
    the per-device index; [unregisterClient] removes it from both and never
    leaves an empty set in the index.  For a session id that was not
    registered, registering and unregistering restores the proxy exactly,
    provided the index held no empty set for the device. *)
Theorem X10_register_unregister (c : ClientConnection) (p : ClientProxy) :
  (clients (registerClient c p) !! cc_sessionId c = Some (cc_ws c) ∧
   ∃ sessions, deviceClients (registerClient c p) !! cc_deviceId c = Some sessions ∧
               cc_sessionId c ∈ sessions) ∧
  (clients (unregisterClient c p) !! cc_sessionId c = None ∧
   ∀ sessions, deviceClients (unregisterClient c p) !! cc_deviceId c = Some sessions →
               (cc_sessionId c ∉ sessions) ∧ sessions ≠ ∅) ∧
  (clients p !! cc_sessionId c = None →
   cc_sessionId c ∉ default ∅ (deviceClients p !! cc_deviceId c) →
   deviceClients p !! cc_deviceId c ≠ Some ∅ →
   unregisterClient c (registerClient c p) = p).
Proof.
  split; [|split].
  - unfold registerClient. simpl. rewrite !lookup_insert_eq. split; [done |].
    eexists. split; [done |]. set_solver.
  - unfold unregisterClient. simpl. rewrite lookup_delete_eq. split; [done |].
    intros sessions. destruct (deviceClients p !! cc_deviceId c) as [old|] eqn:Hold.
    + case_bool_decide as Hsize.
      * by rewrite lookup_delete_eq.
      * rewrite lookup_insert_eq. intros [= <-]. split; [set_solver |].
        intros Hempty. apply Hsize. rewrite Hempty. by apply size_empty_iff.
    + by rewrite Hold.
  - intros Hfresh Hnotin Hnonempty.
    destruct p as [cs nc objs cl dcs pend cache tc tm].
    unfold unregisterClient, registerClient, set_deviceClients, set_clients.
    cbn [csockets nextClient clientObjs clients deviceClients pendingMessages
         deviceStateCache totalConnections totalMessages] in *.
    rewrite lookup_insert_eq. f_equal.
    + rewrite delete_insert_eq. by apply delete_id.
    + assert (Hrest : (({[cc_sessionId c]} ∪ default ∅ (dcs !! cc_deviceId c))
                       ∖ {[cc_sessionId c]}) = default ∅ (dcs !! cc_deviceId c))
        by set_solver.
      rewrite Hrest. destruct (dcs !! cc_deviceId c) as [old|] eqn:Hold; cbn [default].
      * case_bool_decide as Hsize.
        -- apply size_empty_iff in Hsize. apply leibniz_equiv in Hsize.
           exfalso. apply Hnonempty. f_equal. exact Hsize.
        -- rewrite insert_insert_eq. by apply insert_id.
      * rewrite bool_decide_eq_true_2 by (by apply size_empty_iff).
        rewrite delete_insert_eq. by apply delete_id.
Qed.

Lemma X10_witness :
  unregisterClient demoClient (registerClient demoClient (proxy initial)) = proxy initial.
Proof.
  destruct (X10_register_unregister demoClient (proxy initial)) as (_ & _ & Hround).
  apply Hround; [reflexivity | apply not_elem_of_empty | discriminate].
Defined.

(** ** The queue sweep *)

(** X11.  After [cleanupExpiredQueuedMessages] every queue that is left is
    non-empty and holds only entries enqueued at most 10 s before, each queue
    is what remains of the old queue in the old order, and no entry that is
    at most 10 s old has been dropped. *)
Theorem X11_cleanup_sweep (now : Z) (p : ClientProxy) (id : string) :
  let p' := cleanupExpiredQueuedMessages now p in
  (∀ queue', pendingMessages p' !! id = Some queue' →
     queue' ≠ [] ∧
     ∃ queue, pendingMessages p !! id = Some queue ∧
              queue' = filter (λ e, now - pm_timestamp e ≤ MESSAGE_QUEUE_TTL_MS) queue ∧
              queue' `sublist_of` queue ∧
              ∀ e, e ∈ queue' → now - pm_timestamp e ≤ MESSAGE_QUEUE_TTL_MS) ∧
  (∀ queue e, pendingMessages p !! id = Some queue → e ∈ queue →
     now - pm_timestamp e ≤ MESSAGE_QUEUE_TTL_MS →
     ∃ queue', pendingMessages p' !! id = Some queue' ∧ e ∈ queue') ∧
  set_pendingMessages (λ _, pendingMessages p) p' = p.
Proof.
  intros p'. unfold p', cleanupExpiredQueuedMessages.
  cbn [pendingMessages set_pendingMessages]. split; [|split].
  - intros queue'. rewrite lookup_omap.
    destruct (pendingMessages p !! id) as [queue|]; [|discriminate]. simpl.
    rewrite valid_messages.
    destruct (filter (λ e, now - pm_timestamp e ≤ MESSAGE_QUEUE_TTL_MS) queue)
      as [|x l] eqn:Hf; [discriminate |].
    intros [= <-]. split; [done |]. exists queue. split; [done |]. split; [done |].
    split; [rewrite <- Hf; apply sublist_filter |].
    intros e He. rewrite <- Hf in He. by apply list_elem_of_filter in He as [Hok _].
  - intros queue e Hq He Hfresh. rewrite lookup_omap, Hq. simpl. rewrite valid_messages.
    assert (Hin : e ∈ filter (λ e, now - pm_timestamp e ≤ MESSAGE_QUEUE_TTL_MS) queue)
      by (by apply list_elem_of_filter).
    destruct (filter (λ e, now - pm_timestamp e ≤ MESSAGE_QUEUE_TTL_MS) queue) as [|x l];
      [by apply elem_of_nil in Hin |].
    by eexists.
  - by destruct p.
Qed.

Lemma X11_witness :
  ∃ queue', pendingMessages
              (cleanupExpiredQueuedMessages 12000 (proxy (run demoStore queued_three initial)))
              !! demoDevice = Some queue' ∧
            queuedEntry "brew_start" 9000 ∈ queue'.
Proof.
  destruct (X11_cleanup_sweep 12000 (proxy (run demoStore queued_three initial)) demoDevice)
    as (_ & Hkept & _).
  apply (Hkept [queuedEntry "brew_start" 1000; queuedEntry "brew_start" 9000;
                queuedEntry "brew_stop" 10000]).
  - vm_compute. reflexivity.
  - apply list_elem_of_further, list_elem_of_here.
  - vm_compute. discriminate.
Defined.

(** ** Frames from a client *)

Lemma handleClientMessage_ping (store : CredentialStore) (h : nat) (c : ClientConnection)
    (m : DeviceMessage) (now : Z) (w : World) :
  clientObjs (proxy w) !! h = Some c → type m = "ping"%string →
  handleClientMessage store h m now w
  = with_proxy
      (sendToClient c
         (stamped "pong" now
            match timestamp m with
            | Some t => [("clientTimestamp"%string, JNum t)]
            | None => []
            end)) w.
Proof. intros Hc Ht. unfold handleClientMessage. rewrite Hc, Ht. reflexivity. Qed.

(** X12.  A client frame of type [ping] is answered on the same socket with
    one [pong] that carries the server time and echoes the client's
    timestamp; nothing is sent to the device, nothing is queued, and the
    connection object only records the frame (activity time and
    [messagesReceived]). *)
Theorem X12_client_ping_gets_pong (store : CredentialStore) (h : nat)
    (c : ClientConnection) (m : DeviceMessage) (now : Z) (w : World) :
  clientObjs (proxy w) !! h = Some c →
  type m = "ping"%string →
  sock_open (csockets (proxy w)) (cc_ws c) = true →
  let w' := clientMessageHandler store h (Some m) now w in
  ∃ pong,
    sock_outbox (csockets (proxy w')) (cc_ws c)
      = sock_outbox (csockets (proxy w)) (cc_ws c) ++ [pong] ∧
    type pong = "pong"%string ∧ timestamp pong = Some now ∧
    field "clientTimestamp" (fields pong) = JNum <$> timestamp m ∧
    relay w' = relay w ∧
    pendingMessages (proxy w') = pendingMessages (proxy w) ∧
    clientObjs (proxy w') !! h = Some (client_received now c) ∧
    messagesReceived (metrics (client_received now c)) = messagesReceived (metrics c) + 1 ∧
    totalMessages (proxy w') = totalMessages (proxy w) + 1.
Proof.
  intros Hc Ht Hopen w'. unfold w', clientMessageHandler. rewrite Hc.
  rewrite (handleClientMessage_ping store h (client_received now c));
    [|simpl; by rewrite lookup_insert_eq | done].
  eexists. split.
  { cbn [proxy with_proxy]. rewrite sendToClient_outbox.
    cbn [csockets bump_totalMessages set_clientObjs cc_ws client_received cc_with].
    rewrite Hopen, bool_decide_eq_true_2 by done. reflexivity. }
  split; [done |]. split; [done |].
  split; [simpl; by destruct (timestamp m) |].
  split; [done |]. cbn [proxy with_proxy].
  split; [by rewrite sendToClient_pending |].
  split; [rewrite sendToClient_clientObjs; simpl; by rewrite lookup_insert_eq |].
  split; [done |].
  unfold sendToClient. by destruct (sock_open _ _).
Qed.

Lemma X12_witness :
  ∃ pong,
    sock_outbox (csockets (proxy (clientMessageHandler demoStore 0
                                    (Some (stamped "ping" 41 [])) 50 device_and_client))) 0
      = sock_outbox (csockets (proxy device_and_client)) 0 ++ [pong] ∧
    field "clientTimestamp" (fields pong) = Some (JNum 41).
Proof.
  destruct (X12_client_ping_gets_pong demoStore 0 demoClient (stamped "ping" 41 []) 50
              device_and_client ltac:(vm_compute; reflexivity) eq_refl
              ltac:(vm_compute; reflexivity))
    as (pong & Hbox & _ & _ & Hecho & _).
  exists pong. split; [exact Hbox | exact Hecho].
Defined.

(** X13.  A client frame of any other type than [refresh_auth], [ping] and
    [get_metrics], while the device can be sent to: the device's socket gets
    exactly that message with [timestamp] set to the time of receipt and every
    other field as the client sent it; the client gets no frame, nothing is
    queued, and [messagesSent] and [messagesReceived] each go up by one. *)
Theorem X13_forward_to_connected_device (store : CredentialStore) (h : nat)
    (c : ClientConnection) (m : DeviceMessage) (now : Z) (w : World) :
  clientObjs (proxy w) !! h = Some c →
  type m ≠ "refresh_auth"%string → type m ≠ "ping"%string → type m ≠ "get_metrics"%string →
  isDeviceConnected (cc_deviceId c) (relay w) = true →
  let w' := clientMessageHandler store h (Some m) now w in
  deviceOutbox (cc_deviceId c) (relay w')
    = deviceOutbox (cc_deviceId c) (relay w)
      ++ [{| type := type m; deviceId := deviceId m; timestamp := Some now;
             requestId := requestId m; message := message m; fields := fields m |}] ∧
  csockets (proxy w') = csockets (proxy w) ∧
  pendingMessages (proxy w') = pendingMessages (proxy w) ∧
  (∃ c', clientObjs (proxy w') !! h = Some c' ∧
         messagesSent (metrics c') = messagesSent (metrics c) + 1 ∧
         messagesReceived (metrics c') = messagesReceived (metrics c) + 1 ∧
         lastActivity c' = now ∧ missedPongs c' = missedPongs c).
Proof.
  intros Hc H1 H2 H3 Hon w'. unfold w', clientMessageHandler. rewrite Hc.
  rewrite (handleClientMessage_forward store h (client_received now c));
    [|simpl; by rewrite lookup_insert_eq | done | done | done].
  unfold forwardToDevice. rewrite relay_send_eq, sendToDevice_fst.
  cbn [relay with_proxy cc_deviceId client_received cc_with]. rewrite Hon.
  cbn [snd relay proxy with_relay with_proxy].
  split; [by rewrite sendToDevice_outbox |]. split; [done |]. split; [done |].
  eexists. split; [simpl; by rewrite lookup_insert_eq |]. done.
Qed.

Lemma X13_witness :
  deviceOutbox demoDevice
    (relay (clientMessageHandler demoStore 0 (Some (mkMsg "brew_start" [])) 50
              device_and_client))
  = deviceOutbox demoDevice (relay device_and_client)
    ++ [{| type := "brew_start"; deviceId := None; timestamp := Some 50;
           requestId := None; message := None; fields := [] |}].
Proof.
  exact (proj1 (X13_forward_to_connected_device demoStore 0 demoClient
                  (mkMsg "brew_start" []) 50 device_and_client
                  ltac:(vm_compute; reflexivity) ltac:(discriminate) ltac:(discriminate)
                  ltac:(discriminate) ltac:(vm_compute; reflexivity))).
Defined.

(** X14.  The same frame while the device cannot be sent to: the message,
    stamped with the time of receipt, is appended to the device's queue with
    that time, zero retries and the client's session id (the head of a full
    queue is dropped first); no other queue and nothing in the relay changes;
    the client gets one [device_status] notice whose [queuedMessages] is the
    new queue length and whose [queueTTL] is 10; and [messagesSent] is
    incremented although nothing was sent. *)
Theorem X14_forward_to_unreachable_device (store : CredentialStore) (h : nat)
    (c : ClientConnection) (m : DeviceMessage) (now : Z) (w : World) :
  clientObjs (proxy w) !! h = Some c →
  type m ≠ "refresh_auth"%string → type m ≠ "ping"%string → type m ≠ "get_metrics"%string →
  isDeviceConnected (cc_deviceId c) (relay w) = false →
  sock_open (csockets (proxy w)) (cc_ws c) = true →
  let w' := clientMessageHandler store h (Some m) now w in
  let old := default [] (pendingMessages (proxy w) !! cc_deviceId c) in
  let entry := {| pm_message := set_timestamp now m; pm_timestamp := now; retries := 0;
                  clientSessionId := cc_sessionId c |} in
  let queue' := (if (MAX_QUEUED_MESSAGES <=? length old)%nat then tail old else old)
                ++ [entry] in
  pendingMessages (proxy w') !! cc_deviceId c = Some queue' ∧
  (∀ id', id' ≠ cc_deviceId c →
     pendingMessages (proxy w') !! id' = pendingMessages (proxy w) !! id') ∧
  relay w' = relay w ∧
  (∃ notice,
     sock_outbox (csockets (proxy w')) (cc_ws c)
       = sock_outbox (csockets (proxy w)) (cc_ws c) ++ [notice] ∧
     type notice = "device_status"%string ∧
     field "messageQueued" (fields notice) = Some (JBool true) ∧
     field "queuedMessages" (fields notice) = Some (JNum (Z.of_nat (length queue'))) ∧
     field "queueTTL" (fields notice) = Some (JNum 10)) ∧
  ((length old < MAX_QUEUED_MESSAGES)%nat → length queue' = S (length old)) ∧
  (length old = MAX_QUEUED_MESSAGES → length queue' = MAX_QUEUED_MESSAGES) ∧
  (∃ c', clientObjs (proxy w') !! h = Some c' ∧
         messagesSent (metrics c') = messagesSent (metrics c) + 1).
Proof.
  intros Hc H1 H2 H3 Hoff Hopen w' old entry queue'.
  assert (Hw' : w' = with_proxy
            (λ p, let p1 := queueMessageForDevice (cc_deviceId c) (set_timestamp now m)
                              (cc_sessionId c) now
                              (set_clientObjs (<[h := client_sent (client_received now c)]>) p) in
                  sendToClient (client_received now c)
                    (device_status_offline (cc_deviceId c)
                       (getDeviceLastSeen (cc_deviceId c) (relay w))
                       (queuedCount (cc_deviceId c) p1)) p1)
            (with_proxy (λ p, bump_totalMessages
                                (set_clientObjs (<[h := client_received now c]>) p)) w)).
  { unfold w', clientMessageHandler. rewrite Hc.
    rewrite (handleClientMessage_forward store h (client_received now c));
      [|simpl; by rewrite lookup_insert_eq | done | done | done].
    by rewrite forwardToDevice_offline. }
  rewrite Hw'. cbn [proxy relay with_proxy].
  match goal with
  | |- context [queueMessageForDevice ?i ?msg ?sid now ?p0] =>
      destruct (queueMessageForDevice_lookup i msg sid now p0) as [Hq Hother];
      set (p1 := queueMessageForDevice i msg sid now p0) in *
  end.
  cbn [pendingMessages bump_totalMessages set_clientObjs cc_deviceId client_received cc_with]
    in Hq, Hother.
  fold old in Hq. fold entry in Hq. fold queue' in Hq.
  split; [by rewrite sendToClient_pending |].
  split; [intros id' Hne; rewrite sendToClient_pending; by apply Hother |].
  split; [done |]. split.
  { eexists. split.
    - rewrite sendToClient_outbox.
      change (csockets p1) with (csockets (proxy w)).
      change (cc_ws (client_received now c)) with (cc_ws c).
      rewrite Hopen, bool_decide_eq_true_2 by done. reflexivity.
    - split; [done |]. split; [done |]. split; [|done].
      simpl. unfold queuedCount. by rewrite Hq. }
  split.
  { intros Hlt. unfold queue'. rewrite (proj2 (Nat.leb_gt _ _) Hlt), length_app. simpl. lia. }
  split.
  { intros Hfull. unfold queue'. rewrite Hfull, Nat.leb_refl, length_app, length_tl, Hfull.
    unfold MAX_QUEUED_MESSAGES. simpl. lia. }
  eexists. rewrite sendToClient_clientObjs. split.
  - unfold p1. simpl. by rewrite lookup_insert_eq.
  - done.
Qed.

Lemma X14_witness :
  pendingMessages (proxy (clientMessageHandler demoStore 0 (Some (mkMsg "brew_start" [])) 50
                            lonely_client)) !! demoDevice
  = Some [{| pm_message := set_timestamp 50 (mkMsg "brew_start" []); pm_timestamp := 50;
             retries := 0; clientSessionId := "session-1" |}].
Proof.
  exact (proj1 (X14_forward_to_unreachable_device demoStore 0 demoClient
                  (mkMsg "brew_start" []) 50 lonely_client
                  ltac:(vm_compute; reflexivity) ltac:(discriminate) ltac:(discriminate)
                  ltac:(discriminate) ltac:(vm_compute; reflexivity)
                  ltac:(vm_compute; reflexivity))).
Defined.

(** ** Token refresh and the expiry warning *)

Lemma handleClientMessage_refresh (store : CredentialStore) (h : nat) (c : ClientConnection)
    (m : DeviceMessage) (now : Z) (w : World) :
  clientObjs (proxy w) !! h = Some c → type m = "refresh_auth"%string →
  handleClientMessage store h m now w = with_proxy (handleAuthRefresh store h m now) w.
Proof. intros Hc Ht. unfold handleClientMessage. rewrite Hc, Ht. reflexivity. Qed.

(** X15.  A client frame of type [refresh_auth] is answered with exactly one
    [auth_refreshed] frame, touches neither the relay nor the queues nor the
    session table, and never closes the socket.  It is granted only when the
    frame carries a truthy token that verifies for the user of the
    connection: then the connection takes the new expiry, and its warning
    timer is a fresh one due five minutes before that expiry when that moment
    is still ahead, else the old timer, stopped.  When it is not granted the
    reply says [success: false] and expiry and timer stay as they were.  A
    token that is absent, [null], [false], 0 or the empty string is never
    verified; any other is handed to the verifier as it is, a string or
    not. *)
Theorem X15_auth_refresh (store : CredentialStore) (h : nat) (c : ClientConnection)
    (m : DeviceMessage) (now : Z) (w : World) :
  clientObjs (proxy w) !! h = Some c →
  type m = "refresh_auth"%string →
  sock_open (csockets (proxy w)) (cc_ws c) = true →
  let w' := clientMessageHandler store h (Some m) now w in
  let granted :=
    sessionResult ← token_of m ≫= verifyToken store;
    if String.eqb (user_id sessionResult) (cc_userId c) then Some sessionResult else None in
  (relay w' = relay w ∧
   pendingMessages (proxy w') = pendingMessages (proxy w) ∧
   clients (proxy w') = clients (proxy w) ∧
   sock_open (csockets (proxy w')) (cc_ws c) = true ∧
   ∃ reply c',
     sock_outbox (csockets (proxy w')) (cc_ws c)
       = sock_outbox (csockets (proxy w)) (cc_ws c) ++ [reply] ∧
     type reply = "auth_refreshed"%string ∧
     clientObjs (proxy w') !! h = Some c' ∧
     match granted with
     | Some sessionResult =>
         field "success" (fields reply) = Some (JBool true) ∧
         field "tokenExpiresAt" (fields reply)
           = Some (JIso (access_expires_at sessionResult)) ∧
         accessTokenExpiresAt c' = access_expires_at sessionResult ∧
         tokenExpiryTimer c'
           = if now <? access_expires_at sessionResult - TOKEN_EXPIRY_WARNING_MS
             then Some {| fireAt := access_expires_at sessionResult - TOKEN_EXPIRY_WARNING_MS;
                          capturedExpiresAt := access_expires_at sessionResult;
                          active := true |}
             else stop_timer <$> tokenExpiryTimer c
     | None =>
         field "success" (fields reply) = Some (JBool false) ∧
         accessTokenExpiresAt c' = accessTokenExpiresAt c ∧
         tokenExpiryTimer c' = tokenExpiryTimer c
     end) ∧
  (field "token" (fields m) = None → token_of m = None) ∧
  (∀ v, v ∈ [JNull; JBool false; JNum 0; JStr ""] →
        field "token" (fields m) = Some v → token_of m = None) ∧
  (∀ s, s ≠ ""%string → field "token" (fields m) = Some (JStr s) →
        token_of m ≫= verifyToken store = verifyAccessToken store s) ∧
  (∀ v, v = JBool true ∨ (∃ n, n ≠ 0 ∧ v = JNum n) →
        field "token" (fields m) = Some v →
        token_of m ≫= verifyToken store = verifyAccessValue store v).
Proof.
  intros Hc Ht Hopen w' granted.
  split; [|split; [|split; [|split]]].
  2: { intros Hnone. unfold token_of. by rewrite Hnone. }
  2: { intros v Hv Hsome. unfold token_of. rewrite Hsome.
       repeat (apply elem_of_cons in Hv as [-> | Hv]; [reflexivity |]).
       by apply elem_of_nil in Hv. }
  2: { intros s0 Hne Hsome. unfold token_of. rewrite Hsome. simpl.
       by rewrite (proj2 (String.eqb_neq s0 "") Hne). }
  2: { intros v [-> | (n & Hn & ->)] Hsome; unfold token_of; rewrite Hsome; simpl; [done |].
       by rewrite (proj2 (Z.eqb_neq n 0) Hn). }
  assert (Hw' : w' = with_proxy
                       (λ p, handleAuthRefresh store h m now
                               (bump_totalMessages
                                  (set_clientObjs (<[h := client_received now c]>) p))) w).
  { unfold w', clientMessageHandler. rewrite Hc.
    rewrite (handleClientMessage_refresh store h (client_received now c));
      [done | simpl; by rewrite lookup_insert_eq | done]. }
  rewrite Hw'. clear Hw' w'. cbn [relay proxy with_proxy].
  set (p0 := bump_totalMessages (set_clientObjs (<[h := client_received now c]>) (proxy w))).
  assert (Hobj : clientObjs p0 !! h = Some (client_received now c))
    by (unfold p0; simpl; by rewrite lookup_insert_eq).
  assert (Hopen0 : sock_open (csockets p0) (cc_ws (client_received now c)) = true) by done.
  unfold granted. clear granted.
  assert (Hfail : ∀ reason (granted : option SessionResult),
            granted = None →
            let p' := sendToClient (client_received now c) (auth_refreshed_error reason) p0 in
            pendingMessages p' = pendingMessages (proxy w) ∧
            clients p' = clients (proxy w) ∧
            sock_open (csockets p') (cc_ws c) = true ∧
            ∃ reply c',
              sock_outbox (csockets p') (cc_ws c)
                = sock_outbox (csockets (proxy w)) (cc_ws c) ++ [reply] ∧
              type reply = "auth_refreshed"%string ∧
              clientObjs p' !! h = Some c' ∧
              match granted with
              | Some sessionResult =>
                  field "success" (fields reply) = Some (JBool true) ∧
                  field "tokenExpiresAt" (fields reply)
                    = Some (JIso (access_expires_at sessionResult)) ∧
                  accessTokenExpiresAt c' = access_expires_at sessionResult ∧
                  tokenExpiryTimer c'
                    = if now <? access_expires_at sessionResult - TOKEN_EXPIRY_WARNING_MS
                      then Some {| fireAt := access_expires_at sessionResult
                                             - TOKEN_EXPIRY_WARNING_MS;
                                   capturedExpiresAt := access_expires_at sessionResult;
                                   active := true |}
                      else stop_timer <$> tokenExpiryTimer c
              | None =>
                  field "success" (fields reply) = Some (JBool false) ∧
                  accessTokenExpiresAt c' = accessTokenExpiresAt c ∧
                  tokenExpiryTimer c' = tokenExpiryTimer c
              end).
  { intros reason granted -> p'. unfold p'.
    rewrite sendToClient_pending, sendToClient_clients, sendToClient_sock_open,
      sendToClient_clientObjs.
    split; [done |]. split; [done |]. split; [exact Hopen |].
    eexists _, _. split.
    { rewrite sendToClient_outbox.
      change (cc_ws (client_received now c)) with (cc_ws c).
      change (csockets p0) with (csockets (proxy w)).
      rewrite Hopen, bool_decide_eq_true_2 by done. reflexivity. }
    split; [done |]. split; [exact Hobj |]. done. }
  split; [done |].
  unfold handleAuthRefresh. rewrite Hobj.
  destruct (token_of m) as [newToken|] eqn:Htok; [|exact (Hfail _ None eq_refl)].
  cbn [mbind option_bind].
  destruct (verifyToken store newToken) as [sessionResult|] eqn:Hver;
    [|exact (Hfail _ None eq_refl)].
  cbn [mbind option_bind].
  change (cc_userId (client_received now c)) with (cc_userId c).
  destruct (String.eqb (user_id sessionResult) (cc_userId c)) eqn:Huser; cbn [negb];
    [|exact (Hfail _ None eq_refl)].
  rewrite sendToClient_pending, sendToClient_clients, sendToClient_sock_open,
    sendToClient_clientObjs.
  unfold setupTokenExpiryWarning. cbn [clientObjs set_clientObjs].
  rewrite lookup_insert_eq.
  cbn [accessTokenExpiresAt client_clearTimer client_setTimer client_setToken cc_with].
  destruct (now <? access_expires_at sessionResult - TOKEN_EXPIRY_WARNING_MS) eqn:Hdue.
  - split; [done |]. split; [done |]. split; [exact Hopen |].
    eexists _, _. split.
    { rewrite sendToClient_outbox.
      change (cc_ws (client_received now c)) with (cc_ws c).
      cbn [csockets set_clientObjs]. change (csockets p0) with (csockets (proxy w)).
      rewrite Hopen, bool_decide_eq_true_2 by done. reflexivity. }
    split; [done |]. split; [cbn [clientObjs set_clientObjs]; by rewrite lookup_insert_eq |].
    split; [done |]. split; [done |]. split; [done |].
    cbn [tokenExpiryTimer client_setTimer cc_with]. do 2 f_equal. lia.
  - split; [done |]. split; [done |]. split; [exact Hopen |].
    eexists _, _. split.
    { rewrite sendToClient_outbox.
      change (cc_ws (client_received now c)) with (cc_ws c).
      cbn [csockets set_clientObjs]. change (csockets p0) with (csockets (proxy w)).
      rewrite Hopen, bool_decide_eq_true_2 by done. reflexivity. }
    split; [done |]. split; [cbn [clientObjs set_clientObjs]; by rewrite lookup_insert_eq |].
    done.
Qed.

Lemma X15_witness :
  ∃ reply,
    last (sock_outbox
            (csockets (proxy (clientMessageHandler demoStore 0
                                (Some (mkMsg "refresh_auth" [("token"%string, JStr "token-1")]))
                                50 device_and_client))) 0) = Some reply ∧
    type reply = "auth_refreshed"%string ∧
    field "success" (fields reply) = Some (JBool true) ∧
    field "tokenExpiresAt" (fields reply) = Some (JIso 600000).
Proof.
  destruct (X15_auth_refresh demoStore 0 demoClient
              (mkMsg "refresh_auth" [("token"%string, JStr "token-1")]) 50 device_and_client
              ltac:(vm_compute; reflexivity) eq_refl ltac:(vm_compute; reflexivity))
    as [(_ & _ & _ & _ & reply & c' & Hbox & Htype & _ & Hgranted) _].
  exists reply. change (cc_ws demoClient) with 0%nat in Hbox.
  split; [by rewrite Hbox, last_snoc |]. split; [exact Htype |].
  destruct Hgranted as (Hsuccess & Hexpires & _). split; [exact Hsuccess | exact Hexpires].
Defined.

(** X16.  The expiry warning.  [setupTokenExpiryWarning] arms nothing when
    the token has five minutes or less left.  Otherwise it arms one timer,
    due five minutes before the expiry; when that timer fires on an open
    socket the client gets one [token_expiring] frame with the expiry of the
    connection and [expiresIn], the whole seconds left at that moment, which
    is at most 300; and the timer does not fire a second time. *)
Theorem X16_token_expiry_warning (h : nat) (c : ClientConnection) (t0 : Z) (p : ClientProxy) :
  clientObjs p !! h = Some c →
  let expiresAt := accessTokenExpiresAt c in
  let armed := setupTokenExpiryWarning h t0 p in
  (expiresAt - TOKEN_EXPIRY_WARNING_MS ≤ t0 → armed = p) ∧
  (t0 < expiresAt - TOKEN_EXPIRY_WARNING_MS →
   ∀ now, expiresAt - TOKEN_EXPIRY_WARNING_MS ≤ now →
     sock_open (csockets p) (cc_ws c) = true →
     let fired := tokenTimerFired h now armed in
     (∃ warning,
        sock_outbox (csockets fired) (cc_ws c) = sock_outbox (csockets p) (cc_ws c) ++ [warning] ∧
        type warning = "token_expiring"%string ∧
        field "expiresAt" (fields warning) = Some (JIso expiresAt) ∧
        field "expiresIn" (fields warning) = Some (JNum ((expiresAt - now) / 1000)) ∧
        (expiresAt - now) / 1000 ≤ 300) ∧
     (∀ later, tokenTimerFired h later fired = fired)).
Proof.
  intros Hc expiresAt armed. unfold armed, setupTokenExpiryWarning. rewrite Hc.
  fold expiresAt. split.
  - intros Hlate. by rewrite (proj2 (Z.ltb_ge _ _) Hlate).
  - intros Hahead now Hdue Hopen. rewrite (proj2 (Z.ltb_lt _ _) Hahead).
    set (t := {| fireAt := t0 + (expiresAt - TOKEN_EXPIRY_WARNING_MS - t0);
                 capturedExpiresAt := expiresAt; active := true |}).
    set (c1 := client_setTimer (Some t) c).
    assert (Hfire : active t && (fireAt t <=? now) = true).
    { simpl. apply Z.leb_le. lia. }
    set (fired := tokenTimerFired h now _).
    assert (Hfired : fired = sendToClient c1
                       (mkMsg "token_expiring"
                          [("expiresAt"%string, JIso expiresAt);
                           ("expiresIn"%string, JNum ((expiresAt - now) / 1000));
                           ("refreshRequired"%string, JBool true)])
                       (set_clientObjs (<[h := client_setTimer (Some (stop_timer t)) c1]>)
                          (set_clientObjs (<[h := c1]>) p))).
    { unfold fired, tokenTimerFired. cbn [clientObjs set_clientObjs].
      rewrite lookup_insert_eq. change (tokenExpiryTimer c1) with (Some t). cbv iota.
      by rewrite Hfire. }
    rewrite Hfired. clear Hfired fired. split.
    + eexists. split.
      { rewrite sendToClient_outbox. change (cc_ws c1) with (cc_ws c).
        cbn [csockets set_clientObjs].
        rewrite Hopen, bool_decide_eq_true_2 by done. reflexivity. }
      split; [done |]. split; [done |]. split; [done |].
      unfold TOKEN_EXPIRY_WARNING_MS in Hdue.
      assert ((expiresAt - now) / 1000 ≤ 300000 / 1000) by (apply Z.div_le_mono; lia).
      by change (300000 / 1000) with 300 in *.
    + intros later. unfold tokenTimerFired at 1.
      rewrite sendToClient_clientObjs. cbn [clientObjs set_clientObjs].
      rewrite lookup_insert_eq. reflexivity.
Qed.

Lemma X16_witness :
  tokenTimerFired 0 400000
    (tokenTimerFired 0 301000 (setupTokenExpiryWarning 0 5 (proxy lonely_client)))
  = tokenTimerFired 0 301000 (setupTokenExpiryWarning 0 5 (proxy lonely_client)).
Proof.
  exact (proj2 (proj2 (X16_token_expiry_warning 0 demoClient 5 (proxy lonely_client)
                         ltac:(vm_compute; reflexivity))
                  ltac:(vm_compute; reflexivity) 301000 ltac:(vm_compute; discriminate)
                  ltac:(vm_compute; reflexivity)) 400000).
Defined.

(** ** Fan-out, per socket *)

Lemma filter_none {A : Type} (P : A → Prop) `{∀ x, Decision (P x)} (l : list A) :
  (∀ y, y ∈ l → ¬ P y) → filter P l = [].
Proof.
  induction l as [|a l IH]; intros Hnone; [done |].
  rewrite filter_cons, decide_False by (apply Hnone, list_elem_of_here).
  apply IH. intros y Hy. by apply Hnone, list_elem_of_further.
Qed.

Lemma filter_unique {A : Type} (P : A → Prop) `{∀ x, Decision (P x)} (l : list A) (x : A) :
  NoDup l → x ∈ l → P x → (∀ y, y ∈ l → P y → y = x) → filter P l = [x].
Proof.
  intros Hnd. induction Hnd as [|a l Hnotin Hnd IH]; intros Hin Hx Huniq.
  - by apply elem_of_nil in Hin.
  - rewrite filter_cons. destruct (decide (P a)) as [Ha|Ha].
    + assert (a = x) as -> by (apply Huniq; [apply list_elem_of_here | done]).
      f_equal. apply filter_none. intros y Hy Hpy.
      assert (y = x) as -> by (apply Huniq; [by apply list_elem_of_further | done]).
      done.
    + apply IH; [|done|].
      * apply elem_of_cons in Hin as [->|Hin]; [done | done].
      * intros y Hy. apply Huniq. by apply list_elem_of_further.
Qed.

Lemma broadcast_loop_outbox (m : DeviceMessage) (p : ClientProxy) (h : nat)
    (l : list string) (acc : ClientProxy) :
  proxyCore acc = proxyCore p →
  (∀ h', sock_open (csockets acc) h' = sock_open (csockets p) h') →
  let acc' := foldl (λ acc sid, match getClient sid acc with
                                | Some c => sendToClient c m acc
                                | None => acc
                                end) acc l in
  sock_outbox (csockets acc') h
  = sock_outbox (csockets acc) h
    ++ replicate (length (filter (λ sid, reaches p h sid = true) l)) m.
Proof.
  revert acc. induction l as [|sid l IH]; intros acc Hcore Hopen; cbn [foldl].
  - by rewrite app_nil_r.
  - rewrite IH.
    + rewrite filter_cons. pose proof (getClient_core sid acc p Hcore) as Hg.
      destruct (getClient sid acc) as [c|] eqn:Hc.
      * assert (Hr : reaches p h sid
                     = sock_open (csockets p) (cc_ws c) && bool_decide (cc_ws c = h))
          by (unfold reaches; by rewrite <- Hg).
        rewrite sendToClient_outbox, Hopen, <- app_assoc, Hr. f_equal.
        destruct (sock_open (csockets p) (cc_ws c) && bool_decide (cc_ws c = h)).
        -- by rewrite decide_True by done.
        -- by rewrite decide_False by done.
      * assert (Hr : reaches p h sid = false) by (unfold reaches; by rewrite <- Hg).
        by rewrite Hr, decide_False by done.
    + destruct (getClient sid acc) as [c|]; [|done]. by rewrite sendToClient_core.
    + intros h'. destruct (getClient sid acc) as [c|]; [|done].
      by rewrite sendToClient_sock_open.
Qed.

Lemma broadcast_outbox (id : string) (m : DeviceMessage) (p : ClientProxy) (h : nat) :
  sock_outbox (csockets (broadcastToDeviceClients id m p)) h
  = sock_outbox (csockets p) h
    ++ replicate (length (filter (λ sid, reaches p h sid = true)
                            (elements (default ∅ (deviceClients p !! id))))) m.
Proof.
  unfold broadcastToDeviceClients.
  destruct (deviceClients p !! id) as [ss|]; cbn [default].
  - by apply broadcast_loop_outbox.
  - rewrite elements_empty. simpl. by rewrite app_nil_r.
Qed.

Lemma broadcast_outbox_none (id : string) (m : DeviceMessage) (p : ClientProxy) (h : nat) :
  (∀ sid, sid ∈ default ∅ (deviceClients p !! id) → reaches p h sid = false) →
  sock_outbox (csockets (broadcastToDeviceClients id m p)) h = sock_outbox (csockets p) h.
Proof.
  intros Hnone. rewrite broadcast_outbox.
  rewrite filter_none; [simpl; by rewrite app_nil_r |].
  intros sid Hsid. apply elem_of_elements in Hsid. rewrite (Hnone sid Hsid). discriminate.
Qed.

Lemma broadcast_outbox_once (id : string) (m : DeviceMessage) (p : ClientProxy) (h : nat)
    (sid : string) :
  sid ∈ default ∅ (deviceClients p !! id) → reaches p h sid = true →
  (∀ sid', sid' ∈ default ∅ (deviceClients p !! id) → reaches p h sid' = true → sid' = sid) →
  sock_outbox (csockets (broadcastToDeviceClients id m p)) h
  = sock_outbox (csockets p) h ++ [m].
Proof.
  intros Hin Hsid Huniq. rewrite broadcast_outbox.
  rewrite (filter_unique _ (elements (default ∅ (deviceClients p !! id))) sid);
    [done | apply NoDup_elements | | done |].
  - by apply elem_of_elements.
  - intros y Hy. apply Huniq. by apply elem_of_elements.
Qed.

(** X17.  What [broadcastToDeviceClients] delivers.  On every client socket
    the frames sent so far stay, followed by one copy of the message for each
    session of the device's set whose entry leads to that socket while it is
    open; no socket changes state and nothing but sockets is written.  So a
    socket no session of the set leads to, or one that is not open, gets
    nothing, and an open socket that exactly one session of the set leads to
    gets the message exactly once. *)
Theorem X17_broadcast_delivery (id : string) (m : DeviceMessage) (p : ClientProxy) (h : nat) :
  let p' := broadcastToDeviceClients id m p in
  let sessions := default ∅ (deviceClients p !! id) in
  sock_outbox (csockets p') h
    = sock_outbox (csockets p) h
      ++ replicate (length (filter (λ sid, reaches p h sid = true) (elements sessions))) m ∧
  ((∀ sid, sid ∈ sessions → reaches p h sid = false) →
   sock_outbox (csockets p') h = sock_outbox (csockets p) h) ∧
  (∀ sid, sid ∈ sessions → reaches p h sid = true →
     (∀ sid', sid' ∈ sessions → reaches p h sid' = true → sid' = sid) →
     sock_outbox (csockets p') h = sock_outbox (csockets p) h ++ [m]) ∧
  (∀ h', sock_open (csockets p') h' = sock_open (csockets p) h') ∧
  set_csockets (λ _, csockets p) p' = p.
Proof.
  intros p' sessions.
  split; [apply broadcast_outbox |].
  split; [apply broadcast_outbox_none |].
  split; [apply broadcast_outbox_once |].
  split.
  { intros h'. apply socketsExtend_open. unfold p'. apply broadcast_extends. }
  unfold p'. pose proof (broadcast_frame id m p) as Hframe.
  destruct (broadcastToDeviceClients id m p), p. simpl in *. by injection Hframe as <- <- <- <- <- <- <- <-.
Qed.

Lemma X17_witness :
  sock_outbox (csockets (broadcastToDeviceClients demoDevice deltaMessage
                           (proxy device_and_client))) 0
  = sock_outbox (csockets (proxy device_and_client)) 0 ++ [deltaMessage].
Proof.
  destruct (X17_broadcast_delivery demoDevice deltaMessage (proxy device_and_client) 0)
    as (_ & _ & Honce & _).
  apply (Honce "session-1"%string).
  - vm_compute. reflexivity.
  - vm_compute. reflexivity.
  - intros sid' Hin _.
    assert (Hset : default ∅ (deviceClients (proxy device_and_client) !! demoDevice)
                   = ({["session-1"%string]} : gset string))
      by (vm_compute; reflexivity).
    rewrite Hset in Hin. by apply elem_of_singleton in Hin.
Defined.

(** * Requests and their listeners *)

Lemma requestsWF_core (w w' : World) :
  requestCore w' = requestCore w → requestsWF w → requestsWF w'.
Proof. unfold requestCore, requestsWF. intros [= -> -> ->]. done. Qed.

Lemma filter_request_handlers (rid : nat) (rids : list nat) :
  filter (λ h', h' ≠ RequestHandler rid)
         ([ProxyFanOut; ProxyFlush; ProxyOffline] ++ (RequestHandler <$> rids))
  = [ProxyFanOut; ProxyFlush; ProxyOffline]
    ++ (RequestHandler <$> filter (λ r, r ≠ rid) rids).
Proof.
  rewrite filter_app. f_equal.
  induction rids as [|r rids IH]; [done |].
  rewrite fmap_cons, !filter_cons, IH.
  destruct (decide (r ≠ rid)) as [Hne|Heq].
  - rewrite decide_True by congruence. done.
  - rewrite decide_False; [done |]. intros Hne. apply Heq. intros ->. by apply Hne.
Qed.

(** Settling a request and removing its listener, as the handler, the timer
    callback and the failed send all do. *)
Lemma settle_WF (rid : nat) (q : Request) (outcome : Promise) (w : World) :
  requests w !! rid = Some q → outcome ≠ Pending →
  requestsWF w →
  requestsWF (with_requests (<[rid := settle outcome (clearTimeout q)]>)
                (with_relay (unsubscribe (RequestHandler rid)) w)).
Proof.
  intros Hq Hout ((rids & Hhs & Hnd & Hpending) & Hreq).
  assert (Hsettled : rq_promise (settle outcome (clearTimeout q)) ≠ Pending).
  { simpl. by destruct (rq_promise q). }
  split.
  - exists (filter (λ r, r ≠ rid) rids).
    cbn [relay requests with_requests with_relay messageHandlers unsubscribe
         set_messageHandlers].
    rewrite Hhs, filter_request_handlers. split; [done |].
    split; [by apply NoDup_filter |].
    intros r. rewrite list_elem_of_filter, Hpending.
    destruct (decide (r = rid)) as [->|Hne].
    + rewrite lookup_insert_eq. split; [by intros [Hne _] |].
      intros (q' & [= <-] & Hp). done.
    + rewrite lookup_insert_ne by done. split; [by intros [_ H] | by split].
  - intros r q'. cbn [requests nextRequest with_requests with_relay].
    destruct (decide (r = rid)) as [->|Hne].
    + rewrite lookup_insert_eq. intros [= <-]. split; [by apply (Hreq rid q) |].
      split; [done |]. simpl. by intros [x Hx].
    + rewrite lookup_insert_ne by done. apply Hreq.
Qed.

Lemma runHandler_WF (now : Z) (id : string) (m : DeviceMessage) (w : World) (h : Handler) :
  requestsWF w → requestsWF (runHandler now id m w h).
Proof.
  intros HWF. destruct h as [| | |rid]; cbn [runHandler].
  - eapply requestsWF_core; [|exact HWF]. by destruct (is_cached_type (type m)).
  - destruct (String.eqb (type m) "device_online"); [|exact HWF].
    eapply requestsWF_core; [|exact HWF]. apply flush_requestCore.
  - by destruct (String.eqb (type m) "device_offline").
  - unfold requestHandler. destruct (requests w !! rid) as [q|] eqn:Hq; [|exact HWF].
    destruct (isReply q id m); [|exact HWF].
    apply settle_WF; [done | by destruct (String.eqb (type m) "error") | done].
Qed.

Lemma notifyHandlers_WF (ws : nat) (now : Z) (id : string) (m : DeviceMessage) (w : World) :
  requestsWF w → requestsWF (notifyHandlers ws now id m w).
Proof.
  intros HWF. unfold notifyHandlers.
  apply (foldl_preserves requestsWF); [exact HWF |].
  intros x h Hx. by apply runHandler_WF.
Qed.

Lemma sendDeviceRequest_WF (deviceId : string) (m : DeviceMessage) (rnd : string)
    (timeout now : Z) (w : World) :
  requestsWF w → requestsWF (sendDeviceRequest deviceId m rnd timeout now w).2.
Proof.
  intros ((rids & Hhs & Hnd & Hpending) & Hreq). unfold sendDeviceRequest.
  set (rid := nextRequest w).
  set (q := {| rq_deviceId := deviceId; rq_requestId := newRequestId now rnd;
               rq_requestType := type m; rq_timer := Some (now + timeout);
               rq_promise := Pending |}).
  set (w1 := {| relay := onDeviceMessage (RequestHandler rid) (relay w); proxy := proxy w;
                requests := <[rid := q]> (requests w); nextRequest := S rid |}).
  assert (Hfresh : requests w !! rid = None).
  { destruct (requests w !! rid) as [q'|] eqn:Hq'; [|done].
    apply Hreq in Hq' as [Hlt _]. unfold rid in Hlt. lia. }
  assert (Hnew : rid ∉ rids).
  { intros Hin. apply Hpending in Hin as (q' & Hq' & _). by rewrite Hfresh in Hq'. }
  assert (HWF1 : requestsWF w1).
  { split.
    - exists (rids ++ [rid]). cbn [relay requests w1 messageHandlers onDeviceMessage
                                    set_messageHandlers].
      rewrite bool_decide_eq_false_2.
      + rewrite Hhs, fmap_app, <- app_assoc. split; [done |]. split.
        * apply NoDup_app. split; [done |]. split; [|apply NoDup_singleton].
          intros x Hx Hx'. apply list_elem_of_singleton in Hx' as ->. by apply Hnew.
        * intros r. rewrite elem_of_app, list_elem_of_singleton, Hpending.
          destruct (decide (r = rid)) as [->|Hne].
          -- rewrite lookup_insert_eq. split; [by exists q | by right].
          -- rewrite lookup_insert_ne by done. split; [by intros [H|H] | by left].
      + rewrite Hhs. intros Hin. apply elem_of_app in Hin as [Hin|Hin].
        * repeat (apply elem_of_cons in Hin as [Hin|Hin]; [discriminate |]).
          by apply elem_of_nil in Hin.
        * apply list_elem_of_fmap in Hin as (r & [= <-] & Hr). by apply Hnew.
    - intros r q'. cbn [requests nextRequest w1].
      destruct (decide (r = rid)) as [->|Hne].
      + rewrite lookup_insert_eq. intros [= <-]. split; [lia |]. simpl. split; [by eexists | done].
      + rewrite lookup_insert_ne by done. intros Hq'. apply Hreq in Hq' as [Hlt Hiff].
        split; [unfold rid; lia | done]. }
  pose proof (relay_send_requestCore deviceId (set_requestId (newRequestId now rnd) m) w1)
    as Hcore.
  destruct (relay_send deviceId (set_requestId (newRequestId now rnd) m) w1) as [sent w2].
  cbn [snd] in Hcore.
  assert (HWF2 : requestsWF w2) by (by apply (requestsWF_core w1)).
  destruct sent; cbn [snd]; [exact HWF2 |].
  apply settle_WF; [|done | exact HWF2].
  unfold requestCore in Hcore. injection Hcore as -> _ _. cbn [requests w1].
  by rewrite lookup_insert_eq.
Qed.

Lemma requestTimeout_WF (rid : nat) (now : Z) (w : World) :
  requestsWF w → requestsWF (requestTimeout rid now w).
Proof.
  intros HWF. unfold requestTimeout.
  destruct (requests w !! rid) as [q|] eqn:Hq; [|exact HWF].
  destruct (rq_timer q) as [due|]; [|exact HWF].
  destruct (due <=? now); [|exact HWF]. by apply settle_WF.
Qed.

Lemma step_requestsWF (store : CredentialStore) (now : Z) (ev : Event) (w : World) :
  requestsWF w → requestsWF (step store now ev w).
Proof.
  intros HWF. destruct ev; cbn [step].
  - unfold DeviceRelay_handleConnection.
    destruct (validateDevice store id key) as [deviceId|code reason]; [|exact HWF].
    apply notifyHandlers_WF. eapply requestsWF_core; [|exact HWF].
    rewrite !relay_send_requestCore. unfold requestCore. cbn [relay requests nextRequest with_relay].
    by branch.
  - by destruct (live (sockets (relay w)) ws).
  - destruct (live (sockets (relay w)) ws); [|exact HWF]. rewrite deviceMessageHandler_fold.
    destruct (connections (relay w) !! ws) as [c|]; [|exact HWF].
    apply (foldl_preserves requestsWF); [exact HWF |].
    intros x m Hx. by apply notifyHandlers_WF.
  - destruct (live (sockets (relay w)) ws); [|exact HWF]. unfold deviceCloseHandler.
    cbn [relay with_relay connections set_sockets].
    destruct (connections (relay w) !! ws) as [c|]; [|exact HWF].
    by apply notifyHandlers_WF.
  - eapply requestsWF_core; [|exact HWF]. unfold requestCore.
    cbn [relay requests nextRequest with_relay]. by rewrite pingAllDevices_handlers.
  - eapply requestsWF_core; [|exact HWF]. unfold requestCore.
    cbn [relay requests nextRequest with_relay]. by rewrite disconnectDevice_handlers.
  - eapply requestsWF_core; [|exact HWF]. by rewrite client_accept_requestCore.
  - by destruct (live (csockets (proxy w)) h).
  - destruct (live (csockets (proxy w)) h); [|exact HWF].
    eapply requestsWF_core; [|exact HWF]. apply clientMessageHandler_requestCore.
  - by destruct (live (csockets (proxy w)) h).
  - exact HWF.
  - exact HWF.
  - exact HWF.
  - by apply sendDeviceRequest_WF.
  - by apply requestTimeout_WF.
Qed.

Lemma initial_requestsWF : requestsWF initial.
Proof.
  split.
  - exists []. split; [done |]. split; [apply NoDup_nil_2 |].
    intros rid. split; [by intros Hin%elem_of_nil |]. by intros (q & Hq & _).
  - intros rid q Hq. done.
Qed.

Lemma run_requestsWF (store : CredentialStore) (evs : list (Z * Event)) :
  requestsWF (run store evs initial).
Proof.
  unfold run. apply (foldl_preserves requestsWF); [apply initial_requestsWF |].
  intros x e Hx. by apply step_requestsWF.
Qed.

(** X18.  In every state the event loop can reach, the subscribers of the
    relay are the three handlers of the client proxy, in the order the
    constructor registered them, followed by the handlers of the requests
    whose promise is pending, each once.  A request is pending exactly while
    its timer is armed and its handler subscribed: whichever of reply,
    timeout or failed send settles it also clears the timer and removes the
    handler, so a settled request leaves neither behind. *)
Theorem X18_no_stale_listener (store : CredentialStore) (evs : list (Z * Event)) :
  let w := run store evs initial in
  (∃ rids, messageHandlers (relay w)
             = [ProxyFanOut; ProxyFlush; ProxyOffline] ++ (RequestHandler <$> rids) ∧
           NoDup rids) ∧
  (∀ rid q, requests w !! rid = Some q →
     (rq_promise q = Pending ↔ is_Some (rq_timer q)) ∧
     (rq_promise q = Pending ↔ RequestHandler rid ∈ messageHandlers (relay w))) ∧
  (∀ rid, RequestHandler rid ∈ messageHandlers (relay w) → is_Some (requests w !! rid)).
Proof.
  intros w. destruct (run_requestsWF store evs) as ((rids & Hhs & Hnd & Hpending) & Hreq).
  fold w in Hhs, Hpending, Hreq.
  assert (Hsub : ∀ rid, RequestHandler rid ∈ messageHandlers (relay w) ↔ rid ∈ rids).
  { intros rid. rewrite Hhs, elem_of_app. split.
    - intros [Hin|Hin].
      + repeat (apply elem_of_cons in Hin as [Hin|Hin]; [discriminate |]).
        by apply elem_of_nil in Hin.
      + by apply list_elem_of_fmap in Hin as (r & [= <-] & Hr).
    - intros Hin. right. apply list_elem_of_fmap. by exists rid. }
  split; [by exists rids |]. split.
  - intros rid q Hq. split; [by apply (Hreq rid q) |].
    rewrite Hsub, Hpending. split; [by exists q |].
    intros (q' & Hq' & Hp). rewrite Hq in Hq'. by injection Hq' as <-.
  - intros rid Hin. apply Hsub, Hpending in Hin as (q & Hq & _). by exists q.
Qed.

(** * The session tables stay well formed *)

Lemma sameClient_refl (c : ClientConnection) : sameClient c c.
Proof. done. Qed.

Lemma sameClient_trans (c1 c2 c3 : ClientConnection) :
  sameClient c1 c2 → sameClient c2 c3 → sameClient c1 c3.
Proof. intros (H1 & H2 & H3 & H4) (G1 & G2 & G3 & G4). repeat split; congruence. Qed.

Lemma proxyKeeps_refl (p : ClientProxy) : proxyKeeps p p.
Proof. repeat split. intros h. by destruct (clientObjs p !! h). Qed.

Lemma proxyKeeps_trans (p1 p2 p3 : ClientProxy) :
  proxyKeeps p1 p2 → proxyKeeps p2 p3 → proxyKeeps p1 p3.
Proof.
  intros (H1 & H2 & H3 & H4 & H5) (G1 & G2 & G3 & G4 & G5).
  split; [congruence |]. split; [congruence |]. split; [congruence |].
  split; [intros h; by rewrite G4 |].
  intros h. specialize (H5 h). specialize (G5 h).
  destruct (clientObjs p1 !! h), (clientObjs p2 !! h), (clientObjs p3 !! h); try done.
  by eapply sameClient_trans.
Qed.

Lemma proxyStable_keeps (p p' : ClientProxy) :
  proxyCore p' = proxyCore p → socketsExtend (csockets p) (csockets p') → proxyKeeps p p'.
Proof.
  unfold proxyCore. intros [= Hobjs Hcl Hdc Hn] Hext.
  split; [done |]. split; [done |]. split; [done |].
  split; [intros h; by apply socketsExtend_live |].
  intros h. rewrite Hobjs. by destruct (clientObjs p !! h).
Qed.

Lemma proxyWF_keeps (p p' : ClientProxy) : proxyKeeps p p' → proxyWF p → proxyWF p'.
Proof.
  intros (Hcl & Hdc & Hn & Hl & Hc) (Hreg & Hobj & Hsets). split; [|split].
  - intros sid h Hh. rewrite Hcl in Hh. destruct (Hreg sid h Hh) as (c & Hch & Hsid & Hlive).
    specialize (Hc h). rewrite Hch in Hc.
    destruct (clientObjs p' !! h) as [c'|]; [|done]. destruct Hc as (_ & Hs & _).
    exists c'. rewrite Hl. split; [done |]. split; [congruence | done].
  - intros h c' Hc'. specialize (Hc h). rewrite Hc' in Hc.
    destruct (clientObjs p !! h) as [c|] eqn:Hch; [|done]. destruct Hc as (Hws & _).
    destruct (Hobj h c Hch) as [Hw Hlt]. rewrite Hn. split; [congruence | done].
  - intros id sessions. rewrite Hdc. apply Hsets.
Qed.

Lemma clientObjs_insert_keeps (p : ClientProxy) (h : nat) (c c' : ClientConnection) :
  clientObjs p !! h = Some c → sameClient c c' →
  proxyKeeps p (set_clientObjs (<[h := c']>) p).
Proof.
  intros Hc Hsame. repeat split. intros h'. simpl.
  destruct (decide (h = h')) as [<-|Hne].
  - by rewrite lookup_insert_eq, Hc.
  - rewrite lookup_insert_ne by done. by destruct (clientObjs p !! h').
Qed.

Lemma csockets_alter_keeps (p : ClientProxy) (f : Socket → Socket) (h : nat) :
  (∀ s, bool_decide (readyState (f s) = CLOSED) = bool_decide (readyState s = CLOSED)) →
  proxyKeeps p (set_csockets (alter f h) p).
Proof.
  intros Hf. split; [done |]. split; [done |]. split; [done |].
  split; [intros h'; by apply live_alter_keeps |].
  intros h'. simpl. by destruct (clientObjs p !! h').
Qed.

Lemma sendToClient_keeps (c : ClientConnection) (m : DeviceMessage) (p : ClientProxy) :
  proxyKeeps p (sendToClient c m p).
Proof. apply proxyStable_keeps; [apply sendToClient_core | apply sendToClient_extends]. Qed.

Lemma setupTokenExpiryWarning_keeps (h : nat) (now : Z) (p : ClientProxy) :
  proxyKeeps p (setupTokenExpiryWarning h now p).
Proof.
  unfold setupTokenExpiryWarning.
  destruct (clientObjs p !! h) as [c|] eqn:Hc; [|apply proxyKeeps_refl].
  destruct (now <? accessTokenExpiresAt c - TOKEN_EXPIRY_WARNING_MS); [|apply proxyKeeps_refl].
  by apply (clientObjs_insert_keeps p h c).
Qed.

Lemma tokenTimerFired_keeps (h : nat) (now : Z) (p : ClientProxy) :
  proxyKeeps p (tokenTimerFired h now p).
Proof.
  unfold tokenTimerFired.
  destruct (clientObjs p !! h) as [c|] eqn:Hc; [|apply proxyKeeps_refl].
  destruct (tokenExpiryTimer c) as [t|]; [|apply proxyKeeps_refl].
  destruct (active t && (fireAt t <=? now)); [|apply proxyKeeps_refl].
  eapply proxyKeeps_trans; [|apply sendToClient_keeps].
  by apply (clientObjs_insert_keeps p h c).
Qed.

Lemma handleAuthRefresh_keeps (store : CredentialStore) (h : nat) (m : DeviceMessage)
    (now : Z) (p : ClientProxy) :
  proxyKeeps p (handleAuthRefresh store h m now p).
Proof.
  unfold handleAuthRefresh.
  destruct (clientObjs p !! h) as [c|] eqn:Hc; [|apply proxyKeeps_refl].
  destruct (token_of m) as [newToken|]; [|apply sendToClient_keeps].
  destruct (verifyToken store newToken) as [sessionResult|]; [|apply sendToClient_keeps].
  destruct (negb (String.eqb (user_id sessionResult) (cc_userId c)));
    [apply sendToClient_keeps |].
  eapply proxyKeeps_trans; [|apply sendToClient_keeps].
  eapply proxyKeeps_trans; [|apply setupTokenExpiryWarning_keeps].
  by apply (clientObjs_insert_keeps p h c).
Qed.

Lemma queueMessageForDevice_keeps (id : string) (m : DeviceMessage) (sid : string) (now : Z)
    (p : ClientProxy) :
  proxyKeeps p (queueMessageForDevice id m sid now p).
Proof. apply proxyStable_keeps; [done | apply socketsExtend_refl]. Qed.

Lemma relay_send_proxy (id : string) (m : DeviceMessage) (w : World) :
  proxy (relay_send id m w).2 = proxy w.
Proof. rewrite relay_send_eq. reflexivity. Qed.

Lemma forwardToDevice_keeps (h : nat) (c : ClientConnection) (m : DeviceMessage) (now : Z)
    (w : World) :
  clientObjs (proxy w) !! h = Some c →
  proxyKeeps (proxy w) (proxy (forwardToDevice h c m now w)).
Proof.
  intros Hc. unfold forwardToDevice.
  pose proof (relay_send_proxy (cc_deviceId c) (set_timestamp now m)
                (with_proxy (set_clientObjs (<[h := client_sent c]>)) w)) as Hsend.
  destruct (relay_send (cc_deviceId c) (set_timestamp now m)
              (with_proxy (set_clientObjs (<[h := client_sent c]>)) w)) as [sent w2].
  cbn [snd proxy with_proxy] in Hsend.
  assert (Hfirst : proxyKeeps (proxy w) (proxy w2)).
  { rewrite Hsend. by apply (clientObjs_insert_keeps (proxy w) h c). }
  destruct sent; [exact Hfirst |]. cbn [proxy with_proxy].
  eapply proxyKeeps_trans; [exact Hfirst |].
  eapply proxyKeeps_trans; [apply queueMessageForDevice_keeps | apply sendToClient_keeps].
Qed.

Lemma handleClientMessage_keeps (store : CredentialStore) (h : nat) (m : DeviceMessage)
    (now : Z) (w : World) :
  proxyKeeps (proxy w) (proxy (handleClientMessage store h m now w)).
Proof.
  unfold handleClientMessage.
  destruct (clientObjs (proxy w) !! h) as [c|] eqn:Hc; [|apply proxyKeeps_refl].
  destruct (String.eqb (type m) "refresh_auth"); [apply handleAuthRefresh_keeps |].
  destruct (String.eqb (type m) "ping"); [apply sendToClient_keeps |].
  destruct (String.eqb (type m) "get_metrics"); [apply sendToClient_keeps |].
  by apply forwardToDevice_keeps.
Qed.

Lemma clientMessageHandler_keeps (store : CredentialStore) (h : nat)
    (data : option DeviceMessage) (now : Z) (w : World) :
  proxyKeeps (proxy w) (proxy (clientMessageHandler store h data now w)).
Proof.
  unfold clientMessageHandler.
  destruct (clientObjs (proxy w) !! h) as [c|] eqn:Hc; [|apply proxyKeeps_refl].
  assert (Hfirst : proxyKeeps (proxy w)
                     (bump_totalMessages
                        (set_clientObjs (<[h := client_received now c]>) (proxy w)))).
  { eapply proxyKeeps_trans;
      [by apply (clientObjs_insert_keeps (proxy w) h c (client_received now c)) |].
    apply proxyStable_keeps; [done | apply socketsExtend_refl]. }
  destruct data as [m|]; [|exact Hfirst].
  eapply proxyKeeps_trans; [exact Hfirst |].
  match goal with
  | |- context [handleClientMessage ?s ?a ?b ?n ?w0] =>
      apply (handleClientMessage_keeps s a b n w0)
  end.
Qed.

Lemma clientPong_keeps (h : nat) (now : Z) (p : ClientProxy) :
  proxyKeeps p (clientPongHandler h now p).
Proof.
  repeat split. intros h'. simpl. destruct (decide (h = h')) as [<-|Hne].
  - rewrite lookup_alter_eq. destruct (clientObjs p !! h) as [c|]; [|done]. simpl.
    unfold client_pong. by destruct (pingStartTime c).
  - rewrite lookup_alter_ne by done. by destruct (clientObjs p !! h').
Qed.

Lemma pingClient_keeps (h : nat) (now : Z) (p : ClientProxy) :
  proxyKeeps p (pingClient h now p).
Proof.
  unfold pingClient. destruct (clientObjs p !! h) as [c|] eqn:Hc; [|apply proxyKeeps_refl].
  destruct (MAX_MISSED_PONGS <? missedPongs (client_missed c)).
  - eapply proxyKeeps_trans;
      [by apply (clientObjs_insert_keeps p h c (client_missed c)) |].
    apply csockets_alter_keeps, ws_terminate_keeps.
  - eapply proxyKeeps_trans;
      [by apply (clientObjs_insert_keeps p h c (client_pingStart now (client_missed c))) |].
    apply csockets_alter_keeps, ws_ping_keeps.
Qed.

Lemma pingAllClients_keeps (now : Z) (p : ClientProxy) : proxyKeeps p (pingAllClients now p).
Proof.
  unfold pingAllClients.
  apply (foldl_preserves (proxyKeeps p)); [apply proxyKeeps_refl |].
  intros x e Hx. eapply proxyKeeps_trans; [exact Hx | apply pingClient_keeps].
Qed.

Lemma notifyHandlers_keeps_proxy (ws : nat) (now : Z) (id : string) (m : DeviceMessage)
    (w : World) :
  proxyKeeps (proxy w) (proxy (notifyHandlers ws now id m w)).
Proof.
  apply proxyStable_keeps;
    [apply notifyHandlers_core | apply notifyHandlers_extends].
Qed.

Lemma hydrate_keeps (c : ClientConnection) (online : bool) (now : Z) (w : World) :
  proxyKeeps (proxy w) (proxy (hydrate c online now w)).
Proof.
  assert (Hslot : ∀ slot p, proxyKeeps p (sendSlot c slot p)).
  { intros [m|] p; [apply sendToClient_keeps | apply proxyKeeps_refl]. }
  unfold hydrate. repeat branch; rewrite ?relay_send_proxy; cbn [proxy with_proxy];
    try apply proxyKeeps_refl;
    (eapply proxyKeeps_trans; [|apply Hslot]);
    (eapply proxyKeeps_trans; [|apply Hslot]);
    (eapply proxyKeeps_trans; [|apply Hslot]); apply Hslot.
Qed.

(** Accepting a client on a fresh handle keeps the tables well formed. *)
Lemma client_register_WF (p : ClientProxy) (c : ClientConnection) :
  proxyWF p → cc_ws c = nextClient p →
  proxyWF (registerClient c
             (set_clientObjs (<[nextClient p := c]>)
                (set_nextClient (S (nextClient p))
                   (set_csockets (<[nextClient p := freshSocket]>) p)))).
Proof.
  intros (Hreg & Hobj & Hsets) Hws. set (h := nextClient p) in *.
  assert (Hfresh : clientObjs p !! h = None).
  { destruct (clientObjs p !! h) as [c'|] eqn:Hc'; [|done].
    apply Hobj in Hc' as [_ Hlt]. unfold h in Hlt. lia. }
  split; [|split].
  - intros sid h'. cbn [registerClient clients set_deviceClients set_clients clientObjs
                        set_clientObjs csockets set_nextClient set_csockets].
    destruct (decide (cc_sessionId c = sid)) as [<-|Hne].
    + rewrite lookup_insert_eq. intros [= <-]. exists c. rewrite Hws, lookup_insert_eq.
      split; [done |]. split; [done |]. unfold live. by rewrite lookup_insert_eq.
    + rewrite lookup_insert_ne by done. intros Hh'.
      destruct (Hreg sid h' Hh') as (c' & Hc' & Hsid & Hlive).
      assert (h' ≠ h) by (intros ->; by rewrite Hfresh in Hc').
      exists c'. rewrite lookup_insert_ne by done. split; [done |]. split; [done |].
      unfold live. by rewrite lookup_insert_ne.
  - intros h' c'. cbn [registerClient clientObjs set_deviceClients set_clients set_clientObjs
                       nextClient set_nextClient set_csockets].
    destruct (decide (h = h')) as [<-|Hne].
    + rewrite lookup_insert_eq. intros [= <-]. split; [done | lia].
    + rewrite lookup_insert_ne by done. intros Hc'. apply Hobj in Hc' as [Hw Hlt].
      split; [done |]. fold h in Hlt. lia.
  - intros id sessions. cbn [registerClient deviceClients set_deviceClients set_clients
                             set_clientObjs set_nextClient set_csockets].
    destruct (decide (cc_deviceId c = id)) as [<-|Hne].
    + rewrite lookup_insert_eq. intros [= <-]. set_solver.
    + rewrite lookup_insert_ne by done. apply Hsets.
Qed.

Lemma fresh_socket_WF (p : ClientProxy) :
  proxyWF p →
  proxyWF (set_nextClient (S (nextClient p)) (set_csockets (<[nextClient p := freshSocket]>) p)).
Proof.
  intros (Hreg & Hobj & Hsets). split; [|split].
  - intros sid h' Hh'. destruct (Hreg sid h' Hh') as (c' & Hc' & Hsid & Hlive).
    exists c'. split; [done |]. split; [done |].
    destruct (Hobj h' c' Hc') as [_ Hlt].
    cbn [csockets set_nextClient set_csockets]. unfold live.
    rewrite lookup_insert_ne by lia. exact Hlive.
  - intros h' c' Hc'. destruct (Hobj h' c' Hc') as [Hw Hlt]. split; [done |]. simpl. lia.
  - exact Hsets.
Qed.

Lemma client_accept_WF (store : CredentialStore) (token device : option string)
    (sid : string) (now : Z) (w : World) :
  proxyWF (proxy w) → proxyWF (proxy (step store now (ClientConnect token device sid) w)).
Proof.
  intros HWF. cbn [step]. unfold ClientProxy_handleConnection.
  cbn [proxy relay with_proxy nextClient set_nextClient set_csockets].
  set (h := nextClient (proxy w)).
  pose proof (fresh_socket_WF (proxy w) HWF) as HWF0. fold h in HWF0.
  assert (Hreject : ∀ code reason,
            proxyWF (set_csockets (alter (ws_close code reason) h)
                       (set_nextClient (S h)
                          (set_csockets (<[h := freshSocket]>) (proxy w))))).
  { intros code reason. eapply proxyWF_keeps; [|exact HWF0].
    apply csockets_alter_keeps, ws_close_keeps. }
  destruct (truthy_string token) as [tok|]; [|apply Hreject].
  destruct (truthy_string device) as [dev|]; [|apply Hreject].
  destruct (verifyAccessToken store tok) as [sessionResult|]; [|apply Hreject].
  destruct (negb (userOwnsDevice store (user_id sessionResult) dev)); [apply Hreject |].
  eapply proxyWF_keeps; [apply hydrate_keeps |]. cbn [proxy with_proxy].
  eapply proxyWF_keeps; [apply sendToClient_keeps |].
  eapply proxyWF_keeps; [apply setupTokenExpiryWarning_keeps |].
  eapply proxyWF_keeps; [apply proxyStable_keeps; [|apply socketsExtend_refl] |].
  - match goal with |- proxyCore (bump_totalConnections ?p) = _ => reflexivity end.
  - by apply (client_register_WF (proxy w)).
Qed.

(** Tearing a client down keeps the tables well formed. *)
Lemma client_closed_WF (h : nat) (p : ClientProxy) :
  proxyWF p → proxyWF (cleanupClient h (set_csockets (alter ws_closed h) p)).
Proof.
  intros (Hreg & Hobj & Hsets). unfold cleanupClient. cbn [clientObjs set_csockets].
  destruct (clientObjs p !! h) as [c|] eqn:Hc.
  - split; [|split].
    + intros sid h'. cbn [unregisterClient clients set_deviceClients set_clients clientObjs
                          set_clientObjs csockets set_csockets].
      destruct (decide (cc_sessionId c = sid)) as [<-|Hne];
        [by rewrite lookup_delete_eq |].
      rewrite lookup_delete_ne by done. intros Hh'.
      destruct (Hreg sid h' Hh') as (c' & Hc' & Hsid & Hlive).
      assert (h' ≠ h) by (intros ->; rewrite Hc in Hc'; congruence).
      exists c'. rewrite lookup_insert_ne by done. split; [done |]. split; [done |].
      unfold live. by rewrite lookup_alter_ne.
    + intros h' c'. cbn [unregisterClient clientObjs set_deviceClients set_clients
                         set_clientObjs nextClient set_csockets].
      destruct (decide (h = h')) as [<-|Hne].
      * rewrite lookup_insert_eq. intros [= <-]. exact (Hobj h c Hc).
      * rewrite lookup_insert_ne by done. apply Hobj.
    + intros id sessions. cbn [unregisterClient deviceClients set_deviceClients set_clients
                               set_clientObjs set_csockets cc_deviceId cc_sessionId
                               client_clearTimer client_setTimer cc_with].
      destruct (deviceClients p !! cc_deviceId c) as [old|] eqn:Hold; [|apply Hsets].
      case_bool_decide as Hsize.
      * destruct (decide (cc_deviceId c = id)) as [<-|Hne];
          [by rewrite lookup_delete_eq |].
        rewrite lookup_delete_ne by done. apply Hsets.
      * destruct (decide (cc_deviceId c = id)) as [<-|Hne].
        -- rewrite lookup_insert_eq. intros [= <-] Hempty. apply Hsize.
           rewrite Hempty. by apply size_empty_iff.
        -- rewrite lookup_insert_ne by done. apply Hsets.
  - split; [|split; [exact Hobj | exact Hsets]].
    intros sid h' Hh'. destruct (Hreg sid h' Hh') as (c' & Hc' & Hsid & Hlive).
    assert (h' ≠ h) by (intros ->; by rewrite Hc in Hc').
    exists c'. split; [done |]. split; [done |].
    cbn [csockets set_csockets]. unfold live. by rewrite lookup_alter_ne.
Qed.

Lemma sendDeviceRequest_proxy (deviceId : string) (m : DeviceMessage) (rnd : string)
    (timeout now : Z) (w : World) :
  proxy (sendDeviceRequest deviceId m rnd timeout now w).2 = proxy w.
Proof.
  unfold sendDeviceRequest.
  match goal with
  | |- context [relay_send ?i ?msg ?w0] =>
      pose proof (relay_send_proxy i msg w0) as Hsend;
      destruct (relay_send i msg w0) as [sent w2]
  end.
  by destruct sent.
Qed.

Lemma requestTimeout_proxy (rid : nat) (now : Z) (w : World) :
  proxy (requestTimeout rid now w) = proxy w.
Proof. unfold requestTimeout. by repeat branch. Qed.

Lemma publishAll_keeps_proxy (ws : nat) (now : Z) (id : string) (ms : list DeviceMessage)
    (w : World) :
  proxyKeeps (proxy w) (proxy (foldl (λ acc m, handleDeviceMessage ws now id m acc) w ms)).
Proof.
  apply (foldl_preserves (λ w', proxyKeeps (proxy w) (proxy w'))); [apply proxyKeeps_refl |].
  intros x m Hx. eapply proxyKeeps_trans; [exact Hx | apply notifyHandlers_keeps_proxy].
Qed.

Lemma step_proxyWF (store : CredentialStore) (now : Z) (ev : Event) (w : World) :
  proxyWF (proxy w) → proxyWF (proxy (step store now ev w)).
Proof.
  intros HWF. destruct ev.
  - cbn [step]. unfold DeviceRelay_handleConnection.
    destruct (validateDevice store id key) as [deviceId|code reason]; [|exact HWF].
    eapply proxyWF_keeps; [apply notifyHandlers_keeps_proxy |].
    by rewrite !relay_send_proxy.
  - cbn [step]. by destruct (live (sockets (relay w)) ws).
  - cbn [step]. destruct (live (sockets (relay w)) ws); [|exact HWF].
    rewrite deviceMessageHandler_fold. destruct (connections (relay w) !! ws) as [c|]; [|exact HWF].
    eapply proxyWF_keeps; [apply publishAll_keeps_proxy | exact HWF].
  - cbn [step]. destruct (live (sockets (relay w)) ws); [|exact HWF].
    unfold deviceCloseHandler. cbn [relay with_relay connections set_sockets].
    destruct (connections (relay w) !! ws) as [c|]; [|exact HWF].
    eapply proxyWF_keeps; [apply notifyHandlers_keeps_proxy | exact HWF].
  - exact HWF.
  - exact HWF.
  - by apply client_accept_WF.
  - cbn [step]. destruct (live (csockets (proxy w)) h); [|exact HWF].
    eapply proxyWF_keeps; [apply clientPong_keeps | exact HWF].
  - cbn [step]. destruct (live (csockets (proxy w)) h); [|exact HWF].
    eapply proxyWF_keeps; [apply clientMessageHandler_keeps | exact HWF].
  - cbn [step]. destruct (live (csockets (proxy w)) h); [|exact HWF].
    by apply client_closed_WF.
  - eapply proxyWF_keeps; [apply (pingAllClients_keeps now (proxy w)) | exact HWF].
  - eapply proxyWF_keeps; [|exact HWF]. cbn [step proxy with_proxy].
    apply proxyStable_keeps; [done | apply socketsExtend_refl].
  - eapply proxyWF_keeps; [apply (tokenTimerFired_keeps h now (proxy w)) | exact HWF].
  - cbn [step]. by rewrite sendDeviceRequest_proxy.
  - cbn [step]. by rewrite requestTimeout_proxy.
Qed.

Lemma initial_proxyWF : proxyWF (proxy initial).
Proof.
  split; [|split].
  - intros sid h Hh. change (clients (proxy initial)) with (∅ : gmap string nat) in Hh.
    by rewrite lookup_empty in Hh.
  - intros h c Hc.
    change (clientObjs (proxy initial)) with (∅ : gmap nat ClientConnection) in Hc.
    by rewrite lookup_empty in Hc.
  - intros id sessions Hs.
    change (deviceClients (proxy initial)) with (∅ : gmap string (gset string)) in Hs.
    by rewrite lookup_empty in Hs.
Qed.

Lemma run_proxyWF (store : CredentialStore) (evs : list (Z * Event)) :
  proxyWF (proxy (run store evs initial)).
Proof.
  unfold run. apply (foldl_preserves (λ w', proxyWF (proxy w'))); [apply initial_proxyWF |].
  intros x e Hx. by apply step_proxyWF.
Qed.

Lemma proxyWF_one_session (p : ClientProxy) (h : nat) (sid sid' : string) :
  proxyWF p → reaches p h sid = true → reaches p h sid' = true → sid' = sid.
Proof.
  intros (Hreg & Hobj & _). unfold reaches, getClient. intros Hr Hr'.
  destruct (clients p !! sid) as [h1|] eqn:H1; [|done].
  destruct (clients p !! sid') as [h2|] eqn:H2; [|done]. simpl in Hr, Hr'.
  destruct (Hreg sid h1 H1) as (c1 & Hc1 & Hs1 & _).
  destruct (Hreg sid' h2 H2) as (c2 & Hc2 & Hs2 & _).
  rewrite Hc1 in Hr. rewrite Hc2 in Hr'.
  apply andb_true_iff in Hr as [_ Hw1%bool_decide_eq_true].
  apply andb_true_iff in Hr' as [_ Hw2%bool_decide_eq_true].
  destruct (Hobj h1 c1 Hc1) as [E1 _]. destruct (Hobj h2 c2 Hc2) as [E2 _].
  assert (h1 = h2) by congruence. subst h2. congruence.
Qed.

(** X19.  In every state the event loop can reach, each entry of the session
    table leads to the connection object that was built with that session id,
    sitting at the handle of its own socket, and the [close] event of that
    socket has not been processed; no two session ids lead to the same
    socket; and the per-device index holds no empty set. *)
Theorem X19_session_table_well_formed (store : CredentialStore) (evs : list (Z * Event)) :
  let p := proxy (run store evs initial) in
  (∀ sid h, clients p !! sid = Some h →
     ∃ c, getClient sid p = Some c ∧ cc_sessionId c = sid ∧ cc_ws c = h ∧
          live (csockets p) h = true ∧ (h < nextClient p)%nat ∧
          ∀ sid', clients p !! sid' = Some h → sid' = sid) ∧
  (∀ id sessions, deviceClients p !! id = Some sessions → sessions ≠ ∅).
Proof.
  intros p. destruct (run_proxyWF store evs) as (Hreg & Hobj & Hsets).
  fold p in Hreg, Hobj, Hsets. split; [|exact Hsets].
  intros sid h Hh. destruct (Hreg sid h Hh) as (c & Hc & Hsid & Hlive).
  destruct (Hobj h c Hc) as [Hws Hlt]. exists c.
  split; [unfold getClient; rewrite Hh; exact Hc |].
  split; [done |]. split; [done |]. split; [done |]. split; [done |].
  intros sid' Hh'. destruct (Hreg sid' h Hh') as (c' & Hc' & Hsid' & _). congruence.
Qed.

(** * From a device to its clients *)

Lemma reaches_stable (p p' : ClientProxy) (h : nat) (sid : string) :
  proxyCore p' = proxyCore p →
  (∀ h', sock_open (csockets p') h' = sock_open (csockets p) h') →
  reaches p' h sid = reaches p h sid.
Proof.
  intros Hcore Hopen. unfold reaches. rewrite (getClient_core sid p' p Hcore).
  destruct (getClient sid p) as [c|]; [|done]. by rewrite Hopen.
Qed.

Lemma request_handlers_proxy (now : Z) (id : string) (m : DeviceMessage) (rids : list nat)
    (w : World) :
  proxy (foldl (runHandler now id m) w (RequestHandler <$> rids)) = proxy w.
Proof.
  revert w. induction rids as [|rid rids IH]; intros w; [done |].
  rewrite fmap_cons. cbn [foldl]. rewrite IH. cbn [runHandler].
  by destruct (requestHandler_core rid id m w) as (_ & _ & -> & _).
Qed.

(** What one publication that is not [device_online] hands to a client
    socket. *)
Lemma notifyHandlers_outbox (ws : nat) (now : Z) (id : string) (m : DeviceMessage)
    (w : World) (h : nat) :
  requestsWF w → type m ≠ "device_online"%string →
  sock_outbox (csockets (proxy (notifyHandlers ws now id m w))) h
  = sock_outbox (csockets (proxy w)) h
    ++ replicate (length (filter (λ sid, reaches (proxy w) h sid = true)
                            (elements (default ∅ (deviceClients (proxy w) !! id))))) m.
Proof.
  intros ((rids & Hhs & _) & _) Htype. unfold notifyHandlers. rewrite Hhs.
  rewrite foldl_app, request_handlers_proxy. cbn [foldl runHandler].
  rewrite (proj2 (String.eqb_neq _ _) Htype).
  assert (Hoff : ∀ w0, csockets (proxy (if String.eqb (type m) "device_offline"
                                        then with_proxy (clearStateCache id) w0 else w0))
                       = csockets (proxy w0)).
  { intros w0. by destruct (String.eqb (type m) "device_offline"). }
  rewrite Hoff. cbn [proxy with_proxy]. rewrite broadcast_outbox.
  destruct (is_cached_type (type m)); reflexivity.
Qed.

Lemma publishAll_outbox (ws : nat) (now : Z) (id : string) (ms : list DeviceMessage)
    (w : World) (h : nat) :
  requestsWF w →
  Forall (λ m, type m ≠ "device_online"%string) ms →
  let copies := length (filter (λ sid, reaches (proxy w) h sid = true)
                          (elements (default ∅ (deviceClients (proxy w) !! id)))) in
  sock_outbox (csockets (proxy (foldl (λ acc m, handleDeviceMessage ws now id m acc) w ms))) h
  = sock_outbox (csockets (proxy w)) h
    ++ mjoin ((λ m, replicate copies (stampedBy id now m)) <$> ms).
Proof.
  intros HWF Htypes. revert w HWF.
  induction Htypes as [|m ms Hm Hms IH]; intros w HWF copies; cbn [foldl].
  - by rewrite app_nil_r.
  - unfold handleDeviceMessage at 2. fold (stampedBy id now m).
    destruct (notifyHandlers_core ws now id (stampedBy id now m) w) as (_ & Hcore & _).
    destruct (notifyHandlers_extends ws now id (stampedBy id now m) w) as (_ & Hext).
    rewrite IH by (by apply notifyHandlers_WF).
    rewrite notifyHandlers_outbox by done.
    assert (Hsame : ∀ sid, reaches (proxy (notifyHandlers ws now id (stampedBy id now m) w)) h sid
                           = reaches (proxy w) h sid).
    { intros sid. apply reaches_stable; [exact Hcore |].
      intros h'. by apply socketsExtend_open. }
    assert (Hdc : deviceClients (proxy (notifyHandlers ws now id (stampedBy id now m) w))
                  = deviceClients (proxy w)).
    { unfold proxyCore in Hcore. by injection Hcore as _ _ -> _. }
    rewrite Hdc.
    rewrite (list_filter_iff
               (λ sid, reaches (proxy (notifyHandlers ws now id (stampedBy id now m) w)) h sid
                       = true)
               (λ sid, reaches (proxy w) h sid = true))
      by (intros sid; by rewrite Hsame).
    rewrite fmap_cons. cbn [mjoin list_join]. by rewrite <- app_assoc.
Qed.

Lemma join_replicate_one {A B : Type} (f : A → B) (l : list A) :
  mjoin ((λ m, replicate 1 (f m)) <$> l) = f <$> l.
Proof.
  induction l as [|a l IH]; [done |]. rewrite !fmap_cons. cbn [mjoin list_join].
  cbn [replicate app]. f_equal. exact IH.
Qed.

Lemma join_replicate_zero {A B : Type} (f : A → B) (l : list A) :
  mjoin ((λ m, replicate 0 (f m)) <$> l) = [].
Proof. induction l as [|a l IH]; [done |]. rewrite fmap_cons. exact IH. Qed.

(** X20.  From a device to its clients, in any state the event loop can
    reach.  When a frame that [decodeMulti] reads as one or more maps, none of
    type [device_online], arrives on an accepted device socket, a client
    socket that a session of that device's set leads to, and that is open,
    receives exactly the messages of the frame, each once, in order, each with
    the device id of the connection and its own timestamp (the time of receipt
    when that is missing or 0) and otherwise unchanged; a client socket that
    no session of the set leads to, or that is not open, receives nothing. *)
Theorem X20_device_frame_reaches_clients (store : CredentialStore) (evs : list (Z * Event))
    (ws : nat) (dc : DeviceConnection) (ms : list DeviceMessage)
    (decoder : option (list Decoded)) (single : option Decoded) (now : Z) (h : nat) :
  let w := run store evs initial in
  live (sockets (relay w)) ws = true →
  connections (relay w) !! ws = Some dc →
  ms ≠ [] →
  Forall (λ m, type m ≠ "device_online"%string) ms →
  let w' := step store now (DeviceFrame ws (Buffer (Some (DMap <$> ms)) decoder single)) w in
  let sessions := default ∅ (deviceClients (proxy w) !! dc_deviceId dc) in
  let stamp (m : DeviceMessage) :=
    {| type := type m; deviceId := Some (dc_deviceId dc);
       timestamp := Some (match timestamp m with
                          | Some t => if t =? 0 then now else t
                          | None => now
                          end);
       requestId := requestId m; message := message m; fields := fields m |} in
  (∀ sid, sid ∈ sessions → reaches (proxy w) h sid = true →
     sock_outbox (csockets (proxy w')) h
     = sock_outbox (csockets (proxy w)) h ++ (stamp <$> ms)) ∧
  ((∀ sid, sid ∈ sessions → reaches (proxy w) h sid = false) →
   sock_outbox (csockets (proxy w')) h = sock_outbox (csockets (proxy w)) h).
Proof.
  intros w Hlive Hdc Hne Htypes w' sessions stamp.
  assert (Hbox : sock_outbox (csockets (proxy w')) h
                 = sock_outbox (csockets (proxy w)) h
                   ++ mjoin ((λ m, replicate
                                     (length (filter (λ sid, reaches (proxy w) h sid = true)
                                                (elements sessions)))
                                     (stampedBy (dc_deviceId dc) now m)) <$> ms)).
  { unfold w'. cbn [step]. rewrite Hlive. rewrite deviceMessageHandler_fold. rewrite Hdc.
    rewrite decodeFrame_maps by done.
    rewrite publishAll_outbox; [done | | done].
    eapply requestsWF_core; [|apply (run_requestsWF store evs)]. done. }
  assert (Hstamp : stampedBy (dc_deviceId dc) now <$> ms = stamp <$> ms).
  { apply list_fmap_ext. intros _ m _. apply stampedBy_literal. }
  split.
  - intros sid Hin Hsid. rewrite Hbox.
    rewrite (filter_unique _ (elements sessions) sid);
      [| apply NoDup_elements | by apply elem_of_elements | done |].
    + cbn [length]. by rewrite join_replicate_one, Hstamp.
    + intros sid' _ Hsid'.
      by apply (proxyWF_one_session (proxy w) h sid sid' (run_proxyWF store evs)).
  - intros Hnone. rewrite Hbox.
    rewrite filter_none.
    + cbn [length]. by rewrite join_replicate_zero, app_nil_r.
    + intros sid Hsid. apply elem_of_elements in Hsid. rewrite (Hnone sid Hsid). discriminate.
Qed.

Lemma X20_witness :
  sock_outbox
    (csockets (proxy (step demoStore 100
                        (DeviceFrame 0
                           (Buffer (Some [DMap (mkMsg "status" []);
                                          DMap (mkMsg "esp_status" [])]) None None))
                        (run demoStore device_then_client initial)))) 0
  = sock_outbox (csockets (proxy (run demoStore device_then_client initial))) 0
    ++ [{| type := "status"; deviceId := Some demoDevice; timestamp := Some 100;
           requestId := None; message := None; fields := [] |};
        {| type := "esp_status"; deviceId := Some demoDevice; timestamp := Some 100;
           requestId := None; message := None; fields := [] |}].
Proof.
  assert (Hset : default ∅ (deviceClients (proxy (run demoStore device_then_client initial))
                              !! dc_deviceId demoConnection)
                 = ({["session-1"%string]} : gset string))
    by (vm_compute; reflexivity).
  apply (proj1 (X20_device_frame_reaches_clients demoStore device_then_client 0
                  demoConnection [mkMsg "status" []; mkMsg "esp_status" []] None None 100 0
                  ltac:(vm_compute; reflexivity) ltac:(vm_compute; reflexivity)
                  ltac:(discriminate) ltac:(repeat constructor; discriminate))
           "session-1"%string).
  - rewrite Hset. by apply elem_of_singleton.
  - vm_compute. reflexivity.
Defined.

(** * The log routes *)

Lemma logRoute_waiting (store : CredentialStore) (route : LogRoute) (userId deviceId : string)
    (device : option string) (rnd : string) (now : Z) (w : World) :
  truthy_string device = Some deviceId →
  userOwnsDevice store userId deviceId = true →
  isDeviceConnected deviceId (relay w) = true →
  logRoute store route userId device true rnd now w
  = (Waiting (nextRequest w),
     (sendDeviceRequest deviceId (routeMessage route now) rnd DEFAULT_REQUEST_TIMEOUT now w).2).
Proof.
  intros Hdev Howns Hon. unfold logRoute. rewrite Hdev, Howns, Hon. cbn [negb].
  destruct (sendDeviceRequest_start deviceId (routeMessage route now) rnd
              DEFAULT_REQUEST_TIMEOUT now w) as (Hrid & _).
  destruct (sendDeviceRequest deviceId (routeMessage route now) rnd
              DEFAULT_REQUEST_TIMEOUT now w) as [rid w']. simpl in Hrid. by rewrite Hrid.
Qed.

Lemma sendDeviceRequest_outbox (deviceId : string) (m : DeviceMessage) (rnd : string)
    (timeout now : Z) (w : World) :
  isDeviceConnected deviceId (relay w) = true →
  deviceOutbox deviceId (relay (sendDeviceRequest deviceId m rnd timeout now w).2)
  = deviceOutbox deviceId (relay w) ++ [set_requestId (newRequestId now rnd) m].
Proof.
  intros Hon. unfold sendDeviceRequest. rewrite relay_send_eq, sendToDevice_fst. cbn [relay].
  change (isDeviceConnected deviceId (onDeviceMessage (RequestHandler (nextRequest w)) (relay w)))
    with (isDeviceConnected deviceId (relay w)).
  rewrite Hon. cbn [snd relay with_relay].
  by rewrite sendToDevice_outbox.
Qed.

(** X21.  The log routes up to their [await].  A route answers at once, and
    leaves relay, proxy and requests as they were, exactly when a check
    fails: 400 "Missing device parameter" without a device parameter, else
    404 "Device not found" when the user does not own the device, else 500
    "Device relay not available" without a relay, else 503 "Device not
    connected" when the device is not connected.  When all checks pass the
    device has been sent the route's message, stamped with the current time
    and carrying the request id [req_<now>_<rnd>], and the request is in
    flight under that id with its timer armed for 10 s and its handler
    subscribed: the helper's own not-connected rejection cannot occur behind
    the route's check. *)
Theorem X21_log_route_checks (store : CredentialStore) (route : LogRoute) (userId : string)
    (device : option string) (deviceRelay : bool) (rnd : string) (now : Z) (w : World) :
  let started := logRoute store route userId device deviceRelay rnd now w in
  let rqid := ("req_" +:+ pretty now +:+ "_" +:+ rnd)%string in
  match started.1 with
  | Responded response =>
      started.2 = w ∧
      response
        = match truthy_string device with
          | None => {| http_status := 400; http_body := ErrorJson "Missing device parameter" |}
          | Some deviceId =>
              if negb (userOwnsDevice store userId deviceId)
              then {| http_status := 404; http_body := ErrorJson "Device not found" |}
              else if negb deviceRelay
              then {| http_status := 500; http_body := ErrorJson "Device relay not available" |}
              else {| http_status := 503; http_body := ErrorJson "Device not connected" |}
          end ∧
      (http_status response = 503 →
       ∃ deviceId, truthy_string device = Some deviceId ∧
                   isDeviceConnected deviceId (relay w) = false)
  | Waiting rid =>
      ∃ deviceId,
        truthy_string device = Some deviceId ∧
        userOwnsDevice store userId deviceId = true ∧ deviceRelay = true ∧
        isDeviceConnected deviceId (relay w) = true ∧
        rid = nextRequest w ∧
        awaiting rid
          {| rq_deviceId := deviceId; rq_requestId := rqid;
             rq_requestType := type (routeMessage route now);
             rq_timer := Some (now + DEFAULT_REQUEST_TIMEOUT); rq_promise := Pending |}
          started.2 ∧
        deviceOutbox deviceId (relay started.2)
          = deviceOutbox deviceId (relay w)
            ++ [{| type := type (routeMessage route now); deviceId := None;
                   timestamp := Some now; requestId := Some rqid; message := None;
                   fields := fields (routeMessage route now) |}]
  end.
Proof.
  intros started rqid. unfold started, logRoute.
  destruct (truthy_string device) as [deviceId|] eqn:Hdev; [|done].
  destruct (userOwnsDevice store userId deviceId) eqn:Howns; cbn [negb]; [|done].
  destruct deviceRelay; cbn [negb]; [|done].
  destruct (isDeviceConnected deviceId (relay w)) eqn:Hon; cbn [negb].
  - destruct (sendDeviceRequest_start deviceId (routeMessage route now) rnd
                DEFAULT_REQUEST_TIMEOUT now w) as (Hrid & Hsent & _).
    pose proof (sendDeviceRequest_outbox deviceId (routeMessage route now) rnd
                  DEFAULT_REQUEST_TIMEOUT now w Hon) as Hbox.
    destruct (sendDeviceRequest deviceId (routeMessage route now) rnd
                DEFAULT_REQUEST_TIMEOUT now w) as [rid w']. cbn [fst snd] in *.
    exists deviceId. split; [done |]. split; [done |]. split; [done |]. split; [done |].
    split; [done |]. split; [subst rid; by apply Hsent |]. rewrite Hbox.
    by destruct route.
  - split; [done |]. split; [done |]. intros _. by exists deviceId.
Qed.

(** X22.  What a log route answers once its request is in flight.  While
    only events arrive that neither carry the request id nor are the
    request's timer, the route has not answered.  At that point the timer,
    10 s or more after the call, makes it answer 504 "Device request
    timeout"; an [error] reply with the request id makes it answer as the
    [catch] block classifies the reply's text (500 "Device error" when the
    reply carries none); and a reply of the type [<request type>_response]
    makes it answer 200 with the reply as the relay stamped it, or, on the
    download route when the reply has a non-empty string [logs], with those
    logs as text. *)
Theorem X22_log_route_outcomes (store : CredentialStore) (route : LogRoute)
    (userId deviceId : string) (device : option string) (rnd : string) (now : Z) (w : World) :
  truthy_string device = Some deviceId →
  userOwnsDevice store userId deviceId = true →
  isDeviceConnected deviceId (relay w) = true →
  let started := logRoute store route userId device true rnd now w in
  let rid := nextRequest w in
  let rqid := newRequestId now rnd in
  let q0 := {| rq_deviceId := deviceId; rq_requestId := rqid;
               rq_requestType := type (routeMessage route now);
               rq_timer := Some (now + DEFAULT_REQUEST_TIMEOUT); rq_promise := Pending |} in
  let answer := λ w' : World,
    q ← requests w' !! rid; routeResponse route (rq_promise q) in
  started.1 = Waiting rid ∧
  ∀ evs, Forall (λ e, silent rid q0 e.2) evs →
    let w2 := run store evs started.2 in
    answer w2 = None ∧
    (∀ t, now + 10000 ≤ t →
       answer (step store t (RequestTimer rid) w2)
       = Some {| http_status := 504; http_body := ErrorJson "Device request timeout" |}) ∧
    (∀ ws t reply,
       requestId reply = Some rqid → type reply = "error"%string →
       answer (handleDeviceMessage ws t deviceId reply w2)
         = Some (catchResponse (default "Device error" (truthy_string (message reply)))) ∧
       (truthy_string (message reply) = None →
        answer (handleDeviceMessage ws t deviceId reply w2)
          = Some {| http_status := 500; http_body := ErrorJson "Device error" |})) ∧
    (∀ ws t reply,
       requestId reply = Some rqid →
       type reply = type (routeMessage route now) +:+ "_response" →
       answer (handleDeviceMessage ws t deviceId reply w2)
         = Some match route, field "logs" (fields reply) with
                | Download, Some (JStr logs) =>
                    if String.eqb logs ""
                    then {| http_status := 200;
                            http_body := Json (stampedBy deviceId t reply) |}
                    else {| http_status := 200; http_body := LogsText logs |}
                | Download, Some (JIso instant) =>
                    {| http_status := 200; http_body := LogsInstant instant |}
                | _, _ => {| http_status := 200;
                             http_body := Json (stampedBy deviceId t reply) |}
                end).
Proof.
  intros Hdev Howns Hon started rid rqid q0 answer.
  unfold started. rewrite (logRoute_waiting store route userId deviceId) by done.
  cbn [fst snd]. split; [done |]. intros evs Hsilent. set (w2 := run store evs _).
  destruct (sendDeviceRequest_start deviceId (routeMessage route now) rnd
              DEFAULT_REQUEST_TIMEOUT now w) as (_ & Hsent & _).
  pose proof (run_awaiting store rid q0 evs _ Hsilent (Hsent Hon)) as Haw. fold w2 in Haw.
  assert (Hreply : ∀ t reply, requestId reply = Some rqid →
            (type reply = type (routeMessage route now) +:+ "_response"
             ∨ type reply = "error"%string) →
            isReply q0 deviceId (stampedBy deviceId t reply) = true).
  { intros t reply Hid Hty. unfold isReply. simpl.
    rewrite String.eqb_refl, bool_decide_eq_true_2 by done. simpl.
    destruct Hty as [-> | ->]; rewrite String.eqb_refl; by rewrite ?orb_true_r. }
  split.
  { unfold answer. by destruct Haw as (-> & _). }
  split; [|split].
  - intros t Hle.
    destruct (requestTimeout_fires rid q0 (now + DEFAULT_REQUEST_TIMEOUT) t w2 Haw
                eq_refl Hle) as [Hq _].
    unfold answer. cbn [step]. rewrite Hq. reflexivity.
  - intros ws t reply Hid Hty.
    destruct (notifyHandlers_reply rid q0 ws t deviceId (stampedBy deviceId t reply) w2
                (Hreply t reply Hid (or_intror Hty)) Haw) as [Hq _].
    assert (Hans : answer (handleDeviceMessage ws t deviceId reply w2)
                   = Some (catchResponse
                             (default "Device error" (truthy_string (message reply))))).
    { unfold answer, handleDeviceMessage. fold (stampedBy deviceId t reply).
      rewrite Hq. simpl. by rewrite Hty. }
    split; [exact Hans |]. intros Hnone. rewrite Hans, Hnone. reflexivity.
  - intros ws t reply Hid Hty.
    destruct (notifyHandlers_reply rid q0 ws t deviceId (stampedBy deviceId t reply) w2
                (Hreply t reply Hid (or_introl Hty)) Haw) as [Hq _].
    unfold answer, handleDeviceMessage. fold (stampedBy deviceId t reply).
    rewrite Hq. cbn [mbind option_bind rq_promise].
    change (type (stampedBy deviceId t reply)) with (type reply). rewrite Hty.
    rewrite (proj2 (String.eqb_neq _ _)
               (response_type_not_error (type (routeMessage route now)))).
    reflexivity.
Qed.

Lemma X22_witness :
  (logRoute demoStore GetInfo "user-1" (Some demoDevice) true "k3j9x2" 50 device_connected).1
  = Waiting (nextRequest device_connected).
Proof.
  exact (proj1 (X22_log_route_outcomes demoStore GetInfo "user-1" demoDevice
                  (Some demoDevice) "k3j9x2" 50 device_connected
                  eq_refl eq_refl ltac:(vm_compute; reflexivity))).
Defined.

(** * A client goes away *)

(** X23.  The [close] event of a client socket.  The session's entry leaves
    the session table and every other entry stays; the relay, the requests,
    the queues (with whatever this client had queued) and the cache are
    untouched; the warning timer of the connection is cancelled, so it never
    fires; no later broadcast puts a frame on the socket; and later events of
    the socket find it closed and do nothing. *)
Theorem X23_client_closed (store : CredentialStore) (h : nat) (c : ClientConnection)
    (now : Z) (w : World) :
  live (csockets (proxy w)) h = true →
  clientObjs (proxy w) !! h = Some c →
  let w' := step store now (ClientClosed h) w in
  relay w' = relay w ∧ requests w' = requests w ∧
  pendingMessages (proxy w') = pendingMessages (proxy w) ∧
  deviceStateCache (proxy w') = deviceStateCache (proxy w) ∧
  clients (proxy w') = delete (cc_sessionId c) (clients (proxy w)) ∧
  (∀ sessions, deviceClients (proxy w') !! cc_deviceId c = Some sessions →
     cc_sessionId c ∉ sessions) ∧
  (∀ later, tokenTimerFired h later (proxy w') = proxy w') ∧
  (∀ id m, sock_outbox (csockets (broadcastToDeviceClients id m (proxy w'))) h
           = sock_outbox (csockets (proxy w)) h) ∧
  (∀ later data, step store later (ClientFrame h data) w' = w' ∧
                 step store later (ClientPong h) w' = w' ∧
                 step store later (ClientClosed h) w' = w').
Proof.
  intros Hlive Hc w'.
  assert (Hw' : w' = with_proxy
                       (λ p, unregisterClient c
                               (set_clientObjs (<[h := client_clearTimer c]>)
                                  (set_csockets (alter ws_closed h) p))) w).
  { unfold w'. cbn [step]. rewrite Hlive. unfold cleanupClient, with_proxy.
    cbn [clientObjs set_csockets]. by rewrite Hc. }
  assert (Hdead : live (csockets (proxy w')) h = false).
  { rewrite Hw'. cbn [proxy with_proxy csockets unregisterClient set_deviceClients set_clients
                      set_clientObjs set_csockets].
    unfold live in *. rewrite lookup_alter_eq.
    destruct (csockets (proxy w) !! h) as [s|]; [|done]. done. }
  assert (Hshut : sock_open (csockets (proxy w')) h = false).
  { rewrite Hw'. cbn [proxy with_proxy csockets unregisterClient set_deviceClients set_clients
                      set_clientObjs set_csockets].
    unfold sock_open. rewrite lookup_alter_eq.
    destruct (csockets (proxy w) !! h) as [s|]; [|done]. done. }
  assert (Hbox : sock_outbox (csockets (proxy w')) h = sock_outbox (csockets (proxy w)) h).
  { rewrite Hw'. cbn [proxy with_proxy csockets unregisterClient set_deviceClients set_clients
                      set_clientObjs set_csockets].
    unfold sock_outbox. rewrite lookup_alter_eq.
    by destruct (csockets (proxy w) !! h) as [s|]. }
  split; [by rewrite Hw' |]. split; [by rewrite Hw' |]. split; [by rewrite Hw' |].
  split; [by rewrite Hw' |]. split; [by rewrite Hw' |]. split.
  { rewrite Hw'. cbn [proxy with_proxy deviceClients unregisterClient set_deviceClients
                      set_clients set_clientObjs set_csockets].
    intros sessions. destruct (deviceClients (proxy w) !! cc_deviceId c) as [old|] eqn:Hold.
    - case_bool_decide.
      + by rewrite lookup_delete_eq.
      + rewrite lookup_insert_eq. intros [= <-]. set_solver.
    - by rewrite Hold. }
  split.
  { intros later. unfold tokenTimerFired. rewrite Hw' at 1.
    cbn [proxy with_proxy clientObjs unregisterClient set_deviceClients set_clients
         set_clientObjs set_csockets].
    rewrite lookup_insert_eq. cbn [tokenExpiryTimer client_clearTimer client_setTimer cc_with].
    by destruct (tokenExpiryTimer c). }
  split.
  { intros id m. rewrite broadcast_outbox_none; [exact Hbox |].
    intros sid _. unfold reaches. destruct (getClient sid (proxy w')) as [c'|]; [|done].
    destruct (decide (cc_ws c' = h)) as [->|Hne].
    - by rewrite Hshut.
    - by rewrite (bool_decide_eq_false_2 _ Hne), andb_false_r. }
  intros later data. cbn [step]. by rewrite Hdead.
Qed.

Lemma X23_witness :
  clients (proxy (step demoStore 60 (ClientClosed 0) device_and_client))
  = delete (cc_sessionId demoClient) (clients (proxy device_and_client)).
Proof.
  destruct (X23_client_closed demoStore 0 demoClient 60 device_and_client
              ltac:(vm_compute; reflexivity) ltac:(vm_compute; reflexivity))
    as (_ & _ & _ & _ & Hgone & _).
  exact Hgone.
Defined.

(** * The log service *)

Lemma lastN_app {A : Type} (n : nat) (l r : list A) :
  lastN n (lastN n l ++ r) = lastN n (l ++ r).
Proof.
  unfold lastN. rewrite !length_app, length_drop.
  destruct (decide (length l ≤ n)%nat) as [Hle|Hgt].
  - replace (length l - n)%nat with 0%nat by lia. cbn [drop]. f_equal. lia.
  - replace (length l - (length l - n) + length r - n)%nat with (length r) by lia.
    replace (length l + length r - n)%nat with ((length l - n) + length r)%nat by lia.
    rewrite <- drop_drop. f_equal. rewrite drop_app_le by lia. done.
Qed.

Lemma addLog_lastN (st : LogService.Store) (c : LogCall) :
  Z.of_nat (length (LogService.logs st)) ≤ LogService.MAX_LOGS →
  LogService.logs (callAddLog st c)
  = lastN (Z.to_nat LogService.MAX_LOGS)
      (LogService.logs st ++ [entryOf (S (LogService.logIdCounter st)) c]).
Proof.
  intros Hle. unfold callAddLog, LogService.addLog. cbn [LogService.logs].
  fold (entryOf (S (LogService.logIdCounter st)) c).
  unfold lastN. rewrite length_app. cbn [length].
  destruct (LogService.MAX_LOGS <?
            Z.of_nat (length (LogService.logs st) + 1)) eqn:Hfull.
  - apply Z.ltb_lt in Hfull.
    replace (length (LogService.logs st) + 1 - Z.to_nat LogService.MAX_LOGS)%nat
      with 1%nat by lia.
    by destruct (LogService.logs st).
  - apply Z.ltb_ge in Hfull.
    replace (length (LogService.logs st) + 1 - Z.to_nat LogService.MAX_LOGS)%nat
      with 0%nat by lia.
    done.
Qed.

Lemma lastN_length {A : Type} (n : nat) (l : list A) : (length (lastN n l) ≤ n)%nat.
Proof. unfold lastN. rewrite length_drop. lia. Qed.

(** X24.  The buffer of the log service.  Starting from a buffer of at most
    10000 entries, after any number of [addLog] calls the buffer holds the
    last 10000 of the old entries followed by the new ones, in call order,
    so never more than 10000; the entry of the [i]-th call has the id built
    from the counter value [logIdCounter + i], and the counter has advanced
    by the number of calls. *)
Theorem X24_log_buffer (st : LogService.Store) (calls : list LogCall) :
  Z.of_nat (length (LogService.logs st)) ≤ LogService.MAX_LOGS →
  let st' := foldl callAddLog st calls in
  LogService.logs st'
    = lastN (Z.to_nat LogService.MAX_LOGS)
        (LogService.logs st ++ entriesFrom (LogService.logIdCounter st) calls) ∧
  Z.of_nat (length (LogService.logs st')) ≤ LogService.MAX_LOGS ∧
  LogService.logIdCounter st' = (LogService.logIdCounter st + length calls)%nat ∧
  (∀ i c, calls !! i = Some c →
     entriesFrom (LogService.logIdCounter st) calls !! i
     = Some (entryOf (LogService.logIdCounter st + S i) c)).
Proof.
  revert st. induction calls as [|c calls IH]; intros st Hle st'.
  - cbn [foldl entriesFrom length] in *. unfold st'. rewrite app_nil_r.
    split; [unfold lastN; by replace (length (LogService.logs st)
                                       - Z.to_nat LogService.MAX_LOGS)%nat with 0%nat by lia |].
    split; [done |]. split; [lia |]. intros i c Hc. by rewrite lookup_nil in Hc.
  - assert (Hstep : Z.of_nat (length (LogService.logs (callAddLog st c)))
                    ≤ LogService.MAX_LOGS).
    { rewrite addLog_lastN by done.
      pose proof (lastN_length (Z.to_nat LogService.MAX_LOGS)
                    (LogService.logs st ++ [entryOf (S (LogService.logIdCounter st)) c])).
      unfold LogService.MAX_LOGS in *. lia. }
    destruct (IH (callAddLog st c) Hstep) as (Hlogs & Hlen & Hcounter & Hentries).
    unfold st'. cbn [foldl entriesFrom length].
    change (LogService.logIdCounter (callAddLog st c))
      with (S (LogService.logIdCounter st)) in Hlogs, Hcounter, Hentries.
    split.
    { rewrite Hlogs, addLog_lastN by done. rewrite lastN_app, <- app_assoc. done. }
    split; [exact Hlen |]. split; [rewrite Hcounter; lia |].
    intros [|i] c' Hc'.
    + injection Hc' as <-.
      change (Some (entryOf (S (LogService.logIdCounter st)) c)
              = Some (entryOf (LogService.logIdCounter st + 1) c)).
      do 2 f_equal. lia.
    + etrans; [exact (Hentries i c' Hc') |]. do 2 f_equal. lia.
Qed.

Lemma X24_witness :
  LogService.logs
    (foldl callAddLog LogService.empty
       [{| c_level := LogService.Info; c_message := "[Device] connected";
           c_source := Some "Device"%string; c_metadata := None; c_idNow := 7; c_now := 7 |}])
  = lastN (Z.to_nat LogService.MAX_LOGS)
      (LogService.logs LogService.empty
       ++ entriesFrom (LogService.logIdCounter LogService.empty)
            [{| c_level := LogService.Info; c_message := "[Device] connected";
                c_source := Some "Device"%string; c_metadata := None; c_idNow := 7;
                c_now := 7 |}]).
Proof.
  exact (proj1 (X24_log_buffer LogService.empty
                  [{| c_level := LogService.Info; c_message := "[Device] connected";
                      c_source := Some "Device"%string; c_metadata := None; c_idNow := 7;
                      c_now := 7 |}]
                  ltac:(vm_compute; discriminate))).
Defined.

(** ** Log ids *)

Lemma pretty_N_go_noDash (x : N) (s : string) :
  noDash s = true → noDash (pretty_N_go x s) = true.
Proof.
  revert s. induction (N.lt_wf_0 x) as [x _ IH]; intros s Hs.
  assert (x = 0 ∨ 0 < x)%N as [->|Hpos] by lia.
  - by rewrite pretty_N_go_0.
  - rewrite pretty_N_go_step by done. apply IH; [by apply N.div_lt |].
    cbn [noDash]. rewrite Hs, andb_true_r.
    unfold pretty_N_char. by repeat case_match.
Qed.

Lemma pretty_nat_noDash (n : nat) : noDash (pretty n) = true.
Proof.
  unfold pretty, pretty_nat, pretty, pretty_N.
  destruct (decide (N.of_nat n = 0%N)); [done |]. by apply pretty_N_go_noDash.
Qed.

Lemma append_inj_l (s a b : string) : s +:+ a = s +:+ b → a = b.
Proof. induction s as [|x s IH]; [done |]. intros [= H]. by apply IH. Qed.

Lemma dash_split (a b r r' : string) :
  noDash a = true → noDash b = true →
  a +:+ "-" +:+ r = b +:+ "-" +:+ r' → a = b.
Proof.
  revert b. induction a as [|x a IH]; intros [|y b] Ha Hb Heq.
  - done.
  - injection Heq as <- _. cbn [noDash] in Hb. done.
  - injection Heq as -> _. cbn [noDash] in Ha. done.
  - injection Heq as -> Heq. cbn [noDash] in Ha, Hb.
    apply andb_true_iff in Ha as [_ Ha]. apply andb_true_iff in Hb as [_ Hb].
    f_equal. by apply IH.
Qed.

Lemma newId_inj (k k' : nat) (t t' : Z) :
  LogService.newId k t = LogService.newId k' t' → k = k'.
Proof.
  unfold LogService.newId. intros Heq. apply append_inj_l in Heq.
  apply dash_split in Heq; [|apply pretty_nat_noDash..].
  by apply (inj pretty) in Heq.
Qed.

(** Every id in the buffer was built from a counter value the counter has
    passed, and no two are equal. *)
Lemma applyOp_ids (st : LogService.Store) (op : LogOp) :
  (NoDup (LogService.id <$> LogService.logs st) ∧
   ∀ e, e ∈ LogService.logs st →
     ∃ k t, (0 < k ≤ LogService.logIdCounter st)%nat ∧
            LogService.id e = LogService.newId k t) →
  NoDup (LogService.id <$> LogService.logs (applyOp st op)) ∧
  ∀ e, e ∈ LogService.logs (applyOp st op) →
    ∃ k t, (0 < k ≤ LogService.logIdCounter (applyOp st op))%nat ∧
           LogService.id e = LogService.newId k t.
Proof.
  intros [Hnd Hids]. destruct op as [c|].
  - cbn [applyOp]. unfold callAddLog, LogService.addLog.
    cbn [LogService.logs LogService.logIdCounter].
    fold (entryOf (S (LogService.logIdCounter st)) c).
    set (e0 := entryOf (S (LogService.logIdCounter st)) c).
    assert (Hpushed : NoDup (LogService.id <$> LogService.logs st ++ [e0]) ∧
              ∀ e, e ∈ LogService.logs st ++ [e0] →
                ∃ k t, (0 < k ≤ S (LogService.logIdCounter st))%nat ∧
                       LogService.id e = LogService.newId k t).
    { split.
      - rewrite fmap_app. apply NoDup_app. split; [done |]. split; [|apply NoDup_singleton].
        intros i Hi Hi0. apply list_elem_of_singleton in Hi0 as ->.
        apply list_elem_of_fmap in Hi as (e & Heq & He).
        destruct (Hids e He) as (k & t & Hk & Hid).
        rewrite Hid in Heq. cbn in Heq. apply newId_inj in Heq. lia.
      - intros e He. apply elem_of_app in He as [He|He].
        + destruct (Hids e He) as (k & t & Hk & Hid). exists k, t. split; [lia | done].
        + apply list_elem_of_singleton in He as ->. eexists _, _. split; [|done]. lia. }
    destruct Hpushed as [Hnd' Hids'].
    destruct (LogService.MAX_LOGS <? Z.of_nat (length (LogService.logs st ++ [e0])));
      [|done].
    destruct (LogService.logs st ++ [e0]) as [|e1 l]; [done |]. cbn [tail]. split.
    + rewrite fmap_cons in Hnd'. by apply NoDup_cons in Hnd' as [_ Hnd'].
    + intros e He. apply Hids'. by apply list_elem_of_further.
  - cbn [applyOp LogService.clearLogs LogService.logs]. split; [apply NoDup_nil_2 |].
    intros e He. by apply elem_of_nil in He.
Qed.

(** X25.  Log ids are unique.  However [addLog] and [clearLogs] are
    interleaved from the empty store, no two entries of the buffer have the
    same id: the counter is never reset, not by [clearLogs] either, and two
    ids built from different counter values differ whatever the clock
    returned. *)
Theorem X25_log_ids_unique (ops : list LogOp) :
  let st := foldl applyOp LogService.empty ops in
  NoDup (LogService.id <$> LogService.logs st) ∧
  (∀ e, e ∈ LogService.logs st →
     ∃ k t, (0 < k ≤ LogService.logIdCounter st)%nat ∧
            LogService.id e = LogService.newId k t) ∧
  (∀ k k' t t', LogService.newId k t = LogService.newId k' t' → k = k').
Proof.
  intros st.
  assert (Hinv : NoDup (LogService.id <$> LogService.logs st) ∧
            ∀ e, e ∈ LogService.logs st →
              ∃ k t, (0 < k ≤ LogService.logIdCounter st)%nat ∧
                     LogService.id e = LogService.newId k t).
  { unfold st.
    apply (foldl_preserves
             (λ s, NoDup (LogService.id <$> LogService.logs s) ∧
                   ∀ e, e ∈ LogService.logs s →
                     ∃ k t, (0 < k ≤ LogService.logIdCounter s)%nat ∧
                            LogService.id e = LogService.newId k t)).
    - split; [apply NoDup_nil_2 |]. intros e He. by apply elem_of_nil in He.
    - intros s op Hs. by apply applyOp_ids. }
  destruct Hinv as [Hnd Hids]. split; [exact Hnd |]. split; [exact Hids | apply newId_inj].
Qed.

(** ** Reading the buffer *)

Lemma findIndex_cut {A : Type} (P : A → bool) (l : list A) :
  let kept := match LogService.findIndex P l with
              | Some i => take i l
              | None => l
              end in
  Forall (λ x, P x = false) kept ∧ kept `sublist_of` l.
Proof.
  induction l as [|x l [IH1 IH2]]; cbn [LogService.findIndex]; [done |].
  destruct (P x) eqn:Hx.
  - split; [done |]. cbn [take]. apply sublist_nil_l.
  - destruct (LogService.findIndex P l) as [i|]; cbn [fmap option_fmap option_map take] in *.
    + split; [by constructor |]. by apply sublist_skip.
    + split; [by constructor | done].
Qed.

Lemma findIndex_first {A : Type} (P : A → bool) (a b : list A) (x : A) :
  Forall (λ y, P y = false) a → P x = true →
  LogService.findIndex P (a ++ x :: b) = Some (length a).
Proof.
  intros Ha Hx. induction Ha as [|y a Hy Ha IH]; cbn [LogService.findIndex app length].
  - by rewrite Hx.
  - by rewrite Hy, IH.
Qed.

(** The filters of [getLogs] keep a sub-list of the buffer whose entries
    pass every filter that was asked for. *)
Lemma filtered_spec (toLowerCase : string → string) (options : LogService.Options)
    (st : LogService.Store) :
  let matching := LogService.filtered toLowerCase options st in
  matching `sublist_of` LogService.logs st ∧
  ∀ e, e ∈ matching →
    (∀ l, LogService.o_level options = Some l → LogService.level e = l) ∧
    (∀ s, truthy_string (LogService.o_source options) = Some s →
          LogService.source e = Some s) ∧
    (∀ s, truthy_string (LogService.o_search options) = Some s →
          LogService.matches toLowerCase (toLowerCase s) e = true) ∧
    (∀ b, truthy_string (LogService.o_beforeId options) = Some b → LogService.id e ≠ b).
Proof.
  intros matching. unfold matching, LogService.filtered.
  set (L1 := match LogService.o_level options with
             | Some l => filter (λ log, LogService.level log = l) (LogService.logs st)
             | None => LogService.logs st
             end).
  set (L2 := match truthy_string (LogService.o_source options) with
             | Some s => filter (λ log, LogService.source log = Some s) L1
             | None => L1
             end).
  set (L3 := match truthy_string (LogService.o_search options) with
             | Some s => filter (λ log, LogService.matches toLowerCase (toLowerCase s) log
                                        = true) L2
             | None => L2
             end).
  assert (H1 : L1 `sublist_of` LogService.logs st ∧
               ∀ e, e ∈ L1 → ∀ l, LogService.o_level options = Some l →
                                  LogService.level e = l).
  { unfold L1. destruct (LogService.o_level options) as [l|].
    - split; [apply sublist_filter |]. intros e He l' [= <-].
      by apply list_elem_of_filter in He as [He _].
    - split; [done |]. intros e _ l Hl. discriminate. }
  assert (H2 : L2 `sublist_of` L1 ∧
               ∀ e, e ∈ L2 → ∀ s, truthy_string (LogService.o_source options) = Some s →
                                  LogService.source e = Some s).
  { unfold L2. destruct (truthy_string (LogService.o_source options)) as [s|].
    - split; [apply sublist_filter |]. intros e He s' [= <-].
      by apply list_elem_of_filter in He as [He _].
    - split; [done |]. intros e _ s Hs. discriminate. }
  assert (H3 : L3 `sublist_of` L2 ∧
               ∀ e, e ∈ L3 → ∀ s, truthy_string (LogService.o_search options) = Some s →
                 LogService.matches toLowerCase (toLowerCase s) e = true).
  { unfold L3. destruct (truthy_string (LogService.o_search options)) as [s|].
    - split; [apply sublist_filter |]. intros e He s' [= <-].
      by apply list_elem_of_filter in He as [He _].
    - split; [done |]. intros e _ s Hs. discriminate. }
  set (L4 := match truthy_string (LogService.o_beforeId options) with
             | Some b =>
                 match LogService.findIndex (λ log, String.eqb (LogService.id log) b) L3 with
                 | Some beforeIndex => take beforeIndex L3
                 | None => L3
                 end
             | None => L3
             end).
  assert (H4 : L4 `sublist_of` L3 ∧
               ∀ e, e ∈ L4 → ∀ b, truthy_string (LogService.o_beforeId options) = Some b →
                                  LogService.id e ≠ b).
  { unfold L4. destruct (truthy_string (LogService.o_beforeId options)) as [b|].
    - destruct (findIndex_cut (λ log, String.eqb (LogService.id log) b) L3) as [Hcut Hsub].
      split; [exact Hsub |]. intros e He b' [= <-].
      rewrite Forall_forall in Hcut. apply String.eqb_neq. by apply Hcut.
    - split; [done |]. intros e _ b Hb. discriminate. }
  destruct H1 as [S1 P1], H2 as [S2 P2], H3 as [S3 P3], H4 as [S4 P4].
  split; [by repeat (etrans; [eassumption |]) |].
  intros e He.
  assert (He3 : e ∈ L3) by (by eapply elem_of_sublist).
  assert (He2 : e ∈ L2) by (by eapply elem_of_sublist).
  assert (He1 : e ∈ L1) by (by eapply elem_of_sublist).
  split; [by apply P1 |]. split; [by apply P2 |]. split; [by apply P3 | by apply P4].
Qed.

Lemma findIndex_split {A : Type} (P : A → bool) (l : list A) :
  let kept := match LogService.findIndex P l with
              | Some i => take i l
              | None => l
              end in
  ∃ rest, l = kept ++ rest ∧ Forall (λ x, P x = false) kept ∧
          (rest = [] ∨ ∃ x r, rest = x :: r ∧ P x = true).
Proof.
  induction l as [|x l IH]; cbn [LogService.findIndex].
  - exists []. split; [done |]. split; [done | by left].
  - destruct (P x) eqn:Hx.
    + exists (x :: l). split; [done |]. split; [done |]. right. by exists x, l.
    + destruct (LogService.findIndex P l) as [i|];
        cbn [fmap option_fmap option_map take] in *;
        destruct IH as (rest & Hl & Hkept & Hrest); exists rest;
        (split; [by rewrite Hl at 1 |]); (split; [by constructor | done]).
Qed.

Lemma filter_all {A : Type} (P : A → Prop) `{∀ x, Decision (P x)} (l : list A) :
  (∀ x, P x) → filter P l = l.
Proof.
  intros HP. induction l as [|x l IH]; [done |].
  rewrite filter_cons, decide_True by done. by rewrite IH.
Qed.

(** The three filters of [getLogs], one after the other, select what one
    filter with the conjunction of the three tests selects; [beforeId] then
    cuts that selection at the first entry with the id. *)
Lemma filtered_candidates (toLowerCase : string → string) (options : LogService.Options)
    (st : LogService.Store) :
  let candidates :=
    filter (λ e, passes toLowerCase options e = true) (LogService.logs st) in
  LogService.filtered toLowerCase options st
  = match truthy_string (LogService.o_beforeId options) with
    | Some b =>
        match LogService.findIndex (λ log, String.eqb (LogService.id log) b) candidates with
        | Some beforeIndex => take beforeIndex candidates
        | None => candidates
        end
    | None => candidates
    end.
Proof.
  intros candidates. unfold LogService.filtered.
  set (L3 := match truthy_string (LogService.o_search options) with
             | Some s => filter _ _
             | None => _
             end).
  assert (HL3 : L3 = candidates); [|by rewrite HL3].
  unfold L3, candidates, passes, LogService.matches.
  destruct (LogService.o_level options) as [l|],
           (truthy_string (LogService.o_source options)) as [src|],
           (truthy_string (LogService.o_search options)) as [q|];
    rewrite ?list_filter_filter;
    first [ apply list_filter_iff; intros e; cbn [andb];
            rewrite ?andb_true_iff, ?andb_true_r, ?bool_decide_eq_true; tauto
          | symmetry; by apply filter_all ].
Qed.

(** X26.  One page of [getLogs].  The candidates are the entries of the
    buffer, oldest first, that have the level asked for, the source asked
    for, and the search text (lower-cased) in their lower-cased message or
    source: each test applies only when its option is given and not empty.
    Without [beforeId] all candidates are selected; with it, those before the
    first candidate with that id (all of them when there is none).  [total]
    is the number of selected entries and [hasMore] says whether it exceeds
    the limit, which is 100 when none or 0 is given.  With a limit that is
    not negative the page holds the newest [limit] selected entries, newest
    first; a negative limit instead drops the oldest [-limit] of them. *)
Theorem X26_getLogs_page (toLowerCase : string → string) (options : LogService.Options)
    (st : LogService.Store) :
  let page := LogService.getLogs toLowerCase options st in
  let limit := match LogService.o_limit options with
               | Some n => if n =? 0 then 100 else n
               | None => 100
               end in
  let given (o : option string) :=
    match o with
    | Some s => if String.eqb s "" then None else Some s
    | None => None
    end in
  let passes (e : LogService.LogEntry) : bool :=
    match LogService.o_level options with
    | Some l => bool_decide (LogService.level e = l)
    | None => true
    end
    && match given (LogService.o_source options) with
       | Some s => bool_decide (LogService.source e = Some s)
       | None => true
       end
    && match given (LogService.o_search options) with
       | Some s =>
           includes (toLowerCase s) (toLowerCase (LogService.message e))
           || match given (LogService.source e) with
              | Some src => includes (toLowerCase s) (toLowerCase src)
              | None => false
              end
       | None => true
       end in
  let candidates := filter (λ e, passes e = true) (LogService.logs st) in
  ∃ selected,
    match given (LogService.o_beforeId options) with
    | None => selected = candidates
    | Some b =>
        ∃ rest, candidates = selected ++ rest ∧
                (∀ e, e ∈ selected → LogService.id e ≠ b) ∧
                (rest = [] ∨ ∃ e r, rest = e :: r ∧ LogService.id e = b)
    end ∧
    LogService.total page = length selected ∧
    (LogService.hasMore page = true ↔ limit < Z.of_nat (length selected)) ∧
    (0 ≤ limit → LogService.p_logs page = take (Z.to_nat limit) (reverse selected)) ∧
    (limit < 0 →
       LogService.p_logs page = reverse (drop (Z.to_nat (- limit)) selected)).
Proof.
  intros page limit given passes0 candidates.
  exists (LogService.filtered toLowerCase options st).
  set (selected := LogService.filtered toLowerCase options st).
  assert (Hpage : LogService.p_logs page = LogService.slice0 limit (reverse selected)) by done.
  assert (Htotal : LogService.total page = length selected)
    by (unfold page, LogService.getLogs; cbn [LogService.total]; by rewrite length_reverse).
  assert (Hmore : LogService.hasMore page = (limit <? Z.of_nat (length selected)))
    by (unfold page, LogService.getLogs; cbn [LogService.hasMore]; by rewrite length_reverse).
  split.
  { pose proof (filtered_candidates toLowerCase options st) as Hsel.
    cbv zeta in Hsel. fold selected in Hsel.
    change (filter (λ e, passes toLowerCase options e = true) (LogService.logs st))
      with candidates in Hsel.
    change (given (LogService.o_beforeId options))
      with (truthy_string (LogService.o_beforeId options)).
    destruct (truthy_string (LogService.o_beforeId options)) as [b|]; [|exact Hsel].
    destruct (findIndex_split (λ log, String.eqb (LogService.id log) b) candidates)
      as (rest & Hcand & Hkept & Hrest).
    rewrite <- Hsel in Hcand, Hkept. exists rest. split; [exact Hcand |]. split.
    - intros e He. rewrite Forall_forall in Hkept. apply String.eqb_neq. by apply Hkept.
    - destruct Hrest as [-> | (x & r & -> & Hx)]; [by left |].
      right. exists x, r. split; [done |]. by apply String.eqb_eq. }
  split; [exact Htotal |]. split; [rewrite Hmore; apply Z.ltb_lt |]. split.
  { intros Hpos. rewrite Hpage. unfold LogService.slice0.
    by rewrite (proj2 (Z.leb_le _ _) Hpos). }
  intros Hneg. rewrite Hpage. unfold LogService.slice0.
  rewrite (proj2 (Z.leb_gt _ _) Hneg), length_reverse.
  symmetry. apply reverse_drop.
Qed.

(** A buffer of two console lines, searched for a text that only the second
    contains. *)
Lemma X26_witness :
  LogService.p_logs (LogService.getLogs (λ s, s) searchMessage demoLogs)
    = [entryOf 2 clientLine] ∧
  LogService.total (LogService.getLogs (λ s, s) searchMessage demoLogs) = 1%nat ∧
  LogService.hasMore (LogService.getLogs (λ s, s) searchMessage demoLogs) = false.
Proof.
  destruct (X26_getLogs_page (λ s, s) searchMessage demoLogs)
    as (selected & Hsel & Htotal & Hmore & Hpage & _).
  cbn [LogService.o_beforeId searchMessage] in Hsel. subst selected.
  split; [rewrite Hpage by (vm_compute; discriminate); vm_compute; reflexivity |].
  split; [rewrite Htotal; vm_compute; reflexivity |].
  apply not_true_is_false. rewrite Hmore. vm_compute. discriminate.
Defined.

Lemma filtered_beforeId (toLowerCase : string → string) (options : LogService.Options)
    (st : LogService.Store) (b : string) :
  truthy_string (LogService.o_beforeId options) = None → b ≠ ""%string →
  let all := LogService.filtered toLowerCase options st in
  LogService.filtered toLowerCase
    {| LogService.o_level := LogService.o_level options;
       LogService.o_source := LogService.o_source options;
       LogService.o_search := LogService.o_search options;
       LogService.o_limit := LogService.o_limit options;
       LogService.o_beforeId := Some b |} st
  = match LogService.findIndex (λ log, String.eqb (LogService.id log) b) all with
    | Some beforeIndex => take beforeIndex all
    | None => all
    end.
Proof.
  intros Hnone Hb all. unfold all, LogService.filtered.
  cbn [LogService.o_level LogService.o_source LogService.o_search LogService.o_beforeId].
  rewrite Hnone. cbn [truthy_string]. by rewrite (proj2 (String.eqb_neq _ _) Hb).
Qed.

(** X27.  Paging with [beforeId].  When the ids in the buffer are distinct
    and a page (requested without [beforeId]) ends with the entry [e], the
    request for the same filters with [beforeId] the id of [e] selects
    exactly the entries older than that page: the two selections joined are
    the whole newest-first list, the new total is the old one less the
    length of the page, and no entry of the next page was on the first. *)
Theorem X27_next_page (toLowerCase : string → string) (options : LogService.Options)
    (st : LogService.Store) (l : list LogService.LogEntry) (e : LogService.LogEntry) :
  NoDup (LogService.id <$> LogService.logs st) →
  truthy_string (LogService.o_beforeId options) = None →
  LogService.p_logs (LogService.getLogs toLowerCase options st) = l ++ [e] →
  LogService.id e ≠ ""%string →
  let next := LogService.getLogs toLowerCase (pageBefore e options) st in
  reverse (LogService.filtered toLowerCase options st)
    = (l ++ [e]) ++ reverse (LogService.filtered toLowerCase (pageBefore e options) st) ∧
  LogService.total next
    = (LogService.total (LogService.getLogs toLowerCase options st) - length (l ++ [e]))%nat ∧
  LogService.p_logs next
    = LogService.slice0 (effectiveLimit options)
        (drop (length (l ++ [e])) (reverse (LogService.filtered toLowerCase options st))) ∧
  (∀ e', e' ∈ LogService.p_logs next → e' ∉ l ++ [e]).
Proof.
  intros Hnd Hnone Hpage Hid next.
  set (all := LogService.filtered toLowerCase options st) in *.
  destruct (filtered_spec toLowerCase options st) as [Hsub _]. fold all in Hsub.
  assert (Hnd' : NoDup (LogService.id <$> all)).
  { eapply sublist_NoDup; [exact Hnd |]. by apply fmap_sublist. }
  assert (Hprefix : ∃ m, l ++ [e] = take m (reverse all)).
  { rewrite <- Hpage. unfold LogService.getLogs, LogService.slice0.
    cbn [LogService.p_logs]. fold all. by destruct (0 <=? _); eexists. }
  destruct Hprefix as [m Hm].
  set (rest := drop m (reverse all)).
  assert (Hsplit : reverse all = (l ++ [e]) ++ rest).
  { rewrite Hm. unfold rest. by rewrite take_drop. }
  assert (Hall : all = reverse rest ++ e :: reverse l).
  { rewrite <- (reverse_involutive all), Hsplit.
    by rewrite (reverse_app (l ++ [e])), reverse_app, reverse_singleton. }
  assert (Holder : Forall (λ x, String.eqb (LogService.id x) (LogService.id e) = false)
                     (reverse rest)).
  { apply Forall_forall. intros x Hx. apply String.eqb_neq. intros Heq.
    rewrite Hall, fmap_app, fmap_cons in Hnd'.
    apply NoDup_app in Hnd' as (_ & Hdisj & _).
    apply (Hdisj (LogService.id x)); [by apply list_elem_of_fmap_2 |].
    rewrite Heq. apply list_elem_of_here. }
  assert (Hnext : LogService.filtered toLowerCase (pageBefore e options) st = reverse rest).
  { unfold pageBefore. rewrite filtered_beforeId by done. fold all. rewrite Hall.
    rewrite (findIndex_first _ (reverse rest) (reverse l) e Holder (String.eqb_refl _)).
    by rewrite take_app_length. }
  assert (Hrest : rest = drop (length (l ++ [e])) (reverse all)).
  { rewrite Hsplit. by rewrite drop_app_length. }
  split; [by rewrite Hnext, reverse_involutive |]. split.
  { unfold next, LogService.getLogs. cbn [LogService.total]. fold all.
    rewrite Hnext, reverse_involutive, Hrest, length_drop. done. }
  split.
  { unfold next, LogService.getLogs. cbn [LogService.p_logs].
    rewrite Hnext, reverse_involutive, <- Hrest. done. }
  intros e' He' Hin.
  assert (Hin_rest : e' ∈ rest).
  { unfold next, LogService.getLogs, LogService.slice0 in He'. cbn [LogService.p_logs] in He'.
    rewrite Hnext, reverse_involutive in He'.
    destruct (0 <=? _); (eapply elem_of_sublist; [exact He' | apply sublist_take]). }
  assert (Hnd'' : NoDup (reverse all)) .
  { rewrite reverse_Permutation. eapply (NoDup_fmap_1 LogService.id). exact Hnd'. }
  rewrite Hsplit in Hnd''. apply NoDup_app in Hnd'' as (_ & Hdisj & _).
  by apply (Hdisj e').
Qed.

Lemma X27_witness :
  reverse (LogService.filtered (λ s, s) onePerPage demoLogs)
  = ([] ++ [entryOf 2 clientLine])
    ++ reverse (LogService.filtered (λ s, s) (pageBefore (entryOf 2 clientLine) onePerPage)
                  demoLogs).
Proof.
  apply (X27_next_page (λ s, s) onePerPage demoLogs [] (entryOf 2 clientLine)).
  - assert (Hids : LogService.id <$> LogService.logs demoLogs
                   = ["log-1-7"; "log-2-9"]%string) by (vm_compute; reflexivity).
    rewrite Hids. apply NoDup_cons.
    split; [rewrite list_elem_of_singleton; discriminate | apply NoDup_singleton].
  - reflexivity.
  - vm_compute. reflexivity.
  - vm_compute. discriminate.
Defined.

(** ** Statistics *)

Lemma statsAfter_snoc (n : nat) (l : list LogService.LogEntry) (x : LogService.LogEntry) :
  statsAfter n (l ++ [x]) = LogService.countLog (statsAfter n l) x.
Proof. unfold statsAfter. by rewrite foldl_app. Qed.

Lemma statsAfter_levels (n : nat) (l : list LogService.LogEntry) (lvl : LogService.LogLevel) :
  levelCount lvl (LogService.byLevel (statsAfter n l))
  = Z.of_nat (length (filter (λ e, LogService.level e = lvl) l)).
Proof.
  induction l as [|x l IH] using rev_ind; [by destruct lvl |].
  rewrite statsAfter_snoc, filter_app, length_app, Nat2Z.inj_add, <- IH.
  cbn [LogService.countLog LogService.byLevel].
  rewrite filter_cons, filter_nil.
  destruct (decide (LogService.level x = lvl)) as [<-|Hne].
  - destruct (LogService.level x); cbn; lia.
  - destruct (LogService.level x), lvl; cbn; try lia; done.
Qed.

Lemma bumpSource_ne (s src : string) (o : gmap string LogService.SourceCount) :
  s ≠ src → LogService.bumpSource s o !! src = o !! src.
Proof.
  intros Hne. unfold LogService.bumpSource.
  destruct (o !! s) as [[n|ones]|]; [by rewrite lookup_insert_ne..|].
  destruct (String.eqb s "__proto__"); [done |].
  destruct (bool_decide (s ∈ LogService.inheritedNames)); by rewrite lookup_insert_ne.
Qed.

Lemma statsAfter_sources (n : nat) (l : list LogService.LogEntry) (src : string) :
  LogService.bySource (statsAfter n l) !! src
  = match length (filter (λ e, truthy_string (LogService.source e) = Some src) l) with
    | O => None
    | S k =>
        if String.eqb src "__proto__" then None
        else if bool_decide (src ∈ LogService.inheritedNames)
             then Some (LogService.Spoiled (S k))
             else Some (LogService.Counted (Z.of_nat (S k)))
    end.
Proof.
  induction l as [|x l IH] using rev_ind; [done |].
  rewrite statsAfter_snoc, filter_app, length_app.
  cbn [LogService.countLog LogService.bySource].
  rewrite filter_cons, filter_nil.
  destruct (truthy_string (LogService.source x)) as [s|] eqn:Hs.
  - destruct (decide (Some s = Some src)) as [[= ->]|Hne].
    + cbn [length]. unfold LogService.bumpSource. rewrite IH.
      destruct (length (filter _ l)) as [|k]; cbn [Nat.add].
      * destruct (String.eqb src "__proto__"); [done |].
        destruct (bool_decide (src ∈ LogService.inheritedNames));
          by rewrite lookup_insert_eq.
      * destruct (String.eqb src "__proto__") eqn:Hproto.
        { exact IH. }
        destruct (bool_decide (src ∈ LogService.inheritedNames));
          rewrite lookup_insert_eq; [by rewrite Nat.add_1_r |].
        do 2 f_equal. lia.
    + rewrite bumpSource_ne by congruence. rewrite IH. cbn [length].
      by rewrite Nat.add_0_r.
  - rewrite decide_False by done. rewrite IH. cbn [length]. by rewrite Nat.add_0_r.
Qed.

Lemma statsAfter_times (n : nat) (l : list LogService.LogEntry) :
  l ≠ [] →
  ∃ oldest newest,
    LogService.oldestTimestamp (statsAfter n l) = Some oldest ∧
    LogService.newestTimestamp (statsAfter n l) = Some newest ∧
    (∀ e, e ∈ l → oldest ≤ LogService.timestamp e ≤ newest) ∧
    (∃ e, e ∈ l ∧ LogService.timestamp e = oldest) ∧
    (∃ e, e ∈ l ∧ LogService.timestamp e = newest).
Proof.
  induction l as [|x l IH] using rev_ind; [done |]. intros _.
  rewrite statsAfter_snoc.
  cbn [LogService.countLog LogService.oldestTimestamp LogService.newestTimestamp].
  destruct l as [|y l'].
  - exists (LogService.timestamp x), (LogService.timestamp x).
    split; [done |]. split; [done |]. split.
    + intros e He. apply list_elem_of_singleton in He as ->. lia.
    + split; exists x; (split; [apply list_elem_of_here | done]).
  - destruct (IH ltac:(done)) as (o & nw & -> & -> & Hall & (eo & Heo & Hto) & (en & Hen & Htn)).
    set (l := y :: l') in *.
    exists (if LogService.timestamp x <? o then LogService.timestamp x else o),
           (if nw <? LogService.timestamp x then LogService.timestamp x else nw).
    split; [by destruct (LogService.timestamp x <? o) |].
    split; [by destruct (nw <? LogService.timestamp x) |].
    assert (o ≤ nw) by (specialize (Hall eo Heo); lia).
    split; [|split].
    + intros e He. apply elem_of_app in He as [He|He].
      * specialize (Hall e He).
        destruct (Z.ltb_spec (LogService.timestamp x) o),
                 (Z.ltb_spec nw (LogService.timestamp x)); lia.
      * apply list_elem_of_singleton in He as ->.
        destruct (Z.ltb_spec (LogService.timestamp x) o),
                 (Z.ltb_spec nw (LogService.timestamp x)); lia.
    + destruct (LogService.timestamp x <? o).
      * exists x. split; [apply elem_of_app; right; apply list_elem_of_here | done].
      * exists eo. split; [apply elem_of_app; by left | done].
    + destruct (nw <? LogService.timestamp x).
      * exists x. split; [apply elem_of_app; right; apply list_elem_of_here | done].
      * exists en. split; [apply elem_of_app; by left | done].
Qed.

Lemma level_partition (l : list LogService.LogEntry) :
  (length (filter (λ e, LogService.level e = LogService.Info) l)
   + length (filter (λ e, LogService.level e = LogService.Warn) l)
   + length (filter (λ e, LogService.level e = LogService.Error) l)
   + length (filter (λ e, LogService.level e = LogService.Debug) l))%nat = length l.
Proof.
  induction l as [|x l IH]; [done |]. rewrite !filter_cons.
  destruct (LogService.level x); repeat case_decide; try congruence; cbn [length]; lia.
Qed.

(** X28.  [getLogStats] on any buffer: [total] is the number of entries;
    each level's count is the number of entries of that level, so the four
    counts add up to [total]; and for a non-empty buffer [oldestTimestamp]
    and [newestTimestamp] are the least and the greatest timestamp in it
    (both are null for an empty one).  [bySource] is a plain object: for a
    non-empty source that is not the name of a member of [Object.prototype]
    it has a key exactly when the source occurs, with the number of entries
    of that source; for a source named like one of the inherited functions it
    holds a text instead of a count; and there is never a key for the empty
    source or for [__proto__]. *)
Theorem X28_getLogStats (st : LogService.Store) :
  let stats := LogService.getLogStats st in
  let entries := LogService.logs st in
  let occurrences (src : string) :=
    length (filter (λ e, LogService.source e = Some src) entries) in
  let inherited :=
    ["constructor"; "hasOwnProperty"; "isPrototypeOf"; "propertyIsEnumerable";
     "toLocaleString"; "toString"; "valueOf"; "__defineGetter__"; "__defineSetter__";
     "__lookupGetter__"; "__lookupSetter__"]%string in
  LogService.s_total stats = length entries ∧
  (∀ lvl, levelCount lvl (LogService.byLevel stats)
          = Z.of_nat (length (filter (λ e, LogService.level e = lvl) entries))) ∧
  LogService.n_info (LogService.byLevel stats) + LogService.n_warn (LogService.byLevel stats)
  + LogService.n_error (LogService.byLevel stats)
  + LogService.n_debug (LogService.byLevel stats) = Z.of_nat (LogService.s_total stats) ∧
  (∀ src, src ≠ ""%string → src ≠ "__proto__"%string → src ∉ inherited →
          LogService.bySource stats !! src
          = match occurrences src with
            | O => None
            | S k => Some (LogService.Counted (Z.of_nat (S k)))
            end) ∧
  (∀ src, src ∈ inherited →
          LogService.bySource stats !! src
          = match occurrences src with
            | O => None
            | S k => Some (LogService.Spoiled (S k))
            end) ∧
  LogService.bySource stats !! ""%string = None ∧
  LogService.bySource stats !! "__proto__"%string = None ∧
  (entries = [] → LogService.oldestTimestamp stats = None ∧
                  LogService.newestTimestamp stats = None) ∧
  (entries ≠ [] →
     ∃ oldest newest,
       LogService.oldestTimestamp stats = Some oldest ∧
       LogService.newestTimestamp stats = Some newest ∧
       (∀ e, e ∈ entries → oldest ≤ LogService.timestamp e ≤ newest) ∧
       (∃ e, e ∈ entries ∧ LogService.timestamp e = oldest) ∧
       (∃ e, e ∈ entries ∧ LogService.timestamp e = newest)).
Proof.
  intros stats entries occurrences inherited.
  change stats with (statsAfter (length entries) entries).
  assert (Htotal : ∀ n l, LogService.s_total (statsAfter n l) = n).
  { intros n l. induction l as [|x l IH] using rev_ind; [done |].
    by rewrite statsAfter_snoc. }
  assert (Hocc : ∀ src, src ≠ ""%string →
            length (filter (λ e, truthy_string (LogService.source e) = Some src) entries)
            = occurrences src).
  { intros src Hsrc. unfold occurrences. f_equal. apply list_filter_iff. intros e.
    unfold truthy_string. destruct (LogService.source e) as [s|]; [|done].
    destruct (String.eqb_spec s ""); [|done]. subst s. split; [done |].
    intros [= <-]. done. }
  split; [apply Htotal |]. split; [apply statsAfter_levels |]. split.
  { rewrite Htotal.
    pose proof (statsAfter_levels (length entries) entries LogService.Info) as H1.
    pose proof (statsAfter_levels (length entries) entries LogService.Warn) as H2.
    pose proof (statsAfter_levels (length entries) entries LogService.Error) as H3.
    pose proof (statsAfter_levels (length entries) entries LogService.Debug) as H4.
    cbn [levelCount] in H1, H2, H3, H4. rewrite H1, H2, H3, H4.
    pose proof (level_partition entries). lia. }
  split.
  { intros src Hne Hproto Hin. rewrite statsAfter_sources, (Hocc src Hne).
    destruct (occurrences src) as [|k]; [done |].
    rewrite (proj2 (String.eqb_neq _ _) Hproto).
    by rewrite bool_decide_eq_false_2. }
  split.
  { intros src Hin.
    assert (Hne : src ≠ ""%string).
    { intros ->. revert Hin. apply (bool_decide_eq_false_1 _). vm_compute. reflexivity. }
    assert (Hproto : src ≠ "__proto__"%string).
    { intros ->. revert Hin. apply (bool_decide_eq_false_1 _). vm_compute. reflexivity. }
    rewrite statsAfter_sources, (Hocc src Hne).
    destruct (occurrences src) as [|k]; [done |].
    rewrite (proj2 (String.eqb_neq _ _) Hproto).
    by rewrite bool_decide_eq_true_2. }
  split.
  { rewrite statsAfter_sources.
    rewrite filter_none; [done |].
    intros e _. unfold truthy_string.
    destruct (LogService.source e) as [s|]; [|done].
    destruct (String.eqb s "") eqn:Hs; [done |]. intros [= ->]. done. }
  split.
  { rewrite statsAfter_sources. by destruct (length _). }
  split; [by intros -> |]. apply statsAfter_times.
Qed.

(** A buffer with two entries of source [Device] and two of source
    [toString]. *)
Lemma X28_witness :
  LogService.bySource (LogService.getLogStats mixedSources) !! "Device"%string
    = Some (LogService.Counted 2) ∧
  LogService.bySource (LogService.getLogStats mixedSources) !! "toString"%string
    = Some (LogService.Spoiled 2).
Proof.
  destruct (X28_getLogStats mixedSources) as (_ & _ & _ & Hcount & Hspoiled & _).
  split.
  - apply (Hcount "Device"%string); [done | done |].
    apply (bool_decide_eq_false_1 _). vm_compute. reflexivity.
  - apply (Hspoiled "toString"%string).
    apply (bool_decide_unpack _). vm_compute. exact I.
Defined.

(** * The logger *)

Lemma append_cons (a : Ascii.ascii) (s t : string) : String a s +:+ t = String a (s +:+ t).
Proof. reflexivity. Qed.

Lemma append_nil_l (t : string) : "" +:+ t = t.
Proof. reflexivity. Qed.

Lemma upToBracket_closed (s rest : string) :
  noBracket s = true →
  Logger.upToBracket (s +:+ "]" +:+ rest) = (s, true).
Proof.
  induction s as [|a s IH]; intros Hs; [done |].
  cbn [noBracket] in Hs. apply andb_true_iff in Hs as [Ha Hs].
  rewrite append_cons. cbn [Logger.upToBracket]. apply negb_true_iff in Ha. rewrite Ha.
  by rewrite (IH Hs).
Qed.

Lemma upToBracket_inv (r inner : string) :
  Logger.upToBracket r = (inner, true) →
  noBracket inner = true ∧ ∃ rest, r = inner +:+ "]" +:+ rest.
Proof.
  revert inner. induction r as [|a r IH]; intros inner; cbn [Logger.upToBracket]; [done |].
  destruct (String.eqb (String a "") "]") eqn:Ha.
  - intros [= <-]. split; [done |]. exists r. apply String.eqb_eq in Ha.
    injection Ha as ->. done.
  - destruct (Logger.upToBracket r) as [inner' closed] eqn:Hr. intros [= <- ->].
    destruct (IH inner' eq_refl) as [Hno [rest ->]].
    split; [cbn [noBracket]; by rewrite Ha |]. by exists rest.
Qed.

(** X29.  The logger.  [extractSource] returns a tag exactly for messages
    of the form ["[" tag "]" rest] with a non-empty tag that contains no
    ["]"], and then returns that tag.  Every wrapped console method appends
    one entry to the log buffer, as its newest: the level is the method's
    ([log] and [info] both store [info]), the message is the rendered
    arguments joined by single spaces, the id comes from the next counter
    value, there is no metadata, and the source is the message's leading tag
    when it has one, whatever the stack says, and the stack's source
    otherwise. *)
Theorem X29_logger :
  (∀ tag rest, tag ≠ ""%string → noBracket tag = true →
     Logger.extractSource ("[" +:+ tag +:+ "]" +:+ rest) = Some tag) ∧
  (∀ message tag, Logger.extractSource message = Some tag →
     tag ≠ ""%string ∧ noBracket tag = true ∧
     ∃ rest, message = "[" +:+ tag +:+ "]" +:+ rest) ∧
  (∀ method args stackSource idNow now st,
     let message := String.concat " " (Logger.render <$> args) in
     let st' := Logger.console method args stackSource idNow now st in
     last (LogService.logs st')
       = Some {| LogService.id := LogService.newId (S (LogService.logIdCounter st)) idNow;
                 LogService.timestamp := now;
                 LogService.level := Logger.levelOf method;
                 LogService.message := message;
                 LogService.source := match Logger.extractSource message with
                                      | Some tag => Some tag
                                      | None => stackSource
                                      end;
                 LogService.metadata := None |} ∧
     LogService.logIdCounter st' = S (LogService.logIdCounter st) ∧
     (Logger.levelOf method = LogService.Info
      ↔ method = Logger.log ∨ method = Logger.info)).
Proof.
  split; [|split].
  - intros tag rest Hne Hno. unfold Logger.extractSource.
    rewrite append_cons, append_nil_l. cbv iota. rewrite String.eqb_refl.
    rewrite upToBracket_closed by done. by rewrite (proj2 (String.eqb_neq _ _) Hne).
  - intros message tag. unfold Logger.extractSource.
    destruct message as [|a r]; [done |].
    destruct (String.eqb (String a "") "[") eqn:Ha; [|done].
    destruct (Logger.upToBracket r) as [inner closed] eqn:Hr.
    destruct closed; [|done].
    destruct (String.eqb inner "") eqn:Hinner; [done |]. intros [= <-].
    destruct (upToBracket_inv r inner Hr) as [Hno [rest ->]].
    split; [by apply String.eqb_neq |]. split; [done |]. exists rest.
    apply String.eqb_eq in Ha. injection Ha as ->. done.
  - intros method args stackSource idNow now st message st'. split; [|split].
    + unfold st', Logger.console, Logger.logToStore, LogService.addLog.
      cbn [LogService.logs]. fold message.
      destruct (LogService.logs st) as [|x l].
      * reflexivity.
      * cbn [app]. destruct (LogService.MAX_LOGS <? _); cbn [tail];
          [apply last_snoc | rewrite app_comm_cons; apply last_snoc].
    + reflexivity.
    + destruct method; cbn; split; try done; try (by left); try (by right);
        by intros [|].
Qed.

(** * The client keep-alive sweep *)

(** The object and the socket of handle [h] after the loop body has run for
    [h']. *)
Lemma pingClient_at (h h' : nat) (now : Z) (p : ClientProxy) :
  (∀ h0 c0, clientObjs p !! h0 = Some c0 → cc_ws c0 = h0) →
  clientObjs (pingClient h' now p) !! h
    = (if decide (h' = h)
       then (λ c, if MAX_MISSED_PONGS <? missedPongs c + 1
                  then client_missed c else client_pingStart now (client_missed c))
            <$> clientObjs p !! h
       else clientObjs p !! h) ∧
  csockets (pingClient h' now p) !! h
    = (if decide (h' = h)
       then match clientObjs p !! h with
            | Some c => (if MAX_MISSED_PONGS <? missedPongs c + 1
                         then ws_terminate else ws_ping) <$> csockets p !! h
            | None => csockets p !! h
            end
       else csockets p !! h).
Proof.
  intros Hown. unfold pingClient. destruct (clientObjs p !! h') as [c'|] eqn:Hc'.
  - pose proof (Hown h' c' Hc') as Hws.
    change (missedPongs (client_missed c')) with (missedPongs c' + 1).
    destruct (decide (h' = h)) as [<-|Hne].
    + rewrite Hc'. destruct (MAX_MISSED_PONGS <? missedPongs c' + 1) eqn:Hm; simpl;
        rewrite lookup_insert_eq, Hws, lookup_alter_eq, Hm; done.
    + destruct (MAX_MISSED_PONGS <? missedPongs c' + 1); simpl;
        rewrite lookup_insert_ne, Hws, lookup_alter_ne by done; done.
  - destruct (decide (h' = h)) as [<-|Hne]; [by rewrite Hc' | done].
Qed.

Lemma pingClient_own (h : nat) (now : Z) (p : ClientProxy) :
  (∀ h0 c0, clientObjs p !! h0 = Some c0 → cc_ws c0 = h0) →
  ∀ h0 c0, clientObjs (pingClient h now p) !! h0 = Some c0 → cc_ws c0 = h0.
Proof.
  intros Hown h0 c0. destruct (pingClient_at h0 h now p Hown) as [-> _].
  destruct (decide (h = h0)) as [<-|Hne]; [|apply Hown].
  destruct (clientObjs p !! h) as [c|] eqn:Hc; [|discriminate].
  intros [= <-].
  destruct (MAX_MISSED_PONGS <? missedPongs c + 1); change (cc_ws c = h); by apply Hown.
Qed.

Lemma client_sweep_at (l : list (string * nat)) (now : Z) (p : ClientProxy) (h : nat) :
  (∀ h0 c0, clientObjs p !! h0 = Some c0 → cc_ws c0 = h0) →
  NoDup l.*2 →
  let p' := foldl (λ acc e, pingClient e.2 now acc) p l in
  clientObjs p' !! h
    = (if decide (h ∈ l.*2)
       then (λ c, if MAX_MISSED_PONGS <? missedPongs c + 1
                  then client_missed c else client_pingStart now (client_missed c))
            <$> clientObjs p !! h
       else clientObjs p !! h) ∧
  csockets p' !! h
    = (if decide (h ∈ l.*2)
       then match clientObjs p !! h with
            | Some c => (if MAX_MISSED_PONGS <? missedPongs c + 1
                         then ws_terminate else ws_ping) <$> csockets p !! h
            | None => csockets p !! h
            end
       else csockets p !! h).
Proof.
  revert p. induction l as [|[sid' h'] l IH]; intros p Hown Hnd; [done |].
  cbn [foldl fmap list_fmap snd] in *. apply NoDup_cons in Hnd as [Hnotin Hnd].
  destruct (IH (pingClient h' now p) (pingClient_own h' now p Hown) Hnd) as [-> ->].
  destruct (pingClient_at h h' now p Hown) as [-> ->].
  destruct (decide (h' = h)) as [<-|Hne].
  - destruct (decide (h' ∈ l.*2)) as [Hin|_]; [done |].
    destruct (decide (h' ∈ h' :: l.*2)) as [_|Hout]; [done |].
    exfalso. apply Hout, list_elem_of_here.
  - destruct (decide (h ∈ l.*2)) as [Hin|Hout].
    + destruct (decide (h ∈ h' :: l.*2)) as [_|Hout]; [done |].
      exfalso. by apply Hout, list_elem_of_further.
    + destruct (decide (h ∈ h' :: l.*2)) as [Hin|_]; [|done].
      exfalso. apply elem_of_cons in Hin as [Heq|Hin]; [by apply Hne | by apply Hout].
Qed.

Lemma session_handles_NoDup (p : ClientProxy) :
  proxyWF p → NoDup (map_to_list (clients p)).*2.
Proof.
  intros (Hreg & _). apply NoDup_fmap_2_strong; [|apply NoDup_map_to_list].
  intros [sid1 h1] [sid2 h2] H1 H2 Heq. simpl in Heq. subst h2.
  apply elem_of_map_to_list in H1, H2.
  destruct (Hreg sid1 h1 H1) as (c1 & Hc1 & Hid1 & _).
  destruct (Hreg sid2 h1 H2) as (c2 & Hc2 & Hid2 & _). congruence.
Qed.

(** X30.  One sweep of [pingAllClients] in any state the event loop can
    reach.  Every registered client has [missedPongs] raised by exactly one.
    If the new count is at most 2 the ping time is recorded and the socket
    pinged, and a pong at time [t] then resets the count, records the round
    trip [t - now] and counts one more ping; if the new count exceeds 2 the
    socket is terminated instead and is not open afterwards.  The session
    table is unchanged and a socket that is not in it is neither counted nor
    pinged. *)
Theorem X30_client_ping_sweep (store : CredentialStore) (evs : list (Z * Event)) (now : Z) :
  let p := proxy (run store evs initial) in
  let p' := pingAllClients now p in
  clients p' = clients p ∧
  (∀ sid h c, clients p !! sid = Some h → clientObjs p !! h = Some c →
     ∃ c', clientObjs p' !! h = Some c' ∧ missedPongs c' = missedPongs c + 1 ∧
       (missedPongs c + 1 ≤ MAX_MISSED_PONGS →
          pingStartTime c' = Some now ∧
          csockets p' !! h = ws_ping <$> csockets p !! h ∧
          ∀ t, ∃ c'', clientObjs (clientPongHandler h t p') !! h = Some c'' ∧
                      missedPongs c'' = 0 ∧ lastActivity c'' = t ∧
                      lastPingRTT (metrics c'') = Some (t - now) ∧
                      pingCount (metrics c'') = pingCount (metrics c) + 1 ∧
                      pingStartTime c'' = None) ∧
       (MAX_MISSED_PONGS < missedPongs c + 1 →
          pingStartTime c' = pingStartTime c ∧
          csockets p' !! h = ws_terminate <$> csockets p !! h ∧
          sock_open (csockets p') h = false)) ∧
  (∀ h, (∀ sid, clients p !! sid ≠ Some h) →
     clientObjs p' !! h = clientObjs p !! h ∧ csockets p' !! h = csockets p !! h).
Proof.
  intros p p'. pose proof (run_proxyWF store evs) as Hwf. fold p in Hwf.
  assert (Hown : ∀ h0 c0, clientObjs p !! h0 = Some c0 → cc_ws c0 = h0).
  { intros h0 c0 Hc0. destruct Hwf as (_ & Hobj & _). by destruct (Hobj h0 c0 Hc0). }
  assert (Hin : ∀ h, h ∈ (map_to_list (clients p)).*2 ↔ ∃ sid, clients p !! sid = Some h).
  { intros h. rewrite list_elem_of_fmap. split.
    - intros ([sid h'] & -> & Hel). exists sid. by apply elem_of_map_to_list in Hel.
    - intros [sid Hh]. exists (sid, h). split; [done |]. by apply elem_of_map_to_list. }
  split; [by destruct (pingAllClients_keeps now p) as (Hc & _) |]. split.
  - intros sid h c Hh Hc.
    destruct (client_sweep_at (map_to_list (clients p)) now p h Hown
                (session_handles_NoDup p Hwf)) as [Hobj Hsock].
    fold (pingAllClients now p) in Hobj, Hsock. fold p' in Hobj, Hsock.
    destruct (decide (h ∈ (map_to_list (clients p)).*2)) as [_|Hout];
      [|exfalso; apply Hout, Hin; by exists sid].
    rewrite Hc in Hobj, Hsock. cbn [fmap option_fmap option_map] in Hobj.
    eexists. split; [exact Hobj |]. split; [by destruct (MAX_MISSED_PONGS <? _) |]. split.
    + intros Hle. rewrite (proj2 (Z.ltb_ge _ _) Hle) in Hsock |- *.
      split; [done |]. split; [exact Hsock |]. intros t.
      unfold clientPongHandler. cbn [clientObjs set_clientObjs].
      rewrite lookup_alter_eq, Hobj, (proj2 (Z.ltb_ge _ _) Hle).
      cbn [fmap option_fmap option_map]. eexists. split; [reflexivity |]. done.
    + intros Hlt. rewrite (proj2 (Z.ltb_lt _ _) Hlt) in Hsock |- *.
      split; [done |]. split; [exact Hsock |].
      unfold sock_open. rewrite Hsock. destruct (csockets p !! h) as [s|]; [|done].
      simpl. unfold ws_terminate, is_open. by destruct (readyState s) eqn:Hs; simpl; rewrite ?Hs.
  - intros h Hnone.
    destruct (client_sweep_at (map_to_list (clients p)) now p h Hown
                (session_handles_NoDup p Hwf)) as [Hobj Hsock].
    fold (pingAllClients now p) in Hobj, Hsock. fold p' in Hobj, Hsock.
    destruct (decide (h ∈ (map_to_list (clients p)).*2)) as [Hel|_]; [|done].
    exfalso. apply Hin in Hel as [sid Hh]. by apply (Hnone sid).
Qed.
